(* ===== verification/_CoqProject ===== *)
-Q . S2P
Prelude.v
Host.v
GoStrings.v
GoNet.v
GoText.v
NetEnv.v
NetHooks.v
GoCIDR.v
GoScan.v
MuxedConn.v
Mux.v
MuxSetup.v
UniversalMux.v
WgConfigurer.v
Ebpf.v
WgProxy.v
Stdnet.v
SharedSock.v
RawMux.v
Xdp.v
Stubs.v
KernelModules.v
Freebsd.v
DeviceWrapper.v
Servers.v
Tun.v
TunLink.v
Platforms.v
GoJson.v
GoJsonText.v
Files.v
GoResolve.v
Config.v
Signal.v
Exchange.v
PeerConn.v
Engine.v
Client.v
System.v
Main.v
