(* ===== verification/Prelude.v ===== *)
(** * punch: a verification library for the WireGuard hole-punching client

    punch connects WireGuard peers that are behind NATs. A client logs in with a
    rendezvous server ([src/signal/]), which records the address it sees, and
    polls it for the other clients of its token; every peer it is told of is
    configured in WireGuard with the address the server saw
    ([src/client/internal/]). The WireGuard interface ([src/iface/]) is the
    kernel's, a wireguard-go device, or a network stack in the process; one UDP
    socket is shared by WireGuard, the STUN servers' answers and the ICE agents
    of all peers, through the mux of [src/iface/bind/], or through the raw
    socket of [src/sharedsock/] when the kernel has WireGuard's port. The
    program is modelled as functions on explicit states; what it does not
    contain is a parameter, as a class with the documented behaviour as laws.

    ** The files, and the code they model

    Shared by all:
    - Prelude.v: Go errors and outcomes ([res]: a value, an error, a panic),
      bytes, wrap-around at 64 bits, maps, reachability.
    - Host.v: computations with a state that is kept on errors, and calls on the
      operating system as a log and an oracle.
    - GoStrings.v, GoText.v, GoNet.v, GoCIDR.v, GoScan.v, GoResolve.v, GoJson.v,
      GoJsonText.v: what the sources use of [strings], [strconv], [bufio],
      [path/filepath], [net], [fmt.Sscanf], [encoding/hex] and [encoding/json],
      executable, with their round trips. GoCIDR.v has [iface/address.go] too.

    The shared socket:
    - MuxedConn.v: [iface/bind/udp_muxed_conn.go]; framing a datagram with its
      address, the queue of one logical connection.
    - Mux.v, MuxSetup.v: [iface/bind/udp_mux.go]; one heap of connections, the
      two maps by ufrag, the map by address. Every method is a function, and
      [step] is the interleaving of their critical sections. MuxSetup.v is
      [NewUDPMuxDefault] with the walk over the interfaces.
    - UniversalMux.v: [udp_mux_universal.go], [bind.go]; STUN answers, the
      filtering [udpConn], [ICEBind].
    - SharedSock.v: [sharedsock/]; the BPF program run by an interpreter,
      opening, reading and writing raw sockets, the two readers. RawMux.v
      composes it with the universal mux: [ReadFromConn].
    - NetEnv.v, NetHooks.v: [util/net/]; marked or protected sockets and their
      hooks on Linux, Android and iOS.
    - Stdnet.v: [client/internal/stdnet/]; the interfaces ICE may use.

    The interface:
    - WgConfigurer.v: [iface/wg_configurer*.go]; the UAPI text and the
      structures of wgctrl, two implementations of the class [Configurer].
    - KernelModules.v: [iface/module_linux.go]. Freebsd.v: [iface/freebsd/],
      [tun_link_freebsd.go]. DeviceWrapper.v: [iface/device_wrapper.go].
    - Servers.v: the SOCKS5 proxy of [iface/netstack/] and the UAPI sockets of
      [iface/tun_*.go], which hand their connections to libraries.
    - Tun.v: the three devices of Linux and FreeBSD ([tun_kernel_unix.go],
      [tun_usp_unix.go], [tun_netstack.go], [netstack/]), links by netlink as an
      instance of [WgLink], and [WGIface]. TunLink.v: what a created link looks
      like. Platforms.v: the devices of macOS,
      Windows, Android and iOS.

    The client and the server:
    - Ebpf.v: [client/internal/ebpf]; the manager of the XDP program. WgProxy.v:
      [client/internal/wgproxy]; ports of relayed connections, the proxies.
      Xdp.v: the XDP program itself ([prog.c], [dns_fwd.c], [wg_proxy.c]), on
      the bytes of a frame, with the manager that loads it and the proxy whose
      datagrams it redirects.
    - Files.v: [util/file.go], [common.go], [retry.go]. Config.v:
      [client/internal/config.go] over them.
    - Signal.v: [signal/], against the class [PeerDB]. Exchange.v:
      [client/internal/exchange.go], composed with Signal.v.
    - PeerConn.v: [client/internal/peer/]. Engine.v: [engine.go], the polling
      and the workers. Client.v: [connect.go] and the starting and stopping of
      the engine, over Exchange.v, KernelModules.v, Tun.v and WgProxy.v.
    - System.v: many clients and one server, a step for every datagram read,
      handler run, start, poll and open; the two halves of the program composed,
      with the server of Signal.v, whose handlers share a buffer ([serve]).
    - Stubs.v: what the other platforms have instead, and the surroundings of a
      process ([util/membership_*.go], [util/syslog_*.go]).
    - Main.v: the program started from a command line ([client/main.go],
      [signal/main.go]).

    ** What the theorems show

    - From end to end: one answered poll is enough for a client to have asked for
      every other client of its token ([System.everybody_connects]), and it only
      asks for those ([System.peers_share_token]), on an invariant of the runs of
      clients and server in which no datagram is read while a handler waits; what a client's login makes another client ask WireGuard
      for ([Engine.poll_configures_peers]), on the round trip between client and
      server ([Exchange.rendezvous_roundtrip]), on the server's table as a map
      ([Signal.GetClients_lists_others]); what the retry loop leaves behind
      ([Client.run_leaves]); a restarted
      client is the same peer ([Main.restart_keeps_identity]).
    - Relayed connections: what WireGuard sends to an endpoint passes the XDP
      program and the proxy to that endpoint's connection, and back
      ([Xdp.relay_end_to_end]).
    - Types: what crosses the network is what the other side parses, at every
      state those runs reach ([System.exchanges_are_typed]).
    - The mux: an invariant of every interleaving ([Mux.mux_reachable]), what
      a write hands to the socket and registers
      ([Mux.conn_WriteTo_registers]; lemmas such as [conn_WriteTo_run] show the
      methods to be runs of the step relation), who gets
      a message ([Mux.destinations_iff], [Mux.HandleSTUNMessage_delivery]), and
      that what is written to a connection is read from it
      ([MuxedConn.muxed_conn_fifo]). Waiters for a STUN answer are all woken, by
      induction on the runs ([UniversalMux.stun_answer_wakes_all]).
    - WireGuard's configuration: the text the userspace device is sent
      ([WgConfigurer.toWgUserspaceString_lines]) and how its own is read back
      ([WgConfigurer.findPeerInfo_reads_section],
      [WgConfigurer.removeAllowedIP_sends_others]); that both configurers refine
      one specification is the lemma [configurers_agree].
    - Resources: what sessions over every device can leave behind, whichever
      calls fail, closing ones too, and that nothing stays when none fails, but
      for the SOCKS5 listener ([Tun.session_releases],
      [Platforms.platform_session_releases]); a created link is configured as
      asked ([TunLink.create_configures_link]); files are replaced whole or not
      at all ([Files.WriteJson_atomic]).
    - Filters and parsers: the BPF program ([SharedSock.stun_filter_accepts]),
      the packet filter, the module files, the text of a mobile platform, the
      configuration file.
    - Termination and bounds: [WgProxy.nextFreePort_first_free], the in-bounds
      writes under [MuxedConn.muxed_conn_fifo], and the lengths that are not
      checked ([RawMux.claimed_length_panics]).
    Several theorems state what the code does and was not meant to: a close that
    never ends ([PeerConn.Close_deadlocks]), workers and pollers that are never
    ended ([Engine.workers_accumulate], [Client.run_leaves]), handlers that share
    a buffer and answer another token's clients
    ([System.answers_cross_tokens]), a program that reads its ports once
    ([Xdp.settings_are_read_once]).

    ** Bounds and fuel

    A port search takes as fuel the ports there are: 65535 rounds in
    [nextFreePort], 65536 less the first port in [freePort], the 101 ports of
    [searchFreePort]. [json_parse] has twice the length of the text plus two:
    every value takes a byte. Eight groups bound the IPv6 parser and nine the
    printer. [bpf_exec] has the length of the program, whose jumps go forward;
    [strip_exts] the length of the name; the loop of [DeviceWrapper.Read] the
    packets left. [Retry] is bounded by its attempts. A scanner's line is at most
    65536 bytes, as in [bufio]. Where a loop has fuel it is shown to be enough or
    every value of it is covered. Integers are Z with their range stated, ports
    reduced modulo 65536 and durations modulo 64 bits where the code does so.

    ** Parameters

    pion's packet buffer, STUN and ICE libraries ([PacketBuffer], [StunLib],
    [NetworkTypes]); gopacket; sockets, routing and name lookup; wgctrl, its keys
    and wireguard-go ([WgTypes], [UapiDevice], [KernelCtl]); the kernel, its
    modules and cilium/ebpf ([KernelHost], [BpfKernel]); netlink, [ifconfig],
    the Windows API and the mobile apps as calls that may fail ([TunEnv],
    [Exec], [TunAdapter]); gorm ([PeerDB], whose laws are those of a table);
    cenkalti/backoff ([Backoff]); time, random draws, the environment and the
    file system as oracles. Each theorem that uses laws has a witness with an
    instance that has them.

    ** Not modelled

    Generated code ([bpf_bpfel.go], [bpf_bpfeb.go]) and the example program of
    [sharedsock/]; log messages; what the SOCKS5 library and wireguard-go's UAPI
    do with a connection; [parseURL] and the JSON durations, which nothing uses,
    and which would need [net/url] and floating point. Goroutines are
    interleaved at the granularity of critical sections and channel operations,
    sequential consistency assumed; logging is left out. The text of addresses
    covers IPv4 and IPv6 without zones where the sources print none, and JSON
    strings are taken to be valid UTF-8. *)
From stdpp Require Export base gmap strings list fin_maps relations numbers.
From Stdlib Require Export ZArith Lia.

Declare Scope go_scope.
Delimit Scope go_scope with go.

Create HintDb punch.
Create Rewrite HintDb punch.

(** ** Errors

    A Go [error] is either a package-level sentinel ([io.ErrClosedPipe],
    [ErrPeerNotFound], ...), compared by identity and named here, a fresh error
    made by [fmt.Errorf]/[errors.New] from a text, or an error wrapped with
    [%w], which [errors.Is] looks through. *)
Inductive error :=
| Sentinel (name : string)
| Errorf (msg : string)
| Wrapf (pre : string) (inner : error) (post : string).

Global Instance error_eq_dec : EqDecision error.
Proof. solve_decision. Defined.

Definition io_ErrClosedPipe : error := Sentinel "io: read/write on closed pipe".
Definition io_ErrShortBuffer : error := Sentinel "short buffer".
Definition io_EOF : error := Sentinel "EOF".

(** [errors.Is]: identity on sentinels, through any number of [%w] wraps. *)
Fixpoint errors_Is (e target : error) : bool :=
  match e with
  | Sentinel n => match target with Sentinel m => bool_decide (n = m) | _ => false end
  | Errorf _ => false
  | Wrapf _ e' _ => errors_Is e' target
  end.

(** The text [err.Error()] shows. *)
Fixpoint error_text (e : error) : string :=
  match e with
  | Sentinel n => n
  | Errorf m => m
  | Wrapf pre e' post => pre +:+ error_text e' +:+ post
  end.

(** ** Outcomes of a Go call

    [Ok] returns normally with a nil error, [Err] returns a non-nil error, and
    [Panic] is a run-time panic: an index or slice bound out of range, a nil
    dereference, a channel closed twice. *)
Inductive res (A : Type) :=
| Ok (a : A)
| Err (e : error)
| Panic.
Global Arguments Ok {A} a.
Global Arguments Err {A} e.
Global Arguments Panic {A}.

Global Instance res_eq_dec {A} `{EqDecision A} : EqDecision (res A).
Proof. solve_decision. Defined.

Global Instance res_ret : MRet res := λ A a, Ok a.
Global Instance res_bind : MBind res := λ A B f m,
  match m with Ok a => f a | Err e => Err e | Panic => Panic end.
Global Instance res_fmap : FMap res := λ A B f m,
  match m with Ok a => Ok (f a) | Err e => Err e | Panic => Panic end.

Definition is_ok {A} (r : res A) : bool := match r with Ok _ => true | _ => false end.
Definition is_panic {A} (r : res A) : bool := match r with Panic => true | _ => false end.

(** [if cond { return err }] *)
Definition check (b : bool) (e : error) : res unit := if b then Ok tt else Err e.

(** An indexing or slicing expression whose bounds the run time checks. *)
Definition or_panic {A} (o : option A) : res A :=
  match o with Some a => Ok a | None => Panic end.

Definition or_err {A} (e : error) (o : option A) : res A :=
  match o with Some a => Ok a | None => Err e end.

(** [fmt.Errorf("pre%w", err)] on the error path. *)
Definition wrap {A} (pre : string) (r : res A) : res A :=
  match r with Err e => Err (Wrapf pre e EmptyString) | _ => r end.

Lemma res_bind_Ok {A B} (f : A → res B) (m : res A) b :
  (m ≫= f) = Ok b ↔ ∃ a, m = Ok a ∧ f a = Ok b.
Proof.
  destruct m as [a| |]; split; [eauto|intros (?&[= <-]&?)|done|by intros (?&?&?)|done|by intros (?&?&?)].
  done.
Qed.

Lemma res_bind_assoc {A B C} (m : res A) (f : A → res B) (g : B → res C) :
  ((m ≫= f) ≫= g) = (m ≫= λ a, f a ≫= g).
Proof. by destruct m. Qed.

(** ** Bytes *)
Abbreviation byte := Ascii.ascii (only parsing).
Abbreviation bytes := (list Ascii.ascii) (only parsing).

Definition byte_of_Z (z : Z) : Ascii.ascii := Ascii.ascii_of_N (Z.to_N (z `mod` 256)).
Definition Z_of_byte (b : Ascii.ascii) : Z := Z.of_N (Ascii.N_of_ascii b).

Lemma Z_of_byte_bounds b : (0 ≤ Z_of_byte b < 256)%Z.
Proof.
  unfold Z_of_byte. pose proof (Ascii.N_ascii_bounded b) as Hb. lia.
Qed.

Lemma Z_of_byte_of_Z z : Z_of_byte (byte_of_Z z) = (z `mod` 256)%Z.
Proof.
  unfold Z_of_byte, byte_of_Z.
  pose proof (Z.mod_pos_bound z 256 ltac:(lia)).
  rewrite Ascii.N_ascii_embedding; lia.
Qed.

Lemma byte_of_Z_of_byte b : byte_of_Z (Z_of_byte b) = b.
Proof.
  unfold byte_of_Z. rewrite Z.mod_small by apply Z_of_byte_bounds.
  unfold Z_of_byte. rewrite N2Z.id. apply Ascii.ascii_N_embedding.
Qed.

Lemma byte_of_Z_inj_mod x y : (x `mod` 256 = y `mod` 256)%Z → byte_of_Z x = byte_of_Z y.
Proof. unfold byte_of_Z. by intros ->. Qed.

(** A byte list is zero everywhere. *)
Definition all_zero (bs : list Ascii.ascii) : bool :=
  forallb (λ b, bool_decide (b = Ascii.zero)) bs.

(** Conversions [[]byte(s)] and [string(bs)]. *)
Abbreviation bytes_of_string := String.list_ascii_of_string.
Abbreviation string_of_bytes := String.string_of_list_ascii.

Lemma bytes_of_string_of_bytes bs : bytes_of_string (string_of_bytes bs) = bs.
Proof. apply String.list_ascii_of_string_of_list_ascii. Qed.
Lemma string_of_bytes_of_string s : string_of_bytes (bytes_of_string s) = s.
Proof. apply String.string_of_list_ascii_of_string. Qed.

Lemma bytes_of_string_app s t :
  bytes_of_string (s +:+ t) = bytes_of_string s ++ bytes_of_string t.
Proof. induction s as [|c s IH]; [done|]. simpl. by rewrite <-IH. Qed.

#[export] Hint Rewrite bytes_of_string_of_bytes string_of_bytes_of_string
  bytes_of_string_app Z_of_byte_of_Z byte_of_Z_of_byte : punch.

(** ** Finite executions of a step relation *)
Section executions.
Context {S : Type} (step : S → S → Prop).

Lemma rtc_invariant (P : S → Prop) :
  (∀ s s', P s → step s s' → P s') → ∀ s s', rtc step s s' → P s → P s'.
Proof. intros Hstep s s' Hrtc. induction Hrtc; eauto. Qed.
End executions.

(** ** Maps and lists the components share *)

(** [delete(m, k)] for every key of a list, as the loops over slices do. *)
Definition delete_all {A} (ks : list string) (m : gmap string A) : gmap string A :=
  foldl (λ m k, delete k m) m ks.

Lemma lookup_delete_all {A} ks (m : gmap string A) k :
  delete_all ks m !! k = if decide (k ∈ ks) then None else m !! k.
Proof.
  unfold delete_all. revert m. induction ks as [|k' ks IH]; intros m; cbn [foldl].
  - rewrite decide_False; [done|]. apply not_elem_of_nil.
  - rewrite IH, lookup_delete. repeat case_decide; set_solver.
Qed.

Lemma delete_all_Some {A} ks (m : gmap string A) k a :
  delete_all ks m !! k = Some a ↔ k ∉ ks ∧ m !! k = Some a.
Proof. rewrite lookup_delete_all. case_decide; naive_solver. Qed.

(** A boolean check that evaluates to true over a range holds on the range. *)
Fixpoint all_from (f : Z → bool) (lo : Z) (n : nat) : bool :=
  match n with O => true | S n' => f lo && all_from f (lo + 1) n' end.

Lemma Z_range_check (f : Z → bool) lo n :
  all_from f lo n = true → ∀ z, (lo ≤ z < lo + Z.of_nat n)%Z → f z = true.
Proof.
  revert lo. induction n as [|n IH]; intros lo; cbn [all_from]; [lia|].
  intros [Hlo Hrest]%andb_true_iff z Hz. destruct (decide (z = lo)) as [->|]; [done|].
  apply (IH (lo + 1)%Z Hrest). lia.
Qed.

(** ** Tactics *)

(** Split the control flow of a translated Go function: every [match], [if] and
    [decide] of the goal, with the contradictory branches discarded. *)
Ltac go_cases :=
  repeat (case_match; simplify_eq/=; try done).

(** The same on a hypothesis that equates a translated call to its outcome. *)
Ltac go_inv H :=
  repeat (
    match type of H with
    | context [match ?x with _ => _ end] => destruct x eqn:?; simplify_eq/=
    | (_ ≫= _) = Ok _ => apply res_bind_Ok in H as (? & ? & H); simplify_eq/=
    end); try done.

(** Decide a closed or bounded fact by evaluation. *)
Ltac by_compute := vm_compute; first [reflexivity | done | lia].

(** ** Chains of early returns *)

(** [if b { continue }] in a loop body that yields one value, or a list. *)
Lemma if_None_Some {A} (b : bool) (o : option A) x :
  (if b then None else o) = Some x ↔ b = false ∧ o = Some x.
Proof. destruct b; naive_solver. Qed.

Lemma if_nil_elem {A} (b : bool) (l : list A) x :
  x ∈ (if b then [] else l) ↔ b = false ∧ x ∈ l.
Proof. destruct b; [|naive_solver]. rewrite elem_of_nil. naive_solver. Qed.

Lemma andb_negb_false (a b : bool) : a && negb b = false ↔ (a = true → b = true).
Proof. destruct a, b; naive_solver. Qed.

(** Filters that keep everything, or nothing. *)
Lemma list_find_ext_in {A} (P Q : A → Prop) `{∀ x, Decision (P x)} `{∀ x, Decision (Q x)} (l : list A) :
  (∀ x, x ∈ l → P x ↔ Q x) → list_find P l = list_find Q l.
Proof.
  induction l as [|a l IH]; intros H1; [done|]. cbn [list_find].
  rewrite (decide_ext (P a) (Q a)) by (apply H1; by left).
  destruct (decide (Q a)); [done|]. rewrite IH; [done|]. intros x Hx. apply H1. by right.
Qed.
Lemma filter_keeps {A} (P : A → Prop) `{∀ x, Decision (P x)} (l : list A) : (∀ x, x ∈ l → P x) → filter P l = l.
Proof.
  induction l as [|a l IH]; [done|]. intros Hl. rewrite filter_cons_True by (apply Hl; left).
  rewrite IH; [done|]. intros x Hx. apply Hl. by right.
Qed.
Lemma filter_drops {A} (P : A → Prop) `{∀ x, Decision (P x)} (l : list A) : (∀ x, x ∈ l → ¬ P x) → filter P l = [].
Proof.
  induction l as [|a l IH]; [done|]. intros Hl. rewrite filter_cons_False by (apply Hl; left).
  apply IH. intros x Hx. apply Hl. by right.
Qed.
