(* ===== verification/Host.v ===== *)
(** * State, errors, and calls on the operating system

    A computation has a state it keeps when it fails, as Go code does that
    returns an error half way. Components that drive the host have for state
    the log of their calls, and what a call answers is a function of the calls
    before it: any behaviour of the host, failures included, is such a
    function. *)
From S2P Require Import Prelude.

Definition ST (S A : Type) : Type := S → res A * S.

Global Instance ST_ret {S} : MRet (ST S) := λ A a s, (Ok a, s).
Global Instance ST_bind {S} : MBind (ST S) := λ A B f m s,
  match m s with
  | (Ok a, s) => f a s
  | (Err e, s) => (Err e, s)
  | (Panic, s) => (Panic, s)
  end.

Section state.
Context {S : Type}.

(** A computation that leaves the state alone. *)
Definition lift {A} (r : res A) : ST S A := λ s, (r, s).

Definition gets {A} (f : S → A) : ST S A := λ s, (Ok (f s), s).
Definition modify (f : S → S) : ST S unit := λ s, (Ok tt, f s).

(** The error a call returned, or its value: for code that looks at it. *)
Definition try {A} (m : ST S A) : ST S (A + error) := λ s,
  match m s with
  | (Ok a, s) => (Ok (inl a), s)
  | (Err e, s) => (Ok (inr e), s)
  | (Panic, s) => (Panic, s)
  end.

(** [return err] *)
Definition untry {A} (r : A + error) : ST S A := lift (match r with inl a => Ok a | inr e => Err e end).

(** [if err := m; err != nil { return fmt.Errorf("pre%w", err) }] *)
Definition wrap_call {A} (pre : string) (m : ST S A) : ST S A := λ s,
  match m s with
  | (Err e, s) => (Err (Wrapf pre e EmptyString), s)
  | r => r
  end.

(** [if err := m; err != nil { undo; return err }] *)
Definition undo_on_error {A} (undo : ST S unit) (m : ST S A) : ST S A := λ s,
  match m s with
  | (Err e, s) => match undo s with
                  | (Panic, s) => (Panic, s)
                  | (_, s) => (Err e, s)
                  end
  | r => r
  end.

(** A computation that keeps an invariant, whatever it returns, and does not
    panic. *)
Definition preserves {A} (I : S → Prop) (m : ST S A) : Prop := ∀ s, I s → I (m s).2 ∧ (m s).1 ≠ Panic.

Lemma preserves_lift {A} I (r : res A) : r ≠ Panic → preserves I (lift r).
Proof. by intros Hr s Hs. Qed.
Lemma preserves_ret {A} I (a : A) : preserves I (mret a).
Proof. by intros s Hs. Qed.
Lemma preserves_gets {A} I (f : S → A) : preserves I (gets f).
Proof. by intros s Hs. Qed.
Lemma preserves_modify I (f : S → S) : (∀ s, I s → I (f s)) → preserves I (modify f).
Proof. intros Hf s Hs. split; [by apply Hf|done]. Qed.
Lemma preserves_bind {A B} I (m : ST S A) (f : A → ST S B) :
  preserves I m → (∀ a, preserves I (f a)) → preserves I (m ≫= f).
Proof.
  intros Hm Hf s Hs. unfold mbind, ST_bind. destruct (Hm s Hs) as [Hi Hp].
  destruct (m s) as [[a|e|] s']; cbn [fst snd] in *; [by apply Hf|done|done].
Qed.
Lemma preserves_try {A} I (m : ST S A) : preserves I m → preserves I (try m).
Proof.
  intros Hm s Hs. unfold try. destruct (Hm s Hs) as [Hi Hp]. by destruct (m s) as [[a|e|] s'].
Qed.
Lemma preserves_wrap_call {A} I pre (m : ST S A) : preserves I m → preserves I (wrap_call pre m).
Proof.
  intros Hm s Hs. unfold wrap_call. destruct (Hm s Hs) as [Hi Hp]. by destruct (m s) as [[a|e|] s'].
Qed.
Lemma preserves_undo {A} I undo (m : ST S A) : preserves I m → preserves I undo → preserves I (undo_on_error undo m).
Proof.
  intros Hm Hu s Hs. unfold undo_on_error. destruct (Hm s Hs) as [Hi Hp].
  destruct (m s) as [[a|e|] s']; cbn [fst snd] in *; [done| |done].
  destruct (Hu s' Hi) as [Hi' Hp']. by destruct (undo s') as [[]].
Qed.
(** The first step may establish the invariant the rest keeps. *)
Lemma preserves_then {A B} (I J : S → Prop) (m : ST S A) (f : A → ST S B) :
  (∀ s, I s → (m s).1 ≠ Panic ∧ match (m s).1 with Ok _ => J (m s).2 | _ => I (m s).2 end) →
  (∀ a, preserves J (f a)) → (∀ s, J s → I s) → preserves I (m ≫= f).
Proof.
  intros Hm Hf HJ s Hs. unfold mbind, ST_bind. destruct (Hm s Hs) as [Hp Hi].
  destruct (m s) as [[a|e|] s']; cbn [fst snd] in *; [|done|done].
  destruct (Hf a s' Hi). auto.
Qed.
End state.

(** ** The host *)

Abbreviation Host E := (ST (list E)).

(** One call: what the host answers after the log so far. *)
Definition call {E A} (e : E) (answer : list E → res A) : Host E A := λ log,
  (answer log, log ++ [e]).
