(* ===== verification/GoStrings.v ===== *)
(** * The parts of Go's [strings], [strconv] and [encoding/hex] the sources use

    Go strings are byte sequences: [String.string] holds one [ascii] per byte.
    [TrimSpace] and [Fields] are given for ASCII white space, the only one that
    occurs in the texts the program reads. *)
From Stdlib Require Import Ascii.
From Stdlib Require Import DecimalString DecimalZ DecimalFacts DecimalPos Decimal.
From S2P Require Import Prelude.

(** ** Characters of a string *)

Fixpoint char_in (c : Ascii.ascii) (s : string) : bool :=
  match s with
  | EmptyString => false
  | String d s' => bool_decide (c = d) || char_in c s'
  end.

Lemma char_in_app c s t : char_in c (s +:+ t) = char_in c s || char_in c t.
Proof.
  induction s as [|d s IH]; [done|].
  change (String d s +:+ t) with (String d (s +:+ t)). cbn [char_in].
  by rewrite IH, orb_assoc.
Qed.

Lemma str_app_assoc (s t u : string) : (s +:+ t) +:+ u = s +:+ (t +:+ u).
Proof.
  induction s as [|c s IH]; [done|].
  change (String c ((s +:+ t) +:+ u) = String c (s +:+ (t +:+ u))). by rewrite IH.
Qed.

Lemma str_app_nil_r (s : string) : s +:+ EmptyString = s.
Proof.
  induction s as [|c s IH]; [done|].
  change (String c (s +:+ EmptyString) = String c s). by rewrite IH.
Qed.

Lemma str_app_nil_l (s : string) : EmptyString +:+ s = s.
Proof. done. Qed.

Lemma str_app_cons c (s t : string) : String c s +:+ t = String c (s +:+ t).
Proof. done. Qed.

Lemma str_length_app s t : String.length (s +:+ t) = String.length s + String.length t.
Proof. induction s as [|c s IH]; [done|]. rewrite str_app_cons. simpl. by rewrite IH. Qed.

#[export] Hint Rewrite char_in_app str_app_assoc str_app_nil_r str_app_nil_l
  str_app_cons str_length_app : punch.

(** ** Prefixes and suffixes *)

Fixpoint strip_prefix (p s : string) : option string :=
  match p, s with
  | EmptyString, _ => Some s
  | String c p', String d s' => if decide (c = d) then strip_prefix p' s' else None
  | String _ _, EmptyString => None
  end.

(** [strings.HasPrefix] *)
Definition strings_HasPrefix (s p : string) : bool := bool_decide (is_Some (strip_prefix p s)).

(** [strings.TrimPrefix] *)
Definition strings_TrimPrefix (s p : string) : string := default s (strip_prefix p s).

Lemma strip_prefix_Some p s r : strip_prefix p s = Some r ↔ s = p +:+ r.
Proof.
  revert s. induction p as [|c p IH]; intros s; cbn [strip_prefix].
  - rewrite str_app_nil_l. split; congruence.
  - rewrite str_app_cons. destruct s as [|d s]; [done|].
    case_decide; subst.
    + rewrite IH. split; congruence.
    + split; congruence.
Qed.

Lemma strings_HasPrefix_spec s p : strings_HasPrefix s p = true ↔ ∃ r, s = p +:+ r.
Proof.
  unfold strings_HasPrefix. rewrite bool_decide_eq_true.
  split; intros [r Hr]; exists r; by apply strip_prefix_Some.
Qed.

Lemma strings_HasPrefix_app p r : strings_HasPrefix (p +:+ r) p = true.
Proof. apply strings_HasPrefix_spec. eauto. Qed.

Lemma strings_TrimPrefix_app p r : strings_TrimPrefix (p +:+ r) p = r.
Proof.
  unfold strings_TrimPrefix.
  assert (strip_prefix p (p +:+ r) = Some r) as -> by by apply strip_prefix_Some.
  done.
Qed.

(** [strings.TrimSuffix] *)
Definition str_rev (s : string) : string := string_of_bytes (reverse (bytes_of_string s)).
Definition strings_TrimSuffix (s p : string) : string :=
  str_rev (strings_TrimPrefix (str_rev s) (str_rev p)).

(** [strings.Contains] *)
Fixpoint strings_Contains (s sub : string) : bool :=
  strings_HasPrefix s sub ||
  match s with EmptyString => false | String _ s' => strings_Contains s' sub end.

(** ** Splitting and joining *)

(** [strings.Split(s, sep)] for a one-byte separator. *)
Fixpoint strings_Split (s : string) (sep : Ascii.ascii) : list string :=
  match s with
  | EmptyString => [EmptyString]
  | String c s' =>
      if decide (c = sep) then EmptyString :: strings_Split s' sep
      else match strings_Split s' sep with
           | [] => [String c EmptyString]
           | h :: t => String c h :: t
           end
  end.

(** [strings.SplitN(s, sep, 2)] *)
Fixpoint strings_SplitN2 (s : string) (sep : Ascii.ascii) : list string :=
  match s with
  | EmptyString => [EmptyString]
  | String c s' =>
      if decide (c = sep) then [EmptyString; s']
      else match strings_SplitN2 s' sep with
           | [] => [String c EmptyString]
           | h :: t => String c h :: t
           end
  end.

(** [strings.Join] *)
Fixpoint strings_Join (l : list string) (sep : string) : string :=
  match l with
  | [] => EmptyString
  | [s] => s
  | s :: l' => s +:+ sep +:+ strings_Join l' sep
  end.

Lemma strings_Split_nonempty s sep : strings_Split s sep ≠ [].
Proof. destruct s; simpl; [done|]. case_decide; [done|]. by case_match. Qed.

Lemma strings_Split_no_sep s sep : char_in sep s = false → strings_Split s sep = [s].
Proof.
  induction s as [|c s IH]; [done|]. cbn [char_in strings_Split].
  intros [Hc Hs]%orb_false_iff. rewrite bool_decide_eq_false in Hc.
  rewrite decide_False by congruence. by rewrite IH.
Qed.

Lemma strings_Split_app s t sep :
  char_in sep s = false →
  strings_Split (s +:+ String sep t) sep = s :: strings_Split t sep.
Proof.
  induction s as [|c s IH]; cbn [char_in].
  - intros _. rewrite str_app_nil_l. cbn [strings_Split]. by rewrite decide_True.
  - intros [Hc Hs]%orb_false_iff. rewrite bool_decide_eq_false in Hc.
    rewrite str_app_cons. cbn [strings_Split]. rewrite decide_False by congruence.
    by rewrite IH.
Qed.

Lemma strings_SplitN2_app s t sep :
  char_in sep s = false → strings_SplitN2 (s +:+ String sep t) sep = [s; t].
Proof.
  induction s as [|c s IH]; cbn [char_in].
  - intros _. rewrite str_app_nil_l. cbn [strings_SplitN2]. by rewrite decide_True.
  - intros [Hc Hs]%orb_false_iff. rewrite bool_decide_eq_false in Hc.
    rewrite str_app_cons. cbn [strings_SplitN2]. rewrite decide_False by congruence.
    by rewrite IH.
Qed.

(** ** White space *)

Definition is_space (c : Ascii.ascii) : bool := stdpp.strings.Ascii.is_space c.

Fixpoint trim_left (s : string) : string :=
  match s with
  | EmptyString => EmptyString
  | String c s' => if is_space c then trim_left s' else s
  end.

(** [strings.TrimSpace] *)
Definition strings_TrimSpace (s : string) : string :=
  str_rev (trim_left (str_rev (trim_left s))).

(** [strings.Fields]: [acc] is the word being read. *)
Fixpoint fields_aux (acc s : string) : list string :=
  match s with
  | EmptyString => match acc with EmptyString => [] | _ => [str_rev acc] end
  | String c s' =>
      if is_space c
      then match acc with EmptyString => fields_aux EmptyString s'
                        | _ => str_rev acc :: fields_aux EmptyString s' end
      else fields_aux (String c acc) s'
  end.
Definition strings_Fields (s : string) : list string := fields_aux EmptyString s.

Lemma str_rev_involutive s : str_rev (str_rev s) = s.
Proof.
  unfold str_rev. rewrite bytes_of_string_of_bytes, reverse_involutive.
  apply string_of_bytes_of_string.
Qed.

Fixpoint no_space (s : string) : bool :=
  match s with EmptyString => true | String c s' => negb (is_space c) && no_space s' end.

Lemma no_space_forall s : no_space s = true ↔ Forall (λ c, is_space c = false) (bytes_of_string s).
Proof.
  induction s as [|c s IH]; cbn [no_space String.list_ascii_of_string].
  - split; [constructor|done].
  - rewrite andb_true_iff, negb_true_iff, IH, Forall_cons_iff. done.
Qed.

Lemma no_space_rev s : no_space (str_rev s) = no_space s.
Proof.
  apply eq_true_iff_eq. rewrite !no_space_forall.
  unfold str_rev. rewrite bytes_of_string_of_bytes. apply Forall_reverse.
Qed.

Lemma no_space_app s t : no_space (s +:+ t) = no_space s && no_space t.
Proof.
  induction s as [|c s IH]; [done|]. rewrite str_app_cons. cbn [no_space].
  by rewrite IH, andb_assoc.
Qed.

Lemma trim_left_no_space s : no_space s = true → trim_left s = s.
Proof.
  destruct s as [|c s]; [done|]. cbn [no_space trim_left].
  intros [Hc _]%andb_true_iff. apply negb_true_iff in Hc. by rewrite Hc.
Qed.

Lemma strings_TrimSpace_no_space s : no_space s = true → strings_TrimSpace s = s.
Proof.
  intros Hs. unfold strings_TrimSpace. rewrite (trim_left_no_space s) by done.
  rewrite trim_left_no_space by (by rewrite no_space_rev). apply str_rev_involutive.
Qed.

(** ** Decimal numbers *)

(** [strconv.Itoa] *)
Definition strconv_Itoa (z : Z) : string := NilZero.string_of_int (Z.to_int z).

Definition int64_min : Z := (- 2 ^ 63)%Z.
Definition int64_max : Z := (2 ^ 63 - 1)%Z.

Definition err_atoi (s : string) : error := Errorf ("strconv.Atoi: parsing " +:+ s).

(** The digits of an unsigned number; [strconv] refuses an empty one. *)
Definition parse_digits (s : string) : option Z :=
  match s with
  | EmptyString => None
  | _ => d ← NilEmpty.uint_of_string s; Some (Z.of_uint d)
  end.

(** [strconv.Atoi] (and [strconv.ParseInt(s, 10, 64)]): an optional sign, at
    least one digit, nothing else, within the 64-bit range. *)
Definition strconv_Atoi (s : string) : res Z :=
  let v := match s with
           | String "-"%char s' => Z.opp <$> parse_digits s'
           | String "+"%char s' => parse_digits s'
           | _ => parse_digits s
           end in
  match v with
  | Some z => if decide (int64_min ≤ z ≤ int64_max)%Z then Ok z else Err (err_atoi s)
  | None => Err (err_atoi s)
  end.

Lemma uint_string_digits d c :
  char_in c (NilEmpty.string_of_uint d) = true →
  c ∈ bytes_of_string "0123456789".
Proof.
  induction d; cbn [NilEmpty.string_of_uint char_in]; [done|..];
    intros [Hc%bool_decide_eq_true|?]%orb_true_iff; subst; auto; set_solver.
Qed.

Lemma strconv_Itoa_chars z c :
  char_in c (strconv_Itoa z) = true → c ∈ bytes_of_string "-0123456789".
Proof.
  assert (∀ d, char_in c (NilZero.string_of_uint d) = true → c ∈ bytes_of_string "0123456789") as Hu.
  { intros [] Hd; cbn [NilZero.string_of_uint] in Hd; try (eapply uint_string_digits; eassumption).
    cbn in Hd. apply orb_true_iff in Hd as [Hc%bool_decide_eq_true|?]; [set_solver|done]. }
  unfold strconv_Itoa. destruct (Z.to_int z) as [d|d]; cbn [NilZero.string_of_int char_in].
  - intros ?%Hu. simpl. set_solver.
  - intros [Hc%bool_decide_eq_true|?%Hu]%orb_true_iff; simpl; set_solver.
Qed.

Lemma strconv_Itoa_no_char z c :
  c ∉ bytes_of_string "-0123456789" → char_in c (strconv_Itoa z) = false.
Proof.
  intros Hc. apply not_true_is_false. by intros ?%strconv_Itoa_chars.
Qed.

Lemma Z_to_int_nonnil z : Z.to_int z ≠ Pos Nil ∧ Z.to_int z ≠ Neg Nil.
Proof.
  destruct z as [|p|p]; cbn [Z.to_int]; split; intros [= Hp];
    by apply DecimalPos.Unsigned.to_uint_nonnil in Hp.
Qed.

Lemma strconv_Itoa_inj z z' : strconv_Itoa z = strconv_Itoa z' → z = z'.
Proof.
  unfold strconv_Itoa. intros Heq%(f_equal NilZero.int_of_string).
  rewrite !NilZero.isi in Heq by apply Z_to_int_nonnil.
  apply DecimalZ.to_int_inj. by simplify_eq.
Qed.

Lemma strconv_Itoa_nonempty z : strconv_Itoa z ≠ EmptyString.
Proof.
  unfold strconv_Itoa. destruct (Z_to_int_nonnil z) as [H1 H2].
  destruct (Z.to_int z) as [d|d]; destruct d; simpl; done.
Qed.

Lemma parse_digits_uint d :
  d ≠ Nil → parse_digits (NilZero.string_of_uint d) = Some (Z.of_uint d).
Proof.
  intros Hd. unfold parse_digits.
  assert (NilZero.string_of_uint d = NilEmpty.string_of_uint d) as -> by by destruct d.
  rewrite NilEmpty.usu. destruct d; done.
Qed.

(** [Atoi] reads back what [Itoa] writes. *)
Lemma strconv_Atoi_Itoa z :
  (int64_min ≤ z ≤ int64_max)%Z → strconv_Atoi (strconv_Itoa z) = Ok z.
Proof.
  intros Hz. destruct (Z_to_int_nonnil z) as [H1 H2].
  pose proof (DecimalZ.of_to z) as Hof.
  assert (match strconv_Itoa z with
          | String "-"%char s' => Z.opp <$> parse_digits s'
          | String "+"%char s' => parse_digits s'
          | _ => parse_digits (strconv_Itoa z)
          end = Some z) as Hv.
  { unfold strconv_Itoa. destruct (Z.to_int z) as [d|d] eqn:Hd; cbn [NilZero.string_of_int].
    - assert (d ≠ Nil) by congruence. pose proof (parse_digits_uint d ltac:(done)) as Hp.
      cbn in Hof. rewrite <-Hof, <-Hp. by destruct d.
    - rewrite parse_digits_uint by congruence. cbn in Hof. cbn. congruence. }
  unfold strconv_Atoi. rewrite Hv. by rewrite decide_True.
Qed.

(** ** Hexadecimal *)

Definition hex_digit (n : Z) : Ascii.ascii :=
  byte_of_Z (if decide (n < 10)%Z then 48 + n else 87 + n).

(** [hex.EncodeToString]: two lower-case digits per byte. *)
Fixpoint hex_EncodeToString (bs : list Ascii.ascii) : string :=
  match bs with
  | [] => EmptyString
  | b :: bs' =>
      String (hex_digit (Z_of_byte b / 16)) (String (hex_digit (Z_of_byte b `mod` 16))
        (hex_EncodeToString bs'))
  end.

Definition hex_alphabet : list Ascii.ascii := bytes_of_string "0123456789abcdef".

Lemma hex_digit_chars n : (0 ≤ n < 16)%Z → hex_digit n ∈ hex_alphabet.
Proof.
  intros Hn. apply (bool_decide_unpack _). apply Is_true_true.
  revert n Hn. apply (Z_range_check (λ n, bool_decide (hex_digit n ∈ hex_alphabet)) 0 16).
  by_compute.
Qed.

Lemma hex_EncodeToString_chars bs c :
  char_in c (hex_EncodeToString bs) = true → c ∈ hex_alphabet.
Proof.
  induction bs as [|b bs IH]; cbn [hex_EncodeToString char_in]; [done|].
  pose proof (Z_of_byte_bounds b).
  rewrite !orb_true_iff, !bool_decide_eq_true.
  intros [->|[->|?]]; [..|auto]; apply hex_digit_chars; [|apply Z.mod_pos_bound; lia].
  split; [apply Z.div_pos|apply Z.div_lt_upper_bound]; lia.
Qed.

Lemma hex_EncodeToString_no_char bs c :
  c ∉ hex_alphabet → char_in c (hex_EncodeToString bs) = false.
Proof. intros Hc. apply not_true_is_false. by intros ?%hex_EncodeToString_chars. Qed.

Lemma hex_digit_inj x y : (0 ≤ x < 16)%Z → (0 ≤ y < 16)%Z → hex_digit x = hex_digit y → x = y.
Proof.
  intros Hx Hy Heq.
  assert (all_from (λ y, implb (bool_decide (hex_digit x = hex_digit y)) (bool_decide (x = y)))
            0 16 = true) as Hall.
  { clear Heq. revert x Hx. apply (Z_range_check _ 0 16). by_compute. }
  apply (Z_range_check _ _ _ Hall y) in Hy.
  rewrite bool_decide_true in Hy by done. by apply bool_decide_eq_true in Hy.
Qed.

Lemma hex_EncodeToString_inj bs bs' :
  hex_EncodeToString bs = hex_EncodeToString bs' → bs = bs'.
Proof.
  revert bs'. induction bs as [|b bs IH]; intros [|b' bs'] Heq; cbn in Heq; try done.
  injection Heq as H1 H2 H3. f_equal; [|by apply IH].
  pose proof (Z_of_byte_bounds b). pose proof (Z_of_byte_bounds b').
  apply hex_digit_inj in H1, H2; try (split; [lia|lia] || lia); try (Z.to_euclidean_division_equations; lia).
  rewrite <-(byte_of_Z_of_byte b), <-(byte_of_Z_of_byte b'). f_equal.
  rewrite (Z.div_mod (Z_of_byte b) 16), (Z.div_mod (Z_of_byte b') 16) by lia. congruence.
Qed.
