(* ===== verification/GoNet.v ===== *)
(** * The parts of Go's [net] and [net/netip] the sources use

    [net.IP] is a byte slice of length 4 or 16 ([nil] is the empty one); an
    address is printed and parsed the way [net.IP.String] and [net.ParseIP] do,
    dotted decimal for IPv4 and colon-separated groups with one [::] for IPv6. *)
From Stdlib Require Import Ascii.
From S2P Require Import Prelude GoStrings.

Abbreviation IP := (list Ascii.ascii) (only parsing).

Definition IPv4len : nat := 4.
Definition IPv6len : nat := 16.

Definition b0 : Ascii.ascii := "000"%char.
Definition bff : Ascii.ascii := "255"%char.
Definition v4InV6Prefix : list Ascii.ascii := replicate 10 b0 ++ [bff; bff].

(** [ip[lo:hi]] *)
Definition slice {A} (lo hi : nat) (l : list A) : list A := take (hi - lo) (drop lo l).

(** [ip.To4()]; [None] is [nil]. *)
Definition To4 (ip : list Ascii.ascii) : option (list Ascii.ascii) :=
  if decide (length ip = 4) then Some ip
  else if decide (length ip = 16 ∧ take 12 ip = v4InV6Prefix) then Some (drop 12 ip)
  else None.

(** [ip.To16()] *)
Definition To16 (ip : list Ascii.ascii) : option (list Ascii.ascii) :=
  if decide (length ip = 4) then Some (v4InV6Prefix ++ ip)
  else if decide (length ip = 16) then Some ip
  else None.

Definition nth_Z (ip : list Ascii.ascii) (i : nat) : Z := Z_of_byte (nth i ip b0).

Definition IPv4zero : list Ascii.ascii := v4InV6Prefix ++ replicate 4 b0.
Definition IPv6unspecified : list Ascii.ascii := replicate 16 b0.
Definition IPv6loopback : list Ascii.ascii := replicate 15 b0 ++ ["001"%char].

Definition IsUnspecified (ip : list Ascii.ascii) : bool :=
  bool_decide (To16 ip = Some IPv4zero ∨ To16 ip = Some IPv6unspecified).

Definition IsLoopback (ip : list Ascii.ascii) : bool :=
  match To4 ip with
  | Some ip4 => bool_decide (nth_Z ip4 0 = 127%Z)
  | None => bool_decide (ip = IPv6loopback)
  end.

Definition IsLinkLocalUnicast (ip : list Ascii.ascii) : bool :=
  match To4 ip with
  | Some ip4 => bool_decide (nth_Z ip4 0 = 169 ∧ nth_Z ip4 1 = 254)%Z
  | None => bool_decide (length ip = 16%nat ∧ nth_Z ip 0 = 254 ∧ Z.land (nth_Z ip 1) 192 = 128)%Z
  end.

Definition IsLinkLocalMulticast (ip : list Ascii.ascii) : bool :=
  match To4 ip with
  | Some ip4 => bool_decide (nth_Z ip4 0 = 224 ∧ nth_Z ip4 1 = 0 ∧ nth_Z ip4 2 = 0)%Z
  | None => bool_decide (length ip = 16%nat ∧ nth_Z ip 0 = 255 ∧ Z.land (nth_Z ip 1) 15 = 2)%Z
  end.

(** ** Printing *)

Definition dec_octet (b : Ascii.ascii) : list Ascii.ascii :=
  bytes_of_string (strconv_Itoa (Z_of_byte b)).

Definition dot : Ascii.ascii := "."%char.
Definition colon : Ascii.ascii := ":"%char.
Definition percent : Ascii.ascii := "%"%char.

(** Dotted decimal. *)
Definition print_v4 (a b c d : Ascii.ascii) : list Ascii.ascii :=
  dec_octet a ++ dot :: dec_octet b ++ dot :: dec_octet c ++ dot :: dec_octet d.

(** A 16-bit group in hexadecimal, without leading zeros. *)
Definition hex_group (g : Z) : list Ascii.ascii :=
  (if decide (4096 ≤ g)%Z then [hex_digit (g / 4096)] else []) ++
  (if decide (256 ≤ g)%Z then [hex_digit ((g / 256) `mod` 16)] else []) ++
  (if decide (16 ≤ g)%Z then [hex_digit ((g / 16) `mod` 16)] else []) ++
  [hex_digit (g `mod` 16)].

Fixpoint groups (ip : list Ascii.ascii) : list Z :=
  match ip with
  | h :: l :: ip' => (Z_of_byte h * 256 + Z_of_byte l)%Z :: groups ip'
  | _ => []
  end.

Fixpoint zero_run (gs : list Z) : nat :=
  match gs with
  | g :: gs' => if decide (g = 0%Z) then S (zero_run gs') else 0
  | [] => 0
  end.

(** The first longest run of at least two zero groups: [(zeroStart, zeroEnd)],
    both 255 when there is none. *)
Definition zero_range (gs : list Z) : nat * nat :=
  foldl (λ '(zs, ze) i,
    let l := zero_run (drop i gs) in
    if decide (2 ≤ l ∧ ze - zs < l) then (i, i + l) else (zs, ze))
  (255, 255) (seq 0 8).

Fixpoint print_groups (fuel i : nat) (gs : list Z) (zs ze : nat) : list Ascii.ascii :=
  match fuel with
  | O => []
  | S fuel' =>
      if Nat.leb 8 i then []
      else if Nat.eqb i zs then
        colon :: colon ::
          (if Nat.leb 8 ze then []
           else hex_group (nth ze gs 0%Z) ++ print_groups fuel' (S ze) gs zs ze)
      else (if Nat.ltb 0 i then [colon] else []) ++
           hex_group (nth i gs 0%Z) ++ print_groups fuel' (S i) gs zs ze
  end.

Definition print_v6 (gs : list Z) : list Ascii.ascii :=
  let '(zs, ze) := zero_range gs in print_groups 9 0 gs zs ze.

(** [ip.String()] *)
Definition IP_bytes (ip : list Ascii.ascii) : list Ascii.ascii :=
  match To4 ip with
  | Some [a; b; c; d] => print_v4 a b c d
  | _ => if decide (length ip = 16) then print_v6 (groups ip)
         else if decide (length ip = 0) then bytes_of_string "<nil>"
         else "?"%char :: bytes_of_string (hex_EncodeToString ip)
  end.
Definition IP_String (ip : list Ascii.ascii) : string := string_of_bytes (IP_bytes ip).

(** ** Parsing *)

Definition digit_val (c : Ascii.ascii) : option Z :=
  let n := Z_of_byte c in
  if decide (48 ≤ n ≤ 57)%Z then Some (n - 48)%Z else None.

Definition hex_val (c : Ascii.ascii) : option Z :=
  let n := Z_of_byte c in
  if decide (48 ≤ n ≤ 57)%Z then Some (n - 48)%Z
  else if decide (97 ≤ n ≤ 102)%Z then Some (n - 87)%Z
  else if decide (65 ≤ n ≤ 70)%Z then Some (n - 55)%Z
  else None.

(** [parseIPv4Fields]: [first] and [prev_dot] describe the byte before [s]. *)
Fixpoint parse_v4 (s : list Ascii.ascii) (first prev_dot : bool) (val : Z) (dig_len : nat)
    (fields : list Ascii.ascii) : option (list Ascii.ascii) :=
  match s with
  | [] => if decide (length fields < 3) then None else Some (fields ++ [byte_of_Z val])
  | c :: s' =>
      match digit_val c with
      | Some v =>
          if decide (dig_len = 1 ∧ val = 0%Z) then None
          else if decide (255 < val * 10 + v)%Z then None
          else parse_v4 s' false false (val * 10 + v) (S dig_len) fields
      | None =>
          if decide (c = dot) then
            if first || prev_dot || bool_decide (s' = []) then None
            else if decide (length fields = 3) then None
            else parse_v4 s' false true 0 0 (fields ++ [byte_of_Z val])
          else None
      end
  end.

(** One group of [netip.parseIPv6]: its value, its number of digits, the rest. *)
Fixpoint read_hex (s : list Ascii.ascii) (off : nat) (acc : Z) :
    option (Z * nat * list Ascii.ascii) :=
  match s with
  | [] => Some (acc, off, [])
  | c :: s' =>
      match hex_val c with
      | Some v =>
          if decide (3 < off) then None
          else if decide (65535 < acc * 16 + v)%Z then None
          else read_hex s' (S off) (acc * 16 + v)
      | None => Some (acc, off, s)
      end
  end.

Definition group_bytes (g : Z) : list Ascii.ascii := [byte_of_Z (g / 256); byte_of_Z g].

(** The loop over the groups of an IPv6 address; each round adds two bytes to
    [ip], so eight rounds fill the sixteen. *)
Fixpoint parse_v6_loop (fuel : nat) (s ip : list Ascii.ascii) (ell : option nat) :
    option (list Ascii.ascii * option nat * list Ascii.ascii) :=
  match fuel with
  | O => Some (ip, ell, s)
  | S fuel' =>
      '(acc, off, s1) ← read_hex s 0 0;
      if decide (off = 0) then None
      else
        let ip' := ip ++ group_bytes acc in
        match s1 with
        | [] => Some (ip', ell, [])
        | c :: s2 =>
            if decide (c = dot) then
              if decide (ell = None ∧ length ip ≠ 12) then None
              else if decide (16 < length ip + 4) then None
              else f ← parse_v4 s true false 0 0 []; Some (ip ++ f, ell, [])
            else if decide (c = colon) then
              match s2 with
              | [] => None
              | c' :: s3 =>
                  if decide (c' = colon) then
                    match ell with
                    | Some _ => None
                    | None =>
                        match s3 with
                        | [] => Some (ip', Some (length ip'), [])
                        | _ => parse_v6_loop fuel' s3 ip' (Some (length ip'))
                        end
                    end
                  else parse_v6_loop fuel' s2 ip' ell
              end
            else None
        end
  end.

Definition expand_v6 (r : list Ascii.ascii * option nat * list Ascii.ascii) :
    option (list Ascii.ascii) :=
  let '(ip, ell, s) := r in
  match s with
  | _ :: _ => None
  | [] =>
      if decide (length ip < 16) then
        match ell with
        | None => None
        | Some e => Some (take e ip ++ replicate (16 - length ip) b0 ++ drop e ip)
        end
      else match ell with Some _ => None | None => Some ip end
  end.

(** [netip.parseIPv6] on the part before the zone. *)
Definition parse_v6 (s : list Ascii.ascii) : option (list Ascii.ascii) :=
  match s with
  | ":"%char :: ":"%char :: [] => Some IPv6unspecified
  | ":"%char :: ":"%char :: s' => parse_v6_loop 8 s' [] (Some 0) ≫= expand_v6
  | _ => parse_v6_loop 8 s [] None ≫= expand_v6
  end.

(** [netip.Addr]: a 4-byte or a 16-byte address, the latter with a zone. *)
Inductive netip_Addr :=
| Addr4 (ip : list Ascii.ascii)
| Addr6 (ip : list Ascii.ascii) (zone : list Ascii.ascii).

Global Instance netip_Addr_eq_dec : EqDecision netip_Addr.
Proof. solve_decision. Defined.

(** The bytes before and after the first [c]. *)
Fixpoint cut (c : Ascii.ascii) (s : list Ascii.ascii) :
    option (list Ascii.ascii * list Ascii.ascii) :=
  match s with
  | [] => None
  | d :: s' => if decide (d = c) then Some ([], s')
               else '(l, r) ← cut c s'; Some (d :: l, r)
  end.

Fixpoint first_special (s : list Ascii.ascii) : option Ascii.ascii :=
  match s with
  | [] => None
  | c :: s' => if decide (c = dot ∨ c = colon ∨ c = percent) then Some c else first_special s'
  end.

(** [netip.ParseAddr] *)
Definition netip_ParseAddr (s : list Ascii.ascii) : option netip_Addr :=
  match first_special s with
  | Some "."%char => Addr4 <$> parse_v4 s true false 0 0 []
  | Some ":"%char =>
      match cut percent s with
      | Some (_, []) => None
      | Some (a, zone) => ip ← parse_v6 a; Some (Addr6 ip zone)
      | None => ip ← parse_v6 s; Some (Addr6 ip [])
      end
  | _ => None
  end.

(** [net.ParseIP]: the sixteen-byte form, [None] for [nil]; a zone is refused. *)
Definition net_ParseIP (s : list Ascii.ascii) : option (list Ascii.ascii) :=
  match netip_ParseAddr s with
  | Some (Addr4 ip) => To16 ip
  | Some (Addr6 ip []) => Some ip
  | _ => None
  end.

(** [ip.MarshalText()] and [ip.UnmarshalText(text)] *)
Definition IP_MarshalText (ip : list Ascii.ascii) : res (list Ascii.ascii) :=
  if decide (length ip = 0) then Ok []
  else if decide (length ip ≠ 4 ∧ length ip ≠ 16) then Err (Errorf "invalid IP address")
  else Ok (IP_bytes ip).

Definition IP_UnmarshalText (text : list Ascii.ascii) : res (list Ascii.ascii) :=
  if decide (length text = 0) then Ok []
  else or_err (Errorf "invalid IP address") (net_ParseIP text).

(** *** What is parsed has four bytes, or sixteen *)

Lemma parse_v4_length s first prev_dot val dig_len fields ip : length fields ≤ 3 →
  parse_v4 s first prev_dot val dig_len fields = Some ip → length ip = 4.
Proof.
  revert first prev_dot val dig_len fields. induction s as [|c s IH]; intros first prev_dot val dig_len fields Hf; cbn [parse_v4].
  - case_decide; [done|]. intros [= <-]. rewrite length_app. cbn. lia.
  - destruct (digit_val c) as [v|]; [do 2 (case_decide; [done|]); by apply IH|]. case_decide; [|done].
    destruct (first || prev_dot || _); [done|]. case_decide; [done|]. apply IH. rewrite length_app. cbn. lia.
Qed.
Lemma parse_v6_loop_length fuel s ip ell ip' ell' s' : length ip + 2 * fuel ≤ 16 →
  parse_v6_loop fuel s ip ell = Some (ip', ell', s') → length ip' ≤ 16.
Proof.
  revert s ip ell. induction fuel as [|fuel IH]; intros s ip ell Hl; cbn [parse_v6_loop]; [intros [= <- _ _]; lia|].
  destruct (read_hex s 0 0) as [[[acc off] s1]|]; [|done]. cbn [mbind option_bind]. case_decide; [done|].
  assert (length (ip ++ group_bytes acc) + 2 * fuel ≤ 16) as Hl' by (rewrite length_app; cbn; lia).
  destruct s1 as [|c s2]; [intros [= <- _ _]; lia|]. case_decide.
  { case_decide; [done|]. case_decide; [done|]. destruct (parse_v4 s true false 0 0 []) as [f|] eqn:Hf; [|done]. cbn [mbind option_bind].
    intros [= <- _ _]. apply parse_v4_length in Hf; [|cbn; lia]. rewrite length_app. lia. }
  case_decide; [|done]. destruct s2 as [|c' s3]; [done|]. case_decide; [|by apply IH].
  destruct ell; [done|]. destruct s3; [intros [= <- _ _]; lia|]. by apply IH.
Qed.
Lemma parse_v6_length s ip : parse_v6 s = Some ip → length ip = 16.
Proof.
  assert (∀ t ell, (parse_v6_loop 8 t [] ell ≫= expand_v6) = Some ip → length ip = 16) as Hloop.
  { intros t ell. destruct (parse_v6_loop 8 t [] ell) as [[[ip1 ell1] s1]|] eqn:Hp; [|done].
    apply parse_v6_loop_length in Hp; [|cbn; lia]. cbn [mbind option_bind expand_v6]. destruct s1; [|done]. case_decide.
    - destruct ell1 as [e|]; [|done]. intros [= <-]. rewrite !length_app, length_replicate, length_take, length_drop. lia.
    - destruct ell1; [done|]. intros [= <-]. lia. }
  unfold parse_v6. intros H. repeat case_match; try (by eapply Hloop). by injection H as <-.
Qed.
Lemma netip_ParseAddr_length s a : netip_ParseAddr s = Some a →
  length (match a with Addr4 ip => v4InV6Prefix ++ ip | Addr6 ip _ => ip end) = 16.
Proof.
  set (good := λ a, length (match a with Addr4 ip => v4InV6Prefix ++ ip | Addr6 ip _ => ip end) = 16).
  assert (∀ t, Addr4 <$> parse_v4 t true false 0 0 [] = Some a → good a) as H4.
  { intros t. destruct (parse_v4 t true false 0 0 []) as [ip|] eqn:Hp; [|done]. intros [= <-].
    apply parse_v4_length in Hp; [|cbn; lia]. unfold good. by rewrite length_app, Hp. }
  assert (∀ t zone, (ip ← parse_v6 t; Some (Addr6 ip zone)) = Some a → good a) as H6.
  { intros t zone. destruct (parse_v6 t) as [ip|] eqn:Hp; [|done]. intros [= <-]. by apply (parse_v6_length t). }
  unfold netip_ParseAddr. intros H. change (good a). repeat case_match; first [done|by eapply H4|by eapply H6].
Qed.

(** ** Reading back what was printed *)

(** *** Dotted decimal *)

(** The digits of an octet, read from the state after a dot. *)
Fixpoint eat_digits (ds : list Ascii.ascii) (val : Z) (dig_len : nat) : option (Z * nat) :=
  match ds with
  | [] => Some (val, dig_len)
  | c :: ds' =>
      match digit_val c with
      | Some v =>
          if decide (dig_len = 1 ∧ val = 0%Z) then None
          else if decide (255 < val * 10 + v)%Z then None
          else eat_digits ds' (val * 10 + v) (S dig_len)
      | None => None
      end
  end.

Lemma parse_v4_eat ds rest first prev_dot val dig_len fields val' dig_len' :
  eat_digits ds val dig_len = Some (val', dig_len') → ds ≠ [] →
  parse_v4 (ds ++ rest) first prev_dot val dig_len fields =
  parse_v4 rest false false val' dig_len' fields.
Proof.
  revert first prev_dot val dig_len. induction ds as [|c ds IH]; [done|].
  intros first prev_dot val dig_len Heat _. cbn [eat_digits] in Heat.
  cbn [parse_v4 app]. destruct (digit_val c) as [v|]; [|done].
  case_decide; [done|]. case_decide; [done|].
  destruct ds as [|c' ds]; [by simplify_eq/=|]. by apply IH.
Qed.

Definition octet_ok (z : Z) : bool :=
  let ds := dec_octet (byte_of_Z z) in
  match eat_digits ds 0 0 with
  | Some (v, _) => bool_decide (v = z ∧ ds ≠ [] ∧ colon ∉ ds ∧ percent ∉ ds ∧ dot ∉ ds)
  | None => false
  end.

Lemma octet_ok_all b : octet_ok (Z_of_byte b) = true.
Proof.
  apply (Z_range_check octet_ok 0 256); [by_compute|]. apply (Z_of_byte_bounds b).
Qed.

Lemma dec_octet_spec b :
  ∃ n, eat_digits (dec_octet b) 0 0 = Some (Z_of_byte b, n) ∧ dec_octet b ≠ [] ∧
       colon ∉ dec_octet b ∧ percent ∉ dec_octet b ∧ dot ∉ dec_octet b.
Proof.
  pose proof (octet_ok_all b) as Hok. unfold octet_ok in Hok.
  rewrite byte_of_Z_of_byte in Hok.
  destruct (eat_digits (dec_octet b) 0 0) as [[v n]|]; [|done].
  apply bool_decide_eq_true in Hok as (-> & ? & ? & ? & ?). eauto 10.
Qed.

Lemma parse_v4_octet b rest first prev_dot fields :
  ∃ n, parse_v4 (dec_octet b ++ rest) first prev_dot 0 0 fields =
       parse_v4 rest false false (Z_of_byte b) n fields.
Proof.
  destruct (dec_octet_spec b) as (n & Heat & Hne & _). exists n. by apply parse_v4_eat.
Qed.

Lemma parse_v4_dot s' val n fields :
  s' ≠ [] → length fields ≠ 3 →
  parse_v4 (dot :: s') false false val n fields =
  parse_v4 s' false true 0 0 (fields ++ [byte_of_Z val]).
Proof.
  intros Hs Hf. cbn [parse_v4]. change (digit_val dot) with (@None Z). cbn [orb].
  rewrite decide_True by done. rewrite bool_decide_false by done.
  by rewrite decide_False.
Qed.

Lemma dec_octet_app_nonempty b s : dec_octet b ++ s ≠ [].
Proof. destruct (dec_octet_spec b) as (n & _ & Hne & _). by destruct (dec_octet b). Qed.

Lemma parse_v4_print a b c d first :
  parse_v4 (print_v4 a b c d) first false 0 0 [] = Some [a; b; c; d].
Proof.
  unfold print_v4.
  edestruct (parse_v4_octet a) as [? ->]. rewrite parse_v4_dot by (done || apply dec_octet_app_nonempty).
  edestruct (parse_v4_octet b) as [? ->]. rewrite parse_v4_dot by (done || apply dec_octet_app_nonempty).
  edestruct (parse_v4_octet c) as [? ->].
  rewrite parse_v4_dot; [|destruct (dec_octet_spec d) as (? & _ & ? & _); done|done].
  rewrite <-(app_nil_r (dec_octet d)). edestruct (parse_v4_octet d) as [? ->].
  cbn. by rewrite !byte_of_Z_of_byte.
Qed.

Lemma first_special_skip s c s' :
  colon ∉ s → percent ∉ s → dot ∉ s → c = dot ∨ c = colon ∨ c = percent →
  first_special (s ++ c :: s') = Some c.
Proof.
  intros H1 H2 H3 Hc. induction s as [|x s IH]; cbn [app first_special].
  - by rewrite decide_True.
  - rewrite decide_False; [apply IH; set_solver|]. set_solver.
Qed.

Lemma net_ParseIP_print_v4 a b c d :
  net_ParseIP (print_v4 a b c d) = Some (v4InV6Prefix ++ [a; b; c; d]).
Proof.
  unfold net_ParseIP, netip_ParseAddr.
  destruct (dec_octet_spec a) as (n & _ & _ & H1 & H2 & H3).
  assert (first_special (print_v4 a b c d) = Some dot) as ->.
  { unfold print_v4. apply first_special_skip; auto. }
  change (Some dot) with (Some "."%char). by rewrite parse_v4_print.
Qed.

(** *** Hexadecimal groups *)

Definition not_hex (s : list Ascii.ascii) : Prop :=
  match s with [] => True | c :: _ => hex_val c = None end.

Lemma read_hex_app ds s v n off acc :
  read_hex ds off acc = Some (v, n, []) → not_hex s → read_hex (ds ++ s) off acc = Some (v, n, s).
Proof.
  revert off acc. induction ds as [|c ds IH]; intros off acc Hds Hs; cbn [read_hex app] in *.
  - simplify_eq. destruct s as [|c s]; [done|]. cbn in Hs |- *. by rewrite Hs.
  - destruct (hex_val c); [|done]. case_decide; [done|]. case_decide; [done|]. by apply IH.
Qed.

Definition group_ok (g : Z) : bool :=
  let ds := hex_group g in
  match read_hex ds 0 0 with
  | Some (v, n, []) =>
      bool_decide (v = g) && negb (Nat.eqb n 0) &&
      forallb (λ c, match hex_val c with Some _ => true | None => false end) ds
  | _ => false
  end.

Lemma group_ok_all g : (0 ≤ g < 65536)%Z → group_ok g = true.
Proof.
  intros Hg. apply (Z_range_check group_ok 0 (Z.to_nat 65536)); [by_compute|].
  rewrite Z2Nat.id by lia. lia.
Qed.

Lemma read_hex_group g s :
  (0 ≤ g < 65536)%Z → not_hex s →
  ∃ n, n ≠ 0 ∧ read_hex (hex_group g ++ s) 0 0 = Some (g, n, s).
Proof.
  intros Hg Hs. pose proof (group_ok_all g Hg) as Hok. unfold group_ok in Hok.
  destruct (read_hex (hex_group g) 0 0) as [[[v n] [|]]|] eqn:Hr; try done.
  apply andb_true_iff in Hok as [[Hv%bool_decide_eq_true Hn]%andb_true_iff _]. subst v.
  exists n. split; [by intros ->|]. by apply read_hex_app.
Qed.

Lemma hex_group_chars g c :
  (0 ≤ g < 65536)%Z → c ∈ hex_group g → ∃ v, hex_val c = Some v.
Proof.
  intros Hg Hc. pose proof (group_ok_all g Hg) as Hok. unfold group_ok in Hok.
  destruct (read_hex (hex_group g) 0 0) as [[[v n] [|]]|]; try done.
  apply andb_true_iff in Hok as [_ Hall]. rewrite forallb_forall in Hall.
  specialize (Hall c ltac:(by apply list_elem_of_In)). destruct (hex_val c); [eauto|done].
Qed.

Lemma hex_group_cons g : (0 ≤ g < 65536)%Z → ∃ c t v, hex_group g = c :: t ∧ hex_val c = Some v.
Proof.
  intros Hg. destruct (hex_group g) as [|c t] eqn:Hh.
  - unfold hex_group in Hh. by repeat case_decide.
  - destruct (hex_group_chars g c Hg) as [v Hv]; [rewrite Hh; set_solver|]. eauto.
Qed.

Lemma hex_group_no_special g :
  (0 ≤ g < 65536)%Z → colon ∉ hex_group g ∧ percent ∉ hex_group g ∧ dot ∉ hex_group g.
Proof.
  intros Hg. repeat split; intros [v Hv]%hex_group_chars; done.
Qed.

Section v6_steps.
Context (f : nat) (g : Z) (Hg : (0 ≤ g < 65536)%Z).
Context (ip : list Ascii.ascii).

Local Ltac step s :=
  cbn [parse_v6_loop];
  let n := fresh in let Hn := fresh in
  destruct (read_hex_group g s Hg) as (n & Hn & ->); [done|];
  cbn [mbind option_bind]; rewrite (decide_False (P := n = 0)) by done.

Lemma v6_last ell :
  parse_v6_loop (S f) (hex_group g ++ []) ip ell = Some (ip ++ group_bytes g, ell, []).
Proof. by step (@nil Ascii.ascii). Qed.

Lemma v6_colon g' t ell :
  (0 ≤ g' < 65536)%Z →
  parse_v6_loop (S f) (hex_group g ++ colon :: hex_group g' ++ t) ip ell =
  parse_v6_loop f (hex_group g' ++ t) (ip ++ group_bytes g) ell.
Proof.
  intros Hg'. step (colon :: hex_group g' ++ t).
  destruct (hex_group_cons g' Hg') as (c & r & v & -> & Hc). cbn [app].
  rewrite (decide_False (P := colon = dot)) by done. rewrite decide_True by done.
  rewrite decide_False; [done|]. by intros ->.
Qed.

Lemma v6_ellipsis_end :
  parse_v6_loop (S f) (hex_group g ++ [colon; colon]) ip None =
  Some (ip ++ group_bytes g, Some (length (ip ++ group_bytes g)), []).
Proof. by step [colon; colon]. Qed.

Lemma v6_ellipsis g' t :
  (0 ≤ g' < 65536)%Z →
  parse_v6_loop (S f) (hex_group g ++ colon :: colon :: hex_group g' ++ t) ip None =
  parse_v6_loop f (hex_group g' ++ t) (ip ++ group_bytes g)
    (Some (length (ip ++ group_bytes g))).
Proof.
  intros Hg'. step (colon :: colon :: hex_group g' ++ t).
  destruct (hex_group_cons g' Hg') as (c & r & v & -> & Hc). cbn [app].
  rewrite (decide_False (P := colon = dot)) by done.
  by rewrite !decide_True by done.
Qed.

Lemma parse_v6_start s :
  parse_v6 (hex_group g ++ s) = (parse_v6_loop 8 (hex_group g ++ s) [] None ≫= expand_v6).
Proof.
  destruct (hex_group_cons g Hg) as (c & r & v & -> & Hc). cbn [app].
  unfold parse_v6. destruct c as [[][][][][][][][]]; try done.
Qed.

Lemma parse_v6_start_ellipsis s :
  parse_v6 (colon :: colon :: hex_group g ++ s) =
  (parse_v6_loop 8 (hex_group g ++ s) [] (Some 0) ≫= expand_v6).
Proof. destruct (hex_group_cons g Hg) as (c & r & v & -> & Hc). done. Qed.
End v6_steps.

(** A range of groups the printer may replace by [::]. *)
Definition range_ok (gs : list Z) (zs ze : nat) : Prop :=
  (zs = 255 ∧ ze = 255) ∨ (zs + 2 ≤ ze ≤ 8 ∧ ∀ i, zs ≤ i < ze → nth i gs 0%Z = 0%Z).

Lemma zero_run_spec gs i : i < zero_run gs → nth i gs 0%Z = 0%Z.
Proof.
  revert i. induction gs as [|g gs IH]; intros i; cbn [zero_run nth]; [destruct i; done|].
  case_decide; [|lia]. destruct i; [done|]. intros Hi. apply IH. lia.
Qed.

Lemma zero_run_length gs : zero_run gs ≤ length gs.
Proof. induction gs; cbn; [done|]. case_decide; lia. Qed.

Lemma zero_range_ok gs : length gs = 8 → range_ok gs (zero_range gs).1 (zero_range gs).2.
Proof.
  intros Hlen. unfold zero_range.
  generalize (seq 0 8). intros l.
  assert (range_ok gs (255, 255).1 (255, 255).2) as Hok by by left.
  revert Hok. generalize (255, 255). induction l as [|i l IH]; intros [zs ze] Hok; [done|].
  cbn [foldl]. apply IH. case_decide as Hd; [|done]. right. cbn.
  pose proof (zero_run_length (drop i gs)) as Hrl. rewrite length_drop in Hrl.
  split; [lia|]. intros j Hj.
  pose proof (zero_run_spec (drop i gs) (j - i) ltac:(lia)) as Hz.
  rewrite nth_lookup, lookup_drop, <-nth_lookup in Hz. by replace (i + (j - i)) with j in Hz by lia.
Qed.

Definition is_u16 (g : Z) : Prop := (0 ≤ g < 65536)%Z.

(** The printed groups, one concrete position of [::] at a time. *)
Lemma parse_print_groups g0 g1 g2 g3 g4 g5 g6 g7 zs ze :
  let gs := [g0; g1; g2; g3; g4; g5; g6; g7] in
  Forall is_u16 gs → range_ok gs zs ze →
  parse_v6 (print_groups 9 0 gs zs ze) = Some (gs ≫= group_bytes).
Proof.
  intros gs Hall Hok. unfold gs in *. clear gs.
  rewrite !Forall_cons_iff in Hall. unfold is_u16 in Hall.
  destruct Hall as (?&?&?&?&?&?&?&?&_).
  destruct Hok as [[-> ->]|[Hze Hzero]].
  - cbn -[parse_v6 hex_group]. rewrite parse_v6_start by done.
    do 7 (rewrite v6_colon by done). rewrite v6_last by done. done.
  - assert (∀ i, zs ≤ i → i < ze → nth i [g0; g1; g2; g3; g4; g5; g6; g7] 0%Z = 0%Z) as Hz by auto.
    clear Hzero.
    assert (zs = 0 ∨ zs = 1 ∨ zs = 2 ∨ zs = 3 ∨ zs = 4 ∨ zs = 5 ∨ zs = 6) as Hzs by lia.
    assert (ze = 2 ∨ ze = 3 ∨ ze = 4 ∨ ze = 5 ∨ ze = 6 ∨ ze = 7 ∨ ze = 8) as Hzes by lia.
    pose proof (Hz 0) as Z0. pose proof (Hz 1) as Z1. pose proof (Hz 2) as Z2.
    pose proof (Hz 3) as Z3. pose proof (Hz 4) as Z4. pose proof (Hz 5) as Z5.
    pose proof (Hz 6) as Z6. pose proof (Hz 7) as Z7. clear Hz.
    repeat (destruct Hzs as [->|Hzs]); [..|subst zs];
      repeat (destruct Hzes as [->|Hzes]); try subst ze; try lia;
      cbn [nth] in Z0, Z1, Z2, Z3, Z4, Z5, Z6, Z7;
      repeat match goal with
      | H : ?a ≤ ?b → ?c < ?d → ?x = 0%Z |- _ =>
          first [specialize (H ltac:(lia) ltac:(lia)); subst x | clear H]
      end;
      cbn -[parse_v6 hex_group];
      rewrite ?parse_v6_start, ?parse_v6_start_ellipsis by done;
      repeat first [rewrite v6_colon by done | rewrite v6_ellipsis by done];
      first [rewrite v6_last by done | rewrite v6_ellipsis_end by done | idtac]; done.
Qed.

Lemma nth_u16 gs i : Forall is_u16 gs → is_u16 (nth i gs 0%Z).
Proof.
  intros Hall. destruct (nth_in_or_default i gs 0%Z) as [Hin| ->]; [|unfold is_u16; lia].
  rewrite Forall_forall in Hall. by apply Hall.
Qed.

Lemma print_groups_chars fuel i gs zs ze :
  Forall is_u16 gs →
  percent ∉ print_groups fuel i gs zs ze ∧ length (print_groups fuel i gs zs ze) ≤ 6 * fuel.
Proof.
  intros Hall. revert i. induction fuel as [|fuel IH]; intros i; cbn [print_groups].
  { split; [set_solver|done]. }
  assert (∀ j, percent ∉ hex_group (nth j gs 0%Z) ∧ length (hex_group (nth j gs 0%Z)) ≤ 4) as Hh.
  { intros j. split; [by apply hex_group_no_special, nth_u16|].
    unfold hex_group. rewrite !length_app. repeat case_decide; simpl; lia. }
  destruct (IH (S ze)) as [Ha1 Ha2]. destruct (IH (S i)) as [Hb1 Hb2].
  destruct (Hh ze) as [Hc1 Hc2]. destruct (Hh i) as [Hd1 Hd2].
  assert (percent ≠ colon) as Hpc by done.
  split.
  - repeat case_match; cbn [app];
      rewrite ?not_elem_of_cons, ?not_elem_of_app, ?not_elem_of_cons, ?not_elem_of_nil;
      auto using not_elem_of_nil.
  - repeat case_match; cbn [app length]; rewrite ?length_app; cbn [length]; lia.
Qed.

Lemma print_groups_special gs zs ze :
  length gs = 8 → Forall is_u16 gs →
  first_special (print_groups 9 0 gs zs ze) = Some colon.
Proof.
  intros Hlen Hall. cbn [print_groups]. change (Nat.leb 8 0) with false.
  change (Nat.ltb 0 0) with false. cbn iota.
  destruct (Nat.eqb 0 zs); [done|]. cbn [app].
  destruct (hex_group_no_special (nth 0 gs 0%Z)) as (H1 & H2 & H3); [by apply nth_u16|].
  change (Nat.leb 8 1) with false. change (Nat.ltb 0 1) with true. cbn iota.
  destruct (Nat.eqb 1 zs); cbn [app]; apply first_special_skip; auto.
Qed.

Lemma groups_u16 ip : Forall is_u16 (groups ip).
Proof.
  assert (∀ n ip, length ip ≤ n → Forall is_u16 (groups ip)) as H; [|by eapply H].
  induction n as [|n IH]; intros [|h [|l ip']] Hlen; cbn [groups length] in *;
    [constructor|lia|lia|constructor|constructor|constructor].
  - pose proof (Z_of_byte_bounds h). pose proof (Z_of_byte_bounds l). unfold is_u16. lia.
  - apply IH. lia.
Qed.

Lemma group_bytes_group h l : group_bytes (Z_of_byte h * 256 + Z_of_byte l) = [h; l].
Proof.
  unfold group_bytes. pose proof (Z_of_byte_bounds h). pose proof (Z_of_byte_bounds l).
  rewrite Z.div_add_l, (Z.div_small (Z_of_byte l)), Z.add_0_r by lia.
  rewrite byte_of_Z_of_byte. do 2 f_equal. rewrite <-(byte_of_Z_of_byte l).
  apply byte_of_Z_inj_mod. rewrite Z.add_comm, Z.mod_add by lia.
  by rewrite byte_of_Z_of_byte.
Qed.

Lemma parse_print_v6 ip : length ip = 16 → parse_v6 (print_v6 (groups ip)) = Some ip.
Proof.
  intros Hlen.
  do 16 (destruct ip as [|? ip]; [done|]). destruct ip; [|done]. clear Hlen.
  pose proof (groups_u16 [a; a0; a1; a2; a3; a4; a5; a6; a7; a8; a9; a10; a11; a12; a13; a14]) as Hu.
  unfold print_v6. destruct (zero_range _) as [zs ze] eqn:Hzr.
  pose proof (zero_range_ok (groups [a; a0; a1; a2; a3; a4; a5; a6; a7; a8; a9; a10; a11; a12; a13; a14]) eq_refl) as Hok.
  rewrite Hzr in Hok. cbn [fst snd] in Hok. cbn [groups] in Hok, Hu |- *.
  rewrite parse_print_groups by done. cbn [mbind list_bind].
  by rewrite !group_bytes_group.
Qed.

Lemma To4_length ip ip4 : To4 ip = Some ip4 → length ip4 = 4.
Proof.
  unfold To4. case_decide; [by intros [= <-]|]. case_decide as Hd; [|done].
  intros [= <-]. rewrite length_drop. lia.
Qed.

Lemma To4_Some_cons ip ip4 :
  To4 ip = Some ip4 → ∃ a b c d, ip4 = [a; b; c; d].
Proof.
  intros Hl%To4_length. do 4 (destruct ip4 as [|? ip4]; [done|]). destruct ip4; [|done]. eauto.
Qed.

Lemma To4_To16 ip ip4 : To4 ip = Some ip4 → To16 ip = Some (v4InV6Prefix ++ ip4).
Proof.
  unfold To4, To16. case_decide; [by intros [= <-]|]. case_decide as Hd; [|done].
  destruct Hd as [Hl Hp]. intros [= <-]. rewrite decide_True by done.
  by rewrite <-Hp, take_drop.
Qed.

(** A printed address is read back as one of its family. *)
Lemma netip_ParseAddr_IP ip : length ip = 4 ∨ length ip = 16 →
  netip_ParseAddr (IP_bytes ip) = Some (match To4 ip with Some ip4 => Addr4 ip4 | None => Addr6 ip [] end).
Proof.
  intros Hlen. unfold IP_bytes. destruct (To4 ip) as [ip4|] eqn:H4.
  - destruct (To4_Some_cons _ _ H4) as (a & b & c & d & ->). unfold netip_ParseAddr.
    destruct (dec_octet_spec a) as (n & _ & _ & H1 & H2 & H3).
    assert (first_special (print_v4 a b c d) = Some dot) as -> by (unfold print_v4; apply first_special_skip; auto).
    change (Some dot) with (Some "."%char). by rewrite parse_v4_print.
  - assert (length ip = 16) as Hl.
    { destruct Hlen as [Hl|]; [|done]. unfold To4 in H4. by rewrite decide_True in H4. }
    rewrite decide_True by done. unfold netip_ParseAddr.
    pose proof (parse_print_v6 ip Hl) as Hp. unfold print_v6 in *.
    destruct (zero_range (groups ip)) as [zs ze].
    assert (length (groups ip) = 8) as Hg.
    { do 16 (destruct ip as [|? ip]; [done|]). by destruct ip. }
    rewrite print_groups_special by (done || apply groups_u16).
    change (Some colon) with (Some ":"%char). cbn iota.
    assert (cut percent (print_groups 9 0 (groups ip) zs ze) = None) as ->.
    { destruct (print_groups_chars 9 0 (groups ip) zs ze (groups_u16 ip)) as [Hpc _].
      revert Hpc. generalize (print_groups 9 0 (groups ip) zs ze). intros s Hpc.
      induction s as [|c s IH]; [done|]. cbn [cut].
      apply not_elem_of_cons in Hpc as [Hne Hpc]. rewrite decide_False by congruence.
      by rewrite IH. }
    by rewrite Hp.
Qed.

(** An address is read back as its 16-byte form. *)
Lemma net_ParseIP_IP_bytes ip :
  length ip = 4 ∨ length ip = 16 → net_ParseIP (IP_bytes ip) = To16 ip.
Proof.
  intros Hlen. unfold net_ParseIP. rewrite netip_ParseAddr_IP by done.
  destruct (To4 ip) as [ip4|] eqn:H4.
  - rewrite (To4_To16 ip ip4 H4). unfold To16. by rewrite decide_True by (by eapply To4_length).
  - unfold To16. destruct Hlen as [Hl|Hl]; [by unfold To4 in H4; rewrite decide_True in H4|].
    by rewrite decide_False, decide_True by lia.
Qed.

Lemma IP_bytes_nonempty ip : IP_bytes ip ≠ [].
Proof.
  unfold IP_bytes. destruct (To4 ip) as [ip4|] eqn:H4.
  - destruct (To4_Some_cons _ _ H4) as (a & b & c & d & ->). apply dec_octet_app_nonempty.
  - case_decide; [|by case_decide].
    unfold print_v6. destruct (zero_range _) as [zs ze]. cbn [print_groups].
    change (Nat.leb 8 0) with false. cbn iota. destruct (Nat.eqb 0 zs); [done|].
    destruct (hex_group_cons (nth 0 (groups ip) 0%Z)) as (c & t & v & -> & _); [|done].
    by apply (nth_u16 _ _ (groups_u16 ip)).
Qed.

Lemma dec_octet_length b : length (dec_octet b) ≤ 3.
Proof.
  assert (Nat.leb (length (dec_octet (byte_of_Z (Z_of_byte b)))) 3 = true) as H.
  { apply (Z_range_check (λ z, Nat.leb (length (dec_octet (byte_of_Z z))) 3) 0 256);
      [by_compute|apply (Z_of_byte_bounds b)]. }
  rewrite byte_of_Z_of_byte in H. by apply Nat.leb_le.
Qed.

Lemma IP_bytes_length ip : length ip = 4 ∨ length ip = 16 → length (IP_bytes ip) ≤ 54.
Proof.
  intros Hlen. unfold IP_bytes. destruct (To4 ip) as [ip4|] eqn:H4.
  - destruct (To4_Some_cons _ _ H4) as (a & b & c & d & ->). unfold print_v4.
    repeat (rewrite length_app || cbn [length]).
    pose proof (dec_octet_length a). pose proof (dec_octet_length b).
    pose proof (dec_octet_length c). pose proof (dec_octet_length d). lia.
  - rewrite decide_True.
    + unfold print_v6. destruct (zero_range _) as [zs ze].
      apply (print_groups_chars 9 0 (groups ip) zs ze (groups_u16 ip)).
    + destruct Hlen as [Hl|]; [|done]. unfold To4 in H4. by rewrite decide_True in H4.
Qed.

(** [UnmarshalText] reads back what [MarshalText] writes, in 16-byte form. *)
Lemma IP_Unmarshal_Marshal ip text :
  IP_MarshalText ip = Ok text →
  IP_UnmarshalText text = Ok (default [] (To16 ip)) ∧ length text ≤ 54.
Proof.
  unfold IP_MarshalText, IP_UnmarshalText. case_decide as H0.
  - intros [= <-]. destruct ip; [|done]. split; [done|cbn; lia].
  - case_decide as Hd; [done|]. intros [= <-].
    assert (length ip = 4 ∨ length ip = 16) as Hl by lia.
    split; [|by apply IP_bytes_length].
    rewrite decide_False by (by intros ?%length_zero_iff_nil; apply (IP_bytes_nonempty ip)).
    rewrite net_ParseIP_IP_bytes by done. unfold To16.
    repeat case_decide; naive_solver lia.
Qed.

(** ** Addresses *)

(** [net.UDPAddr] *)
Record UDPAddr := mkUDPAddr {
  ua_IP : list Ascii.ascii;
  ua_Port : Z;
  ua_Zone : string
}.

Global Instance UDPAddr_eq_dec : EqDecision UDPAddr.
Proof. solve_decision. Defined.

(** [net.Addr]: a [*net.UDPAddr], or another implementation of the interface,
    known by its [Network()] and [String()]. *)
Inductive netAddr :=
| AUDP (a : UDPAddr)
| AOther (network str : string).

Global Instance netAddr_eq_dec : EqDecision netAddr.
Proof. solve_decision. Defined.

(** [net.JoinHostPort] *)
Definition net_JoinHostPort (host port : string) : string :=
  if char_in colon host then "[" +:+ host +:+ "]:" +:+ port else host +:+ ":" +:+ port.

(** [addr.String()] *)
Definition UDPAddr_String (a : UDPAddr) : string :=
  let ip := match ua_IP a with [] => EmptyString | _ => IP_String (ua_IP a) end in
  let host := match ua_Zone a with EmptyString => ip | z => ip +:+ "%" +:+ z end in
  net_JoinHostPort host (strconv_Itoa (ua_Port a)).

Definition netAddr_String (a : netAddr) : string :=
  match a with AUDP u => UDPAddr_String u | AOther _ s => s end.

(** The bytes before and after the last [c]. *)
Definition cut_last (c : Ascii.ascii) (s : list Ascii.ascii) :
    option (list Ascii.ascii * list Ascii.ascii) :=
  '(l, r) ← cut c (reverse s); Some (reverse r, reverse l).

(** [net.SplitHostPort] *)
Definition net_SplitHostPort (hostport : string) : res (string * string) :=
  let bad msg := Err (Errorf ("address " +:+ hostport +:+ ": " +:+ msg)) in
  let s := bytes_of_string hostport in
  match cut_last colon s with
  | None => bad "missing port in address"
  | Some (before, port) =>
      let finish (host tail_open tail_close : list Ascii.ascii) :=
        if bool_decide ("["%char ∈ tail_open) then bad "unexpected '[' in address"
        else if bool_decide ("]"%char ∈ tail_close) then bad "unexpected ']' in address"
        else Ok (string_of_bytes host, string_of_bytes port) in
      match s with
      | "["%char :: s' =>
          match cut "]"%char s' with
          | None => bad "missing ']' in address"
          | Some (host, after) =>
              match after with
              | [] => bad "missing port in address"
              | c :: after' =>
                  if decide (c = colon ∧ after' = port) then finish host s' after
                  else if decide (c = colon) then bad "too many colons in address"
                  else bad "missing port in address"
              end
          end
      | _ => if bool_decide (colon ∈ before) then bad "too many colons in address"
             else finish before s s
      end
  end.
