(* ===== verification/GoText.v ===== *)
(** * Lines, words and paths

    The parts of Go's [bufio], [strings] and [path/filepath] that the readers of
    the kernel's files and of command output use. *)
From Stdlib Require Import Ascii.
From S2P Require Import Prelude GoStrings GoNet.

(** ** [bufio.Scanner] with [bufio.ScanLines]

    A line ends at a newline, which is dropped with a carriage return before
    it; text after the last newline is a line too. A line of 65536 bytes or
    more stops the scan with an error. *)
Definition newline : Ascii.ascii := "010"%char.
Definition drop_cr (s : string) : string := strings_TrimSuffix s (String "013"%char EmptyString).
Definition bufio_ErrTooLong : error := Sentinel "bufio.Scanner: token too long".
Definition MaxScanTokenSize : Z := 65536.

Fixpoint raw_lines (ls : list string) : list string :=
  match ls with
  | [] | [EmptyString] => []
  | l :: ls => l :: raw_lines ls
  end.
Fixpoint scan_tokens (ls : list string) : list string * option error :=
  match ls with
  | [] => ([], None)
  | l :: ls =>
      if (Z.of_nat (String.length l) <? MaxScanTokenSize)%Z
      then let '(ts, e) := scan_tokens ls in (drop_cr l :: ts, e)
      else ([], Some bufio_ErrTooLong)
  end.
Definition bufio_Lines (text : string) : list string * option error :=
  scan_tokens (raw_lines (strings_Split text newline)).

(** [for scanner.Scan() { ... break }; if err := scanner.Err(); err != nil]: the
    first line [f] makes something of, or an error. *)
Fixpoint first_line {A} (f : string → res (option A)) (ls : list string) : res (option A) :=
  match ls with
  | [] => Ok None
  | l :: ls => match f l with
               | Ok None => first_line f ls
               | r => r
               end
  end.
Definition scan_for {A} (f : string → res (option A)) (text : string) : res (option A) :=
  let '(ls, err) := bufio_Lines text in
  match first_line f ls with
  | Ok None => match err with Some e => Err e | None => Ok None end
  | r => r
  end.

(** ** Cutting at a character *)

Lemma cut_Some c s l r : cut c s = Some (l, r) → s = l ++ c :: r ∧ c ∉ l.
Proof.
  revert l r. induction s as [|d s IH]; intros l r; [done|]. cbn [cut].
  destruct (decide (d = c)) as [->|Hd]; [intros [= <- <-]; split; [done|apply not_elem_of_nil]|].
  destruct (cut c s) as [[a b]|] eqn:Hc; [|done]. cbn. intros [= <- <-].
  destruct (IH a b eq_refl) as [-> Hn]. split; [done|]. by apply not_elem_of_cons.
Qed.

Lemma cut_app c l r : c ∉ l → cut c (l ++ c :: r) = Some (l, r).
Proof.
  induction l as [|d l IH]; cbn [app cut]; [by rewrite decide_True|].
  intros [Hd Hl]%not_elem_of_cons. rewrite decide_False by congruence. by rewrite IH.
Qed.

Lemma cut_None c s : cut c s = None ↔ c ∉ s.
Proof.
  split.
  - induction s as [|d s IH]; [intros _; apply not_elem_of_nil|]. cbn [cut].
    destruct (decide (d = c)); [done|]. destruct (cut c s) as [[]|]; [done|]. intros _.
    apply not_elem_of_cons. auto.
  - intros Hc. destruct (cut c s) as [[l r]|] eqn:Hs; [|done]. apply cut_Some in Hs as [-> _]. set_solver.
Qed.

Lemma cut_last_Some c s l r : cut_last c s = Some (l, r) → s = l ++ c :: r ∧ c ∉ r.
Proof.
  unfold cut_last. destruct (cut c (reverse s)) as [[a b]|] eqn:Hc; [|done]. intros [= <- <-].
  apply cut_Some in Hc as [Hs Ha]. split; [|by rewrite elem_of_reverse].
  rewrite <-(reverse_involutive s), Hs, reverse_app, reverse_cons, <-app_assoc. done.
Qed.

Lemma cut_last_None c s : cut_last c s = None ↔ c ∉ s.
Proof.
  unfold cut_last. rewrite <-elem_of_reverse, <-cut_None. by destruct (cut c (reverse s)) as [[]|].
Qed.

Lemma cut_last_app c l r : c ∉ r → cut_last c (l ++ c :: r) = Some (l, r).
Proof.
  intros Hr. unfold cut_last. rewrite reverse_app, reverse_cons, <-app_assoc. cbn [app].
  rewrite cut_app by (by rewrite elem_of_reverse). cbn. by rewrite !reverse_involutive.
Qed.

Lemma string_of_bytes_app l r : string_of_bytes (l ++ r) = string_of_bytes l +:+ string_of_bytes r.
Proof. induction l as [|c l IH]; [done|]. cbn [app String.string_of_list_ascii]. by rewrite IH. Qed.

Lemma string_length_bytes s : String.length s = length (bytes_of_string s).
Proof. induction s as [|c s IH]; [done|]. cbn [String.length String.list_ascii_of_string length]. by rewrite IH. Qed.

Lemma strings_TrimSuffix_app s p : strings_TrimSuffix (s +:+ p) p = s.
Proof.
  unfold strings_TrimSuffix. assert (str_rev (s +:+ p) = str_rev p +:+ str_rev s) as ->.
  { unfold str_rev. by rewrite bytes_of_string_app, reverse_app, string_of_bytes_app. }
  by rewrite strings_TrimPrefix_app, str_rev_involutive.
Qed.

(** The longest prefix of bytes that satisfy a test. *)
Fixpoint span (f : Ascii.ascii → bool) (s : list Ascii.ascii) : list Ascii.ascii * list Ascii.ascii :=
  match s with
  | c :: s' => if f c then (c :: (span f s').1, (span f s').2) else ([], s)
  | [] => ([], [])
  end.
Lemma span_app f (s r : list Ascii.ascii) :
  forallb f s = true → match r with c :: _ => f c = false | [] => True end → span f (s ++ r) = (s, r).
Proof.
  intros Hs Hr. induction s as [|c s IH]; cbn [app span].
  - destruct r as [|c r]; [done|]. cbn. by rewrite Hr.
  - cbn in Hs. apply andb_true_iff in Hs as [-> Hs]. by rewrite (IH Hs).
Qed.

(** ** Words *)

Definition space : Ascii.ascii := " "%char.
Definition is_word (s : string) : bool := no_space s && negb (bool_decide (s = EmptyString)).

Lemma fields_aux_word w acc t : no_space w = true →
  fields_aux acc (w +:+ t) = fields_aux (str_rev w +:+ acc) t.
Proof.
  revert acc. induction w as [|c w IH]; intros acc; [done|].
  cbn [no_space]. intros [Hc Hw]%andb_true_iff. apply negb_true_iff in Hc.
  rewrite str_app_cons. cbn [fields_aux]. rewrite Hc, IH by done. f_equal.
  unfold str_rev. rewrite <-(string_of_bytes_of_string (_ +:+ String c acc)), <-(string_of_bytes_of_string (_ +:+ acc)).
  rewrite !bytes_of_string_app, !bytes_of_string_of_bytes. cbn [String.list_ascii_of_string].
  by rewrite reverse_cons, <-app_assoc.
Qed.

Lemma str_rev_nil w : str_rev w = EmptyString → w = EmptyString.
Proof. intros Hw. rewrite <-(str_rev_involutive w), Hw. done. Qed.

(** Words joined with spaces are split again. *)
Lemma strings_Fields_Join ws : Forall (λ w, is_word w = true) ws →
  strings_Fields (strings_Join ws " ") = ws.
Proof.
  assert (∀ w t, is_word w = true → fields_aux EmptyString (w +:+ String space t) = w :: fields_aux EmptyString t) as Hsp.
  { intros w t [Hw Hne]%andb_true_iff. rewrite fields_aux_word by done. rewrite str_app_nil_r. cbn [fields_aux].
    change (is_space space) with true. cbn iota. destruct (str_rev w) eqn:Hr; [by apply str_rev_nil in Hr; subst|].
    rewrite <-Hr. by rewrite str_rev_involutive. }
  unfold strings_Fields. induction 1 as [|w ws Hw Hws IH]; [done|].
  destruct ws as [|w' ws].
  - cbn [strings_Join]. rewrite <-(str_app_nil_r w) at 1. apply andb_true_iff in Hw as [Hw Hne].
    rewrite fields_aux_word, str_app_nil_r by done. cbn [fields_aux].
    destruct (str_rev w) eqn:Hr; [by apply str_rev_nil in Hr; subst|]. by rewrite <-Hr, str_rev_involutive.
  - change (strings_Join (w :: w' :: ws) " ") with (w +:+ String space (strings_Join (w' :: ws) " ")).
    rewrite Hsp by done. by rewrite IH.
Qed.

(** What was joined is split again. *)
Lemma strings_Split_Join sep ws : ws ≠ [] → Forall (λ w, char_in sep w = false) ws →
  strings_Split (strings_Join ws (String sep EmptyString)) sep = ws.
Proof.
  intros Hne Hws. induction Hws as [|w ws Hw Hws IH]; [done|]. destruct ws as [|w' ws].
  - by apply strings_Split_no_sep.
  - change (strings_Join (w :: w' :: ws) (String sep EmptyString)) with
      (w +:+ String sep (strings_Join (w' :: ws) (String sep EmptyString))).
    rewrite strings_Split_app by done. by rewrite IH.
Qed.

(** [strings.Trim(s, cutset)], the cutset as a test. *)
Fixpoint trim_left_of (f : Ascii.ascii → bool) (s : string) : string :=
  match s with
  | EmptyString => EmptyString
  | String c s' => if f c then trim_left_of f s' else s
  end.
Definition strings_Trim (f : Ascii.ascii → bool) (s : string) : string :=
  str_rev (trim_left_of f (str_rev (trim_left_of f s))).

Lemma str_rev_app s t : str_rev (s +:+ t) = str_rev t +:+ str_rev s.
Proof. unfold str_rev. by rewrite bytes_of_string_app, reverse_app, string_of_bytes_app. Qed.

Lemma trim_left_of_word f w t : is_word w = true → (∀ c, f c = true → is_space c = true) →
  trim_left_of f (w +:+ t) = w +:+ t.
Proof.
  intros [Hw Hne]%andb_true_iff Hf. destruct w as [|c w]; [done|]. rewrite str_app_cons. cbn [trim_left_of no_space] in *.
  apply andb_true_iff in Hw as [Hc _]. apply negb_true_iff in Hc. destruct (f c) eqn:Hfc; [|done].
  rewrite (Hf c Hfc) in Hc. done.
Qed.
Lemma is_word_rev w : is_word w = true → is_word (str_rev w) = true.
Proof.
  unfold is_word. rewrite !andb_true_iff, no_space_rev, !negb_true_iff, !bool_decide_eq_false.
  intros [Hw Hne]. split; [done|]. by intros ?%str_rev_nil.
Qed.

(** Words joined with spaces have no space at either end. *)
Lemma strings_Join_ends ws : ws ≠ [] → Forall (λ w, is_word w = true) ws →
  (∃ w t, is_word w = true ∧ strings_Join ws " " = w +:+ t) ∧ (∃ t w, is_word w = true ∧ strings_Join ws " " = t +:+ w).
Proof.
  intros Hne Hws. induction Hws as [|w ws Hw Hws IH]; [done|]. destruct ws as [|w' ws].
  - split; [exists w, EmptyString|exists EmptyString, w]; (split; [done|]); [by rewrite str_app_nil_r|done].
  - change (strings_Join (w :: w' :: ws) " ") with (w +:+ (String space (strings_Join (w' :: ws) " "))).
    destruct (IH ltac:(done)) as [_ (t&v&Hv&Heq)]. split; [eauto|].
    exists (w +:+ String space t), v. split; [done|]. by rewrite Heq, str_app_assoc.
Qed.
Lemma strings_Trim_Join f ws : Forall (λ w, is_word w = true) ws → (∀ c, f c = true → is_space c = true) →
  strings_Trim f (strings_Join ws " ") = strings_Join ws " ".
Proof.
  intros Hws Hf. destruct (decide (ws = [])) as [->|Hne]; [done|].
  destruct (strings_Join_ends ws Hne Hws) as [(w&t&Hw&H1) (t2&w2&Hw2&H2)]. unfold strings_Trim.
  rewrite H1, trim_left_of_word, <-H1, H2, str_rev_app, trim_left_of_word, <-str_rev_app by (done || by apply is_word_rev).
  apply str_rev_involutive.
Qed.

(** Lines written one after the other are read back. *)
Definition text_of (ls : list string) : string :=
  foldr (λ l t, l +:+ String newline t) EmptyString ls.
Definition is_line (l : string) : Prop :=
  char_in newline l = false ∧ (Z.of_nat (String.length l) < MaxScanTokenSize)%Z ∧ drop_cr l = l.

Lemma bufio_Lines_text_of ls : Forall is_line ls → bufio_Lines (text_of ls) = (ls, None).
Proof.
  unfold bufio_Lines. induction 1 as [|l ls (Hnl&Hlen&Hcr) _ IH]; [done|].
  cbn [text_of foldr]. rewrite strings_Split_app by done. fold (text_of ls).
  pose proof (strings_Split_nonempty (text_of ls) newline) as Hne.
  destruct (strings_Split (text_of ls) newline) as [|l' ls'] eqn:Hs; [done|].
  assert (raw_lines (l :: l' :: ls') = l :: raw_lines (l' :: ls')) as -> by by destruct l.
  cbn [scan_tokens]. apply Z.ltb_lt in Hlen. rewrite Hlen, IH. by rewrite Hcr.
Qed.

Lemma scan_for_text_of {A} (f : string → res (option A)) ls :
  Forall is_line ls → scan_for f (text_of ls) = first_line f ls.
Proof.
  intros Hls. unfold scan_for. rewrite bufio_Lines_text_of by done.
  by destruct (first_line f ls) as [[]| |].
Qed.

(** ** Paths *)

Definition slash : Ascii.ascii := "/"%char.
Definition period : Ascii.ascii := "."%char.

(** [filepath.Clean], on the elements between the slashes, the last first. *)
Definition clean_step (rooted : bool) (out : list string) (x : string) : list string :=
  match x with
  | EmptyString | "." => out
  | ".." => match out with
            | [] => if rooted then [] else [".."]
            | ".." :: _ => ".." :: out
            | _ :: out => out
            end
  | _ => x :: out
  end.
Definition filepath_Clean (p : string) : string :=
  let rooted := strings_HasPrefix p "/" in
  let out := strings_Join (reverse (foldl (clean_step rooted) [] (strings_Split p slash))) "/" in
  if rooted then "/" +:+ out else match out with EmptyString => "." | _ => out end.

(** [filepath.Join] of two elements. *)
Definition filepath_Join (a b : string) : string :=
  match a, b with
  | EmptyString, EmptyString => EmptyString
  | EmptyString, p | p, EmptyString => filepath_Clean p
  | _, _ => filepath_Clean (a +:+ "/" +:+ b)
  end.

(** [filepath.Base]: without trailing slashes, what follows the last one. *)
Fixpoint trim_slashes (r : list Ascii.ascii) : list Ascii.ascii :=
  match r with
  | "/"%char :: r => trim_slashes r
  | _ => r
  end.
Definition filepath_Base (p : string) : string :=
  match p with
  | EmptyString => "."
  | _ =>
      let s := reverse (trim_slashes (reverse (bytes_of_string p))) in
      match (match cut_last slash s with Some (_, f) => f | None => s end) with
      | [] => "/"
      | f => string_of_bytes f
      end
  end.

(** [filepath.Ext]: from the last period of the last element. *)
Definition filepath_Ext (p : string) : string :=
  let s := bytes_of_string p in
  let s := match cut_last slash s with Some (_, f) => f | None => s end in
  match cut_last period s with
  | Some (_, e) => string_of_bytes (period :: e)
  | None => EmptyString
  end.

(** [strings.ReplaceAll] of one character. *)
Definition replace_char (a b : Ascii.ascii) (s : string) : string :=
  string_of_bytes (map (λ c, if decide (c = a) then b else c) (bytes_of_string s)).

(** The last element of a path holds no slash, but for the root. *)
Lemma filepath_Base_no_slash p : filepath_Base p ≠ "/" → slash ∉ bytes_of_string (filepath_Base p).
Proof.
  unfold filepath_Base. destruct p as [|c p]; [intros _; apply (bool_decide_unpack _); vm_compute; exact I|].
  set (s := reverse _).
  destruct (cut_last slash s) as [[d f]|] eqn:Hc.
  - apply cut_last_Some in Hc as [_ Hf]. destruct f; [done|]. intros _. by rewrite bytes_of_string_of_bytes.
  - apply cut_last_None in Hc. destruct s; [done|]. intros _. by rewrite bytes_of_string_of_bytes.
Qed.
