(* ===== verification/NetEnv.v ===== *)
(** * [util/net/net.go], [iface/netstack/env.go]

    The switches read from the environment: netstack mode, custom routing, and
    the address of the SOCKS5 listener. *)
From S2P Require Import Prelude GoStrings.

Definition NetbirdFwmark : Z := 0x1BD00.
Definition envDisableCustomRouting : string := "NB_DISABLE_CUSTOM_ROUTING".
Definition DefaultSocks5Port : Z := 1080.

Section env.
Variable getenv : string → string.

(** [netstack.IsEnabled()] *)
Definition netstack_IsEnabled : bool := bool_decide (getenv "NB_USE_NETSTACK_MODE" = "true").

Definition CustomRoutingDisabled : bool :=
  netstack_IsEnabled || bool_decide (getenv envDisableCustomRouting = "true").

Definition listenAddr (port : Z) : string := "0.0.0.0:" +:+ strconv_Itoa port.

(** [netstack.ListenAddr()] *)
Definition ListenAddr : string :=
  match strconv_Atoi (getenv "NB_SOCKS5_LISTENER_PORT") with
  | Ok port => if bool_decide (port < 1 ∨ 65535 < port)%Z then listenAddr DefaultSocks5Port else listenAddr port
  | _ => listenAddr DefaultSocks5Port
  end.
End env.
