(* ===== verification/NetHooks.v ===== *)
(** * [util/net/]: marked sockets with hooks

    Dialers and listeners whose sockets are kept out of the VPN: on Linux they
    carry the firewall mark, on Android they are handed to the app. Registered
    hooks are called before dialing, at the first packet to an address, and after
    closing. Sockets, name resolution and the hooks themselves are the host's;
    hooks and the app's function are known by a number. *)
From Stdlib Require Import Ascii.
From S2P Require Import Prelude Host GoStrings GoNet NetEnv.

Inductive conn_kind := KUDP | KTCP | KOther.
Record sock := mkSock { sk_fd : Z; sk_kind : conn_kind }.

Inductive net_event :=
| EvUUID
| EvLookup (host : string)
| EvDialHook (h : nat) (id : string) (ips : list (list Ascii.ascii))
| EvSocket (network address : string)
| EvSetsockopt (fd mark : Z)
| EvProtect (f : nat) (fd : Z)
| EvConnect (s : sock) (address : string)
| EvBind (s : sock) (address : string)
| EvClose (s : sock)
| EvDialCloseHook (h : nat) (id : string) (s : sock)
| EvResolve (host : string)
| EvWriteHook (h : nat) (id : string) (ip : list Ascii.ascii) (b : list Ascii.ascii)
| EvWrite (s : sock) (b : list Ascii.ascii) (addr : netAddr)
| EvListenCloseHook (h : nat) (id : string) (s : sock).

Global Instance conn_kind_eq_dec : EqDecision conn_kind.
Proof. solve_decision. Defined.
Global Instance sock_eq_dec : EqDecision sock.
Proof. solve_decision. Defined.
Global Instance net_event_eq_dec : EqDecision net_event.
Proof. solve_decision. Defined.

(** The lists of hooks, which the package keeps under their own mutexes. A slice
    that was appended to is not [nil]. *)
Record hooks := mkHooks {
  dialerDialHooks : list nat;
  dialerCloseHooks : list nat;
  listenerWriteHooks : list nat;
  listenerCloseHooks : list nat;
  androidProtectSocket : option nat
}.
Definition AddDialerHook (h : nat) (k : hooks) : hooks :=
  mkHooks (dialerDialHooks k ++ [h]) (dialerCloseHooks k) (listenerWriteHooks k) (listenerCloseHooks k) (androidProtectSocket k).
Definition AddDialerCloseHook (h : nat) (k : hooks) : hooks :=
  mkHooks (dialerDialHooks k) (dialerCloseHooks k ++ [h]) (listenerWriteHooks k) (listenerCloseHooks k) (androidProtectSocket k).
Definition AddListenerWriteHook (h : nat) (k : hooks) : hooks :=
  mkHooks (dialerDialHooks k) (dialerCloseHooks k) (listenerWriteHooks k ++ [h]) (listenerCloseHooks k) (androidProtectSocket k).
Definition AddListenerCloseHook (h : nat) (k : hooks) : hooks :=
  mkHooks (dialerDialHooks k) (dialerCloseHooks k) (listenerWriteHooks k) (listenerCloseHooks k ++ [h]) (androidProtectSocket k).
Definition RemoveDialerHooks (k : hooks) : hooks :=
  mkHooks [] [] (listenerWriteHooks k) (listenerCloseHooks k) (androidProtectSocket k).
Definition RemoveListenerHooks (k : hooks) : hooks :=
  mkHooks (dialerDialHooks k) (dialerCloseHooks k) [] [] (androidProtectSocket k).
(** On Android, the app's function that protects a socket. *)
Definition SetAndroidProtectSocketFn (f : option nat) (k : hooks) : hooks :=
  mkHooks (dialerDialHooks k) (dialerCloseHooks k) (listenerWriteHooks k) (listenerCloseHooks k) f.

(** The systems the control functions are built for. *)
Inductive sock_os := OsLinux | OsAndroid | OsOther.

Class NetHost := {
  nh_os : sock_os;
  nh_getenv : string → string;
  nh_uuid : list net_event → string;
  nh_lookup : list net_event → string → res (list (list Ascii.ascii));
  nh_resolve : list net_event → string → res (list Ascii.ascii);
  nh_hook : list net_event → nat → res unit;
  nh_socket : list net_event → string → string → res sock;
  nh_setsockopt : list net_event → Z → Z → res unit;
  nh_protect : list net_event → nat → Z → bool;
  nh_connect : list net_event → sock → res unit;
  nh_bind : list net_event → sock → res unit;
  nh_close : list net_event → sock → res unit;
  nh_write : list net_event → sock → list Ascii.ascii → netAddr → res Z
}.

Section net.
Context {N : NetHost}.

Definition GenerateConnID : Host net_event string := call EvUUID (λ log, Ok (nh_uuid log)).

(** ** The mark *)

Definition SetSocketOpt (fd : Z) : Host net_event unit :=
  if CustomRoutingDisabled nh_getenv then mret tt
  else call (EvSetsockopt fd NetbirdFwmark) (λ log, nh_setsockopt log fd NetbirdFwmark).
(** [SetRawSocketMark(conn)]: [control] is what running a function on the file
    descriptor returns. *)
Definition SetRawSocketMark (control : res unit) (fd : Z) : Host net_event unit :=
  setErr ← try (SetSocketOpt fd);
  _ ← wrap_call "control: " (lift control);
  match setErr with
  | inl _ => mret tt
  | inr e => lift (Err (Wrapf "set SO_MARK: " e EmptyString))
  end.
Definition SetSocketMark (sysconn : res Z) : Host net_event unit :=
  fd ← wrap_call "get raw conn: " (lift sysconn);
  SetRawSocketMark (Ok tt) fd.

(** The app's function, if it has set one; its refusal is only logged. *)
Definition protect_socket (k : hooks) (fd : Z) : Host net_event unit :=
  match androidProtectSocket k with
  | None => mret tt
  | Some f => _ ← call (EvProtect f fd) (λ log, Ok (nh_protect log f fd)); mret tt
  end.

(** [Dialer.init] and [ListenerConfig.init]: the control function runs on a new
    socket before it is connected or bound; when it fails [net] closes the
    socket. *)
Definition dialer_init (k : hooks) (s : sock) : Host net_event unit :=
  match nh_os with
  | OsLinux => SetRawSocketMark (Ok tt) (sk_fd s)
  | OsAndroid => protect_socket k (sk_fd s)
  | OsOther => mret tt
  end.
Definition listener_init (k : hooks) (s : sock) : Host net_event unit :=
  match nh_os with
  | OsLinux => SetRawSocketMark (Ok tt) (sk_fd s)
  | OsAndroid => protect_socket k (sk_fd s)
  | OsOther => mret tt
  end.
Definition close_quietly (s : sock) : Host net_event unit :=
  _ ← try (call (EvClose s) (λ log, nh_close log s)); mret tt.
Definition net_open (control : sock → Host net_event unit) (network address : string)
    (attach : sock → Host net_event unit) : Host net_event sock :=
  s ← call (EvSocket network address) (λ log, nh_socket log network address);
  _ ← undo_on_error (close_quietly s) (_ ← control s; attach s);
  mret s.
Definition connect (address : string) (s : sock) : Host net_event unit :=
  call (EvConnect s address) (λ log, nh_connect log s).
Definition bind (address : string) (s : sock) : Host net_event unit :=
  call (EvBind s address) (λ log, nh_bind log s).

(** ** Dialing *)

(** Every hook is called, whatever the others returned. *)
Fixpoint run_hooks (ev : nat → net_event) (hs : list nat) : Host net_event (list error) :=
  match hs with
  | [] => mret []
  | h :: hs =>
      r ← try (call (ev h) (λ log, nh_hook log h));
      errs ← run_hooks ev hs;
      mret (match r with inl _ => errs | inr e => e :: errs end)
  end.

Definition callDialerHooks (k : hooks) (connID address : string) : Host net_event unit :=
  '(host, _) ← wrap_call "split host and port: " (lift (net_SplitHostPort address));
  ips ← wrap_call ("failed to resolve address " +:+ address +:+ ": ")
          (call (EvLookup host) (λ log, nh_lookup log host));
  errs ← run_hooks (λ h, EvDialHook h connID ips) (dialerDialHooks k);
  match errs with
  | [] => mret tt
  | e :: _ => lift (Err (Wrapf "executing dial hook: " e EmptyString))
  end.

(** What a dialer returns: a [*Conn] around a connection, or the connection. *)
Inductive dialed := Plain (s : sock) | WithHooks (id : string) (s : sock).

Definition DialContext (k : hooks) (network address : string) : Host net_event dialed :=
  if CustomRoutingDisabled nh_getenv then s ← net_open (dialer_init k) network address (connect address); mret (Plain s)
  else
    connID ← GenerateConnID;
    _ ← (match dialerDialHooks k with
         | [] => mret tt
         | _ => _ ← try (callDialerHooks k connID address); mret tt
         end);
    s ← wrap_call "dial: " (net_open (dialer_init k) network address (connect address));
    mret (WithHooks connID s).
Definition Dial := DialContext.

(** [Conn.Close()], and that of a connection without hooks. *)
Definition dialed_Close (k : hooks) (c : dialed) : Host net_event unit :=
  match c with
  | Plain s => call (EvClose s) (λ log, nh_close log s)
  | WithHooks id s =>
      err ← try (call (EvClose s) (λ log, nh_close log s));
      _ ← run_hooks (λ h, EvDialCloseHook h id s) (dialerCloseHooks k);
      match err with inl _ => mret tt | inr e => lift (Err e) end
  end.

(** [DialUDP] and [DialTCP]: the wrapper is taken off again. *)
Definition dial_kind (kind : conn_kind) (what : string) (k : hooks) (network raddr : string) : Host net_event sock :=
  if CustomRoutingDisabled nh_getenv then net_open (λ _, mret tt) network raddr (connect raddr)
  else
    conn ← wrap_call ("dialing " +:+ what +:+ " " +:+ raddr +:+ ": ") (Dial k network raddr);
    match conn with
    | Plain _ => lift Panic
    | WithHooks id s =>
        if bool_decide (sk_kind s = kind) then mret s
        else _ ← try (dialed_Close k conn);
             lift (Err (Errorf ("expected " +:+ what +:+ " connection, got different type: *net.Conn")))
    end.
Definition DialUDP (k : hooks) (network : string) (raddr : UDPAddr) := dial_kind KUDP "UDP" k network (UDPAddr_String raddr).
Definition DialTCP (k : hooks) (network raddr : string) := dial_kind KTCP "TCP" k network raddr.

(** ** Listening *)

(** A [*PacketConn] or [*UDPConn]: the addresses written to so far. *)
Record packet_conn := mkPacketConn { pc_sock : sock; pc_ID : string; pc_seen : gset string }.
Inductive listened := PlainListener (s : sock) | Hooked (c : packet_conn).

Definition ListenPacket (k : hooks) (network address : string) : Host net_event listened :=
  if CustomRoutingDisabled nh_getenv then s ← net_open (listener_init k) network address (bind address); mret (PlainListener s)
  else
    s ← wrap_call "listen packet: " (net_open (listener_init k) network address (bind address));
    connID ← GenerateConnID;
    mret (Hooked (mkPacketConn s connID ∅)).

(** [callWriteHooks]: an address counts as seen whether or not it resolves. *)
Definition callWriteHooks (k : hooks) (c : packet_conn) (b : list Ascii.ascii) (addr : netAddr) : Host net_event packet_conn :=
  let a := netAddr_String addr in
  if bool_decide (a ∈ pc_seen c) then mret c
  else
    _ ← try (
      '(ipStr, _) ← lift (net_SplitHostPort a);
      ip ← call (EvResolve ipStr) (λ log, nh_resolve log ipStr);
      run_hooks (λ h, EvWriteHook h (pc_ID c) ip b) (listenerWriteHooks k));
    mret (mkPacketConn (pc_sock c) (pc_ID c) ({[a]} ∪ pc_seen c)).

(** [WriteTo(b, addr)]: the count or the error, and the connection afterwards. *)
Definition hooked_WriteTo (k : hooks) (c : packet_conn) (b : list Ascii.ascii) (addr : netAddr) :
    Host net_event ((Z + error) * packet_conn) :=
  c ← callWriteHooks k c b addr;
  r ← try (call (EvWrite (pc_sock c) b addr) (λ log, nh_write log (pc_sock c) b addr));
  mret (r, c).

Definition closeConn (k : hooks) (id : string) (s : sock) : Host net_event unit :=
  err ← try (call (EvClose s) (λ log, nh_close log s));
  _ ← run_hooks (λ h, EvListenCloseHook h id s) (listenerCloseHooks k);
  match err with inl _ => mret tt | inr e => lift (Err e) end.
Definition hooked_Close (k : hooks) (c : packet_conn) : Host net_event ((unit + error) * packet_conn) :=
  r ← try (closeConn k (pc_ID c) (pc_sock c));
  mret (r, mkPacketConn (pc_sock c) (pc_ID c) ∅).

Definition ListenUDP (k : hooks) (network : string) (laddr : UDPAddr) : Host net_event listened :=
  let address := UDPAddr_String laddr in
  if CustomRoutingDisabled nh_getenv then s ← net_open (λ _, mret tt) network address (bind address); mret (PlainListener s)
  else
    conn ← wrap_call "listen UDP: " (ListenPacket k network address);
    match conn with
    | PlainListener _ => lift Panic
    | Hooked c =>
        if bool_decide (sk_kind (pc_sock c) = KUDP) then mret (Hooked (mkPacketConn (pc_sock c) (pc_ID c) ∅))
        else _ ← hooked_Close k c;
             lift (Err (Errorf "expected UDPConn, got different type: *net.UDPConn"))
    end.

(** On iOS: the calls of [net]. *)
Definition ios_DialUDP (network : string) (raddr : UDPAddr) : Host net_event sock :=
  let address := UDPAddr_String raddr in net_open (λ _, mret tt) network address (connect address).
Definition ios_DialTCP (network raddr : string) : Host net_event sock :=
  net_open (λ _, mret tt) network raddr (connect raddr).
Definition ios_ListenUDP (network : string) (laddr : UDPAddr) : Host net_event sock :=
  let address := UDPAddr_String laddr in net_open (λ _, mret tt) network address (bind address).
End net.

(** ** What happens at a write *)

(** No call of the host panics. *)
Class NetHostSane (N : NetHost) := {
  sane_lookup : ∀ log h, nh_lookup log h ≠ Panic;
  sane_resolve : ∀ log h, nh_resolve log h ≠ Panic;
  sane_hook : ∀ log h, nh_hook log h ≠ Panic;
  sane_close : ∀ log s, nh_close log s ≠ Panic;
  sane_write : ∀ log s b a, nh_write log s b a ≠ Panic
}.

Section facts.
Context {N : NetHost} {NS : NetHostSane N}.

Lemma run_hooks_log ev hs log : ∃ errs, run_hooks ev hs log = (Ok errs, log ++ map ev hs).
Proof.
  revert log. induction hs as [|h hs IH]; intros log; cbn [run_hooks map].
  - exists []. by rewrite app_nil_r.
  - unfold mbind, ST_bind, try, call. pose proof (sane_hook log h) as Hs.
    destruct (IH (log ++ [ev h])) as [errs He]. destruct (nh_hook log h) as [|e|]; [..|done]; rewrite He, <-app_assoc; by eexists.
Qed.

(** The calls before the first packet to an address: it is resolved, and every
    hook is told. *)
Definition first_write_events (k : hooks) (id : string) (resolve : string → res (list Ascii.ascii))
    (b : list Ascii.ascii) (addr : netAddr) : list net_event :=
  match net_SplitHostPort (netAddr_String addr) with
  | Ok (host, _) => EvResolve host ::
      match resolve host with
      | Ok ip => map (λ h, EvWriteHook h id ip b) (listenerWriteHooks k)
      | _ => []
      end
  | _ => []
  end.

Fixpoint write_all (k : hooks) (c : packet_conn) (ws : list (list Ascii.ascii * netAddr)) :
    Host net_event packet_conn :=
  match ws with
  | [] => mret c
  | (b, addr) :: ws => '(_, c) ← hooked_WriteTo k c b addr; write_all k c ws
  end.

Lemma net_SplitHostPort_no_panic a : net_SplitHostPort a ≠ Panic.
Proof.
  unfold net_SplitHostPort. destruct (cut_last _ _) as [[before port]|]; [|done].
  cbv zeta. repeat case_match; done.
Qed.

Lemma hooked_WriteTo_log resolve k c b addr log :
  (∀ log h, nh_resolve log h = resolve h) →
  let a := netAddr_String addr in
  let before := if decide (a ∈ pc_seen c) then [] else first_write_events k (pc_ID c) resolve b addr in
  ∃ r, hooked_WriteTo k c b addr log =
    (Ok (r, mkPacketConn (pc_sock c) (pc_ID c) ({[a]} ∪ pc_seen c)), log ++ before ++ [EvWrite (pc_sock c) b addr]) ∧
    match nh_write (log ++ before) (pc_sock c) b addr with
    | Ok n => r = inl n
    | Err e => r = inr e
    | Panic => False
    end.
Proof.
  intros Hres a before.
  assert (callWriteHooks k c b addr log =
    (Ok (mkPacketConn (pc_sock c) (pc_ID c) ({[a]} ∪ pc_seen c)), log ++ before)) as Hc.
  { unfold callWriteHooks, before. fold a. destruct (decide (a ∈ pc_seen c)) as [Ha|Ha].
    - rewrite bool_decide_true, app_nil_r by done. replace ({[a]} ∪ pc_seen c) with (pc_seen c) by set_solver. by destruct c.
    - rewrite bool_decide_false by done. unfold first_write_events. fold a.
      unfold mbind, ST_bind, try, lift. pose proof (net_SplitHostPort_no_panic a).
      destruct (net_SplitHostPort a) as [[host port]|e|]; [|by rewrite app_nil_r|done].
      unfold call. pose proof (sane_resolve log host) as Hp. rewrite Hres in Hp |- *.
      destruct (resolve host) as [ip|e|]; [|done|done].
      destruct (run_hooks_log (λ h, EvWriteHook h (pc_ID c) ip b) (listenerWriteHooks k) (log ++ [EvResolve host])) as [errs ->].
      by rewrite <-app_assoc. }
  unfold hooked_WriteTo. unfold mbind, ST_bind. rewrite Hc. unfold try, call. cbn [pc_sock].
  pose proof (sane_write (log ++ before) (pc_sock c) b addr) as Hw.
  destruct (nh_write (log ++ before) (pc_sock c) b addr) as [n|e|]; [..|done]; rewrite <-app_assoc; by eexists.
Qed.

(** C25. Whatever is written on a listening socket, each packet reaches the socket
    unchanged and in order; right before the first one to an address, and
    before no other, the address is resolved and every write hook is called with
    the IP and the packet, whatever the hooks answer. An address that does not
    resolve is not tried again. *)
Theorem hooks_at_first_write resolve k c ws log :
  (∀ log h, nh_resolve log h = resolve h) →
  let addrs := map (λ w, netAddr_String w.2) ws in
  write_all k c ws log =
    (Ok (mkPacketConn (pc_sock c) (pc_ID c) (list_to_set addrs ∪ pc_seen c)),
     log ++ concat (imap (λ i w,
       (if decide (netAddr_String w.2 ∈ pc_seen c ∨ netAddr_String w.2 ∈ take i addrs) then []
        else first_write_events k (pc_ID c) resolve w.1 w.2) ++ [EvWrite (pc_sock c) w.1 w.2]) ws)).
Proof.
  intros Hres. revert c log. induction ws as [|[b addr] ws IH]; intros c log; cbn zeta.
  - cbn. rewrite app_nil_r, (left_id_L ∅ (∪)). by destruct c.
  - cbn [write_all]. destruct (hooked_WriteTo_log resolve k c b addr log Hres) as (r&Hw&_).
    unfold mbind, ST_bind. rewrite Hw. cbn zeta in IH. rewrite IH. cbn [pc_sock pc_ID pc_seen map list_to_set fst snd].
    f_equal; [do 2 f_equal; set_solver|]. rewrite imap_cons, <-!app_assoc. cbn [concat]. f_equal. rewrite <-!app_assoc.
    f_equal.
    { cbn [fst snd take]. destruct (decide (_ ∈ pc_seen c)) as [Hs|Hs].
      - by rewrite decide_True by by left.
      - rewrite decide_False; [done|]. intros [?|Hn]; [done|by apply not_elem_of_nil in Hn]. }
    f_equal. f_equal. apply imap_ext. intros i [b' addr'] _. cbn [compose fst snd take]. f_equal.
    destruct (decide (_ ∈ {[netAddr_String addr]} ∪ pc_seen c ∨ _)) as [Hd|Hd];
      [rewrite decide_True; [done|]|rewrite decide_False; [done|]];
      rewrite elem_of_cons in *; rewrite elem_of_union, elem_of_singleton in Hd; tauto.
Qed.

(** ** What happens at a dial *)

(** What the control function does to a socket. *)
Definition kept_out (k : hooks) (s : sock) : list net_event :=
  match nh_os with
  | OsLinux => [EvSetsockopt (sk_fd s) NetbirdFwmark]
  | OsAndroid => match androidProtectSocket k with Some f => [EvProtect f (sk_fd s)] | None => [] end
  | OsOther => []
  end.
Definition opened (k : hooks) (network address : string) (s : sock) (attached : net_event) : list net_event :=
  [EvSocket network address] ++ kept_out k s ++ [attached].
(** A socket that could not be marked or attached is closed. *)
Definition given_up (k : hooks) (network address : string) (attach : sock → net_event) (l : list net_event) : Prop :=
  l = [EvSocket network address] ∨
  ∃ s tried, l = [EvSocket network address] ++ kept_out k s ++ tried ++ [EvClose s] ∧
             (tried = [] ∨ tried = [attach s]).

Lemma SetRawSocketMark_log fd log : CustomRoutingDisabled nh_getenv = false →
  (SetRawSocketMark (Ok tt) fd log).2 = log ++ [EvSetsockopt fd NetbirdFwmark].
Proof.
  intros Hc. unfold SetRawSocketMark, SetSocketOpt, wrap_call, lift, try, mret, ST_ret, mbind, ST_bind, call.
  rewrite Hc. by destruct (nh_setsockopt log fd NetbirdFwmark).
Qed.
Lemma protect_socket_log k fd log :
  protect_socket k fd log = (Ok tt, log ++ match androidProtectSocket k with Some f => [EvProtect f fd] | None => [] end).
Proof. unfold protect_socket. destruct (androidProtectSocket k); [done|]. by rewrite app_nil_r. Qed.
Lemma dialer_init_log k s log : CustomRoutingDisabled nh_getenv = false → (dialer_init k s log).2 = log ++ kept_out k s.
Proof.
  intros Hc. unfold dialer_init, kept_out. destruct nh_os; [by apply SetRawSocketMark_log|by rewrite protect_socket_log|].
  by rewrite app_nil_r.
Qed.
Lemma listener_init_log k s log : CustomRoutingDisabled nh_getenv = false → (listener_init k s log).2 = log ++ kept_out k s.
Proof. exact (dialer_init_log k s log). Qed.

(** The socket is opened, kept out and attached, in this order. *)
Lemma net_open_log (control : sock → Host net_event unit) k network address ev answer log :
  (∀ s log, (control s log).2 = log ++ kept_out k s) →
  let '(r, log') := net_open control network address (λ s, call (ev s) (λ log, answer log s)) log in
  match r with
  | Ok s => log' = log ++ opened k network address s (ev s)
  | Err _ => ∃ l, log' = log ++ l ∧ given_up k network address ev l
  | Panic => True
  end.
Proof.
  intros Hc. unfold net_open, close_quietly, undo_on_error, try, mret, ST_ret, mbind, ST_bind, call at 1.
  destruct (nh_socket log network address) as [s|e|]; [|by eexists; split; [|left]|done].
  pose proof (Hc s (log ++ [EvSocket network address])) as Hs.
  destruct (control s _) as [[?|e|] log1]; cbn [snd] in Hs; subst log1; cbn iota beta; [| |done].
  - unfold call at 1. destruct (answer _ s) as [?|e|]; cbn iota beta; [unfold opened; by rewrite <-!app_assoc| |done].
    unfold call. destruct (nh_close _ s) as [?|e'|]; [..|done]; cbn iota beta;
      (rewrite <-!app_assoc; eexists; split; [reflexivity|]; right; exists s, [ev s]; split; [done|by right]).
  - unfold call. destruct (nh_close _ s) as [?|e'|]; [..|done]; cbn iota beta;
      (rewrite <-!app_assoc; eexists; split; [reflexivity|]; right; exists s, []; split; [done|by left]).
Qed.

(** The calls of the dial hooks: with none registered nothing is resolved. *)
Definition dial_hook_events (k : hooks) (id address : string) (log : list net_event) : list net_event :=
  match dialerDialHooks k with
  | [] => []
  | hs => match net_SplitHostPort address with
          | Ok (host, _) => EvLookup host ::
              match nh_lookup log host with
              | Ok ips => map (λ h, EvDialHook h id ips) hs
              | _ => []
              end
          | _ => []
          end
  end.

Lemma callDialerHooks_log k id address log :
  dialerDialHooks k ≠ [] →
  (try (callDialerHooks k id address) log).2 = log ++ dial_hook_events k id address log ∧
  (try (callDialerHooks k id address) log).1 ≠ Panic.
Proof.
  intros Hk. unfold callDialerHooks, dial_hook_events, wrap_call, lift, try, mret, ST_ret, mbind, ST_bind, call.
  destruct (dialerDialHooks k) as [|h hs] eqn:Hh; [done|]. rewrite <-Hh.
  pose proof (net_SplitHostPort_no_panic address).
  destruct (net_SplitHostPort address) as [[host port]|e|]; [|by rewrite app_nil_r|done].
  pose proof (sane_lookup log host). destruct (nh_lookup log host) as [ips|e|]; [|done|done].
  destruct (run_hooks_log (λ h, EvDialHook h id ips) (dialerDialHooks k) (log ++ [EvLookup host])) as [errs ->].
  rewrite <-app_assoc. by destruct errs.
Qed.

Lemma DialContext_log k network address log : CustomRoutingDisabled nh_getenv = false →
  let id := nh_uuid log in
  let before := EvUUID :: dial_hook_events k id address (log ++ [EvUUID]) in
  DialContext k network address log =
  match wrap_call "dial: " (net_open (dialer_init k) network address (connect address)) (log ++ before) with
  | (Ok s, log') => (Ok (WithHooks id s), log')
  | (Err e, log') => (Err e, log')
  | (Panic, log') => (Panic, log')
  end.
Proof.
  intros Hc id before. unfold DialContext. rewrite Hc. unfold GenerateConnID, mbind, ST_bind, call, before. fold id.
  destruct (dialerDialHooks k) as [|h hs] eqn:Hh.
  - unfold dial_hook_events. rewrite Hh. done.
  - destruct (callDialerHooks_log k id address (log ++ [EvUUID])) as [Hl Hp]; [by rewrite Hh|].
    destruct (try (callDialerHooks k id address) (log ++ [EvUUID])) as [[r|e|] log1] eqn:Ht; cbn [fst snd] in *; subst log1; try done.
    + rewrite <-app_assoc. done.
    + exfalso. revert Ht. unfold try. by destruct (callDialerHooks k id address (log ++ [EvUUID])) as [[]].
Qed.

(** With custom routing on, a dialed socket has the firewall mark on Linux, and
    has been handed to the app on Android, before it is connected, and one that
    could not be marked or connected is closed; before
    that, and only if there are dial hooks, the address is resolved and every
    hook is called, and no failure there stops the dial. Closing the connection
    calls every close hook with the same connection identifier, even when closing
    fails. [DialUDP] does the same but returns the socket inside: whatever a
    caller closes, no close hook learns of it. *)
Lemma dial_marks_and_hooks k network raddr log :
  CustomRoutingDisabled nh_getenv = false →
  let address := UDPAddr_String raddr in
  let id := nh_uuid log in
  let before := EvUUID :: dial_hook_events k id address (log ++ [EvUUID]) in
  match DialContext k network address log with
  | (Ok c, log') => ∃ s, c = WithHooks id s ∧ log' = log ++ before ++ opened k network address s (EvConnect s address) ∧
      (dialed_Close k c log').2 = log' ++ EvClose s :: map (λ h, EvDialCloseHook h id s) (dialerCloseHooks k) ∧
      (dialed_Close k c log').1 = nh_close log' s ∧
      (sk_kind s = KUDP → DialUDP k network raddr log = (Ok s, log'))
  | (Err _, log') => ∃ l, log' = log ++ before ++ l ∧ given_up k network address (λ s, EvConnect s address) l
  | (Panic, _) => True
  end.
Proof.
  intros Hc address id before. rewrite DialContext_log by done. fold id. fold before. unfold wrap_call.
  pose proof (net_open_log (dialer_init k) k network address (λ s, EvConnect s address) nh_connect (log ++ before)
    (λ s log, dialer_init_log k s log Hc)) as Ho.
  cbv beta in Ho. change (λ s, call (EvConnect s address) (λ log0, nh_connect log0 s)) with (connect address) in Ho.
  destruct (net_open (dialer_init k) network address (connect address) (log ++ before)) as [[s|e|] log'] eqn:Hn; cbn iota beta in Ho |- *; [|..|done].
  - exists s. split; [done|]. split; [by rewrite Ho, <-app_assoc|].
    assert (dialed_Close k (WithHooks id s) log' =
      (nh_close log' s, log' ++ EvClose s :: map (λ h, EvDialCloseHook h id s) (dialerCloseHooks k))) as ->.
    { unfold dialed_Close, try, lift, mret, ST_ret, mbind, ST_bind, call.
      destruct (run_hooks_log (λ h, EvDialCloseHook h id s) (dialerCloseHooks k) (log' ++ [EvClose s])) as [errs He].
      pose proof (sane_close log' s). destruct (nh_close log' s) as [[]|e|]; [..|done]; by rewrite He, <-app_assoc. }
    split; [done|]. split; [done|]. intros Hk. unfold DialUDP, dial_kind, Dial. rewrite Hc.
    unfold mbind, ST_bind, wrap_call at 1. fold address. rewrite DialContext_log by done. fold id. fold before.
    unfold wrap_call. rewrite Hn. by rewrite bool_decide_true.
  - destruct Ho as (l&->&Hl). exists l. by rewrite <-app_assoc.
Qed.

(** A listening socket is kept out of the VPN before it is bound; the addresses
    written to start empty. *)
Lemma ListenPacket_log k network address log : CustomRoutingDisabled nh_getenv = false →
  match ListenPacket k network address log with
  | (Ok c, log') => ∃ s, c = Hooked (mkPacketConn s (nh_uuid (log ++ opened k network address s (EvBind s address))) ∅) ∧
      log' = log ++ opened k network address s (EvBind s address) ++ [EvUUID]
  | (Err _, log') => ∃ l, log' = log ++ l ∧ given_up k network address (λ s, EvBind s address) l
  | (Panic, _) => True
  end.
Proof.
  intros Hc. unfold ListenPacket. rewrite Hc. unfold mbind, ST_bind, wrap_call.
  pose proof (net_open_log (listener_init k) k network address (λ s, EvBind s address) nh_bind log
    (λ s log, listener_init_log k s log Hc)) as Ho. cbv beta in Ho.
  change (λ s, call (EvBind s address) (λ log0, nh_bind log0 s)) with (bind address) in Ho.
  destruct (net_open _ network address (bind address) log) as [[s|e|] log']; [|done|done].
  subst log'. exists s. split; [done|]. by rewrite <-app_assoc.
Qed.
End facts.

(** ** A host *)

Definition ex_nethost : NetHost := {|
  nh_os := OsLinux; nh_protect _ _ _ := true; nh_getenv _ := EmptyString; nh_uuid _ := "id";
  nh_lookup _ _ := Ok [map byte_of_Z [192; 0; 2; 1]%Z];
  nh_resolve _ _ := Ok (map byte_of_Z [192; 0; 2; 1]%Z);
  nh_hook _ h := if bool_decide (h = 1) then Err (Errorf "no route") else Ok tt;
  nh_socket _ _ _ := Ok (mkSock 7 KUDP); nh_setsockopt _ _ _ := Ok tt; nh_connect _ _ := Ok tt; nh_bind _ _ := Ok tt;
  nh_close _ _ := Err (Errorf "bad descriptor"); nh_write _ _ b _ := Ok (Z.of_nat (length b))
|}.
#[local] Instance ex_nethost_sane : NetHostSane ex_nethost.
Proof. split; try done. intros log h. cbn. by destruct (bool_decide (h = 1)). Qed.

Definition ex_hooks : hooks := AddDialerHook 2 (AddDialerHook 1 (AddListenerWriteHook 3 (AddDialerCloseHook 4 (mkHooks [] [] [] [] None)))).
Definition ex_raddr : UDPAddr := mkUDPAddr (map byte_of_Z [192; 0; 2; 1]%Z) 53 EmptyString.
Definition ex_conn : packet_conn := mkPacketConn (mkSock 7 KUDP) "id" ∅.

Lemma hooks_at_first_write_witness :
  (write_all (N := ex_nethost) ex_hooks ex_conn [(["a"%char], AUDP ex_raddr); (["b"%char], AUDP ex_raddr)] []).2 =
  [EvResolve "192.0.2.1"; EvWriteHook 3 "id" (ua_IP ex_raddr) ["a"%char]; EvWrite (mkSock 7 KUDP) ["a"%char] (AUDP ex_raddr);
   EvWrite (mkSock 7 KUDP) ["b"%char] (AUDP ex_raddr)].
Proof.
  rewrite (hooks_at_first_write (N := ex_nethost) (λ _, Ok (map byte_of_Z [192; 0; 2; 1]%Z))) by done.
  vm_compute. reflexivity.
Defined.

Lemma dial_marks_and_hooks_witness :
  ∃ s log', DialUDP (N := ex_nethost) ex_hooks "udp" ex_raddr [] = (Ok s, log') ∧
    EvSetsockopt 7 NetbirdFwmark ∈ log' ∧
    (dialed_Close (N := ex_nethost) ex_hooks (WithHooks "id" s) log').1 = Err (Errorf "bad descriptor").
Proof.
  pose proof (dial_marks_and_hooks (N := ex_nethost) ex_hooks "udp" ex_raddr [] eq_refl) as Hd.
  destruct (DialContext (N := ex_nethost) ex_hooks "udp" (UDPAddr_String ex_raddr) []) as [r log'] eqn:He.
  vm_compute in He. injection He as <- <-. cbv zeta in Hd. destruct Hd as (s&[= <-]&_&_&Hc&Hu).
  eexists _, _. split; [apply Hu; reflexivity|]. split; [|apply Hc].
  apply (bool_decide_unpack _). vm_compute. exact I.
Defined.

(** On Android the app is given the socket. *)
Definition ex_android : NetHost := {|
  nh_os := OsAndroid; nh_protect _ _ _ := false; nh_getenv _ := EmptyString; nh_uuid _ := "id";
  nh_lookup _ _ := Ok []; nh_resolve _ _ := Ok []; nh_hook _ h := Ok tt;
  nh_socket _ _ _ := Ok (mkSock 7 KUDP); nh_setsockopt _ _ _ := Ok tt; nh_connect _ _ := Ok tt; nh_bind _ _ := Ok tt;
  nh_close _ _ := Ok tt; nh_write _ _ b _ := Ok (Z.of_nat (length b))
|}.
Lemma ex_android_protects :
  (DialContext (N := ex_android) (SetAndroidProtectSocketFn (Some 9) (mkHooks [] [] [] [] None)) "udp" "192.0.2.1:53" []).2 =
    [EvUUID; EvSocket "udp" "192.0.2.1:53"; EvProtect 9 7; EvConnect (mkSock 7 KUDP) "192.0.2.1:53"].
Proof. vm_compute. reflexivity. Qed.
