(* ===== verification/GoCIDR.v ===== *)
(** * The part of Go's [net] about prefixes: [ParseCIDR], masks, [net.IPNet]

    And [iface/address.go], which is a thin use of it. *)
From Stdlib Require Import Ascii.
From S2P Require Import Prelude GoStrings GoNet GoText.

(** [net.IPNet] *)
Record IPNet := mkIPNet { net_IP : list Ascii.ascii; net_Mask : list Ascii.ascii }.

Global Instance IPNet_eq_dec : EqDecision IPNet.
Proof. solve_decision. Defined.

(** [net.dtoi] on a whole string: digits only, below 0xFFFFFF. *)
Fixpoint dtoi (s : list Ascii.ascii) (acc : Z) : option Z :=
  match s with
  | [] => Some acc
  | c :: s' => v ← digit_val c;
               let acc := (acc * 10 + v)%Z in
               if (16777215 <=? acc)%Z then None else dtoi s' acc
  end.

(** [net.CIDRMask(ones, bits)]: the byte at index [i] has its leading ones. *)
Definition mask_byte (ones : Z) (i : nat) : Ascii.ascii :=
  let n := Z.max 0 (Z.min 8 (ones - 8 * Z.of_nat i)) in byte_of_Z (256 - 2 ^ (8 - n)).
Definition net_CIDRMask (ones : Z) (bytes : nat) : list Ascii.ascii :=
  map (mask_byte ones) (seq 0 bytes).

(** [ip.Mask(mask)] for an address and a mask of the same family. *)
Definition IP_Mask (ip mask : list Ascii.ascii) : list Ascii.ascii :=
  let mask := if bool_decide (length mask = 16 ∧ length ip = 4 ∧ take 12 mask = replicate 12 bff)
              then drop 12 mask else mask in
  let ip := if bool_decide (length mask = 4 ∧ length ip = 16 ∧ take 12 ip = v4InV6Prefix)
            then drop 12 ip else ip in
  if bool_decide (length ip = length mask)
  then zip_with (λ a b, byte_of_Z (Z.land (Z_of_byte a) (Z_of_byte b))) ip mask else [].

Definition err_cidr (s : string) : error := Errorf ("invalid CIDR address: " +:+ s).

(** [net.ParseCIDR]: the address, in 16 bytes, and its network. *)
Definition net_ParseCIDR (s : string) : res (list Ascii.ascii * IPNet) :=
  or_err (err_cidr s)
    ('(addr, mask) ← cut "/"%char (bytes_of_string s);
     a ← netip_ParseAddr addr;
     '(ip, bytes) ← match a with
                    | Addr4 ip => Some (v4InV6Prefix ++ ip, 4)
                    | Addr6 ip [] => Some (ip, 16)
                    | Addr6 _ _ => None
                    end;
     n ← match mask with [] => None | _ => dtoi mask 0 end;
     if bool_decide (n ≤ 8 * Z.of_nat bytes)%Z then
       let m := net_CIDRMask n bytes in
       Some (ip, mkIPNet (IP_Mask ip m) m)
     else None).
Lemma net_ParseCIDR_no_panic s : net_ParseCIDR s ≠ Panic.
Proof. unfold net_ParseCIDR, or_err. by case_match. Qed.

(** [net.simpleMaskLength]: [None] is -1, a mask that is not leading ones. *)
Definition leading_ones (b : Ascii.ascii) : option Z :=
  list_find (λ n : nat, b = byte_of_Z (256 - 2 ^ (8 - Z.of_nat n)))%Z (seq 0 9) ≫= λ p, Some (Z.of_nat p.2).

Fixpoint simpleMaskLength (mask : list Ascii.ascii) : option Z :=
  match mask with
  | [] => Some 0%Z
  | b :: mask' =>
      if decide (b = bff) then n ← simpleMaskLength mask'; Some (8 + n)%Z
      else if forallb (λ b, bool_decide (b = b0)) mask' then leading_ones b else None
  end.

(** [mask.Size()], its first result. *)
Definition mask_ones (mask : list Ascii.ascii) : Z := default 0%Z (simpleMaskLength mask).

(** [ipnet.String()] *)
Definition IPNet_String (n : IPNet) : string :=
  let num := match To4 (net_IP n) with
             | Some ip => Some ip
             | None => if decide (length (net_IP n) = 16) then Some (net_IP n) else None
             end in
  match num with
  | None => "<nil>"
  | Some ip =>
      let m := net_Mask n in
      let m := if bool_decide (length m = 4) then (if bool_decide (length ip = 4) then Some m else None)
               else if bool_decide (length m = 16) then Some (if bool_decide (length ip = 4) then drop 12 m else m)
               else None in
      match m with
      | None => "<nil>"
      | Some m => IP_String ip +:+ "/" +:+
          match simpleMaskLength m with
          | Some l => strconv_Itoa l
          | None => hex_EncodeToString m
          end
      end
  end.

(** [netip.ParsePrefix]: an address without a zone and the length after the last
    slash, in decimal and without a sign or leading zeros. *)
Definition prefix_bits (s : list Ascii.ascii) : option Z :=
  match s with
  | c :: _ :: _ => if decide (c = "0"%char) then None else _ ← digit_val c; dtoi s 0
  | [_] => dtoi s 0
  | [] => None
  end.
Definition netip_ParsePrefix (s : string) : option (netip_Addr * Z) :=
  '(bits, addr) ← cut "/"%char (rev (bytes_of_string s));
  a ← netip_ParseAddr (rev addr);
  max ← match a with Addr4 _ => Some 32%Z | Addr6 _ [] => Some 128%Z | Addr6 _ _ => None end;
  n ← prefix_bits (rev bits);
  if bool_decide (n ≤ max)%Z then Some (a, n) else None.

(** ** [iface/address.go] *)

Record WGAddress := mkWGAddress { wga_IP : list Ascii.ascii; wga_Network : IPNet }.

Definition parseWGAddress (address : string) : res WGAddress :=
  '(ip, network) ← net_ParseCIDR address; Ok (mkWGAddress ip network).

(** An address that was parsed has 16 bytes. *)
Lemma parseWGAddress_length s a : parseWGAddress s = Ok a → length (wga_IP a) = 16.
Proof.
  unfold parseWGAddress, net_ParseCIDR, or_err. destruct (cut "/"%char (bytes_of_string s)) as [[addr mask]|]; [|done]. cbn [mbind option_bind].
  destruct (netip_ParseAddr addr) as [ad|] eqn:Ha; [|done]. pose proof (netip_ParseAddr_length _ _ Ha) as Hl. cbn [mbind option_bind].
  destruct ad as [ip|ip [|]]; [| |done]; cbn [mbind option_bind].
  all: destruct (match mask with [] => None | _ => dtoi mask 0 end) as [n|]; [|done]; cbn [mbind option_bind].
  all: case_bool_decide; [|done]; intros [= <-]; exact Hl.
Qed.

Definition WGAddress_String (addr : WGAddress) : string :=
  IP_String (wga_IP addr) +:+ "/" +:+ strconv_Itoa (mask_ones (net_Mask (wga_Network addr))).

Example ex_cidr_v4 : match net_ParseCIDR "10.1.2.3/20" with
  | Ok (_, n) => IPNet_String n | _ => EmptyString end = "10.1.0.0/20".
Proof. by vm_compute. Qed.
Example ex_cidr_v6 : match net_ParseCIDR "2001:db8:ffff::7/33" with
  | Ok (_, n) => IPNet_String n | _ => EmptyString end = "2001:db8:8000::/33".
Proof. by vm_compute. Qed.
Example ex_cidr_mapped : match net_ParseCIDR "::ffff:1.2.3.4/120" with
  | Ok (_, n) => IPNet_String n | _ => EmptyString end = "1.2.3.0/24".
Proof. by vm_compute. Qed.
(** An IPv4 address in IPv6 notation is printed with a length only IPv6 has. *)
Example ex_prefix_mapped : match parseWGAddress "::ffff:1.2.3.4/120" with
  | Ok a => (WGAddress_String a, netip_ParsePrefix (WGAddress_String a)) | _ => (EmptyString, None) end = ("1.2.3.4/120", None).
Proof. by vm_compute. Qed.
Example ex_prefix : netip_ParsePrefix "2001:db8::1/64" ≠ None ∧ netip_ParsePrefix "10.1.2.3/08" = None.
Proof. split; by vm_compute. Qed.
Example ex_cidr_wg : match parseWGAddress "10.1.2.3/20" with
  | Ok a => WGAddress_String a | _ => EmptyString end = "10.1.2.3/20".
Proof. by vm_compute. Qed.

(** ** What is printed holds no white space *)

Lemma char_in_elem c s : char_in c s = true ↔ c ∈ bytes_of_string s.
Proof.
  induction s as [|d s IH]; cbn [char_in String.list_ascii_of_string].
  - rewrite elem_of_nil. done.
  - rewrite orb_true_iff, bool_decide_eq_true, IH, elem_of_cons. done.
Qed.

Lemma no_space_chars s : (∀ c, char_in c s = true → is_space c = false) → no_space s = true.
Proof.
  intros H. apply no_space_forall, List.Forall_forall.
  intros c Hc. apply H, char_in_elem. by apply list_elem_of_In.
Qed.

Lemma no_space_char_in s c : no_space s = true → is_space c = true → char_in c s = false.
Proof.
  intros Hs Hc. apply not_true_is_false. intros Hin%char_in_elem.
  apply no_space_forall in Hs. rewrite List.Forall_forall in Hs.
  apply list_elem_of_In, Hs in Hin. congruence.
Qed.

Definition visible (l : list Ascii.ascii) : bool := forallb (λ c, negb (is_space c)) l.

Lemma visible_no_space l : visible l = true → no_space (string_of_bytes l) = true.
Proof.
  intros H. apply no_space_forall. rewrite bytes_of_string_of_bytes.
  apply List.Forall_forall. intros c Hc. unfold visible in H. rewrite forallb_forall in H.
  by apply negb_true_iff, H.
Qed.

Lemma visible_app l k : visible (l ++ k) = visible l && visible k.
Proof. apply forallb_app. Qed.

Lemma visible_cons c l : visible (c :: l) = negb (is_space c) && visible l.
Proof. done. Qed.

Lemma no_space_Itoa z : no_space (strconv_Itoa z) = true.
Proof.
  apply no_space_chars. intros c Hc%strconv_Itoa_chars.
  assert (visible (bytes_of_string "-0123456789") = true) as H by done.
  unfold visible in H. rewrite forallb_forall in H.
  by apply negb_true_iff, H, list_elem_of_In.
Qed.

Lemma no_space_hex bs : no_space (hex_EncodeToString bs) = true.
Proof.
  apply no_space_chars. intros c Hc%hex_EncodeToString_chars.
  assert (visible hex_alphabet = true) as H by done.
  unfold visible in H. rewrite forallb_forall in H.
  by apply negb_true_iff, H, list_elem_of_In.
Qed.

Lemma no_space_visible s : no_space s = true → visible (bytes_of_string s) = true.
Proof.
  intros H%no_space_forall. apply forallb_forall. intros c Hc.
  rewrite List.Forall_forall in H. by apply negb_true_iff, H.
Qed.

Lemma visible_print_v4 a b c d : visible (print_v4 a b c d) = true.
Proof.
  unfold print_v4, dec_octet.
  repeat (rewrite visible_app || rewrite visible_cons || rewrite no_space_visible by apply no_space_Itoa).
  done.
Qed.

Lemma visible_hex_group g : is_u16 g → visible (hex_group g) = true.
Proof.
  intros Hg. apply forallb_forall. intros c Hc%list_elem_of_In.
  destruct (hex_group_chars g c Hg Hc) as [v Hv].
  apply negb_true_iff, not_true_is_false. intros Hsp.
  assert (forallb (λ z, implb (is_space (byte_of_Z (Z.of_nat z)))
    (match hex_val (byte_of_Z (Z.of_nat z)) with None => true | _ => false end)) (seq 0 256) = true) as H
    by by vm_compute.
  rewrite forallb_forall in H. specialize (H (Z.to_nat (Z_of_byte c))).
  pose proof (Z_of_byte_bounds c). rewrite Z2Nat.id, byte_of_Z_of_byte, Hsp, Hv in H by lia.
  discriminate H. apply in_seq. lia.
Qed.

Lemma visible_print_groups fuel i gs zs ze :
  Forall is_u16 gs → visible (print_groups fuel i gs zs ze) = true.
Proof.
  intros Hall. revert i. induction fuel as [|fuel IH]; intros i; [done|]. cbn [print_groups].
  repeat case_match; cbn [app]; try done;
    repeat (rewrite visible_app || rewrite visible_cons || rewrite IH
            || rewrite visible_hex_group by (by apply nth_u16)); done.
Qed.

Lemma no_space_IP ip : length ip ≠ 0 → no_space (IP_String ip) = true.
Proof.
  intros Hip. apply visible_no_space. unfold IP_bytes.
  destruct (To4 ip) as [ip4|] eqn:H4.
  - destruct (To4_Some_cons _ _ H4) as (a & b & c & d & ->). apply visible_print_v4.
  - case_decide; [|rewrite decide_False by done].
    + unfold print_v6. destruct (zero_range _). apply visible_print_groups, groups_u16.
    + apply (no_space_visible _ (no_space_hex ip)).
Qed.

Lemma no_space_cons c s : no_space (String c s) = negb (is_space c) && no_space s.
Proof. done. Qed.

Lemma no_space_IPNet n : no_space (IPNet_String n) = true.
Proof.
  unfold IPNet_String.
  assert (∀ ip l, length ip ≠ 0 → no_space l = true → no_space (IP_String ip +:+ "/" +:+ l) = true) as Hip.
  { intros ip l Hne Hl. rewrite !no_space_app, no_space_IP, Hl by done. done. }
  assert (∀ m, no_space (match simpleMaskLength m with Some l => strconv_Itoa l
    | None => hex_EncodeToString m end) = true) as Hm.
  { intros m. case_match; [apply no_space_Itoa|apply no_space_hex]. }
  destruct (To4 (net_IP n)) as [ip|] eqn:H4.
  - apply To4_length in H4. case_match; [|done]. apply Hip; [by rewrite H4|apply Hm].
  - case_decide as Hl; [|done]. case_match; [|done]. apply Hip; [by rewrite Hl|apply Hm].
Qed.

Lemma no_space_UDPAddr a : no_space (ua_Zone a) = true → no_space (UDPAddr_String a) = true.
Proof.
  intros Hz. unfold UDPAddr_String, net_JoinHostPort.
  set (ip := match ua_IP a with [] => EmptyString | _ => _ end).
  assert (no_space ip = true) as Hip by (unfold ip; destruct (ua_IP a) eqn:He; [done|by apply no_space_IP]).
  assert (no_space (match ua_Zone a with EmptyString => ip | z => ip +:+ "%" +:+ z end) = true) as Hh.
  { destruct (ua_Zone a) as [|c z]; [done|]. by rewrite !no_space_app, Hip, Hz. }
  destruct (char_in colon _); rewrite !no_space_app, Hh, no_space_Itoa; done.
Qed.

(** ** A printed prefix is read back *)

Definition ip_char (c : Ascii.ascii) : bool :=
  bool_decide (is_Some (hex_val c)) || bool_decide (c = colon) || bool_decide (c = dot).

Lemma ip_char_hex c v : hex_val c = Some v → ip_char c = true.
Proof. intros Hv. unfold ip_char. rewrite bool_decide_true by eauto. done. Qed.

Lemma forallb_app_true {A} (f : A → bool) l k : forallb f l = true → forallb f k = true → forallb f (l ++ k) = true.
Proof. intros Hl Hk. by rewrite forallb_app, Hl, Hk. Qed.

Lemma hex_group_ip g : is_u16 g → forallb ip_char (hex_group g) = true.
Proof.
  intros Hg. apply forallb_forall. intros c Hc%list_elem_of_In.
  destruct (hex_group_chars g c Hg Hc) as [v Hv]. by eapply ip_char_hex.
Qed.

Lemma print_groups_ip fuel i gs zs ze : Forall is_u16 gs → forallb ip_char (print_groups fuel i gs zs ze) = true.
Proof.
  intros Hall. revert i. induction fuel as [|fuel IH]; intros i; [done|]. cbn [print_groups].
  repeat case_match; cbn [app forallb]; try done;
    repeat (rewrite forallb_app || rewrite IH || rewrite hex_group_ip by (by apply nth_u16)); done.
Qed.

Lemma Itoa_nonneg_digits z c : (0 ≤ z)%Z → c ∈ bytes_of_string (strconv_Itoa z) → c ∈ bytes_of_string "0123456789".
Proof.
  intros Hz Hc. assert (char_in c (strconv_Itoa z) = true) as Hin by by apply char_in_elem.
  unfold strconv_Itoa in Hin. destruct z as [|p|p]; [..|lia]; cbn [Z.to_int DecimalString.NilZero.string_of_int] in Hin.
  - cbn in Hin. apply orb_true_iff in Hin as [->%bool_decide_eq_true|?]; [simpl; set_solver|done].
  - destruct (Pos.to_uint p) eqn:Hp; cbn [DecimalString.NilZero.string_of_uint] in Hin;
      try (by eapply uint_string_digits).
    cbn in Hin. apply orb_true_iff in Hin as [->%bool_decide_eq_true|?]; [simpl; set_solver|done].
Qed.

Lemma dec_octet_ip b : forallb ip_char (dec_octet b) = true.
Proof.
  apply forallb_forall. intros c Hc%list_elem_of_In. pose proof (Z_of_byte_bounds b).
  unfold dec_octet in Hc. apply Itoa_nonneg_digits in Hc; [|lia]. revert c Hc. apply list.Forall_forall.
  apply (bool_decide_unpack _). vm_compute. exact I.
Qed.

Lemma IP_bytes_ip ip : length ip = 4 ∨ length ip = 16 → forallb ip_char (IP_bytes ip) = true.
Proof.
  intros Hl. unfold IP_bytes. destruct (To4 ip) as [ip4|] eqn:H4.
  - destruct (To4_Some_cons _ _ H4) as (a & b & c & d & ->). unfold print_v4.
    assert (∀ l, forallb ip_char l = true → forallb ip_char (dot :: l) = true) as Hd by done.
    repeat (apply forallb_app_true; [apply dec_octet_ip|]; apply Hd). apply dec_octet_ip.
  - assert (length ip = 16) as ->.
    { destruct Hl as [Hl|]; [|done]. unfold To4 in H4. by rewrite decide_True in H4. }
    rewrite decide_True by done. unfold print_v6. destruct (zero_range _). apply print_groups_ip, groups_u16.
Qed.

Lemma forallb_elem {A} (f : A → bool) l x : forallb f l = true → x ∈ l → f x = true.
Proof. intros Hl Hx%list_elem_of_In. rewrite forallb_forall in Hl. by apply Hl. Qed.

Lemma ip_char_absent c l : forallb ip_char l = true → ip_char c = false → c ∉ l.
Proof. intros Hl Hc Hin. pose proof (forallb_elem _ _ _ Hl Hin). congruence. Qed.

Lemma dtoi_Itoa n : (0 ≤ n ≤ 128)%Z → dtoi (bytes_of_string (strconv_Itoa n)) 0 = Some n ∧ strconv_Itoa n ≠ EmptyString.
Proof.
  intros Hn. split; [|apply strconv_Itoa_nonempty].
  pose proof (Z_range_check (λ n, match dtoi (bytes_of_string (strconv_Itoa n)) 0 with
    Some v => (v =? n)%Z | None => false end) 0 129 ltac:(by_compute) n ltac:(lia)) as H.
  cbn beta in H. destruct (dtoi _ 0) as [v|]; [|done]. by apply Z.eqb_eq in H as ->.
Qed.

(** The prefix lengths an address has, in bytes of its mask. *)
Definition mask_bytes (ip : list Ascii.ascii) : nat := match To4 ip with Some _ => 4 | None => 16 end.

Lemma net_ParseCIDR_print ip n : length ip = 4 ∨ length ip = 16 → (0 ≤ n ≤ 8 * Z.of_nat (mask_bytes ip))%Z →
  net_ParseCIDR (IP_String ip +:+ "/" +:+ strconv_Itoa n) =
  let ip' := default [] (To16 ip) in let m := net_CIDRMask n (mask_bytes ip) in
  Ok (ip', mkIPNet (IP_Mask ip' m) m).
Proof.
  intros Hl Hn. unfold net_ParseCIDR. rewrite !bytes_of_string_app. unfold IP_String. rewrite bytes_of_string_of_bytes.
  change (bytes_of_string "/") with ["/"%char]. cbn [app].
  rewrite cut_app by (by apply ip_char_absent; [apply IP_bytes_ip|]). cbn [mbind option_bind].
  rewrite netip_ParseAddr_IP by done. unfold mask_bytes in *.
  assert ((0 ≤ n ≤ 128)%Z) as Hr by (destruct (To4 ip); lia). destruct (dtoi_Itoa n Hr) as [Hd Hne].
  destruct (To4 ip) as [ip4|] eqn:H4; cbn [mbind option_bind].
  - rewrite (To4_To16 ip ip4 H4). cbn [default from_option id].
    destruct (bytes_of_string (strconv_Itoa n)) as [|c s] eqn:Hb;
      [by apply (f_equal string_of_bytes) in Hb; rewrite string_of_bytes_of_string in Hb|].
    rewrite Hd. cbn [mbind option_bind]. by rewrite bool_decide_true by lia.
  - assert (To16 ip = Some ip) as ->.
    { unfold To16. destruct Hl as [Hl|Hl]; [by unfold To4 in H4; rewrite decide_True in H4|].
      by rewrite decide_False, decide_True by lia. }
    cbn [default from_option id].
    destruct (bytes_of_string (strconv_Itoa n)) as [|c s] eqn:Hb;
      [by apply (f_equal string_of_bytes) in Hb; rewrite string_of_bytes_of_string in Hb|].
    rewrite Hd. cbn [mbind option_bind]. by rewrite bool_decide_true by lia.
Qed.
