(* ===== verification/GoScan.v ===== *)
(** * The part of Go's [fmt.Sscanf] the sources use

    Scanning a line, without line breaks in it, with the verbs [%s], [%d] and
    [%t] separated by spaces. Text is taken to be ASCII, as in [GoStrings]. *)
From Stdlib Require Import Ascii DecimalString.
From S2P Require Import Prelude GoStrings GoNet GoText GoCIDR.

(** A scanner takes what it reads off the input; every failure is the error of
    the whole call. *)
Definition scan (A : Type) : Type := list Ascii.ascii → option (A * list Ascii.ascii).
Global Instance scan_bind : MBind scan := λ A B f m s, '(a, s) ← m s; f a s.
Global Instance scan_ret : MRet scan := λ A a s, Some (a, s).

(** [SkipSpace]: a line break is an error. *)
Fixpoint SkipSpace (s : list Ascii.ascii) : option (list Ascii.ascii) :=
  match s with
  | [] => Some []
  | c :: s' => if bool_decide (c = newline) then None else if is_space c then SkipSpace s' else Some s
  end.
(** [SkipSpace(); notEOF()] *)
Definition next_token {A} (m : scan A) : scan A := λ s,
  s ← SkipSpace s; match s with [] => None | _ => m s end.

(** A space of the format: at least one in the input, or its end. *)
Fixpoint drop_spaces (s : list Ascii.ascii) : list Ascii.ascii :=
  match s with
  | [] => []
  | c :: s' => if is_space c && negb (bool_decide (c = newline)) then drop_spaces s' else s
  end.
Definition format_space : scan unit := λ s,
  match s with
  | [] => Some (tt, [])
  | c :: s' => if is_space c && negb (bool_decide (c = newline)) then Some (tt, drop_spaces s') else None
  end.

(** [%s]: the next word. *)
Definition scan_s : scan string := next_token (λ s,
  let '(w, rest) := span (λ c, negb (is_space c)) s in Some (string_of_bytes w, rest)).

(** [%d]: a sign if there is one, and digits, which are an [int]. *)
Definition is_digit (c : Ascii.ascii) : bool := bool_decide (c ∈ bytes_of_string "0123456789").
Definition scan_d : scan Z := next_token (λ s,
  let '(sign, s) := match s with
                    | c :: s' => if bool_decide (c = "+"%char ∨ c = "-"%char) then ([c], s') else ([], s)
                    | [] => ([], s)
                    end in
  match span is_digit s with
  | ([], _) => None
  | (digits, rest) => match strconv_Atoi (string_of_bytes (sign ++ digits)) with
                      | Ok z => Some (z, rest)
                      | _ => None
                      end
  end).

(** [accept]: the next byte, if it is one of the two. *)
Definition accept (lower upper : Ascii.ascii) (s : list Ascii.ascii) : option (list Ascii.ascii) :=
  match s with c :: s' => if bool_decide (c = lower ∨ c = upper) then Some s' else None | [] => None end.
Fixpoint accept_all (cs : list (Ascii.ascii * Ascii.ascii)) (s : list Ascii.ascii) : option (list Ascii.ascii) :=
  match cs with
  | [] => Some s
  | (l, u) :: cs => s ← accept l u s; accept_all cs s
  end.
(** The rest of a word, if its first letter follows. *)
Definition word_rest (l u : Ascii.ascii) (cs : list (Ascii.ascii * Ascii.ascii)) (b : bool) : scan bool := λ s,
  match accept l u s with
  | None => Some (b, s)
  | Some s => s ← accept_all cs s; Some (b, s)
  end.
(** [%t]: whatever starts like no boolean is [false], and one byte long. *)
Definition scan_t : scan bool := next_token (λ s,
  match s with
  | [] => None
  | c :: s =>
      if bool_decide (c = "0"%char) then Some (false, s)
      else if bool_decide (c = "1"%char) then Some (true, s)
      else if bool_decide (c = "t"%char ∨ c = "T"%char) then
        word_rest "r" "R" [("u"%char, "U"%char); ("e"%char, "E"%char)] true s
      else if bool_decide (c = "f"%char ∨ c = "F"%char) then
        word_rest "a" "A" [("l"%char, "L"%char); ("s"%char, "S"%char); ("e"%char, "E"%char)] false s
      else Some (false, s)
  end).

(** A verb after a space. *)
Definition then_scan {A} (m : scan A) : scan A := _ ← format_space; m.

(** ** What is printed is scanned *)

(** The end of a token: the end of the input or a space. *)
Definition token_end (rest : list Ascii.ascii) : Prop :=
  match rest with [] => True | c :: _ => is_space c = true end.

Definition scans {A} (m : scan A) (w : list Ascii.ascii) (a : A) : Prop :=
  ∀ rest, token_end rest → m (w ++ rest) = Some (a, rest).

(** A word does not start with a space. *)
Definition starts_word (w : list Ascii.ascii) : Prop :=
  match w with [] => False | c :: _ => is_space c = false end.

Lemma SkipSpace_word w rest : starts_word w → SkipSpace (w ++ rest) = Some (w ++ rest).
Proof.
  destruct w as [|c w]; [done|]. cbn [starts_word app SkipSpace]. intros Hc. rewrite Hc.
  rewrite bool_decide_false; [done|]. intros ->. by vm_compute in Hc.
Qed.
Lemma next_token_word {A} (m : scan A) w rest : starts_word w → next_token m (w ++ rest) = m (w ++ rest).
Proof. intros Hw. unfold next_token. rewrite SkipSpace_word by done. by destruct w. Qed.

Lemma format_space_word w rest : starts_word w → format_space (space :: w ++ rest) = Some (tt, w ++ rest).
Proof.
  intros Hw. unfold format_space. cbn -[is_space]. change (is_space space) with true.
  rewrite bool_decide_false by done. cbn [andb negb]. do 2 f_equal.
  destruct w as [|c w]; [done|]. cbn [starts_word app drop_spaces] in *. by rewrite Hw.
Qed.
Lemma then_scan_word {A} (m : scan A) w a rest : scans m w a → starts_word w → token_end rest →
  then_scan m (space :: w ++ rest) = Some (a, rest).
Proof.
  intros Hm Hw Hr. unfold then_scan, mbind, scan_bind. rewrite format_space_word by done. cbn. by apply Hm.
Qed.

Lemma starts_word_string w : is_word w = true → starts_word (bytes_of_string w).
Proof.
  intros [Hw Hne]%andb_true_iff. destruct w as [|c w]; [done|]. cbn [no_space] in Hw.
  apply andb_true_iff in Hw as [Hc _]. by apply negb_true_iff in Hc.
Qed.

Lemma scans_s w : is_word w = true → scans scan_s (bytes_of_string w) w.
Proof.
  intros Hw rest Hr. unfold scan_s. rewrite next_token_word by by apply starts_word_string.
  rewrite span_app.
  - by rewrite string_of_bytes_of_string.
  - apply andb_true_iff in Hw as [Hw _]. apply no_space_forall in Hw. apply forallb_forall.
    intros c Hc. rewrite List.Forall_forall in Hw. by rewrite Hw.
  - destruct rest as [|c rest]; [done|]. cbn [token_end] in Hr. by rewrite Hr.
Qed.

Lemma is_digit_space c : is_space c = true → is_digit c = false.
Proof.
  intros Hc. unfold is_digit. apply bool_decide_eq_false. intros Hd.
  assert (forallb (λ c, negb (is_space c)) (bytes_of_string "0123456789") = true) as H by done.
  rewrite forallb_forall in H. apply list_elem_of_In, H in Hd. by rewrite Hc in Hd.
Qed.

Lemma uint_digits d : NilZero.string_of_uint d ≠ EmptyString ∧
  forallb is_digit (bytes_of_string (NilZero.string_of_uint d)) = true.
Proof.
  assert (∀ d, forallb is_digit (bytes_of_string (NilEmpty.string_of_uint d)) = true) as He.
  { intros e. apply forallb_forall. intros c Hc. apply bool_decide_eq_true, (uint_string_digits e).
    by apply char_in_elem, list_elem_of_In. }
  destruct d; (split; [done|]); [done|apply He..].
Qed.
Lemma Itoa_shape z : ∃ sign digits, bytes_of_string (strconv_Itoa z) = sign ++ digits ∧
  (sign = [] ∨ sign = ["-"%char]) ∧ digits ≠ [] ∧ forallb is_digit digits = true.
Proof.
  unfold strconv_Itoa. destruct (Z.to_int z) as [d|d]; cbn [NilZero.string_of_int];
    destruct (uint_digits d) as [Hne Hd]; [exists []|exists ["-"%char]]; exists (bytes_of_string (NilZero.string_of_uint d));
    (split; [done|]; split; [auto|]; split; [|done]); by destruct (NilZero.string_of_uint d).
Qed.

Lemma scans_d z : (int64_min ≤ z ≤ int64_max)%Z → scans scan_d (bytes_of_string (strconv_Itoa z)) z.
Proof.
  intros Hz rest Hr. pose proof (strconv_Atoi_Itoa z Hz) as Ha.
  assert (is_word (strconv_Itoa z) = true) as Hw.
  { unfold is_word. rewrite no_space_Itoa. cbn. apply negb_true_iff, bool_decide_eq_false, strconv_Itoa_nonempty. }
  unfold scan_d. rewrite next_token_word by by apply starts_word_string.
  rewrite <-(string_of_bytes_of_string (strconv_Itoa z)) in Ha.
  destruct (Itoa_shape z) as (sign&digits&Heq&Hs&Hne&Hd). rewrite Heq in *. rewrite <-app_assoc.
  assert (span is_digit (digits ++ rest) = (digits, rest)) as Hspan.
  { apply span_app; [done|]. destruct rest as [|c rest]; [done|]. by apply is_digit_space. }
  destruct digits as [|c digits]; [done|].
  assert (∀ c, is_digit c = true → c ≠ "+"%char ∧ c ≠ "-"%char) as Hsign by (intros x Hx; split; intros ->; by vm_compute in Hx).
  destruct Hs as [->| ->]; cbn [app] in *.
  - rewrite bool_decide_false. { rewrite Hspan. cbn [app]. by rewrite Ha. }
    cbn [forallb] in Hd. apply andb_true_iff in Hd as [Hc _]. destruct (Hsign c Hc). tauto.
  - rewrite bool_decide_true by auto. rewrite Hspan. cbn [app]. by rewrite Ha.
Qed.

(** [fmt.Sprint] of a boolean. *)
Definition bool_text (b : bool) : string := if b then "true" else "false".
Lemma scans_t b : scans scan_t (bytes_of_string (bool_text b)) b.
Proof. intros rest Hr. unfold scan_t. rewrite next_token_word by by destruct b. by destruct b. Qed.
