(* ===== verification/MuxedConn.v ===== *)
(** * [iface/bind/udp_muxed_conn.go]: one logical packet connection of the mux

    A muxed connection queues the datagrams the mux hands it, each framed with
    the address it came from, and gives them back to the ICE agent. The queue
    is [packetio.Buffer] of pion/transport: a parameter, with the behaviour its
    documentation promises as the laws of [PacketBufferSpec]. *)
From Stdlib Require Import Ascii.
From S2P Require Import Prelude GoStrings GoNet.

(** ** Slices written in place *)

(** [copy(buf[off:], src)] where the source fits. *)
Definition write_at (off : nat) (src buf : list Ascii.ascii) : list Ascii.ascii :=
  take off buf ++ src ++ drop (off + length src) buf.

(** [copy(buf[off:], src)]: [off] beyond the length panics, the source is cut
    to the room there is. *)
Definition copy_at (off : nat) (src buf : list Ascii.ascii) : res (list Ascii.ascii) :=
  if decide (off ≤ length buf) then Ok (write_at off (take (length buf - off) src) buf)
  else Panic.

(** [buf[lo:hi]] of a slice whose capacity ends with it. *)
Definition subslice (lo hi : nat) (buf : list Ascii.ascii) : res (list Ascii.ascii) :=
  if decide (lo ≤ hi ≤ length buf) then Ok (slice lo hi buf) else Panic.

Definition u16_bytes (v : Z) : list Ascii.ascii := [byte_of_Z v; byte_of_Z (v / 256)].

(** [binary.LittleEndian.PutUint16(buf[off:], uint16(v))] *)
Definition put_uint16 (off : nat) (v : Z) (buf : list Ascii.ascii) : res (list Ascii.ascii) :=
  if decide (off + 2 ≤ length buf) then Ok (write_at off (u16_bytes v) buf) else Panic.

(** [binary.LittleEndian.Uint16(b)] of a two-byte slice. *)
Definition u16_value (b : list Ascii.ascii) : Z := (nth_Z b 0 + 256 * nth_Z b 1)%Z.

Lemma write_at_app pre src rest :
  write_at (length pre) src (pre ++ rest) = pre ++ src ++ drop (length src) rest.
Proof.
  unfold write_at. rewrite take_app_length, <-drop_drop, drop_app_length. done.
Qed.

Lemma u16_value_bytes v rest : u16_value (u16_bytes v ++ rest) = (v `mod` 65536)%Z.
Proof.
  unfold u16_value, u16_bytes, nth_Z. cbn [nth app]. rewrite !Z_of_byte_of_Z.
  replace 65536%Z with (256 * 256)%Z by done. rewrite Z.rem_mul_r by lia. lia.
Qed.

Lemma u16_value_small v rest : (0 ≤ v < 65536)%Z → u16_value (u16_bytes v ++ rest) = v.
Proof. intros Hv. by rewrite u16_value_bytes, Z.mod_small. Qed.

(** ** The address codec *)

Definition maxAddrSize : nat := 512.
Definition receiveMTU : nat := Z.to_nat 8192.

(** [encodeUDPAddr(addr, buf)]: the number of bytes and the slice as written. *)
Definition encodeUDPAddr (addr : UDPAddr) (buf : list Ascii.ascii) :
    res (nat * list Ascii.ascii) :=
  ipData ← IP_MarshalText (ua_IP addr);
  let zone := bytes_of_string (ua_Zone addr) in
  let total := 2 + length ipData + 2 + length zone in
  if decide (length buf < total) then Err io_ErrShortBuffer
  else
    buf ← put_uint16 0 (Z.of_nat (length ipData)) buf;
    buf ← copy_at 2 ipData buf;
    let offset := 2 + length ipData in
    buf ← put_uint16 offset (ua_Port addr) buf;
    let offset := offset + 2 in
    buf ← copy_at offset zone buf;
    Ok (total, buf).

(** [decodeUDPAddr(buf)]; [rest] is what lies between the length and the
    capacity of the slice, which [buf[:2]] and [buf[offset:offset+2]] may reach. *)
Definition decodeUDPAddr (buf rest : list Ascii.ascii) : res UDPAddr :=
  head ← subslice 0 2 (buf ++ rest);
  let ipLen := Z.to_nat (u16_value head) in
  let offset := 2 in
  if decide (length buf < ipLen + offset) then Err io_ErrShortBuffer
  else
    ip ← IP_UnmarshalText (slice offset (offset + ipLen) buf);
    let offset := offset + ipLen in
    p ← subslice offset (offset + 2) (buf ++ rest);
    let offset := offset + 2 in
    zone ← subslice offset (length buf) buf;
    Ok (mkUDPAddr ip (u16_value p) (string_of_bytes zone)).

(** ** The packet queue *)

(** [packetio.Buffer]: [Buffer_Write] appends a packet, [Buffer_Read b n] takes
    the next one into a slice of [n] bytes ([None]: it blocks). *)
Class PacketBuffer := {
  buffer : Type;
  NewBuffer : buffer;
  Buffer_Write : buffer → list Ascii.ascii → res buffer;
  Buffer_Read : buffer → nat → option (res (list Ascii.ascii) * buffer);
  Buffer_Close : buffer → buffer
}.

(** What its documentation promises: packets come out whole, in order. *)
Class PacketBufferSpec (B : PacketBuffer) := {
  packets : buffer → list (list Ascii.ascii);
  packets_new : packets NewBuffer = [];
  packets_write : ∀ b b' p, Buffer_Write b p = Ok b' → packets b' = packets b ++ [p];
  packets_read : ∀ b p ps n, packets b = p :: ps → length p ≤ n →
    ∃ b', Buffer_Read b n = Some (Ok p, b') ∧ packets b' = ps;
  packets_read_short : ∀ b p ps n, packets b = p :: ps → n < length p →
    ∃ b', Buffer_Read b n = Some (Err io_ErrShortBuffer, b');
  packets_no_panic : ∀ b p, Buffer_Write b p ≠ Panic
}.

Section muxed_conn.
Context {B : PacketBuffer}.

(** [udpMuxedConn]; [closed] is the state of [closedChan] and of [closeOnce]. *)
Record udpMuxedConn := mkConn {
  Key : string;
  conn_LocalAddr : netAddr;
  addresses : list string;
  buf : buffer;
  closed : bool
}.

Definition with_buf (c : udpMuxedConn) (b : buffer) : udpMuxedConn :=
  mkConn (Key c) (conn_LocalAddr c) (addresses c) b (closed c).

Definition newUDPMuxedConn (key : string) (local : netAddr) : udpMuxedConn :=
  mkConn key local [] NewBuffer false.

Definition isClosed (c : udpMuxedConn) : bool := closed c.

(** [LocalAddr], and the deadlines, which are not kept: a read waits for good. *)
Definition udpMuxedConn_LocalAddr (c : udpMuxedConn) : netAddr := conn_LocalAddr c.
Definition udpMuxedConn_SetDeadline (c : udpMuxedConn) : res unit * udpMuxedConn := (Ok tt, c).
Definition udpMuxedConn_SetReadDeadline (c : udpMuxedConn) : res unit * udpMuxedConn := (Ok tt, c).
Definition udpMuxedConn_SetWriteDeadline (c : udpMuxedConn) : res unit * udpMuxedConn := (Ok tt, c).
(** [CloseChannel()]: a receive from it returns once this is [true]. *)
Definition udpMuxedConn_CloseChannel (c : udpMuxedConn) : bool := closed c.

(** [Close]: the first call closes the queue and the channel. *)
Definition conn_Close (c : udpMuxedConn) : udpMuxedConn :=
  if closed c then c
  else mkConn (Key c) (conn_LocalAddr c) (addresses c) (Buffer_Close (buf c)) true.

Definition getAddresses (c : udpMuxedConn) : list string := addresses c.

Definition containsAddress (c : udpMuxedConn) (addr : string) : bool :=
  existsb (λ a, bool_decide (addr = a)) (addresses c).

(** The locked part of [addAddress]; the mux registration follows in [Mux]. *)
Definition append_address (c : udpMuxedConn) (addr : string) : udpMuxedConn :=
  mkConn (Key c) (conn_LocalAddr c) (addresses c ++ [addr]) (buf c) (closed c).

(** [writePacket(data, addr)]; [pb] is the buffer the pool hands out, with
    whatever an earlier user left in it. *)
Definition writePacket (pb : list Ascii.ascii) (c : udpMuxedConn)
    (data : list Ascii.ascii) (addr : UDPAddr) : res udpMuxedConn :=
  if decide (length pb < length data + maxAddrSize) then Err io_ErrShortBuffer
  else
    pb ← put_uint16 0 (Z.of_nat (length data)) pb;
    let offset := 2 in
    pb ← copy_at offset data pb;
    let offset := offset + length data in
    tail ← subslice (offset + 2) (length pb) pb;
    '(n, tail) ← encodeUDPAddr addr tail;
    let pb := take (offset + 2) pb ++ tail in
    let total := offset + n + 2 in
    pb ← put_uint16 offset (Z.of_nat n) pb;
    out ← subslice 0 total pb;
    b ← Buffer_Write (buf c) out;
    Ok (with_buf c b).

(** [ReadFrom(b)] on a slice of [blen] bytes: the data copied to its front and
    the address. [None]: it blocks on the empty queue. *)
Definition ReadFrom (pb : list Ascii.ascii) (c : udpMuxedConn) (blen : nat) :
    option (res (list Ascii.ascii * UDPAddr) * udpMuxedConn) :=
  '(r, b) ← Buffer_Read (buf c) (length pb);
  Some (
    p ← r;
    let total := length p in
    let pb := write_at 0 p pb in
    head ← subslice 0 2 pb;
    let dataLen := Z.to_nat (u16_value head) in
    if decide (total < dataLen ∨ blen < dataLen) then Err io_ErrShortBuffer
    else
      let offset := 2 in
      data ← subslice offset (offset + dataLen) pb;
      let offset := offset + dataLen in
      alen ← subslice offset (offset + 2) pb;
      let addrLen := Z.to_nat (u16_value alen) in
      let offset := offset + 2 in
      abuf ← subslice offset (offset + addrLen) pb;
      rAddr ← decodeUDPAddr abuf (drop (offset + addrLen) pb);
      Ok (data, rAddr),
    with_buf c b).
End muxed_conn.

(** ** Laws of the in-place writes *)

Lemma put_uint16_app pre v rest :
  2 ≤ length rest →
  put_uint16 (length pre) v (pre ++ rest) = Ok (pre ++ u16_bytes v ++ drop 2 rest).
Proof.
  intros Hr. unfold put_uint16. rewrite decide_True by (rewrite length_app; lia).
  by rewrite write_at_app.
Qed.

Lemma put_uint16_start v buf :
  2 ≤ length buf → put_uint16 0 v buf = Ok (u16_bytes v ++ drop 2 buf).
Proof. apply (put_uint16_app []). Qed.

Lemma copy_at_app pre src rest :
  length src ≤ length rest →
  copy_at (length pre) src (pre ++ rest) = Ok (pre ++ src ++ drop (length src) rest).
Proof.
  intros Hr. unfold copy_at. rewrite length_app, decide_True by lia.
  rewrite take_ge by lia. by rewrite write_at_app.
Qed.

Lemma subslice_app pre mid rest :
  subslice (length pre) (length pre + length mid) (pre ++ mid ++ rest) = Ok mid.
Proof.
  unfold subslice, slice. rewrite !length_app, decide_True by lia.
  rewrite drop_app_length. replace (length pre + length mid - length pre) with (length mid) by lia.
  by rewrite take_app_length.
Qed.

Lemma slice_app {A} (pre mid rest : list A) :
  slice (length pre) (length pre + length mid) (pre ++ mid ++ rest) = mid.
Proof.
  unfold slice. rewrite drop_app_length.
  replace (length pre + length mid - length pre) with (length mid) by lia.
  by rewrite take_app_length.
Qed.

(** ** What the codec writes and reads *)

Definition addr_frame (text : list Ascii.ascii) (port : Z) (zone : list Ascii.ascii) :
    list Ascii.ascii :=
  u16_bytes (Z.of_nat (length text)) ++ text ++ u16_bytes port ++ zone.

Definition frame (data a : list Ascii.ascii) : list Ascii.ascii :=
  u16_bytes (Z.of_nat (length data)) ++ data ++ u16_bytes (Z.of_nat (length a)) ++ a.

Lemma length_addr_frame text port zone :
  length (addr_frame text port zone) = 2 + length text + 2 + length zone.
Proof. unfold addr_frame. rewrite !length_app. simpl. lia. Qed.

Lemma length_frame data a : length (frame data a) = 2 + length data + 2 + length a.
Proof. unfold frame. rewrite !length_app. simpl. lia. Qed.

Lemma encodeUDPAddr_spec addr text buf :
  IP_MarshalText (ua_IP addr) = Ok text →
  2 + length text + 2 + length (bytes_of_string (ua_Zone addr)) ≤ length buf →
  encodeUDPAddr addr buf =
  let a := addr_frame text (ua_Port addr) (bytes_of_string (ua_Zone addr)) in
  Ok (length a, a ++ drop (length a) buf).
Proof.
  intros Ht Hlen. unfold encodeUDPAddr. rewrite Ht. cbn [mbind res_bind].
  set (zone := bytes_of_string (ua_Zone addr)) in *.
  rewrite decide_False by lia.
  rewrite put_uint16_start by lia. cbn [mbind res_bind].
  set (u := u16_bytes (Z.of_nat (length text))).
  change (copy_at 2) with (copy_at (length u)).
  rewrite copy_at_app by (rewrite ?length_drop, ?length_app; simpl; lia). cbn [mbind res_bind].
  rewrite drop_drop, app_assoc.
  replace (2 + length text) with (length (u ++ text)) by (rewrite length_app; done).
  rewrite put_uint16_app by (rewrite ?length_drop, ?length_app; simpl; lia). cbn [mbind res_bind].
  rewrite drop_drop, app_assoc.
  replace (length (u ++ text) + 2) with (length ((u ++ text) ++ u16_bytes (ua_Port addr)))
    by (rewrite length_app; done).
  rewrite copy_at_app by (rewrite ?length_drop, ?length_app; simpl; lia). cbn [mbind res_bind].
  rewrite drop_drop. cbv zeta. rewrite length_addr_frame.
  unfold addr_frame. fold u. rewrite <-!app_assoc.
  assert (length (u ++ text ++ u16_bytes (ua_Port addr)) = 2 + length text + 2) as ->
    by (rewrite !length_app; simpl; lia).
  done.
Qed.

Lemma encodeUDPAddr_no_panic addr buf : encodeUDPAddr addr buf ≠ Panic.
Proof.
  destruct (IP_MarshalText (ua_IP addr)) as [text|e|] eqn:Ht.
  - destruct (decide (length buf < 2 + length text + 2 + length (bytes_of_string (ua_Zone addr)))).
    + unfold encodeUDPAddr. rewrite Ht. cbn [mbind res_bind]. by rewrite decide_True.
    + rewrite (encodeUDPAddr_spec _ text) by (done || lia). done.
  - unfold encodeUDPAddr. by rewrite Ht.
  - unfold IP_MarshalText in Ht. by repeat case_decide.
Qed.

Lemma addr_frame_split text port zone rest :
  addr_frame text port zone ++ rest =
  u16_bytes (Z.of_nat (length text)) ++ text ++ u16_bytes port ++ zone ++ rest.
Proof. unfold addr_frame. by rewrite <-!app_assoc. Qed.

(** What the decoder gives on an encoded address, whatever lies after it. *)
Lemma decodeUDPAddr_frame ip text port zone rest :
  IP_MarshalText ip = Ok text →
  decodeUDPAddr (addr_frame text port zone) rest =
  Ok (mkUDPAddr (default [] (To16 ip)) (port `mod` 65536) (string_of_bytes zone)).
Proof.
  intros [Hip Hlen]%IP_Unmarshal_Marshal. unfold decodeUDPAddr.
  rewrite addr_frame_split.
  set (u := u16_bytes (Z.of_nat (length text))).
  pose proof (subslice_app [] u (text ++ u16_bytes port ++ zone ++ rest)) as Hs.
  change (subslice (length []) (length [] + length u) ([] ++ ?x)) with (subslice 0 2 x) in Hs.
  rewrite Hs. cbn [mbind res_bind].
  assert (Z.to_nat (u16_value u) = length text) as ->.
  { unfold u. rewrite <-(app_nil_r (u16_bytes _)), u16_value_small by lia. lia. }
  rewrite length_addr_frame, decide_False by lia.
  assert (slice 2 (2 + length text) (addr_frame text port zone) = text) as ->.
  { unfold addr_frame. apply (slice_app u text). }
  rewrite Hip. cbn [mbind res_bind].
  pose proof (subslice_app (u ++ text) (u16_bytes port) (zone ++ rest)) as Hp.
  rewrite length_app, <-app_assoc in Hp.
  change (length u) with 2 in Hp. change (length (u16_bytes port)) with 2 in Hp.
  rewrite Hp. cbn [mbind res_bind].
  rewrite <-(app_nil_r (u16_bytes port)), u16_value_bytes.
  pose proof (subslice_app (u ++ text ++ u16_bytes port) zone []) as Hz.
  rewrite app_nil_r, <-!app_assoc in Hz.
  assert (length (u ++ text ++ u16_bytes port) = 2 + length text + 2) as Hl
    by (rewrite !length_app; simpl; lia).
  rewrite Hl in Hz. fold u. unfold addr_frame. fold u. by rewrite Hz.
Qed.

Section packets.
Context {B : PacketBuffer}.

(** The prefix of [writePacket] up to the address: the data length and the
    data are in place, and the codec gets the slice after the address length. *)
Lemma writePacket_encode pb c data addr :
  length data + maxAddrSize ≤ length pb →
  ∃ two rest, length two = 2 ∧ length rest = length pb - (4 + length data) ∧
  writePacket pb c data addr =
  ('(n, tail) ← encodeUDPAddr addr rest;
   let pre := u16_bytes (Z.of_nat (length data)) ++ data in
   pb ← put_uint16 (length pre) (Z.of_nat n) (pre ++ two ++ tail);
   out ← subslice 0 (length pre + n + 2) pb;
   b ← Buffer_Write (buf c) out;
   Ok (with_buf c b)).
Proof.
  intros Hmax. unfold writePacket. rewrite decide_False by lia.
  unfold maxAddrSize in Hmax. rewrite put_uint16_start by lia. cbn [mbind res_bind].
  set (u := u16_bytes (Z.of_nat (length data))).
  change (copy_at 2) with (copy_at (length u)).
  rewrite copy_at_app by (rewrite ?length_drop; simpl; lia). cbn [mbind res_bind].
  rewrite drop_drop, app_assoc.
  set (pre := u ++ data). assert (length pre = 2 + length data) as Hpre
    by (unfold pre; rewrite length_app; done).
  set (rest := drop (2 + length data) pb). rewrite <-Hpre.
  assert (length rest = length pb - (2 + length data)) as Hrest
    by (unfold rest; rewrite length_drop; lia).
  exists (take 2 rest), (drop 2 rest).
  rewrite length_take, length_drop. split_and!; [lia|lia|].
  assert (length (pre ++ take 2 rest) = length pre + 2) as Hp2
    by (rewrite length_app, length_take; lia).
  assert (pre ++ rest = (pre ++ take 2 rest) ++ drop 2 rest) as ->
    by (by rewrite <-app_assoc, take_drop).
  rewrite <-Hp2. pose proof (subslice_app (pre ++ take 2 rest) (drop 2 rest) []) as Hs.
  rewrite app_nil_r, <-length_app in Hs. rewrite Hs. cbn [mbind res_bind].
  destruct (encodeUDPAddr addr (drop 2 rest)) as [[n tail]| |]; [|done..].
  cbn [mbind res_bind]. cbv zeta. by rewrite take_app_length, <-app_assoc.
Qed.

(** [writePacket] queues exactly one frame, whatever the pool buffer held. *)
Lemma writePacket_spec pb c data addr text a :
  IP_MarshalText (ua_IP addr) = Ok text →
  a = addr_frame text (ua_Port addr) (bytes_of_string (ua_Zone addr)) →
  length data + maxAddrSize ≤ length pb →
  2 + length data + 2 + length a ≤ length pb →
  writePacket pb c data addr =
  (b ← Buffer_Write (buf c) (frame data a); Ok (with_buf c b)).
Proof.
  intros Ht Ha Hmax Hlen.
  destruct (writePacket_encode pb c data addr Hmax) as (two & rest & Htwo & Hrest & ->).
  rewrite (encodeUDPAddr_spec _ text) by (done || (subst a; rewrite length_addr_frame in Hlen; lia)).
  rewrite <-Ha. cbv zeta. cbn [mbind res_bind].
  set (pre := u16_bytes (Z.of_nat (length data)) ++ data).
  rewrite put_uint16_app by (rewrite !length_app; lia). cbn [mbind res_bind].
  pose proof (drop_app_length two (a ++ drop (length a) rest)) as ->%(λ H, eq_trans (f_equal (λ n, drop n _) (eq_sym Htwo)) H).
  assert (pre ++ u16_bytes (Z.of_nat (length a)) ++ a ++ drop (length a) rest =
          [] ++ frame data a ++ drop (length a) rest) as ->.
  { unfold frame, pre. by rewrite <-!app_assoc. }
  assert (length pre + length a + 2 = length (@nil Ascii.ascii) + length (frame data a)) as ->
    by (rewrite length_frame; unfold pre; rewrite length_app; simpl; lia).
  by rewrite (subslice_app []).
Qed.

(** A successful [writePacket] had a printable address and room for it. *)
Lemma writePacket_Ok pb c data addr c' :
  writePacket pb c data addr = Ok c' →
  ∃ text a b, IP_MarshalText (ua_IP addr) = Ok text ∧
    a = addr_frame text (ua_Port addr) (bytes_of_string (ua_Zone addr)) ∧
    2 + length data + 2 + length a ≤ length pb ∧
    Buffer_Write (buf c) (frame data a) = Ok b ∧ c' = with_buf c b.
Proof.
  intros Hw. destruct (decide (length pb < length data + maxAddrSize)) as [Hs|Hs].
  { unfold writePacket in Hw. by rewrite decide_True in Hw. }
  destruct (IP_MarshalText (ua_IP addr)) as [text|e|] eqn:Ht.
  - set (a := addr_frame text (ua_Port addr) (bytes_of_string (ua_Zone addr))).
    destruct (decide (2 + length data + 2 + length a ≤ length pb)) as [Hl|Hl].
    + rewrite (writePacket_spec _ _ _ _ text a) in Hw by (done || lia).
      apply res_bind_Ok in Hw as (b & Hb & [= <-]). exists text, a, b. done.
    + destruct (writePacket_encode pb c data addr ltac:(lia)) as (two & rest & _ & Hr & Heq).
      rewrite Heq in Hw. unfold encodeUDPAddr in Hw. rewrite Ht in Hw.
      cbn [mbind res_bind] in Hw. unfold a in Hl. rewrite length_addr_frame in Hl.
      by rewrite decide_True in Hw by lia.
  - destruct (writePacket_encode pb c data addr ltac:(lia)) as (two & rest & _ & _ & Heq).
    rewrite Heq in Hw. unfold encodeUDPAddr in Hw. by rewrite Ht in Hw.
  - unfold IP_MarshalText in Ht. by repeat case_decide.
Qed.

(** [ReadFrom] undoes the framing when the frame is the next packet. *)
Lemma ReadFrom_frame pb c blen data ip text port zone b' :
  IP_MarshalText ip = Ok text →
  let a := addr_frame text port zone in
  (Z.of_nat (length data) < 65536)%Z → (Z.of_nat (length a) < 65536)%Z → length data ≤ blen →
  length (frame data a) ≤ length pb →
  Buffer_Read (buf c) (length pb) = Some (Ok (frame data a), b') →
  ReadFrom pb c blen =
  Some (Ok (data, mkUDPAddr (default [] (To16 ip)) (port `mod` 65536) (string_of_bytes zone)),
        with_buf c b').
Proof.
  intros Ht a Hd Ha Hblen Hlen Hread. unfold ReadFrom. rewrite Hread.
  cbn [mbind option_bind res_bind]. do 2 f_equal.
  pose proof (write_at_app [] (frame data a) pb) as Hw. cbn [app length] in Hw. rewrite Hw.
  set (rest := drop (length (frame data a)) pb).
  set (u := u16_bytes (Z.of_nat (length data))).
  set (v := u16_bytes (Z.of_nat (length a))).
  assert (frame data a ++ rest = [] ++ u ++ data ++ v ++ a ++ rest) as Hf.
  { unfold frame. by rewrite <-!app_assoc. }
  rewrite Hf. pose proof (subslice_app [] u (data ++ v ++ a ++ rest)) as Hs.
  change (length [] + length u) with 2 in Hs. change (length (@nil Ascii.ascii)) with 0 in Hs.
  rewrite Hs. cbn [mbind res_bind app].
  assert (Z.to_nat (u16_value u) = length data) as ->.
  { unfold u. rewrite <-(app_nil_r (u16_bytes _)), u16_value_small by lia. lia. }
  rewrite decide_False by (rewrite length_frame; lia).
  pose proof (subslice_app u data (v ++ a ++ rest)) as H1. change (length u) with 2 in H1.
  rewrite H1. cbn [mbind res_bind].
  pose proof (subslice_app (u ++ data) v (a ++ rest)) as H2.
  rewrite length_app, <-app_assoc in H2. change (length u) with 2 in H2.
  change (length v) with 2 in H2. rewrite H2. cbn [mbind res_bind].
  assert (Z.to_nat (u16_value v) = length a) as ->.
  { unfold v. rewrite <-(app_nil_r (u16_bytes _)), u16_value_small by lia. lia. }
  pose proof (subslice_app (u ++ data ++ v) a rest) as H3.
  rewrite <-!app_assoc in H3.
  assert (length (u ++ data ++ v) = 2 + length data + 2) as Hl
    by (rewrite !length_app; simpl; lia).
  rewrite Hl in H3. rewrite H3. cbn [mbind res_bind].
  unfold a. by rewrite (decodeUDPAddr_frame ip).
Qed.
End packets.

(** ** A queue to run the code on *)

(** Packets in a list; closing makes writes fail and reads drain, then EOF. *)
Global Instance list_buffer : PacketBuffer := {|
  buffer := list (list Ascii.ascii) * bool;
  NewBuffer := ([], false);
  Buffer_Write b p := if b.2 then Err io_ErrClosedPipe else Ok (b.1 ++ [p], b.2);
  Buffer_Read b n :=
    match b.1 with
    | [] => if b.2 then Some (Err io_EOF, b) else None
    | p :: ps => if decide (length p ≤ n) then Some (Ok p, (ps, b.2))
                 else Some (Err io_ErrShortBuffer, (ps, b.2))
    end;
  Buffer_Close b := (b.1, true)
|}.

Global Program Instance list_buffer_spec : PacketBufferSpec list_buffer := {|
  packets b := b.1
|}.
Next Obligation. done. Qed.
Next Obligation. intros [ps []] b' p [= <-]. done. Qed.
Next Obligation.
  intros [l c] p ps n Hp Hn. simpl in *. subst l. rewrite decide_True by done. by eexists.
Qed.
Next Obligation.
  intros [l c] p ps n Hp Hn. simpl in *. subst l. rewrite decide_False by lia. by eexists.
Qed.
Next Obligation. by intros [ps []] p. Qed.

(** ** Whole conversations over a connection *)

Definition poolBufSize : nat := receiveMTU + maxAddrSize.

Abbreviation msg := (list Ascii.ascii * UDPAddr)%type.

Definition frame_of (m : msg) : list Ascii.ascii :=
  match IP_MarshalText (ua_IP m.2) with
  | Ok text => frame m.1 (addr_frame text (ua_Port m.2) (bytes_of_string (ua_Zone m.2)))
  | _ => []
  end.

(** What a reader is given for a message: the same data, the IP in 16-byte
    form and the port modulo 2^16. *)
Definition received (m : msg) : msg :=
  (m.1, mkUDPAddr (default [] (To16 (ua_IP m.2))) (ua_Port m.2 `mod` 65536) (ua_Zone m.2)).

Section conversations.
Context {B : PacketBuffer} `{!PacketBufferSpec B}.

(** Each call takes whatever buffer the pool hands out: [pool i] is the one of
    the [i]-th call. *)
Fixpoint write_all (pool : nat → list Ascii.ascii) (i : nat) (c : udpMuxedConn)
    (ms : list msg) : res udpMuxedConn :=
  match ms with
  | [] => Ok c
  | m :: ms' => c' ← writePacket (pool i) c m.1 m.2; write_all pool (S i) c' ms'
  end.

Fixpoint read_all (pool : nat → list Ascii.ascii) (i : nat) (c : udpMuxedConn)
    (blen n : nat) : option (list msg * udpMuxedConn) :=
  match n with
  | O => Some ([], c)
  | S n' =>
      '(r, c') ← ReadFrom (pool i) c blen;
      match r with
      | Ok m => '(ms, c'') ← read_all pool (S i) c' blen n'; Some (m :: ms, c'')
      | _ => None
      end
  end.

Definition sendable (m : msg) : Prop :=
  ∃ text, IP_MarshalText (ua_IP m.2) = Ok text ∧ length (frame_of m) ≤ poolBufSize.

Definition queued (c : udpMuxedConn) (ms : list msg) : Prop :=
  packets (buf c) = map frame_of ms ∧ Forall sendable ms.

Lemma write_all_queued pool i c ms c' ms0 :
  (∀ i, length (pool i) = poolBufSize) →
  queued c ms0 → write_all pool i c ms = Ok c' → queued c' (ms0 ++ ms).
Proof.
  intros Hpool. revert i c ms0. induction ms as [|m ms IH]; intros i c ms0 [Hp Hs] Hw; cbn in Hw.
  { simplify_eq. by rewrite app_nil_r. }
  apply res_bind_Ok in Hw as (c1 & (text & a & b & Ht & -> & Hl & Hb & ->)%writePacket_Ok & Hw).
  rewrite Hpool in Hl.
  assert (frame_of m = frame m.1 (addr_frame text (ua_Port m.2) (bytes_of_string (ua_Zone m.2))))
    as Hf by (unfold frame_of; by rewrite Ht).
  replace (ms0 ++ m :: ms) with ((ms0 ++ [m]) ++ ms) by (by rewrite <-app_assoc).
  apply (IH (S i) (with_buf c b)); [|done]. split.
  - cbn. apply packets_write in Hb. by rewrite Hb, Hp, map_app, <-Hf.
  - rewrite Forall_app. split; [done|]. constructor; [|done].
    exists text. split; [done|]. rewrite Hf, length_frame. lia.
Qed.

Lemma ReadFrom_queued pb c m ms blen :
  length pb = poolBufSize → queued c (m :: ms) → length m.1 ≤ blen →
  ∃ c', ReadFrom pb c blen = Some (Ok (received m), c') ∧ queued c' ms.
Proof.
  intros Hpb [Hp Hs] Hblen. apply Forall_cons_iff in Hs as [(text & Ht & Hlen) Hs].
  cbn [map] in Hp. unfold frame_of in Hlen. rewrite Ht in Hlen.
  destruct (packets_read (buf c) (frame_of m) (map frame_of ms) (length pb) Hp) as (b' & Hr & Hb').
  { unfold frame_of. rewrite Ht. lia. }
  exists (with_buf c b'). split; [|done]. unfold frame_of in Hr. rewrite Ht in Hr.
  assert (Z.of_nat poolBufSize = 8704%Z) as Hpool
    by (unfold poolBufSize, receiveMTU, maxAddrSize; lia).
  pose proof Hlen as Hlen2. rewrite length_frame in Hlen2.
  rewrite (ReadFrom_frame _ _ _ m.1 (ua_IP m.2) text (ua_Port m.2)
             (bytes_of_string (ua_Zone m.2)) b') by (done || lia).
  unfold received. by rewrite string_of_bytes_of_string.
Qed.

(** C11. Datagrams cross a muxed connection whole and in order: what
    [writePacket] accepted, [ReadFrom] returns, each with its data unchanged
    and its address (the IP in 16-byte form, the port modulo 2^16, the zone),
    whatever stale bytes the pooled buffers held on either side, and the
    queue is empty again afterwards. *)
Theorem muxed_conn_fifo (pool pool' : nat → list Ascii.ascii) (key : string)
    (local : netAddr) (ms : list msg) (c : udpMuxedConn) (blen : nat) :
  (∀ i, length (pool i) = poolBufSize) → (∀ i, length (pool' i) = poolBufSize) →
  write_all pool 0 (newUDPMuxedConn key local) ms = Ok c →
  Forall (λ m, length m.1 ≤ blen) ms →
  ∃ c', read_all pool' 0 c blen (length ms) = Some (map received ms, c') ∧
        packets (buf c') = [].
Proof.
  intros Hpool Hpool' Hw Hb.
  assert (queued (newUDPMuxedConn key local) []) as H0
    by (split; [apply packets_new|constructor]).
  pose proof (write_all_queued _ _ _ _ _ _ Hpool H0 Hw) as Hq. cbn [app] in Hq.
  clear Hw H0 Hpool. revert c Hq. generalize 0.
  induction ms as [|m ms IH]; intros i c Hq; cbn [read_all length].
  { exists c. split; [done|]. apply Hq. }
  apply Forall_cons_iff in Hb as [Hm Hb].
  destruct (ReadFrom_queued (pool' i) c m ms blen (Hpool' i) Hq Hm) as (c1 & Hr & Hq1).
  destruct (IH Hb (S i) c1 Hq1) as (c2 & Hr2 & Hp2).
  exists c2. rewrite Hr. cbn [mbind option_bind]. rewrite Hr2. done.
Qed.

(** [writePacket] never panics: for any pooled buffer, any data and any
    address, the in-place writes and the final slice stay in bounds, or the
    call returns an error before them. *)
Lemma writePacket_no_panic (pb : list Ascii.ascii) (c : udpMuxedConn)
    (data : list Ascii.ascii) (addr : UDPAddr) :
  writePacket pb c data addr ≠ Panic.
Proof.
  intros Hw. destruct (decide (length pb < length data + maxAddrSize)) as [Hs|Hs].
  { unfold writePacket in Hw. by rewrite decide_True in Hw. }
  destruct (writePacket_encode pb c data addr ltac:(lia)) as (two & rest & _ & Hr & Heq).
  pose proof Hw as Hw0. rewrite Heq in Hw.
  pose proof (encodeUDPAddr_no_panic addr rest) as Hnp.
  destruct (encodeUDPAddr addr rest) as [[n tail]| |] eqn:He; [|done..].
  destruct (IP_MarshalText (ua_IP addr)) as [text| |] eqn:Ht;
    try (unfold encodeUDPAddr in He; by rewrite Ht in He).
  set (a := addr_frame text (ua_Port addr) (bytes_of_string (ua_Zone addr))).
  destruct (decide (length a ≤ length rest)) as [Hl|Hl].
  - unfold maxAddrSize in Hs.
    rewrite (writePacket_spec _ _ _ _ text a) in Hw0 by (done || (unfold maxAddrSize; lia)).
    pose proof (packets_no_panic (buf c) (frame data a)).
    by destruct (Buffer_Write (buf c) (frame data a)).
  - unfold encodeUDPAddr in He. rewrite Ht in He. cbn [mbind res_bind] in He.
    unfold a in Hl. rewrite length_addr_frame in Hl. by rewrite decide_True in He by lia.
Qed.
End conversations.

(** The bounds [decodeUDPAddr] does not check: it panics exactly when the
    address text is complete and valid but the two bytes of the port do not fit
    in the slice; every other malformed input is an error. *)
Lemma decodeUDPAddr_panics_iff (buf rest : list Ascii.ascii) :
  2 ≤ length (buf ++ rest) →
  let n := Z.to_nat (u16_value (take 2 (buf ++ rest))) in
  decodeUDPAddr buf rest = Panic ↔
  n + 2 ≤ length buf < n + 4 ∧ is_ok (IP_UnmarshalText (slice 2 (2 + n) buf)) = true.
Proof.
  intros H2 n. unfold decodeUDPAddr.
  assert (subslice 0 2 (buf ++ rest) = Ok (take 2 (buf ++ rest))) as ->.
  { unfold subslice. by rewrite decide_True by lia. }
  cbn [mbind res_bind]. fold n.
  case_decide as Hlen; [split; [done|lia]|].
  destruct (IP_UnmarshalText (slice 2 (2 + n) buf)) as [ip|e|] eqn:Hip; cbn [is_ok].
  - cbn [mbind res_bind]. unfold subslice. rewrite length_app in *.
    repeat (case_decide; cbn [mbind res_bind]); split; intros; try done; try lia.
  - split; [done|by intros [_ ?]].
  - unfold IP_UnmarshalText, or_err in Hip. repeat case_match; done.
Qed.

(** *** The conversations run *)

Definition sample_pool (i : nat) : list Ascii.ascii := replicate poolBufSize "170"%char.
Definition sample_msgs : list msg :=
  [(bytes_of_string "hello", mkUDPAddr ["010"; "000"; "000"; "001"]%char 51820 EmptyString);
   ([], mkUDPAddr IPv6loopback 1 "eth0")].

Lemma muxed_conn_fifo_witness :
  ∃ c', read_all sample_pool 0
          (match write_all sample_pool 0 (newUDPMuxedConn "u" (AOther "udp" "x")) sample_msgs with
           | Ok c => c | _ => newUDPMuxedConn "u" (AOther "udp" "x") end) 16 2
        = Some (map received sample_msgs, c') ∧ packets (buf c') = [].
Proof.
  apply (muxed_conn_fifo sample_pool sample_pool "u" (AOther "udp" "x") sample_msgs).
  - intros i. apply length_replicate.
  - intros i. apply length_replicate.
  - vm_compute. reflexivity.
  - repeat constructor; vm_compute; lia.
Defined.

Lemma decodeUDPAddr_panics_witness :
  decodeUDPAddr (u16_bytes 7 ++ bytes_of_string "1.2.3.4" ++ ["001"%char]) [] = Panic.
Proof.
  apply decodeUDPAddr_panics_iff; vm_compute; [lia|]. split; [lia|reflexivity].
Defined.
