(* ===== verification/Mux.v ===== *)
(** * [iface/bind/udp_mux.go]: many logical connections over one UDP socket

    The mux keeps a heap of muxed connections (a pointer is an index of [conns],
    so two maps may alias one connection), the per-family maps from ufrag to
    connection, and the map from remote address to the connections that wrote
    to it. The socket is any [net.PacketConn]: the interface [PacketConn]; the
    STUN library is the parameter [StunLib]. *)
From Stdlib Require Import Ascii.
From S2P Require Import Prelude GoStrings GoNet MuxedConn.

(** [net.PacketConn], for the methods the program calls: writing may change the
    socket's own state, [S]. *)
Class PacketConn (S : Type) := {
  pc_WriteTo : S → list Ascii.ascii → netAddr → res nat * S;
  pc_LocalAddr : S → netAddr;
  pc_Close : S → S
}.

(** [github.com/pion/stun]: a decoded message, its raw bytes and the attributes
    the program asks for. *)
Class StunLib := {
  stun_Message : Type;
  msg_Raw : stun_Message → list Ascii.ascii;
  msg_Get_Username : stun_Message → option (list Ascii.ascii);
  stun_XORMappedAddress : Type;
  msg_Has_XORMapped : stun_Message → bool;
  msg_GetFrom_XORMapped : stun_Message → res stun_XORMappedAddress
}.

Section mux.
Context {B : PacketBuffer} {S : Type} {PC : PacketConn S} {SL : StunLib}.

(** [UDPMuxDefault]. [closedChan] is the state of the channel and of
    [closeOnce]; [watchers] are the goroutines [GetConn] starts, each waiting
    for its connection to close. *)
Record UDPMuxDefault := mkMux {
  conns : list udpMuxedConn;
  connsIPv4 : gmap string nat;
  connsIPv6 : gmap string nat;
  addressMap : gmap string (list nat);
  closedChan : bool;
  localAddrsForUnspecified : list netAddr;
  UDPConn : S;
  watchers : list (nat * string)
}.

Definition set_conns f m := mkMux (f (conns m)) (connsIPv4 m) (connsIPv6 m) (addressMap m)
  (closedChan m) (localAddrsForUnspecified m) (UDPConn m) (watchers m).
Definition set_IPv4 f m := mkMux (conns m) (f (connsIPv4 m)) (connsIPv6 m) (addressMap m)
  (closedChan m) (localAddrsForUnspecified m) (UDPConn m) (watchers m).
Definition set_IPv6 f m := mkMux (conns m) (connsIPv4 m) (f (connsIPv6 m)) (addressMap m)
  (closedChan m) (localAddrsForUnspecified m) (UDPConn m) (watchers m).
Definition set_addressMap f m := mkMux (conns m) (connsIPv4 m) (connsIPv6 m) (f (addressMap m))
  (closedChan m) (localAddrsForUnspecified m) (UDPConn m) (watchers m).
Definition set_closed m := mkMux (conns m) (connsIPv4 m) (connsIPv6 m) (addressMap m)
  true (localAddrsForUnspecified m) (UDPConn m) (watchers m).
Definition set_UDPConn s m := mkMux (conns m) (connsIPv4 m) (connsIPv6 m) (addressMap m)
  (closedChan m) (localAddrsForUnspecified m) s (watchers m).
Definition set_watchers f m := mkMux (conns m) (connsIPv4 m) (connsIPv6 m) (addressMap m)
  (closedChan m) (localAddrsForUnspecified m) (UDPConn m) (f (watchers m)).

(** The maps of a new mux; [NewUDPMuxDefault] computes the address list. *)
Definition new_mux (locals : list netAddr) (conn : S) : UDPMuxDefault :=
  mkMux [] ∅ ∅ ∅ false locals conn [].

Definition LocalAddr (m : UDPMuxDefault) : netAddr := pc_LocalAddr (UDPConn m).

Definition GetListenAddresses (m : UDPMuxDefault) : list netAddr :=
  match localAddrsForUnspecified m with
  | [] => [LocalAddr m]
  | l => l
  end.

Definition IsClosed (m : UDPMuxDefault) : bool := closedChan m.

(** [udpAddr, _ := addr.( *net.UDPAddr); udpAddr != nil && udpAddr.IP.To4() == nil] *)
Definition is_IPv6 (addr : netAddr) : bool :=
  match addr with
  | AUDP u => match To4 (ua_IP u) with None => true | Some _ => false end
  | AOther _ _ => false
  end.

Definition getConn (m : UDPMuxDefault) (ufrag : string) (isIPv6 : bool) : option nat :=
  if isIPv6 then connsIPv6 m !! ufrag else connsIPv4 m !! ufrag.

Definition createMuxedConn (m : UDPMuxDefault) (key : string) : nat * UDPMuxDefault :=
  (length (conns m), set_conns (λ cs, cs ++ [newUDPMuxedConn key (LocalAddr m)]) m).

(** [GetConn(ufrag, addr)] *)
Definition GetConn (m : UDPMuxDefault) (ufrag : string) (addr : netAddr) :
    res nat * UDPMuxDefault :=
  if bool_decide (localAddrsForUnspecified m = []) &&
     negb (bool_decide (netAddr_String (LocalAddr m) = netAddr_String addr))
  then (Err (Errorf ("invalid address " +:+ netAddr_String addr)), m)
  else
    let isIPv6 := is_IPv6 addr in
    if IsClosed m then (Err io_ErrClosedPipe, m)
    else
      match getConn m ufrag isIPv6 with
      | Some conn => (Ok conn, m)
      | None =>
          let '(c, m) := createMuxedConn m ufrag in
          let m := set_watchers (λ ws, ws ++ [(c, ufrag)]) m in
          if isIPv6 then (Ok c, set_IPv6 <[ufrag:=c]> m)
          else (Ok c, set_IPv4 <[ufrag:=c]> m)
      end.

(** [RemoveConnByUfrag], the section under [m.mu]: the connections taken out of
    the ufrag maps. *)
Definition remove_conns (m : UDPMuxDefault) (ufrag : string) : list nat * UDPMuxDefault :=
  let removed := option_list (connsIPv4 m !! ufrag) ++ option_list (connsIPv6 m !! ufrag) in
  (removed, set_IPv6 (delete ufrag) (set_IPv4 (delete ufrag) m)).

Definition conn_addresses (m : UDPMuxDefault) (c : nat) : list string :=
  match conns m !! c with Some x => getAddresses x | None => [] end.

(** The section under [m.addressMapMu]: every address of a removed connection
    is deleted from the address map. *)
Definition remove_addresses (m : UDPMuxDefault) (removed : list nat) : UDPMuxDefault :=
  foldl (λ m c, set_addressMap (delete_all (conn_addresses m c)) m) m removed.

Definition RemoveConnByUfrag (m : UDPMuxDefault) (ufrag : string) : UDPMuxDefault :=
  let '(removed, m) := remove_conns m ufrag in remove_addresses m removed.

Definition update_conn (c : nat) (f : udpMuxedConn → udpMuxedConn) (m : UDPMuxDefault) :
    UDPMuxDefault :=
  match conns m !! c with
  | Some x => set_conns <[c := f x]> m
  | None => m
  end.

(** [Close]: every connection in the two maps, then the maps, the channel and
    the socket. *)
Definition Close (m : UDPMuxDefault) : UDPMuxDefault :=
  if closedChan m then m
  else
    let m := foldl (λ m c, update_conn c conn_Close m) m ((map_to_list (connsIPv4 m)).*2) in
    let m := foldl (λ m c, update_conn c conn_Close m) m ((map_to_list (connsIPv6 m)).*2) in
    let m := set_IPv6 (λ _, ∅) (set_IPv4 (λ _, ∅) m) in
    let m := set_closed m in
    set_UDPConn (pc_Close (UDPConn m)) m.

Definition writeTo (m : UDPMuxDefault) (buf : list Ascii.ascii) (rAddr : netAddr) :
    res nat * UDPMuxDefault :=
  let '(r, s) := pc_WriteTo (UDPConn m) buf rAddr in (r, set_UDPConn s m).

(** [registerConnForAddress]: the check takes no lock, what follows does. *)
Definition append_conn (m : UDPMuxDefault) (conn : nat) (addr : string) : UDPMuxDefault :=
  set_addressMap (λ am, <[addr := default [] (am !! addr) ++ [conn]]> am) m.
Definition registerConnForAddress (m : UDPMuxDefault) (conn : nat) (addr : string) :
    UDPMuxDefault :=
  if IsClosed m then m
  else append_conn m conn addr.

(** [addAddress] of a muxed connection. *)
Definition addAddress (m : UDPMuxDefault) (c : nat) (addr : string) : UDPMuxDefault :=
  registerConnForAddress (update_conn c (λ x, append_address x addr) m) c addr.

(** [WriteTo] of a muxed connection. *)
Definition conn_WriteTo (m : UDPMuxDefault) (c : nat) (b : list Ascii.ascii) (rAddr : netAddr) :
    res nat * UDPMuxDefault :=
  match conns m !! c with
  | None => (Panic, m)
  | Some x =>
      if isClosed x then (Err io_ErrClosedPipe, m)
      else
        let addr := netAddr_String rAddr in
        let m := if containsAddress x addr then m else addAddress m c addr in
        writeTo m b rAddr
  end.

Definition conn_Key (m : UDPMuxDefault) (c : nat) : option string := Key <$> conns m !! c.

(** [HandleSTUNMessage], the section under [m.addressMapMu]: the connections
    registered for the address. *)
Definition stored_conns (m : UDPMuxDefault) (addr : netAddr) : list nat :=
  default [] (addressMap m !! netAddr_String addr).
(** The section under [m.mu]: and the one the username attribute names. *)
Definition add_named (m : UDPMuxDefault) (username : option (list Ascii.ascii)) (addr : netAddr)
    (stored : list nat) : list nat :=
  match username with
  | None => stored
  | Some attr =>
      let ufrag := default EmptyString (strings_Split (string_of_bytes attr) colon !! 0) in
      match getConn m ufrag (is_IPv6 addr) with
      | None => stored
      | Some d =>
          if existsb (λ c, bool_decide (conn_Key m c = conn_Key m d)) stored then stored
          else stored ++ [d]
      end
  end.
(** The connections a message is forwarded to when nothing comes in between. *)
Definition destinations (m : UDPMuxDefault) (username : option (list Ascii.ascii)) (addr : netAddr) :
    list nat := add_named m username addr (stored_conns m addr).

Definition forward (pb raw : list Ascii.ascii) (remote : UDPAddr) (m : UDPMuxDefault) (c : nat) :
    UDPMuxDefault :=
  update_conn c (λ x, match writePacket pb x raw remote with Ok x' => x' | _ => x end) m.

(** [HandleSTUNMessage(msg, addr)], its sections one after the other; [pool i] is
    the pooled buffer of the [i]-th forward. A failing forward is logged and the
    next one is tried. *)
Definition HandleSTUNMessage (pool : nat → list Ascii.ascii) (m : UDPMuxDefault)
    (msg : stun_Message) (addr : netAddr) : res unit * UDPMuxDefault :=
  match addr with
  | AOther _ _ => (Err (Errorf "underlying PacketConn did not return a UDPAddr"), m)
  | AUDP remoteAddr =>
      let dests := destinations m (msg_Get_Username msg) addr in
      (Ok tt,
       foldl (λ m '(i, c), forward (pool i) (msg_Raw msg) remoteAddr m c) m
         (zip (seq 0 (length dests)) dests))
  end.
End mux.

(** ** Frame lemmas *)

Section mux_facts.
Context {B : PacketBuffer} {S : Type} {PC : PacketConn S} {SL : StunLib}.
Implicit Types m : UDPMuxDefault (B := B) (S := S).

(** The maps and flags of a mux, everything but the heap and the socket. *)
Definition same_maps m m' : Prop :=
  connsIPv4 m = connsIPv4 m' ∧ connsIPv6 m = connsIPv6 m' ∧ addressMap m = addressMap m' ∧
  closedChan m = closedChan m' ∧ localAddrsForUnspecified m = localAddrsForUnspecified m' ∧
  watchers m = watchers m'.

(** Same maps, and every connection keeps its key and its addresses. *)
Definition heap_ext m m' : Prop :=
  same_maps m m' ∧ ∀ c, conn_Key m c = conn_Key m' c ∧ conn_addresses m c = conn_addresses m' c.

Global Instance heap_ext_preorder : PreOrder heap_ext.
Proof.
  unfold heap_ext, same_maps. split.
  - intros m. naive_solver.
  - intros m1 m2 m3 [H1 H1'] [H2 H2']. split; [naive_solver congruence|].
    intros c. destruct (H1' c), (H2' c). split; congruence.
Qed.

Lemma lookup_update_conn m c f c' :
  conns (update_conn c f m) !! c' =
  if decide (c = c') then f <$> conns m !! c' else conns m !! c'.
Proof.
  unfold update_conn. destruct (conns m !! c) as [x|] eqn:Hc; cbn [conns set_conns].
  - case_decide as Hd; subst.
    + rewrite list_lookup_insert_eq by (by apply lookup_lt_Some in Hc). by rewrite Hc.
    + by rewrite list_lookup_insert_ne.
  - case_decide; subst; [by rewrite Hc|done].
Qed.

Lemma update_conn_same_maps m c f : same_maps m (update_conn c f m).
Proof. unfold update_conn. by destruct (conns m !! c). Qed.

Lemma update_conn_ext m c f :
  (∀ x, Key (f x) = Key x ∧ addresses (f x) = addresses x) → heap_ext m (update_conn c f m).
Proof.
  intros Hf. split; [apply update_conn_same_maps|]. intros c'.
  unfold conn_Key, conn_addresses. rewrite lookup_update_conn.
  case_decide; subst; [|done]. destruct (conns m !! c') as [x|]; [|done]. cbn.
  destruct (Hf x) as [H1 H2]. unfold getAddresses. by rewrite H1, H2.
Qed.

Lemma foldl_ext {A} (f : UDPMuxDefault → A → UDPMuxDefault) m (l : list A) :
  (∀ m a, heap_ext m (f m a)) → heap_ext m (foldl f m l).
Proof.
  intros Hf. revert m. induction l as [|a l IH]; intros m; cbn [foldl]; [reflexivity|].
  transitivity (f m a); [apply Hf|apply IH].
Qed.

Lemma conn_Close_ext m c : heap_ext m (update_conn c conn_Close m).
Proof. apply update_conn_ext. intros x. unfold conn_Close. by destruct (closed x). Qed.

Lemma writePacket_keeps pb x raw remote x' :
  writePacket pb x raw remote = Ok x' →
  Key x' = Key x ∧ addresses x' = addresses x ∧ closed x' = closed x.
Proof. intros (text & a & b & _ & _ & _ & _ & ->)%writePacket_Ok. done. Qed.

Lemma forward_ext pb raw remote m c : heap_ext m (forward pb raw remote m c).
Proof.
  apply update_conn_ext. intros x. destruct (writePacket pb x raw remote) eqn:Hw; [|done..].
  apply writePacket_keeps in Hw. naive_solver.
Qed.

Lemma forward_other pb raw remote m c c' :
  c ≠ c' → conns (forward pb raw remote m c) !! c' = conns m !! c'.
Proof. intros Hne. unfold forward. rewrite lookup_update_conn. by rewrite decide_False. Qed.

(** ** The invariant *)

Record inv m : Prop := {
  inv_v4 : ∀ u c, connsIPv4 m !! u = Some c → conn_Key m c = Some u;
  inv_v6 : ∀ u c, connsIPv6 m !! u = Some c → conn_Key m c = Some u;
  inv_disj : ∀ u c, connsIPv4 m !! u = Some c → connsIPv6 m !! u ≠ Some c;
  inv_addr : ∀ a cs, addressMap m !! a = Some cs → Forall (λ c, a ∈ conn_addresses m c) cs;
  inv_closed : closedChan m = true → connsIPv4 m = ∅ ∧ connsIPv6 m = ∅;
  inv_watch : Forall (λ w, conn_Key m w.1 = Some w.2) (watchers m)
}.

(** What the invariant asks of the heap may only grow: keys stay, addresses are
    added. *)
Definition heap_grows m m' : Prop :=
  (∀ c u, conn_Key m c = Some u → conn_Key m' c = Some u) ∧
  (∀ c a, a ∈ conn_addresses m c → a ∈ conn_addresses m' c).

Lemma Forall_addresses m m' cs a :
  heap_grows m m' → Forall (λ c, a ∈ conn_addresses m c) cs →
  Forall (λ c, a ∈ conn_addresses m' c) cs.
Proof. intros [_ H] Hf. eapply List.Forall_impl; [|exact Hf]. intros c. apply H. Qed.

Lemma Forall_keys m m' (ws : list (nat * string)) :
  heap_grows m m' → Forall (λ w, conn_Key m w.1 = Some w.2) ws →
  Forall (λ w, conn_Key m' w.1 = Some w.2) ws.
Proof. intros [H _] Hf. eapply List.Forall_impl; [|exact Hf]. intros c. apply H. Qed.

Lemma heap_ext_grows m m' : heap_ext m m' → heap_grows m m'.
Proof.
  intros [_ H]. split; intros c; destruct (H c) as [H1 H2]; [by rewrite H1|by rewrite H2].
Qed.

Lemma inv_grows m m' : same_maps m m' → heap_grows m m' → inv m → inv m'.
Proof.
  intros (E1 & E2 & E3 & E4 & E5 & E6) Hg [I1 I2 I3 I4 I5 I6].
  split; rewrite <-?E1, <-?E2, <-?E3, <-?E4, <-?E6; try done.
  - intros u c Hu. by apply Hg, I1.
  - intros u c Hu. by apply Hg, I2.
  - intros a cs Ha. eapply Forall_addresses; [exact Hg|]. by apply I4.
  - by eapply Forall_keys.
Qed.

Lemma inv_heap_ext m m' : heap_ext m m' → inv m → inv m'.
Proof. intros H. apply inv_grows; [apply H|by apply heap_ext_grows]. Qed.

Lemma inv_new locals s : inv (new_mux locals s).
Proof.
  split; unfold conn_addresses, conn_Key; cbn; try done; intros; try by constructor.
Qed.

Lemma conn_Key_lt m c u : conn_Key m c = Some u → c < length (conns m).
Proof.
  unfold conn_Key. intros (x & Hx & _)%fmap_Some. by eapply lookup_lt_Some.
Qed.

(** [createMuxedConn] keeps every key and address, and names the new pointer. *)
Lemma createMuxedConn_spec m key :
  let '(c, m') := createMuxedConn m key in
  c = length (conns m) ∧ same_maps m m' ∧ heap_grows m m' ∧
  conn_Key m' c = Some key ∧ conn_Key m c = None.
Proof.
  cbn. unfold heap_grows, conn_Key, conn_addresses. cbn. split_and!; try done.
  - intros c' u Hu. rewrite lookup_app_l; [done|]. by eapply conn_Key_lt.
  - intros c' a. destruct (conns m !! c') as [x|] eqn:Hx; [|by intros ?%elem_of_nil].
    by rewrite lookup_app_l, Hx by (by apply lookup_lt_Some in Hx).
  - by rewrite lookup_app_r, Nat.sub_diag by lia.
  - by rewrite lookup_ge_None_2.
Qed.

(** A connection no map names yet may be entered under its key. *)
Lemma inv_insert_v4 m u c :
  inv m → closedChan m = false → conn_Key m c = Some u → connsIPv6 m !! u ≠ Some c →
  inv (set_IPv4 <[u:=c]> m).
Proof.
  intros [I1 I2 I3 I4 I5 I6] Hcl Hk Hf. split; cbn; try done.
  - intros u' c' [[<- <-]|[Hne Hu]]%lookup_insert_Some; [done|]. apply I1, Hu.
  - intros u' c' [[<- <-]|[Hne Hu]]%lookup_insert_Some; [done|]. apply I3, Hu.
  - congruence.
Qed.

Lemma inv_insert_v6 m u c :
  inv m → closedChan m = false → conn_Key m c = Some u → connsIPv4 m !! u ≠ Some c →
  inv (set_IPv6 <[u:=c]> m).
Proof.
  intros [I1 I2 I3 I4 I5 I6] Hcl Hk Hf. split; cbn; try done.
  - intros u' c' [[<- <-]|[Hne Hu]]%lookup_insert_Some; [done|]. apply I2, Hu.
  - intros u' c' H4 [[<- <-]|[Hne Hu]]%lookup_insert_Some; [done|]. by eapply I3.
  - congruence.
Qed.

Lemma inv_watch_app m c u :
  inv m → conn_Key m c = Some u → inv (set_watchers (λ ws, ws ++ [(c, u)]) m).
Proof.
  intros [I1 I2 I3 I4 I5 I6] Hk. split; try done.
  cbn. apply Forall_app. split; [done|]. by constructor.
Qed.

Lemma inv_GetConn m ufrag addr : inv m → inv (GetConn m ufrag addr).2.
Proof.
  intros I. unfold GetConn. case_match; [done|]. case_match eqn:Hcl; [done|].
  destruct (getConn m ufrag (is_IPv6 addr)) as [c|] eqn:Hg; [done|].
  pose proof (createMuxedConn_spec m ufrag) as Hcr.
  destruct (createMuxedConn m ufrag) as [c m1]. destruct Hcr as (-> & E & Hgr & Hk & Hnew).
  pose proof (inv_watch_app _ _ _ (inv_grows _ _ E Hgr I) Hk) as I1.
  destruct E as (E1 & E2 & _ & E4 & _ & _). unfold IsClosed in Hcl. rewrite E4 in Hcl.
  destruct (is_IPv6 addr); cbn [snd].
  - apply inv_insert_v6; [done..|]. change (connsIPv4 m1 !! ufrag ≠ Some (length (conns m))).
    rewrite <-E1. intros Hu. apply (inv_v4 _ I) in Hu. congruence.
  - apply inv_insert_v4; [done..|]. change (connsIPv6 m1 !! ufrag ≠ Some (length (conns m))).
    rewrite <-E2. intros Hu. apply (inv_v6 _ I) in Hu. congruence.
Qed.

Lemma inv_remove_conns m ufrag : inv m → inv (remove_conns m ufrag).2.
Proof.
  intros [I1 I2 I3 I4 I5 I6]. split; cbn; try done.
  - intros u c [_ Hu]%lookup_delete_Some. by apply I1.
  - intros u c [_ Hu]%lookup_delete_Some. by apply I2.
  - intros u c [_ Hu]%lookup_delete_Some [_ Hu']%lookup_delete_Some. by eapply I3.
  - intros [-> ->]%I5. by rewrite !delete_empty.
Qed.

Lemma inv_addressMap f m :
  (∀ a cs, f (addressMap m) !! a = Some cs → Forall (λ c, a ∈ conn_addresses m c) cs) →
  inv m → inv (set_addressMap f m).
Proof. intros Hf [I1 I2 I3 I4 I5 I6]. by split. Qed.

Lemma inv_remove_addresses m removed : inv m → inv (remove_addresses m removed).
Proof.
  unfold remove_addresses. revert m. induction removed as [|c l IH]; intros m I; [done|].
  cbn [foldl]. apply IH. apply inv_addressMap; [|done].
  intros a cs [_ Ha]%delete_all_Some. by apply (inv_addr _ I).
Qed.

Lemma append_address_grows m c a : heap_grows m (update_conn c (λ x, append_address x a) m).
Proof.
  split; intros c' u; unfold conn_Key, conn_addresses; rewrite lookup_update_conn;
    case_decide; subst; try done; destruct (conns m !! c') as [x|]; try done.
  cbn. intros Hu. apply elem_of_app. by left.
Qed.

Lemma inv_append_address m c a : inv m → inv (update_conn c (λ x, append_address x a) m).
Proof. apply inv_grows; [apply update_conn_same_maps|apply append_address_grows]. Qed.

Lemma inv_append_conn m c a :
  a ∈ conn_addresses m c → inv m → inv (append_conn m c a).
Proof.
  intros Ha I. unfold append_conn.
  apply inv_addressMap; [|done]. intros a' cs [[<- <-]|[_ Hl]]%lookup_insert_Some.
  - apply Forall_app. split; [|by constructor].
    destruct (addressMap m !! a) eqn:Hl; [|by constructor]. by apply (inv_addr _ I).
  - by apply (inv_addr _ I).
Qed.

Lemma inv_set_UDPConn m s : inv m → inv (set_UDPConn s m).
Proof. intros [I1 I2 I3 I4 I5 I6]. by split. Qed.

Lemma inv_writeTo m b r : inv m → inv (writeTo m b r).2.
Proof. unfold writeTo. destruct (pc_WriteTo _ _ _). apply inv_set_UDPConn. Qed.

Lemma inv_conn_Close m c : inv m → inv (update_conn c conn_Close m).
Proof. apply inv_heap_ext, conn_Close_ext. Qed.

Lemma HandleSTUNMessage_ext pool m msg addr :
  heap_ext m (HandleSTUNMessage pool m msg addr).2.
Proof.
  destruct addr; [|reflexivity]. cbn [HandleSTUNMessage snd].
  apply foldl_ext. intros m' [i c]. apply forward_ext.
Qed.

Lemma inv_HandleSTUNMessage pool m msg addr :
  inv m → inv (HandleSTUNMessage pool m msg addr).2.
Proof. apply inv_heap_ext, HandleSTUNMessage_ext. Qed.

Lemma inv_Close m : inv m → inv (Close m).
Proof.
  intros I. unfold Close. destruct (closedChan m) eqn:Hc; [done|].
  apply inv_set_UDPConn.
  set (m1 := foldl _ m _). set (m2 := foldl _ m1 _).
  assert (inv m2) as [I1 I2 I3 I4 I5 I6].
  { apply (inv_heap_ext m); [|done].
    transitivity m1; apply foldl_ext; intros; apply conn_Close_ext. }
  by split.
Qed.
End mux_facts.

(** ** The mux as a system of steps

    The goroutines of the program interleave at lock granularity: adding an
    address to a connection, looking whether the mux is closed and registering
    the connection in the mux are three sections; so are the two halves of
    [RemoveConnByUfrag]; and [HandleSTUNMessage] reads the address map, then the
    ufrag maps, and then writes to one connection after the other. A world is the
    mux and the work goroutines hold between their sections. *)

Section world.
Context {B : PacketBuffer} {S : Type} {PC : PacketConn S} {SL : StunLib}.

(** A goroutine inside [HandleSTUNMessage]: with the connections of the address,
    or with those it has yet to forward to. *)
Inductive stun_work :=
| Stored (msg : stun_Message) (remote : UDPAddr) (stored : list nat)
| Forwarding (msg : stun_Message) (remote : UDPAddr) (dests : list nat).

(** Between the sections: [containsAddress] answered no; the address appended;
    the mux found open; the connections out of the ufrag maps, their addresses
    still there; the STUN messages under way. *)
Record work := mkWork {
  w_adds : list (nat * string);
  w_regs : list (nat * string);
  w_checked : list (nat * string);
  w_removes : list (list nat);
  w_stuns : list stun_work
}.
Record world := mkWorld { w_mux : UDPMuxDefault (B := B) (S := S); w_work : work }.

Definition no_work : work := mkWork [] [] [] [] [].
Definition w_init (locals : list netAddr) (s : S) : world := mkWorld (new_mux locals s) no_work.

Definition with_adds l w := mkWork l (w_regs w) (w_checked w) (w_removes w) (w_stuns w).
Definition with_regs l w := mkWork (w_adds w) l (w_checked w) (w_removes w) (w_stuns w).
Definition with_checked l w := mkWork (w_adds w) (w_regs w) l (w_removes w) (w_stuns w).
Definition with_removes l w := mkWork (w_adds w) (w_regs w) (w_checked w) l (w_stuns w).
Definition with_stuns l w := mkWork (w_adds w) (w_regs w) (w_checked w) (w_removes w) l.

Inductive step : world → world → Prop :=
| step_GetConn m k ufrag addr :
    step (mkWorld m k) (mkWorld (GetConn m ufrag addr).2 k)
| step_contains m k c x addr :
    conns m !! c = Some x → isClosed x = false → containsAddress x addr = false →
    step (mkWorld m k) (mkWorld m (with_adds ((c, addr) :: w_adds k) k))
| step_append m k ads1 ads2 c addr :
    w_adds k = ads1 ++ (c, addr) :: ads2 →
    step (mkWorld m k)
         (mkWorld (update_conn c (λ x, append_address x addr) m)
            (with_regs ((c, addr) :: w_regs k) (with_adds (ads1 ++ ads2) k)))
| step_check m k rgs1 rgs2 c addr :
    w_regs k = rgs1 ++ (c, addr) :: rgs2 →
    step (mkWorld m k)
         (mkWorld m (with_checked (if IsClosed m then w_checked k else (c, addr) :: w_checked k)
            (with_regs (rgs1 ++ rgs2) k)))
| step_register m k chk1 chk2 c addr :
    w_checked k = chk1 ++ (c, addr) :: chk2 →
    step (mkWorld m k) (mkWorld (append_conn m c addr) (with_checked (chk1 ++ chk2) k))
| step_write m k b rAddr :
    step (mkWorld m k) (mkWorld (writeTo m b rAddr).2 k)
| step_conn_Close m k c :
    step (mkWorld m k) (mkWorld (update_conn c conn_Close m) k)
| step_stun m k msg remote :
    step (mkWorld m k)
         (mkWorld m (with_stuns (Stored msg remote (stored_conns m (AUDP remote)) :: w_stuns k) k))
| step_stun_named m k st1 st2 msg remote stored :
    w_stuns k = st1 ++ Stored msg remote stored :: st2 →
    step (mkWorld m k)
         (mkWorld m (with_stuns (st1 ++ Forwarding msg remote
            (add_named m (msg_Get_Username msg) (AUDP remote) stored) :: st2) k))
| step_stun_forward m k st1 st2 pb msg remote c dests :
    w_stuns k = st1 ++ Forwarding msg remote (c :: dests) :: st2 →
    step (mkWorld m k)
         (mkWorld (forward pb (msg_Raw msg) remote m c) (with_stuns (st1 ++ Forwarding msg remote dests :: st2) k))
| step_stun_done m k st1 st2 msg remote :
    w_stuns k = st1 ++ Forwarding msg remote [] :: st2 →
    step (mkWorld m k) (mkWorld m (with_stuns (st1 ++ st2) k))
| step_remove_conns m k ufrag :
    step (mkWorld m k)
         (mkWorld (remove_conns m ufrag).2 (with_removes ((remove_conns m ufrag).1 :: w_removes k) k))
| step_watch m k ws1 ws2 c x ufrag :
    watchers m = ws1 ++ (c, ufrag) :: ws2 → conns m !! c = Some x → isClosed x = true →
    step (mkWorld m k)
         (let m := set_watchers (λ _, ws1 ++ ws2) m in
          mkWorld (remove_conns m ufrag).2 (with_removes ((remove_conns m ufrag).1 :: w_removes k) k))
| step_remove_addresses m k rms1 rms2 removed :
    w_removes k = rms1 ++ removed :: rms2 →
    step (mkWorld m k) (mkWorld (remove_addresses m removed) (with_removes (rms1 ++ rms2) k))
| step_Close m k :
    step (mkWorld m k) (mkWorld (Close m) k).

(** What is to be appended is of a connection there is, and what is to be
    registered has been appended. *)
Record winv (w : world) : Prop := {
  winv_mux : inv (w_mux w);
  winv_adds : Forall (λ r, r.1 < length (conns (w_mux w))) (w_adds (w_work w));
  winv_regs : Forall (λ r, r.2 ∈ conn_addresses (w_mux w) r.1) (w_regs (w_work w) ++ w_checked (w_work w))
}.

(** The heap only grows along a step: pointers stay valid, addresses stay. *)
Definition heap_le (m m' : UDPMuxDefault (B := B) (S := S)) : Prop :=
  heap_grows m m' ∧ length (conns m) ≤ length (conns m').

Lemma length_update_conn (m : UDPMuxDefault (B := B) (S := S)) c f :
  length (conns (update_conn c f m)) = length (conns m).
Proof. unfold update_conn. case_match; [|done]. cbn. by rewrite length_insert. Qed.

Lemma update_conn_le (m : UDPMuxDefault (B := B) (S := S)) c f :
  heap_grows m (update_conn c f m) → heap_le m (update_conn c f m).
Proof. intros H. split; [done|]. by rewrite length_update_conn. Qed.

Lemma heap_grows_conns (m m' : UDPMuxDefault (B := B) (S := S)) :
  conns m' = conns m → heap_le m m'.
Proof. intros H. unfold heap_le, heap_grows, conn_Key, conn_addresses. by rewrite H. Qed.

Global Instance heap_le_preorder : PreOrder heap_le.
Proof.
  split; [by intros m; apply heap_grows_conns|].
  intros m1 m2 m3 [[? ?] ?] [[? ?] ?]. split; [split; naive_solver|lia].
Qed.

Lemma foldl_le {A} (f : UDPMuxDefault (B := B) (S := S) → A → UDPMuxDefault) m (l : list A) :
  (∀ m a, heap_le m (f m a)) → heap_le m (foldl f m l).
Proof.
  intros Hf. revert m. induction l as [|a l IH]; intros m; cbn [foldl]; [reflexivity|].
  transitivity (f m a); [apply Hf|apply IH].
Qed.

Lemma conn_Close_le (m : UDPMuxDefault (B := B) (S := S)) c : heap_le m (update_conn c conn_Close m).
Proof. apply update_conn_le, heap_ext_grows, conn_Close_ext. Qed.

Lemma forward_le pb raw r (m : UDPMuxDefault (B := B) (S := S)) c : heap_le m (forward pb raw r m c).
Proof. apply update_conn_le, heap_ext_grows, forward_ext. Qed.

Lemma remove_addresses_conns (m : UDPMuxDefault (B := B) (S := S)) l :
  conns (remove_addresses m l) = conns m.
Proof.
  unfold remove_addresses. revert m. induction l as [|c l IH]; intros m; [done|].
  cbn [foldl]. by rewrite IH.
Qed.

Lemma Close_le (m : UDPMuxDefault (B := B) (S := S)) : heap_le m (Close m).
Proof.
  unfold Close. case_match; [reflexivity|].
  set (m1 := foldl _ m _). set (m2 := foldl _ m1 _).
  transitivity m2; [transitivity m1|by apply heap_grows_conns];
    apply foldl_le; intros; apply conn_Close_le.
Qed.

Lemma GetConn_le (m : UDPMuxDefault (B := B) (S := S)) u a : heap_le m (GetConn m u a).2.
Proof.
  unfold GetConn. case_match; [reflexivity|]. case_match; [reflexivity|].
  case_match; [reflexivity|].
  pose proof (createMuxedConn_spec m u) as Hcr.
  destruct (createMuxedConn m u) as [c m1] eqn:Hc. destruct Hcr as (_ & _ & Hg & _).
  transitivity m1.
  - split; [done|]. unfold createMuxedConn in Hc. injection Hc as <- <-. cbn.
    rewrite length_app. lia.
  - by case_match; apply heap_grows_conns.
Qed.

Lemma step_heap_le w w' : step w w' → heap_le (w_mux w) (w_mux w').
Proof.
  destruct 1; cbn [w_mux]; try reflexivity; try (by apply heap_grows_conns).
  - apply GetConn_le.
  - apply update_conn_le, append_address_grows.
  - unfold writeTo. case_match. by apply heap_grows_conns.
  - apply conn_Close_le.
  - apply forward_le.
  - apply heap_grows_conns, remove_addresses_conns.
  - apply Close_le.
Qed.

Lemma appended_address (m : UDPMuxDefault (B := B) (S := S)) c a :
  c < length (conns m) → a ∈ conn_addresses (update_conn c (λ x, append_address x a) m) c.
Proof.
  intros [x Hx]%lookup_lt_is_Some_2. unfold conn_addresses.
  rewrite lookup_update_conn, decide_True, Hx by done. cbn.
  apply elem_of_app. right. by constructor.
Qed.

Lemma winv_mono w w' :
  heap_le (w_mux w) (w_mux w') →
  (∀ r, r ∈ w_adds (w_work w') → r ∈ w_adds (w_work w) ∨ r.1 < length (conns (w_mux w))) →
  (∀ r, r ∈ w_regs (w_work w') ++ w_checked (w_work w') →
    r ∈ w_regs (w_work w) ++ w_checked (w_work w) ∨ r.2 ∈ conn_addresses (w_mux w') r.1) →
  inv (w_mux w') → winv w → winv w'.
Proof.
  intros [[_ Hg] Hl] Ha Hr Hi [_ I2 I3]. rewrite list.Forall_forall in I2, I3.
  split; [done|rewrite list.Forall_forall..].
  - intros r [H|H]%Ha; [specialize (I2 r H)|]; lia.
  - intros r [H|H]%Hr; [|done]. apply Hg, I3, H.
Qed.

Lemma winv_step w w' : winv w → step w w' → winv w'.
Proof.
  intros I Hs. pose proof (step_heap_le _ _ Hs) as Hle. pose proof I as [I1 I2 I3].
  rewrite list.Forall_forall in I2, I3.
  eapply winv_mono; [exact Hle|destruct Hs; cbn in *..|exact I]; try (by intros r Hr; left).
  - intros r [->|Hr]%elem_of_cons; [right|by left]. by eapply lookup_lt_Some.
  - intros r Hr. left. rewrite H. set_solver.
  - intros r [->|Hr]%elem_of_cons; [right|by left]. apply appended_address.
    apply (I2 (c, addr)). rewrite H. set_solver.
  - intros r Hr. left. rewrite H. destruct (IsClosed m); set_solver.
  - intros r Hr. left. rewrite H. set_solver.
  - by apply inv_GetConn.
  - done.
  - by apply inv_append_address.
  - done.
  - apply inv_append_conn; [|done]. apply (I3 (c, addr)). rewrite H. set_solver.
  - by apply inv_writeTo.
  - by apply inv_conn_Close.
  - done.
  - done.
  - eapply inv_heap_ext; [apply forward_ext|done].
  - done.
  - by apply inv_remove_conns.
  - apply (inv_remove_conns (set_watchers _ m)). destruct I1 as [J1 J2 J3 J4 J5 J6].
    split; try done. cbn. rewrite H in J6. apply Forall_app in J6 as [? J6].
    apply Forall_cons_iff in J6 as [_ ?]. by apply Forall_app.
  - by apply inv_remove_addresses.
  - by apply inv_Close.
Qed.

Lemma winv_reachable locals s w : rtc step (w_init locals s) w → winv w.
Proof.
  intros Hr. eapply (rtc_invariant step winv); [intros ? ? ? ?; by eapply winv_step|exact Hr|].
  split; [apply inv_new|by constructor..].
Qed.
End world.

(** ** What the operations do *)

Section mux_specs.
Context {B : PacketBuffer} {BS : PacketBufferSpec B} {S : Type} {PC : PacketConn S} {SL : StunLib}.
Implicit Types m : UDPMuxDefault (B := B) (S := S).

(** How often a connection occurs among the destinations. *)
Definition occurrences (c : nat) (l : list nat) : nat := length (filter (λ d, d = c) l).

(** The frame of a message and its sender, when there is one that fits, and a
    connection's buffer after it was offered a frame: unless the buffer takes it,
    it is as before. *)
Definition framed (raw : list Ascii.ascii) (remote : UDPAddr) : option (list Ascii.ascii) :=
  match IP_MarshalText (ua_IP remote) with
  | Ok text =>
      let a := addr_frame text (ua_Port remote) (bytes_of_string (ua_Zone remote)) in
      if decide (length raw ≤ receiveMTU ∧ 4 + length raw + length a ≤ poolBufSize)
      then Some (frame raw a) else None
  | _ => None
  end.
Definition offered (p : option (list Ascii.ascii)) (b : buffer) : buffer :=
  match p with
  | Some f => match Buffer_Write b f with Ok b' => b' | _ => b end
  | None => b
  end.

Lemma with_buf_id (x : udpMuxedConn) : with_buf x (buf x) = x.
Proof. by destruct x. Qed.
Lemma writePacket_offered pb (x : udpMuxedConn) raw remote : length pb = poolBufSize →
  match writePacket pb x raw remote with Ok x' => x' | _ => x end = with_buf x (offered (framed raw remote) (buf x)).
Proof.
  intros Hl. assert (length pb = receiveMTU + maxAddrSize) as Hl' by exact Hl.
  destruct (writePacket pb x raw remote) as [x'|e|] eqn:Hw.
  - assert (length raw ≤ receiveMTU) as Hmtu.
    { destruct (decide (length pb < length raw + maxAddrSize)); [|lia]. unfold writePacket in Hw. by rewrite decide_True in Hw. }
    apply writePacket_Ok in Hw as (text&a&b&Ht&->&Hlen&Hb&->). unfold framed. rewrite Ht. cbv zeta. rewrite decide_True by (split; lia).
    cbn [offered]. by rewrite Hb.
  - unfold framed. destruct (IP_MarshalText (ua_IP remote)) as [text| |] eqn:Ht; cbv zeta; [|by rewrite with_buf_id..].
    case_decide as Hd; [|by rewrite with_buf_id]. rewrite (writePacket_spec _ _ _ _ text _ Ht eq_refl) in Hw by lia.
    cbn [offered]. destruct (Buffer_Write _ _); [done|by rewrite with_buf_id..].
  - unfold framed. destruct (IP_MarshalText (ua_IP remote)) as [text| |] eqn:Ht; cbv zeta; [|by rewrite with_buf_id..].
    case_decide as Hd; [|by rewrite with_buf_id]. rewrite (writePacket_spec _ _ _ _ text _ Ht eq_refl) in Hw by lia.
    cbn [offered]. destruct (Buffer_Write _ _); [done|by rewrite with_buf_id..].
Qed.
Lemma forward_conns pb raw remote m c c' x : length pb = poolBufSize → conns m !! c' = Some x →
  conns (forward pb raw remote m c) !! c' =
  Some (if decide (c = c') then with_buf x (offered (framed raw remote) (buf x)) else x).
Proof.
  intros Hl Hx. unfold forward. rewrite lookup_update_conn, Hx. case_decide; [|done]. cbn. by rewrite writePacket_offered.
Qed.
Lemma forwards_conns (pool : nat → list Ascii.ascii) raw remote l i m c x :
  (∀ i, length (pool i) = poolBufSize) → conns m !! c = Some x →
  conns (foldl (λ m '(i, c), forward (pool i) raw remote m c) m (zip (seq i (length l)) l)) !! c =
  Some (with_buf x (Nat.iter (occurrences c l) (offered (framed raw remote)) (buf x))).
Proof.
  intros Hl. revert i m x. induction l as [|d l IH]; intros i m x Hx; [cbn; by rewrite Hx, with_buf_id|].
  cbn [length seq zip zip_with foldl]. rewrite (IH _ _ _ (forward_conns _ _ _ _ _ _ _ (Hl i) Hx)).
  unfold occurrences. rewrite filter_cons. destruct (decide (d = c)) as [Hd|Hd]; [|done].
  cbn [length with_buf buf Key conn_LocalAddr addresses closed]. by rewrite <-Nat.iter_succ_r.
Qed.

(** C10. Run without another goroutine in between, and with the pool's buffers of
    8704 bytes, [HandleSTUNMessage] never fails on a UDP sender, and offers the
    raw message, framed with its sender, to the buffer of each connection as
    often as that is a destination, and to no other. A connection whose buffer
    refuses a frame (full, closed) keeps it as it was and the rest are still
    offered theirs; a message above the MTU of 8192 bytes, and a sender whose
    address does not print or does not fit, is offered to none. All else of the
    connections and of the mux is as before. *)
Theorem HandleSTUNMessage_delivery pool m msg remote :
  (∀ i, length (pool i) = poolBufSize) →
  let '(r, m') := HandleSTUNMessage pool m msg (AUDP remote) in
  let dests := destinations m (msg_Get_Username msg) (AUDP remote) in
  r = Ok tt ∧ same_maps m m' ∧
  ∀ c x, conns m !! c = Some x →
    conns m' !! c = Some (with_buf x (Nat.iter (occurrences c dests) (offered (framed (msg_Raw msg) remote)) (buf x))).
Proof.
  intros Hl. cbn [HandleSTUNMessage]. split; [done|]. split.
  - apply (HandleSTUNMessage_ext pool m msg (AUDP remote)).
  - intros c x Hx. by apply forwards_conns.
Qed.

(** C12. A STUN message goes to the connections registered for its source, and
    to the connection its username names unless one of those has the same key:
    a peer-reflexive source reaches its connection by ufrag alone. *)
Theorem destinations_iff m username addr c :
  inv m →
  c ∈ destinations m username addr ↔
  (∃ cs, addressMap m !! netAddr_String addr = Some cs ∧ c ∈ cs) ∨
  (∃ attr, username = Some attr ∧
    let ufrag := default EmptyString (strings_Split (string_of_bytes attr) colon !! 0) in
    getConn m ufrag (is_IPv6 addr) = Some c ∧
    ∀ cs d, addressMap m !! netAddr_String addr = Some cs → d ∈ cs → conn_Key m d ≠ Some ufrag).
Proof.
  intros I. unfold destinations, add_named, stored_conns.
  assert (∀ c, c ∈ default [] (addressMap m !! netAddr_String addr) ↔
    ∃ cs, addressMap m !! netAddr_String addr = Some cs ∧ c ∈ cs) as Hst.
  { intros c'. destruct (addressMap m !! _) as [cs|]; cbn; [naive_solver|].
    rewrite elem_of_nil. naive_solver. }
  destruct username as [attr|]; [|rewrite Hst; naive_solver]. cbv zeta.
  set (ufrag := default EmptyString _).
  destruct (getConn m ufrag (is_IPv6 addr)) as [d|] eqn:Hg.
  2:{ rewrite Hst. split; [by left|]. intros [?|(attr' & [= <-] & Hg' & _)]; [done|].
      cbv zeta in Hg'. fold ufrag in Hg'. congruence. }
  assert (conn_Key m d = Some ufrag) as Hk.
  { unfold getConn in Hg. destruct (is_IPv6 addr); [by apply (inv_v6 _ I)|by apply (inv_v4 _ I)]. }
  rewrite Hk. destruct (existsb _ _) eqn:He.
  - apply existsb_exists in He as (e & Hin & Hke%bool_decide_eq_true).
    apply list_elem_of_In, Hst in Hin as (cs & Hcs & Hin). rewrite Hst.
    split; [by left|]. intros [?|(attr' & [= <-] & _ & Hno)]; [done|].
    by destruct (Hno cs e Hcs Hin).
  - rewrite elem_of_app, list_elem_of_singleton, Hst. split.
    2:{ intros [?|(attr' & [= <-] & Hg' & _)]; [by left|right].
        cbv zeta in Hg'. fold ufrag in Hg'. congruence. }
    intros [?| ->]; [by left|]. right. exists attr. split; [done|]. split; [done|].
    intros cs e Hcs Hin Hke. apply not_true_iff_false in He. apply He, existsb_exists.
    exists e. rewrite <-list_elem_of_In, Hst, bool_decide_eq_true. split; [|done]. by exists cs.
Qed.

(** [GetConn] gets or creates: an open mux asked for an address it listens
    on returns the connection of that ufrag and family, the one it has or a new
    one, empty and open; asking again returns the same one and changes nothing,
    and no other ufrag or family is affected. *)
Lemma GetConn_get_or_create m ufrag addr :
  inv m → closedChan m = false →
  (localAddrsForUnspecified m ≠ [] ∨ netAddr_String (LocalAddr m) = netAddr_String addr) →
  ∃ c m', GetConn m ufrag addr = (Ok c, m') ∧ GetConn m' ufrag addr = (Ok c, m') ∧
    getConn m' ufrag (is_IPv6 addr) = Some c ∧ conn_Key m' c = Some ufrag ∧
    (∀ u v, (u, v) ≠ (ufrag, is_IPv6 addr) → getConn m' u v = getConn m u v) ∧
    match getConn m ufrag (is_IPv6 addr) with
    | Some c0 => c = c0 ∧ m' = m
    | None => c = length (conns m) ∧ conns m' = conns m ++ [newUDPMuxedConn ufrag (LocalAddr m)]
    end.
Proof.
  intros I Hcl Haddr.
  assert (bool_decide (localAddrsForUnspecified m = []) &&
     negb (bool_decide (netAddr_String (LocalAddr m) = netAddr_String addr)) = false) as Hg.
  { apply andb_false_iff. destruct Haddr as [H|H]; [left; by apply bool_decide_eq_false|].
    right. by rewrite bool_decide_eq_true_2. }
  assert (∀ m' c, localAddrsForUnspecified m' = localAddrsForUnspecified m →
     UDPConn m' = UDPConn m → closedChan m' = false →
     getConn m' ufrag (is_IPv6 addr) = Some c → GetConn m' ufrag addr = (Ok c, m')) as Hagain.
  { intros m' c E1 E2 E3 E4. unfold GetConn, LocalAddr, IsClosed in *.
    by rewrite E1, E2, Hg, E3, E4. }
  destruct (getConn m ufrag (is_IPv6 addr)) as [c|] eqn:Hc.
  - exists c, m. rewrite !(Hagain m c) by done. split_and!; try done.
    unfold getConn in Hc. destruct (is_IPv6 addr); [by apply (inv_v6 _ I)|by apply (inv_v4 _ I)].
  - unfold GetConn at 1, IsClosed. rewrite Hg, Hcl, Hc. cbn [createMuxedConn].
    assert (∀ cs, (cs ++ [newUDPMuxedConn ufrag (LocalAddr m)]) !! length cs =
      Some (newUDPMuxedConn ufrag (LocalAddr m))) as Hlook.
    { intros cs. by rewrite lookup_app_r, Nat.sub_diag by lia. }
    destruct (is_IPv6 addr) eqn:H6; eexists _, _;
      (split; [reflexivity|]); (split; [apply Hagain; try done; cbn; by rewrite lookup_insert_eq|]);
      unfold conn_Key; cbn; rewrite lookup_insert_eq, Hlook; split_and!; try done;
      intros u [] Hne; unfold getConn; cbn; try done; (rewrite lookup_insert_ne; [done|]); intros ->; by apply Hne.
Qed.

Lemma remove_addresses_lookup m l a :
  addressMap (remove_addresses m l) !! a =
  if decide (Exists (λ c, a ∈ conn_addresses m c) l) then None else addressMap m !! a.
Proof.
  unfold remove_addresses. revert m. induction l as [|c l IH]; intros m; cbn [foldl].
  { by rewrite decide_False by (by intros ?%Exists_nil). }
  rewrite IH. cbn. rewrite lookup_delete_all.
  assert (∀ c', conn_addresses (set_addressMap (delete_all (conn_addresses m c)) m) c' =
    conn_addresses m c') as Hc by done.
  destruct (decide (a ∈ conn_addresses m c)) as [Ha|Ha].
  - rewrite (decide_True (P := Exists _ (c :: l))) by (by left). by case_decide.
  - destruct (decide (Exists (λ c0, a ∈ conn_addresses m c0) l)) as [He|He].
    + rewrite !decide_True; [done|by right|done].
    + rewrite !decide_False; [done| |done]. by intros [?|?]%Exists_cons.
Qed.

Lemma remove_addresses_maps m l :
  connsIPv4 (remove_addresses m l) = connsIPv4 m ∧ connsIPv6 (remove_addresses m l) = connsIPv6 m.
Proof.
  unfold remove_addresses. revert m. induction l as [|c l IH]; intros m; [done|].
  cbn [foldl]. by destruct (IH (set_addressMap (delete_all (conn_addresses m c)) m)) as [-> ->].
Qed.

(** [RemoveConnByUfrag] forgets the ufrag in both families and no other
    ufrag, leaves no removed connection in the address map, and closes no
    connection (the connections themselves are as before). *)
Lemma RemoveConnByUfrag_forgets m ufrag :
  inv m →
  let m' := RemoveConnByUfrag m ufrag in
  (∀ v, getConn m' ufrag v = None) ∧
  (∀ u v, u ≠ ufrag → getConn m' u v = getConn m u v) ∧
  (∀ a cs v c, addressMap m' !! a = Some cs → getConn m ufrag v = Some c → c ∉ cs) ∧
  conns m' = conns m.
Proof.
  intros I. unfold RemoveConnByUfrag. cbn [remove_conns]. cbv zeta.
  set (m1 := set_IPv6 _ _). set (l := option_list _ ++ option_list _).
  destruct (remove_addresses_maps m1 l) as [E4 E6].
  assert (∀ u v, getConn (remove_addresses m1 l) u v = getConn m1 u v) as Hg.
  { intros u v. unfold getConn. by rewrite E4, E6. }
  split_and!.
  - intros v. rewrite Hg. destruct v; apply lookup_delete_eq.
  - intros u v Hne. rewrite Hg. destruct v; by apply lookup_delete_ne.
  - intros a cs v c Ha Hc Hin. rewrite remove_addresses_lookup in Ha.
    case_decide as Hex; [done|]. apply Hex, Exists_exists. exists c. split.
    + apply list_elem_of_In. unfold l. apply elem_of_app.
      destruct v; cbn in Hc; rewrite Hc; [right|left]; cbn; by apply list_elem_of_singleton.
    + pose proof (inv_addr _ I a cs Ha) as Hf. rewrite list.Forall_forall in Hf. by apply Hf.
  - exact (remove_addresses_conns m1 l).
Qed.

Lemma closed_foldl m l c x :
  conns m !! c = Some x →
  ∃ x', conns (foldl (λ m c, update_conn c conn_Close m) m l) !! c = Some x' ∧
    (closed x = true ∨ c ∈ l → closed x' = true).
Proof.
  revert m x. induction l as [|d l IH]; intros m x Hx; cbn [foldl].
  { exists x. split; [done|]. intros [?|?%elem_of_nil]; done. }
  edestruct (IH (update_conn d conn_Close m)) as (x' & Hx' & Hcl).
  { rewrite lookup_update_conn, Hx. instantiate (1 := if decide (d = c) then conn_Close x else x).
    by case_decide. }
  exists x'. split; [done|]. intros Hor. apply Hcl.
  assert (closed (conn_Close x) = true) as Hcx by (unfold conn_Close; by destruct (closed x) eqn:?).
  destruct Hor as [Hxc|[->|Hin]%elem_of_cons]; case_decide; auto; done.
Qed.

(** [Close] closes the connections of both maps, empties the maps and
    closes the socket once: afterwards [GetConn] on a listened address fails
    with [io.ErrClosedPipe], nothing is registered any more, and a second
    [Close] changes nothing. *)
Lemma Close_shuts_down m :
  inv m → closedChan m = false →
  let m' := Close m in
  (∀ u v c, getConn m u v = Some c → ∃ x, conns m' !! c = Some x ∧ closed x = true) ∧
  (∀ u v, getConn m' u v = None) ∧
  (∀ u addr, (localAddrsForUnspecified m ≠ [] ∨ netAddr_String (LocalAddr m') = netAddr_String addr) →
    GetConn m' u addr = (Err io_ErrClosedPipe, m')) ∧
  (∀ c a, registerConnForAddress m' c a = m') ∧
  UDPConn m' = pc_Close (UDPConn m) ∧ Close m' = m'.
Proof.
  intros I Hcl. unfold Close at 1. rewrite Hcl. cbv zeta.
  set (m1 := foldl _ m _). set (m2 := foldl _ m1 _).
  assert (heap_ext m m1) as H1 by (apply foldl_ext; intros; apply conn_Close_ext).
  assert (heap_ext m1 m2) as H2 by (apply foldl_ext; intros; apply conn_Close_ext).
  destruct H1 as [(_ & E6 & _ & _ & E5 & _) _]. destruct H2 as [(_ & _ & _ & _ & E5' & _) _].
  assert (UDPConn m2 = UDPConn m) as HU.
  { assert (∀ l m, UDPConn (foldl (λ m c, update_conn c conn_Close m) m l) = UDPConn m) as HU.
    { induction l as [|c l IH]; intros m0; [done|]. cbn [foldl]. rewrite IH.
      unfold update_conn. by case_match. }
    unfold m2, m1. by rewrite !HU. }
  split_and!.
  - intros u v c Hc.
    assert (is_Some (conns m !! c)) as [x Hx].
    { apply lookup_lt_is_Some_2. apply (conn_Key_lt _ _ u).
      destruct v; [by apply (inv_v6 _ I)|by apply (inv_v4 _ I)]. }
    destruct (closed_foldl m ((map_to_list (connsIPv4 m)).*2) c x Hx) as (x1 & Hx1 & Hc1).
    destruct (closed_foldl m1 ((map_to_list (connsIPv6 m1)).*2) c x1 Hx1) as (x2 & Hx2 & Hc2).
    exists x2. split; [exact Hx2|]. apply Hc2.
    destruct v; [right|left; apply Hc1; right]; apply list_elem_of_fmap; exists (u, c);
      (split; [done|]); apply elem_of_map_to_list; [by rewrite <-E6|done].
  - intros u []; apply lookup_empty.
  - intros u addr Haddr. unfold GetConn, LocalAddr, IsClosed. cbn. rewrite <-E5', <-E5.
    destruct Haddr as [Ha|Ha].
    + by rewrite bool_decide_eq_false_2.
    + rewrite (bool_decide_eq_true_2 (netAddr_String _ = _)) by done. by rewrite andb_false_r.
  - done.
  - cbn. by rewrite HU.
  - done.
Qed.

(** C13. [WriteTo] of an open connection hands the datagram to the socket
    unchanged and reports the socket's answer; the first write to an address
    records it in the connection and, while the mux is open, registers the
    connection for it behind those already there; later writes register
    nothing. A closed connection fails with [io.ErrClosedPipe]. *)
Theorem conn_WriteTo_registers m c x b rAddr :
  conns m !! c = Some x →
  let addr := netAddr_String rAddr in
  let '(r, m') := conn_WriteTo m c b rAddr in
  if closed x then r = Err io_ErrClosedPipe ∧ m' = m
  else r = (pc_WriteTo (UDPConn m) b rAddr).1 ∧
    UDPConn m' = (pc_WriteTo (UDPConn m) b rAddr).2 ∧
    addr ∈ conn_addresses m' c ∧
    (addr ∈ addresses x → addressMap m' = addressMap m ∧ conns m' = conns m) ∧
    (addr ∉ addresses x →
      conn_addresses m' c = addresses x ++ [addr] ∧
      addressMap m' = if closedChan m then addressMap m
        else <[addr := default [] (addressMap m !! addr) ++ [c]]> (addressMap m)).
Proof.
  intros Hx addr. unfold conn_WriteTo. rewrite Hx. unfold isClosed.
  destruct (closed x) eqn:Hcl; [done|]. fold addr.
  assert (containsAddress x addr = bool_decide (addr ∈ addresses x)) as ->.
  { apply eq_true_iff_eq. unfold containsAddress. rewrite existsb_exists, bool_decide_eq_true.
    setoid_rewrite bool_decide_eq_true. setoid_rewrite <-list_elem_of_In. naive_solver. }
  assert (UDPConn (addAddress m c addr) = UDPConn m) as HU.
  { unfold addAddress, registerConnForAddress, update_conn. rewrite Hx. by case_match. }
  unfold writeTo. case_bool_decide as Hin.
  - destruct (pc_WriteTo (UDPConn m) b rAddr) as [r s]. cbn. split_and!; try done.
    unfold conn_addresses. cbn. by rewrite Hx.
  - rewrite HU. destruct (pc_WriteTo (UDPConn m) b rAddr) as [r s]. cbn [fst snd].
    assert (conn_addresses (set_UDPConn s (addAddress m c addr)) c = addresses x ++ [addr]) as Hca.
    { unfold conn_addresses. change (conns (set_UDPConn s ?m)) with (conns m).
      assert (conns (addAddress m c addr) = conns (update_conn c (λ x, append_address x addr) m)) as ->
        by (unfold addAddress, registerConnForAddress; by case_match).
      by rewrite lookup_update_conn, decide_True, Hx. }
    rewrite Hca. split_and!; try done.
    + apply elem_of_app. right. by constructor.
    + intros _. split; [done|]. unfold addAddress, registerConnForAddress, update_conn, IsClosed.
      rewrite Hx. cbn. by destruct (closedChan m).
Qed.

(** The sequential operations are runs of the steps, whatever work others hold:
    whatever holds of every interleaving holds of them. *)
Lemma conn_WriteTo_run m k c b rAddr :
  rtc step (mkWorld m k) (mkWorld (conn_WriteTo m c b rAddr).2 k).
Proof.
  unfold conn_WriteTo. destruct (conns m !! c) as [x|] eqn:Hx; [|reflexivity].
  destruct (isClosed x) eqn:Hcl; [reflexivity|].
  destruct (containsAddress x (netAddr_String rAddr)) eqn:Hc; [apply rtc_once, step_write|].
  destruct k as [ads rgs chk rms sts].
  eapply rtc_l; [by eapply step_contains|].
  eapply rtc_l; [by apply (step_append _ _ [])|].
  eapply rtc_l; [by apply (step_check _ _ [])|].
  cbn [w_adds w_regs w_checked w_removes w_stuns with_adds with_regs with_checked app].
  unfold addAddress, registerConnForAddress. destruct (IsClosed _); [apply rtc_once, step_write|].
  eapply rtc_l; [by apply (step_register _ _ [])|]. apply rtc_once, step_write.
Qed.

Lemma RemoveConnByUfrag_run m k ufrag :
  rtc step (mkWorld m k) (mkWorld (RemoveConnByUfrag m ufrag) k).
Proof.
  destruct k as [ads rgs chk rms sts].
  eapply rtc_l; [apply step_remove_conns with (ufrag := ufrag)|].
  apply rtc_once. change (step ?w (mkWorld (RemoveConnByUfrag m ufrag) (mkWork ads rgs chk rms sts))) with
    (step w (mkWorld (remove_addresses (remove_conns m ufrag).2 (remove_conns m ufrag).1) (with_removes ([] ++ rms) (w_work w)))).
  by apply step_remove_addresses.
Qed.

Lemma HandleSTUNMessage_run pool m k msg addr :
  rtc step (mkWorld m k) (mkWorld (HandleSTUNMessage pool m msg addr).2 k).
Proof.
  destruct addr as [remote|]; [|reflexivity]. cbn [HandleSTUNMessage snd]. destruct k as [ads rgs chk rms sts].
  assert (∀ l i m, rtc step (mkWorld m (mkWork ads rgs chk rms (Forwarding msg remote l :: sts)))
    (mkWorld (foldl (λ m '(i, c), forward (pool i) (msg_Raw msg) remote m c) m (zip (seq i (length l)) l)) (mkWork ads rgs chk rms sts))) as Hfwd.
  { induction l as [|c l IH]; intros i m'; cbn [length seq zip zip_with foldl].
    - apply rtc_once. exact (step_stun_done m' (mkWork ads rgs chk rms _) [] sts msg remote eq_refl).
    - eapply rtc_l; [|apply IH].
      exact (step_stun_forward m' (mkWork ads rgs chk rms _) [] sts (pool i) msg remote c l eq_refl). }
  eapply rtc_l; [apply (step_stun _ _ msg remote)|].
  eapply rtc_l; [|apply Hfwd].
  exact (step_stun_named m (mkWork ads rgs chk rms _) [] sts msg remote _ eq_refl).
Qed.

(** A step never loses a connection, its key or its addresses. *)
Lemma steps_keep_conns m k w c u : rtc step (mkWorld m k) w →
  (conn_Key m c = Some u → conn_Key (w_mux w) c = Some u) ∧
  ∀ a, a ∈ conn_addresses m c → a ∈ conn_addresses (w_mux w) c.
Proof.
  intros Hr. set (w0 := mkWorld m k) in *.
  assert (heap_le (w_mux w0) (w_mux w)) as [[H1 H2] _].
  { eapply (rtc_invariant step (λ w, heap_le (w_mux w0) (w_mux w))); [|exact Hr|reflexivity].
    intros w1 w2 Hle ?%step_heap_le. by transitivity (w_mux w1). }
  split; [apply H1|]. intros a. apply H2.
Qed.

(** C9. In every reachable state of any interleaving: a ufrag map names a
    connection made for that ufrag; the two families share no connection; a
    connection registered for an address has recorded it; a closed mux has
    empty maps; and every watcher waits for a connection of its ufrag. *)
Theorem mux_reachable locals s w :
  rtc step (w_init locals s) w →
  let m := w_mux w in
  (∀ u v c, getConn m u v = Some c → conn_Key m c = Some u ∧ getConn m u (negb v) ≠ Some c) ∧
  (∀ a cs c, addressMap m !! a = Some cs → c ∈ cs → a ∈ conn_addresses m c) ∧
  (closedChan m = true → ∀ u v, getConn m u v = None) ∧
  (∀ c u, (c, u) ∈ watchers m → conn_Key m c = Some u).
Proof.
  intros [[I1 I2 I3 I4 I5 I6] _ _]%winv_reachable. split_and!.
  - intros u [] c Hc; cbn in *; split; auto; intros H; by eapply I3.
  - intros a cs c Ha. apply I4 in Ha. rewrite list.Forall_forall in Ha. apply Ha.
  - intros [E4 E6]%I5 u []; unfold getConn; rewrite ?E4, ?E6; apply lookup_empty.
  - rewrite list.Forall_forall in I6. intros c u H. by apply (I6 (c, u)).
Qed.

(** Removing a connection also unregisters the others it shares an address
    with, and they never come back: they have the address recorded, so no
    later write registers them for it. *)
Lemma shared_address_is_lost m ufrag c1 c2 x a b rAddr :
  getConn m ufrag false = Some c1 → a ∈ conn_addresses m c1 →
  conns m !! c2 = Some x → closed x = false → a ∈ addresses x → netAddr_String rAddr = a →
  let m' := RemoveConnByUfrag m ufrag in
  conns m' !! c2 = Some x ∧ addressMap m' !! a = None ∧
  addressMap (conn_WriteTo m' c2 b rAddr).2 !! a = None.
Proof.
  intros Hc1 Ha Hx Hcl Hin <- m'.
  assert (conns m' = conns m) as HE by exact (remove_addresses_conns _ _).
  assert (addressMap m' !! netAddr_String rAddr = None) as Hnone.
  { unfold m', RemoveConnByUfrag. cbn [remove_conns]. rewrite remove_addresses_lookup.
    rewrite decide_True; [done|]. apply Exists_exists. exists c1. split; [|done].
    apply list_elem_of_In, elem_of_app. left. unfold getConn in Hc1. rewrite Hc1.
    by apply list_elem_of_singleton. }
  rewrite HE. split_and!; [done..|].
  unfold conn_WriteTo. rewrite HE, Hx. unfold isClosed. rewrite Hcl.
  assert (containsAddress x (netAddr_String rAddr) = true) as ->.
  { apply existsb_exists. exists (netAddr_String rAddr). rewrite bool_decide_eq_true.
    by rewrite <-list_elem_of_In. }
  unfold writeTo. by destruct (pc_WriteTo _ _ _).
Qed.


(** What an operation leaves alone besides the two ufrag maps. *)
Definition same_rest m m' : Prop :=
  closedChan m' = closedChan m ∧ localAddrsForUnspecified m' = localAddrsForUnspecified m ∧
  UDPConn m' = UDPConn m.

Lemma GetConn_new m ufrag addr :
  localAddrsForUnspecified m ≠ [] → closedChan m = false → getConn m ufrag (is_IPv6 addr) = None →
  let m' := (GetConn m ufrag addr).2 in
  (GetConn m ufrag addr).1 = Ok (length (conns m)) ∧
  conns m' = conns m ++ [newUDPMuxedConn ufrag (LocalAddr m)] ∧
  watchers m' = watchers m ++ [(length (conns m), ufrag)] ∧ same_rest m m'.
Proof.
  intros Hl Hc Hg. unfold GetConn, IsClosed. rewrite bool_decide_eq_false_2, Hc, Hg by done.
  cbn. by case_match.
Qed.

Lemma RemoveConnByUfrag_rest m ufrag :
  let m' := RemoveConnByUfrag m ufrag in
  conns m' = conns m ∧ watchers m' = watchers m ∧ same_rest m m'.
Proof.
  unfold RemoveConnByUfrag, remove_addresses, same_rest. cbn [remove_conns]. cbv zeta.
  set (m1 := set_IPv6 _ _). set (l := _ ++ _).
  assert (∀ m', conns m' = conns m ∧ watchers m' = watchers m ∧ same_rest m m' →
    let m'' := foldl (λ m c, set_addressMap (delete_all (conn_addresses m c)) m) m' l in
    conns m'' = conns m ∧ watchers m'' = watchers m ∧ same_rest m m'') as Hf.
  { induction l as [|c l IH]; intros m' Hm; [done|]. cbn [foldl]. by apply IH. }
  by apply Hf.
Qed.

Lemma getConn_remove_conns m ufrag v : getConn (remove_conns m ufrag).2 ufrag v = None.
Proof. destruct v; apply lookup_delete_eq. Qed.

Lemma getConn_RemoveConnByUfrag m ufrag v : getConn (RemoveConnByUfrag m ufrag) ufrag v = None.
Proof.
  unfold RemoveConnByUfrag, getConn. cbn [remove_conns].
  edestruct remove_addresses_maps as [-> ->]. destruct v; apply lookup_delete_eq.
Qed.

(** A connection closed after its ufrag was removed and taken again takes
    the new connection out of the mux: the watcher the first [GetConn] started
    removes by ufrag, not by connection. *)
Lemma stale_watcher_removes_new_conn locals s ufrag addr :
  locals ≠ [] →
  ∃ w x, rtc step (w_init locals s) w ∧
    let m1 := (GetConn (RemoveConnByUfrag (GetConn (new_mux locals s) ufrag addr).2 ufrag) ufrag addr) in
    m1.1 = Ok 1 ∧ getConn (w_mux w) ufrag (is_IPv6 addr) = None ∧
    conns (w_mux w) !! 1 = Some x ∧ closed x = false ∧ IsClosed (w_mux w) = false.
Proof.
  intros Hl. set (m0 := new_mux locals s).
  destruct (GetConn_new m0 ufrag addr) as (_ & C1 & W1 & D1 & L1 & U1);
    [done..|destruct (is_IPv6 addr); apply lookup_empty|].
  destruct (RemoveConnByUfrag_rest (GetConn m0 ufrag addr).2 ufrag) as (C2 & W2 & D2 & L2 & U2).
  destruct (GetConn_new (RemoveConnByUfrag (GetConn m0 ufrag addr).2 ufrag) ufrag addr)
    as (R3 & C3 & W3 & D3 & L3 & U3);
    [by rewrite L2, L1|by rewrite D2, D1|apply getConn_RemoveConnByUfrag|].
  set (c1 := newUDPMuxedConn ufrag (pc_LocalAddr s)).
  rewrite C2, C1 in R3, C3, W3. rewrite W2, W1 in W3.
  unfold LocalAddr in C3. rewrite U2, U1 in C3. subst m0.
  cbn [new_mux conns watchers UDPConn app length] in R3, C3, W3.
  set (m3 := (GetConn (RemoveConnByUfrag (GetConn (new_mux locals s) ufrag addr).2 ufrag) ufrag addr).2) in *.
  set (m4 := update_conn 0 conn_Close m3).
  assert (conns m4 = [conn_Close c1; c1] ∧ watchers m4 = watchers m3 ∧ closedChan m4 = closedChan m3)
    as (C4 & W4 & D4) by (unfold m4, update_conn; rewrite C3; cbn; by rewrite C3).
  eexists (mkWorld _ _), c1. split.
  - eapply rtc_l; [apply (step_GetConn _ _ ufrag addr)|].
    eapply rtc_l; [apply (step_remove_conns _ _ ufrag)|].
    eapply rtc_l; [by apply (step_remove_addresses _ _ [])|].
    eapply rtc_l; [apply (step_GetConn _ _ ufrag addr)|].
    eapply rtc_l; [apply (step_conn_Close _ _ 0)|].
    eapply rtc_l; [|reflexivity].
    eapply (step_watch _ _ [] [(1, ufrag)] 0 (conn_Close c1)).
    + exact (eq_trans W4 W3).
    + change (conns m4 !! 0 = Some (conn_Close c1)). by rewrite C4.
    + done.
  - cbn [w_mux]. split; [exact R3|]. split; [apply getConn_remove_conns|].
    split; [|split; [done|]].
    + change (conns m4 !! 1 = Some c1). by rewrite C4.
    + change (closedChan m4 = false). by rewrite D4, D3, D2, D1.
Qed.
End mux_specs.

(** ** A concrete mux *)

(** A socket that records what it was asked to send. *)
Record log_socket := mkLog { sent : list (list Ascii.ascii * netAddr); log_open : bool }.

#[export] Instance log_PacketConn : PacketConn log_socket := {|
  pc_WriteTo s b a := (Ok (length b), mkLog (sent s ++ [(b, a)]) (log_open s));
  pc_LocalAddr _ := AUDP (mkUDPAddr (map byte_of_Z [0; 0; 0; 0]%Z) 51820 EmptyString);
  pc_Close s := mkLog (sent s) false
|}.

(** Messages as their raw bytes and their username attribute. *)
#[export] Instance pair_StunLib : StunLib := {|
  stun_Message := list Ascii.ascii * option (list Ascii.ascii);
  msg_Raw := fst;
  msg_Get_Username := snd;
  stun_XORMappedAddress := UDPAddr;
  msg_Has_XORMapped _ := false;
  msg_GetFrom_XORMapped _ := Err (Errorf "no such attribute")
|}.

Definition ex_ip (a b c d : Z) (port : Z) : UDPAddr :=
  mkUDPAddr (map byte_of_Z [a; b; c; d]) port EmptyString.
Definition ex_remote : UDPAddr := ex_ip 10 0 0 2 4000.
Definition ex_local : netAddr := AUDP (ex_ip 10 0 0 1 51820).

(** Two peers' connections, both having written to [ex_remote]. *)
Definition ex_mux0 : UDPMuxDefault (B := list_buffer) := new_mux [ex_local] (mkLog [] true).
Definition ex_mux : UDPMuxDefault (B := list_buffer) :=
  let m := (GetConn ex_mux0 "alice" ex_local).2 in
  let m := (GetConn m "bob" ex_local).2 in
  let m := (conn_WriteTo m 0 [] (AUDP ex_remote)).2 in
  (conn_WriteTo m 1 [] (AUDP ex_remote)).2.

Lemma ex_mux_reachable : rtc step (w_init [ex_local] (mkLog [] true)) (mkWorld ex_mux no_work).
Proof.
  eapply rtc_l; [apply (step_GetConn _ _ "alice" ex_local)|].
  eapply rtc_l; [apply (step_GetConn _ _ "bob" ex_local)|].
  etransitivity; apply conn_WriteTo_run.
Qed.

Lemma ex_mux_inv : inv ex_mux.
Proof. exact (winv_mux _ (winv_reachable _ _ _ ex_mux_reachable)). Qed.

Definition ex_msg : stun_Message := (bytes_of_string "stun", Some (bytes_of_string "carol:x")).

Lemma mux_reachable_witness :
  rtc step (w_init [ex_local] (mkLog [] true)) (mkWorld ex_mux no_work) ∧
  conn_Key ex_mux 0 = Some "alice".
Proof.
  split; [exact ex_mux_reachable|].
  by apply (mux_reachable _ _ _ ex_mux_reachable) with (u := "alice") (v := false) (c := 0).
Defined.

(** Both connections of the source are offered the message; that of the second,
    which is closed, refuses it. *)
Definition ex_half : UDPMuxDefault (B := list_buffer) := update_conn 1 conn_Close ex_mux.
Lemma HandleSTUNMessage_delivery_witness :
  let m' := (HandleSTUNMessage (λ _, replicate poolBufSize (byte_of_Z 0)) ex_half ex_msg (AUDP ex_remote)).2 in
  (λ x, (buf x).1) <$> conns m' !! 0 = Some [frame (bytes_of_string "stun") (addr_frame (bytes_of_string "10.0.0.2") 4000 [])] ∧
  (λ x, (buf x).1) <$> conns m' !! 1 = Some [].
Proof.
  pose proof (HandleSTUNMessage_delivery (λ _, replicate poolBufSize (byte_of_Z 0)) ex_half ex_msg ex_remote
    ltac:(intros ?; apply length_replicate)) as H.
  destruct (HandleSTUNMessage _ ex_half ex_msg _) as [r m']. destruct H as (_ & _ & H).
  cbn [snd]. split.
  - destruct (conns ex_half !! 0) as [x|] eqn:Hx; [|by vm_compute in Hx]. rewrite (H 0 x Hx).
    vm_compute in Hx. injection Hx as <-. by vm_compute.
  - destruct (conns ex_half !! 1) as [x|] eqn:Hx; [|by vm_compute in Hx]. rewrite (H 1 x Hx).
    vm_compute in Hx. injection Hx as <-. by vm_compute.
Defined.

Lemma destinations_iff_witness :
  0 ∈ destinations ex_mux (Some (bytes_of_string "alice:x")) (AUDP (ex_ip 10 9 9 9 4000)).
Proof.
  apply (destinations_iff ex_mux _ _ _ ex_mux_inv). right.
  exists (bytes_of_string "alice:x"). split; [done|]. split; [by vm_compute|].
  intros cs d H. by vm_compute in H.
Defined.

Lemma GetConn_get_or_create_witness :
  (GetConn ex_mux "carol" ex_local).1 = Ok 2.
Proof.
  destruct (GetConn_get_or_create ex_mux "carol" ex_local ex_mux_inv) as (c & m' & H & _ & _ & _ & _ & Hn);
    [by vm_compute|left; done|].
  rewrite H. cbn. by destruct Hn as [-> _].
Defined.

Lemma RemoveConnByUfrag_forgets_witness :
  getConn (RemoveConnByUfrag ex_mux "alice") "alice" false = None.
Proof. apply (RemoveConnByUfrag_forgets ex_mux "alice" ex_mux_inv). Defined.

Lemma Close_shuts_down_witness :
  closedChan ex_mux = false ∧ (GetConn (Close ex_mux) "alice" ex_local).1 = Err io_ErrClosedPipe.
Proof.
  split; [by vm_compute|].
  destruct (Close_shuts_down ex_mux ex_mux_inv) as (_ & _ & H & _); [by vm_compute|].
  rewrite H; [done|]. left. done.
Defined.

Lemma conn_WriteTo_registers_witness :
  conn_addresses (conn_WriteTo ex_mux 0 [] ex_local).2 0 = ["10.0.0.2:4000"; "10.0.0.1:51820"].
Proof.
  destruct (conns ex_mux !! 0) as [x|] eqn:Hx; [|by vm_compute in Hx].
  pose proof (conn_WriteTo_registers ex_mux 0 x [] ex_local Hx) as H.
  vm_compute in Hx. injection Hx as <-.
  destruct (conn_WriteTo ex_mux 0 [] ex_local) as [r m'].
  destruct H as (_ & _ & _ & _ & H). cbn [snd]. destruct H as [-> _]; [|by vm_compute].
  by apply (bool_decide_eq_false_1 _).
Defined.

Lemma shared_address_is_lost_witness :
  addressMap (conn_WriteTo (RemoveConnByUfrag ex_mux "alice") 1 [] (AUDP ex_remote)).2
    !! "10.0.0.2:4000" = None.
Proof.
  destruct (conns ex_mux !! 1) as [x|] eqn:Hx; [|by vm_compute in Hx].
  eapply (shared_address_is_lost ex_mux "alice" 0 1 x "10.0.0.2:4000" [] (AUDP ex_remote));
    [by vm_compute|by apply (bool_decide_eq_true_1 _)|exact Hx|vm_compute in Hx; by injection Hx as <-| |by vm_compute].
  vm_compute in Hx. injection Hx as <-. by apply (bool_decide_eq_true_1 _).
Defined.

Lemma stale_watcher_witness :
  [ex_local] ≠ [] ∧ ∃ w, rtc step (w_init (B := list_buffer) [ex_local] (mkLog [] true)) w ∧
    getConn (w_mux w) "alice" (is_IPv6 ex_local) = None.
Proof.
  split; [done|].
  destruct (stale_watcher_removes_new_conn (B := list_buffer) [ex_local] (mkLog [] true) "alice" ex_local)
    as (w & x & Hr & _ & Hg & _); [done|].
  by exists w.
Defined.
