(* ===== verification/MuxSetup.v ===== *)
(** * [iface/bind/udp_mux.go]: the addresses a new mux listens on

    [localInterfaces] walks the interfaces of a [transport.Net] and keeps the
    addresses ICE may use; [NewUDPMuxDefault] does so when the socket is bound
    to the unspecified address. The interfaces come from the operating system:
    they are arguments here. *)
From Stdlib Require Import Ascii.
From S2P Require Import Prelude GoStrings GoNet GoCIDR MuxedConn Mux.

(** [ice.NetworkType], of pion/ice: its UDP values and the two methods asked
    of them. *)
Class NetworkTypes := {
  NetworkType : Type;
  NetworkTypeUDP4 : NetworkType;
  NetworkTypeUDP6 : NetworkType;
  nt_IsIPv4 : NetworkType → bool;
  nt_IsIPv6 : NetworkType → bool
}.

(** What its documentation says of the two values. *)
Class NetworkTypesSpec (N : NetworkTypes) := {
  udp4_v4 : nt_IsIPv4 NetworkTypeUDP4 = true;
  udp4_v6 : nt_IsIPv6 NetworkTypeUDP4 = false;
  udp6_v4 : nt_IsIPv4 NetworkTypeUDP6 = false;
  udp6_v6 : nt_IsIPv6 NetworkTypeUDP6 = true
}.

(** The addresses of an interface: [net.IPNet], [net.IPAddr] or neither. A nil
    IP is the empty one. *)
Inductive ifAddr :=
| IPNetAddr (ipNet : IPNet)
| IPAddrAddr (ip : list Ascii.ascii)
| UnknownAddr.

Record Interface := mkInterface {
  if_Name : string;
  if_Up : bool;
  if_Loopback : bool;
  if_Addrs : res (list ifAddr)
}.

Definition isZeros (ip : list Ascii.ascii) : bool := forallb (λ b, Z_of_byte b =? 0)%Z ip.

Definition isSupportedIPv6 (ip : list Ascii.ascii) : bool :=
  if bool_decide (length ip ≠ IPv6len) || isZeros (slice 0 12 ip)
     || ((nth_Z ip 0 =? 254)%Z && (Z.land (nth_Z ip 1) 192 =? 192)%Z)
     || IsLinkLocalUnicast ip || IsLinkLocalMulticast ip
  then false else true.

Definition addr_ip (a : ifAddr) : list Ascii.ascii :=
  match a with IPNetAddr n => net_IP n | IPAddrAddr ip => ip | UnknownAddr => [] end.

Section local_interfaces.
Context {N : NetworkTypes}.
Context (interfaceFilter : option (string → bool)) (ipFilter : option (list Ascii.ascii → bool)).
Context (networkTypes : list NetworkType) (includeLoopback : bool).

Definition IPv4Requested : bool := existsb nt_IsIPv4 networkTypes.
Definition IPv6Requested : bool := existsb nt_IsIPv6 networkTypes.

(** The body of the loop over addresses: [None] is [continue]. *)
Definition usable_ip (a : ifAddr) : option (list Ascii.ascii) :=
  let ip := addr_ip a in
  if bool_decide (ip = []) || (IsLoopback ip && negb includeLoopback) then None
  else if
    match To4 ip with
    | None => if negb IPv6Requested then true else negb (isSupportedIPv6 ip)
    | Some _ => negb IPv4Requested
    end then None
  else if match ipFilter with Some f => negb (f ip) | None => false end then None
  else Some ip.

(** The body of the loop over interfaces: the addresses it appends. *)
Definition interface_ips (i : Interface) : list (list Ascii.ascii) :=
  if negb (if_Up i) then []
  else if if_Loopback i && negb includeLoopback then []
  else if match interfaceFilter with Some f => negb (f (if_Name i)) | None => false end then []
  else match if_Addrs i with Ok addrs => omap usable_ip addrs | _ => [] end.

Definition localInterfaces (ifaces : res (list Interface)) : res (list (list Ascii.ascii)) :=
  ifaces ← ifaces;
  Ok (foldl (λ ips i, ips ++ interface_ips i) [] ifaces).
End local_interfaces.

Section new.
Context {N : NetworkTypes} {B : PacketBuffer} {S : Type} {PC : PacketConn S}.

(** The network types the switch chooses for an unspecified IP. *)
Definition mux_networks (ip : list Ascii.ascii) : list NetworkType :=
  if is_Some_dec (To4 ip) then [NetworkTypeUDP4]
  else if is_Some_dec (To16 ip) then [NetworkTypeUDP4; NetworkTypeUDP6]
  else [].

(** [NewUDPMuxDefault(params)]. [net] is [params.Net] by the answer of its
    [Interfaces()], [newNet] the one [stdnet.NewNet()] would give; using the
    nil network a failed [NewNet] leaves is a panic. *)
Definition NewUDPMuxDefault (conn : S) (net : option (res (list Interface)))
    (newNet : res (res (list Interface))) (InterfaceFilter : option (string → bool)) :
    res (UDPMuxDefault (B := B) (S := S)) :=
  match pc_LocalAddr conn with
  | AOther _ _ => Ok (new_mux [] conn)
  | AUDP addr =>
      if negb (IsUnspecified (ua_IP addr)) then Ok (new_mux [] conn)
      else
        let networks := mux_networks (ua_IP addr) in
        if match networks with [] => true | _ => false end then Ok (new_mux [] conn)
        else
          ifaces ← match net with
                   | Some n => Ok n
                   | None => match newNet with Ok n => Ok n | _ => Panic end
                   end;
          match localInterfaces InterfaceFilter None networks true ifaces with
          | Ok ips => Ok (new_mux (map (λ ip, AUDP (mkUDPAddr ip (ua_Port addr) EmptyString)) ips) conn)
          | Err _ => Ok (new_mux [] conn)
          | Panic => Panic
          end
  end.
End new.

(** ** What is listed *)

Section facts.
Context {N : NetworkTypes} {NS : NetworkTypesSpec N}.

Lemma foldl_concat {A C} (f : A → list C) l acc :
  foldl (λ r a, r ++ f a) acc l = acc ++ concat (map f l).
Proof.
  revert acc. induction l as [|a l IH]; intros acc; cbn; [by rewrite app_nil_r|].
  by rewrite IH, <-app_assoc.
Qed.

(** The filter a nil function stands for. *)
Definition allows {A} (f : option (A → bool)) (a : A) : Prop :=
  match f with Some g => g a = true | None => True end.

Lemma allows_spec {A} (f : option (A → bool)) a :
  match f with Some g => negb (g a) | None => false end = false ↔ allows f a.
Proof. destruct f as [g|]; cbn; [by destruct (g a)|done]. Qed.

Lemma usable_ip_Some ipFilter types lb a ip :
  usable_ip ipFilter types lb a = Some ip ↔
  addr_ip a = ip ∧ ip ≠ [] ∧ (IsLoopback ip = true → lb = true) ∧
  match To4 ip with
  | Some _ => IPv4Requested types = true
  | None => IPv6Requested types = true ∧ isSupportedIPv6 ip = true
  end ∧ allows ipFilter ip.
Proof.
  unfold usable_ip. rewrite !if_None_Some, orb_false_iff, bool_decide_eq_false, andb_negb_false.
  rewrite allows_spec.
  assert (∀ ip, (match To4 ip with
    | None => if negb (IPv6Requested types) then true else negb (isSupportedIPv6 ip)
    | Some _ => negb (IPv4Requested types) end) = false ↔
    match To4 ip with
    | Some _ => IPv4Requested types = true
    | None => IPv6Requested types = true ∧ isSupportedIPv6 ip = true
    end) as ->.
  { intros ip'. destruct (To4 ip'); [by destruct (IPv4Requested types)|].
    destruct (IPv6Requested types), (isSupportedIPv6 ip'); cbn; intuition congruence. }
  split; [intros ([? ?] & ? & ? & [= <-]); tauto|intros (<- & ?); tauto].
Qed.

Lemma interface_ips_In ifFilter ipFilter types lb i ip :
  ip ∈ interface_ips ifFilter ipFilter types lb i ↔
  if_Up i = true ∧ (if_Loopback i = true → lb = true) ∧ allows ifFilter (if_Name i) ∧
  ∃ addrs a, if_Addrs i = Ok addrs ∧ a ∈ addrs ∧ usable_ip ipFilter types lb a = Some ip.
Proof.
  unfold interface_ips. rewrite !if_nil_elem, negb_false_iff, andb_negb_false, allows_spec.
  destruct (if_Addrs i) as [addrs|e|].
  - rewrite list_elem_of_omap. split.
    + intros (? & ? & ? & a & ? & ?). split_and!; try done. by exists addrs, a.
    + intros (? & ? & ? & addrs' & a & [= <-] & ? & ?). split_and!; try done. by exists a.
  - rewrite elem_of_nil. split; [tauto|]. by intros (_ & _ & _ & ? & ? & ? & _).
  - rewrite elem_of_nil. split; [tauto|]. by intros (_ & _ & _ & ? & ? & ? & _).
Qed.

(** The local addresses a mux may use are exactly the IPs of the up
    interfaces the filters allow, of a requested family, loopback only when
    asked for, and of IPv6 only the kinds RFC 8445 admits; an interface whose
    addresses cannot be read is skipped. *)
Lemma localInterfaces_iff ifFilter ipFilter types lb ifaces ips ip :
  localInterfaces ifFilter ipFilter types lb (Ok ifaces) = Ok ips →
  ip ∈ ips ↔
  ∃ i addrs a, i ∈ ifaces ∧ if_Up i = true ∧ (if_Loopback i = true → lb = true) ∧
    allows ifFilter (if_Name i) ∧ if_Addrs i = Ok addrs ∧ a ∈ addrs ∧
    addr_ip a = ip ∧ ip ≠ [] ∧ (IsLoopback ip = true → lb = true) ∧
    match To4 ip with
    | Some _ => IPv4Requested types = true
    | None => IPv6Requested types = true ∧ isSupportedIPv6 ip = true
    end ∧ allows ipFilter ip.
Proof.
  unfold localInterfaces. cbn [mbind res_bind]. intros [= <-]. rewrite foldl_concat. cbn [app].
  rewrite list_elem_of_In, in_concat. setoid_rewrite in_map_iff. setoid_rewrite <-list_elem_of_In.
  split.
  - intros (l & (i & <- & Hi) & (Hu & Hl & Ha & addrs & a & He & Hin & Hip)%interface_ips_In).
    apply usable_ip_Some in Hip. exists i, addrs, a. tauto.
  - intros (i & addrs & a & Hi & Hu & Hl & Ha & He & Hin & Hip).
    eexists. split; [exists i; split; [reflexivity|done]|].
    apply interface_ips_In. split_and!; try done. exists addrs, a.
    split_and!; try done. by apply usable_ip_Some.
Qed.

(** The addresses RFC 8445 excludes are never candidates: the unspecified
    address, the loopback, IPv4-compatible, site-local and link-local ones. *)
Lemma isSupportedIPv6_excludes ip :
  isSupportedIPv6 ip = true →
  length ip = 16 ∧ ip ≠ IPv6unspecified ∧ ip ≠ IPv6loopback ∧
  ¬ (nth_Z ip 0 = 254 ∧ 192 ≤ nth_Z ip 1)%Z ∧
  IsLinkLocalUnicast ip = false ∧ IsLinkLocalMulticast ip = false ∧
  (∀ v4, length v4 = 4 → ip ≠ replicate 12 b0 ++ v4).
Proof.
  unfold isSupportedIPv6.
  destruct (bool_decide (length ip ≠ IPv6len)) eqn:Hlen; [done|].
  destruct (isZeros (slice 0 12 ip)) eqn:Hz; [done|].
  destruct (_ && _)%bool eqn:Hs; [done|].
  destruct (IsLinkLocalUnicast ip) eqn:Hu; [done|].
  destruct (IsLinkLocalMulticast ip) eqn:Hm; [done|]. intros _.
  apply bool_decide_eq_false, dec_stable in Hlen.
  assert (∀ v4, length v4 = 4 → ip ≠ replicate 12 b0 ++ v4) as Hcompat.
  { intros v4 _ ->. unfold slice in Hz. by vm_compute in Hz. }
  split_and!; try done.
  - intros ->. by apply (Hcompat (replicate 4 b0)).
  - intros ->. by apply (Hcompat [b0; b0; b0; "001"%char]).
  - intros [H0 H1]. rewrite H0 in Hs. cbn [Z.eqb andb] in Hs.
    assert (Z.land (nth_Z ip 1) 192 = 192)%Z as He.
    { unfold nth_Z in *. pose proof (Z_of_byte_bounds (nth 1 ip b0)) as Hb.
      set (z := Z_of_byte _) in *.
      assert (all_from (λ z, (z <? 192) || (Z.land z 192 =? 192))%Z 0 256 = true) as Hall
        by by vm_compute.
      pose proof (Z_range_check _ _ _ Hall z ltac:(lia)) as Hz'. cbn in Hz'. lia. }
    rewrite He in Hs. done.
Qed.

Lemma networks_requested ip :
  mux_networks ip ≠ [] →
  IPv4Requested (mux_networks ip) = true ∧
  (IPv6Requested (mux_networks ip) = true ↔ To4 ip = None).
Proof.
  unfold mux_networks, IPv4Requested, IPv6Requested. intros Hne.
  destruct (is_Some_dec (To4 ip)) as [[x Hx]|H4].
  - cbn. rewrite udp4_v4, udp4_v6, Hx. done.
  - apply eq_None_not_Some in H4. destruct (is_Some_dec (To16 ip)); [|done].
    cbn. rewrite udp4_v4, udp4_v6, udp6_v6. done.
Qed.
End facts.

Section new_facts.
Context {N : NetworkTypes} {NS : NetworkTypesSpec N} {B : PacketBuffer} {S : Type} {PC : PacketConn S}.

Lemma NewUDPMuxDefault_shape (conn : S) net newNet filter m :
  NewUDPMuxDefault (B := B) conn net newNet filter = Ok m →
  ∃ locals, m = new_mux locals conn ∧
  (locals = [] ∨ ∃ addr ifaces ips,
    pc_LocalAddr conn = AUDP addr ∧ IsUnspecified (ua_IP addr) = true ∧ mux_networks (ua_IP addr) ≠ [] ∧
    (net = Some (Ok ifaces) ∨ (net = None ∧ newNet = Ok (Ok ifaces))) ∧
    localInterfaces filter None (mux_networks (ua_IP addr)) true (Ok ifaces) = Ok ips ∧
    locals = map (λ ip, AUDP (mkUDPAddr ip (ua_Port addr) EmptyString)) ips).
Proof.
  unfold NewUDPMuxDefault. destruct (pc_LocalAddr conn) as [addr|]; [|intros [= <-]; by eauto].
  destruct (IsUnspecified (ua_IP addr)) eqn:Hu; cbn [negb]; [|intros [= <-]; by eauto].
  destruct (mux_networks (ua_IP addr)) as [|n ns] eqn:Hn; [intros [= <-]; by eauto|].
  rewrite <-Hn.
  set (got := match net with Some n => Ok n | None => _ end).
  destruct got as [r| |] eqn:Hg; [|done..]. cbn [mbind res_bind].
  destruct r as [ifaces|e|]; [|intros [= <-]; by eauto|done].
  destruct (localInterfaces _ _ _ _ _) as [ips|e|] eqn:Hl; [|intros [= <-]; by eauto|done].
  intros [= <-]. eexists. split; [done|]. right. exists addr, ifaces, ips.
  split_and!; try done; [by rewrite Hn|].
  unfold got in Hg. destruct net; [left; congruence|]. destruct newNet; [right|done..].
  split; congruence.
Qed.

(** A new mux is open and empty. Bound to a specific address it listens
    on that address alone; bound to the unspecified one, on its port at IPv4
    addresses of up interfaces and, if it was bound to [::], at IPv6 ones of a
    supported kind: never at [::1], though loopback is asked for. *)
Lemma NewUDPMuxDefault_listens (conn : S) net newNet filter m :
  NewUDPMuxDefault (B := B) conn net newNet filter = Ok m →
  inv m ∧ closedChan m = false ∧ conns m = [] ∧ UDPConn m = conn ∧
  ∀ a, a ∈ GetListenAddresses m →
    a = pc_LocalAddr conn ∨
    ∃ addr ip, pc_LocalAddr conn = AUDP addr ∧ IsUnspecified (ua_IP addr) = true ∧
      a = AUDP (mkUDPAddr ip (ua_Port addr) EmptyString) ∧
      (To4 ip = None → To4 (ua_IP addr) = None ∧ isSupportedIPv6 ip = true) ∧
      ip ≠ IPv6loopback.
Proof.
  intros (locals & -> & Hl)%NewUDPMuxDefault_shape.
  split; [apply inv_new|]. split_and!; try done.
  unfold GetListenAddresses, LocalAddr. cbn [new_mux localAddrsForUnspecified UDPConn].
  destruct Hl as [->|(addr & ifaces & ips & Ha & Hu & Hn & _ & Hips & ->)].
  { intros a ->%list_elem_of_singleton. by left. }
  destruct ips as [|ip0 ips].
  { intros a ->%list_elem_of_singleton. by left. }
  intros a Hin. cbn [map] in Hin.
  change (a ∈ map (λ ip, AUDP (mkUDPAddr ip (ua_Port addr) EmptyString)) (ip0 :: ips)) in Hin.
  apply list_elem_of_In, in_map_iff in Hin as (ip & <- & Hin%list_elem_of_In). right. exists addr, ip.
  pose proof (networks_requested (ua_IP addr) Hn) as [_ Hv6].
  pose proof (localInterfaces_iff _ _ _ _ _ _ ip Hips) as Hiff.
  apply Hiff in Hin as (_ & _ & _ & _ & _ & _ & _ & _ & _ & _ & _ & _ & Hfam & _).
  split_and!; try done.
  - intros H4. rewrite H4 in Hfam. destruct Hfam as [H6 Hs]. split; [by apply Hv6|done].
  - intros ->. destruct Hfam as [_ Hfam]. by vm_compute in Hfam.
Qed.
End new_facts.

(** ** A concrete set of interfaces *)

#[export] Instance ex_networks : NetworkTypes := {|
  NetworkType := bool; NetworkTypeUDP4 := false; NetworkTypeUDP6 := true;
  nt_IsIPv4 := negb; nt_IsIPv6 := id
|}.
#[export] Instance ex_networks_spec : NetworkTypesSpec ex_networks.
Proof. by split. Qed.

Definition ex_ifaces : list Interface :=
  [ mkInterface "lo" true true (Ok [IPNetAddr (mkIPNet (map byte_of_Z [127; 0; 0; 1]%Z) (net_CIDRMask 8 4));
      IPNetAddr (mkIPNet IPv6loopback (net_CIDRMask 128 16))]);
    mkInterface "eth0" true false (Ok [IPNetAddr (mkIPNet (map byte_of_Z [10; 0; 0; 5]%Z) (net_CIDRMask 24 4)); UnknownAddr;
      IPAddrAddr (map byte_of_Z [32; 1; 13; 184; 0; 0; 0; 0; 0; 0; 0; 0; 0; 0; 0; 9]%Z)]);
    mkInterface "down0" false false (Ok [IPNetAddr (mkIPNet (map byte_of_Z [10; 0; 0; 6]%Z) (net_CIDRMask 24 4))]);
    mkInterface "err0" true false (Err (Errorf "no such device")) ].

Lemma localInterfaces_iff_witness :
  ∃ ips, localInterfaces None None [NetworkTypeUDP4; NetworkTypeUDP6] true (Ok ex_ifaces) = Ok ips ∧ length ips = 3 ∧
    IPv6loopback ∉ ips.
Proof.
  eexists. split; [by vm_compute|]. split; [by vm_compute|].
  intros H. eapply (localInterfaces_iff None None [NetworkTypeUDP4; NetworkTypeUDP6] true ex_ifaces) in H; [|by vm_compute].
  destruct H as (i & addrs & a & _ & _ & _ & _ & _ & _ & _ & _ & _ & H & _).
  destruct H as [_ H]. by vm_compute in H.
Defined.

Definition ex_global : list Ascii.ascii :=
  map byte_of_Z [32; 1; 13; 184; 0; 0; 0; 0; 0; 0; 0; 0; 0; 0; 0; 9]%Z.

Lemma isSupportedIPv6_excludes_witness : isSupportedIPv6 ex_global = true ∧ ex_global ≠ IPv6loopback.
Proof. split; [by vm_compute|]. by apply (isSupportedIPv6_excludes ex_global). Defined.

Lemma NewUDPMuxDefault_listens_witness :
  ∃ m, NewUDPMuxDefault (B := list_buffer) (mkLog [] true) (Some (Ok ex_ifaces)) Panic None = Ok m ∧
    length (GetListenAddresses m) = 2 ∧ inv m.
Proof.
  eexists. split; [by vm_compute|]. split; [by vm_compute|].
  eapply (NewUDPMuxDefault_listens (mkLog [] true) (Some (Ok ex_ifaces)) Panic None). by vm_compute.
Defined.
