(* ===== verification/UniversalMux.v ===== *)
(** * [iface/bind/udp_mux_universal.go], [iface/bind/bind.go]: the shared socket

    The universal mux wraps the socket of the mux in [udpConn], which refuses to
    write to addresses inside routed networks, and answers STUN servers itself:
    it keeps per server the address the server saw (XOR-mapped) and who waits
    for it. [ICEBind] reads the socket and keeps STUN messages away from
    WireGuard. *)
From Stdlib Require Import Ascii.
From S2P Require Import Prelude GoStrings GoNet MuxedConn Mux MuxSetup.

(** ** The filtering socket *)

Section filter.
Context {S : Type} {PC : PacketConn S}.

(** What a [FilterFn] answers: is the address routed, and in which network. *)
Abbreviation FilterFn := (netip_Addr → res (bool * string)).

Record udpConn := mkUdpConn {
  inner : S;
  filterFn : option FilterFn;
  addrCache : gmap string bool
}.

Definition getHostFromAddr (addr : netAddr) : res string :=
  '(host, _) ← net_SplitHostPort (netAddr_String addr); Ok host.

Definition inner_WriteTo (u : udpConn) (b : list Ascii.ascii) (addr : netAddr) :
    res nat * udpConn :=
  let '(r, s) := pc_WriteTo (inner u) b addr in (r, mkUdpConn s (filterFn u) (addrCache u)).

Definition handleCachedAddress (u : udpConn) (isRouted : bool) (b : list Ascii.ascii) (addr : netAddr) :
    res nat * udpConn :=
  if isRouted
  then (Err (Errorf ("address " +:+ netAddr_String addr +:+
               " is part of a routed network, refusing to write")), u)
  else inner_WriteTo u b addr.

(** [performFilterCheck(addr)]; an address that cannot be parsed, or a filter
    that fails, lets the write through. *)
Definition performFilterCheck (f : FilterFn) (u : udpConn) (addr : netAddr) : res unit * udpConn :=
  match getHostFromAddr addr with
  | Err _ => (Ok tt, u)
  | Panic => (Panic, u)
  | Ok host =>
      match netip_ParseAddr (bytes_of_string host) with
      | None => (Ok tt, u)
      | Some a =>
          match f a with
          | Err _ => (Ok tt, u)
          | Panic => (Panic, u)
          | Ok (isRouted, prefix) =>
              let u := mkUdpConn (inner u) (filterFn u)
                         (<[netAddr_String addr := isRouted]> (addrCache u)) in
              if isRouted
              then (Err (Errorf ("address " +:+ netAddr_String addr +:+
                      " is part of routed network " +:+ prefix +:+ ", refusing to write")), u)
              else (Ok tt, u)
          end
      end
  end.

Definition handleUncachedAddress (f : FilterFn) (u : udpConn) (b : list Ascii.ascii) (addr : netAddr) :
    res nat * udpConn :=
  let '(r, u) := performFilterCheck f u addr in
  match r with
  | Err e => (Err e, u)
  | Panic => (Panic, u)
  | Ok _ => inner_WriteTo u b addr
  end.

Definition udpConn_WriteTo (u : udpConn) (b : list Ascii.ascii) (addr : netAddr) :
    res nat * udpConn :=
  match filterFn u with
  | None => inner_WriteTo u b addr
  | Some f =>
      match addrCache u !! netAddr_String addr with
      | Some isRouted => handleCachedAddress u isRouted b addr
      | None => handleUncachedAddress f u b addr
      end
  end.

(** [udpConn] embeds the socket: its other methods are the socket's. *)
#[export] Instance udpConn_PacketConn : PacketConn udpConn := {|
  pc_WriteTo := udpConn_WriteTo;
  pc_LocalAddr u := pc_LocalAddr (inner u);
  pc_Close u := mkUdpConn (pc_Close (inner u)) (filterFn u) (addrCache u)
|}.

(** *** What the filter promises *)

(** The decision without a cache: is the write to [addr] refused? *)
Definition refused (u : udpConn) (addr : netAddr) : bool :=
  match filterFn u with
  | None => false
  | Some f =>
      match getHostFromAddr addr with
      | Ok host =>
          match netip_ParseAddr (bytes_of_string host) with
          | Some a => match f a with Ok (routed, _) => routed | _ => false end
          | None => false
          end
      | _ => false
      end
  end.

(** The engine's filter: no address is routed. *)
Definition addrViaRoutes : FilterFn := λ addr, Ok (false, EmptyString).

Lemma addrViaRoutes_refuses_none s cache addr : refused (mkUdpConn s (Some addrViaRoutes) cache) addr = false.
Proof.
  unfold refused. cbn [filterFn]. destruct (getHostFromAddr addr) as [host| |]; [|done..].
  by destruct (netip_ParseAddr (bytes_of_string host)).
Qed.

(** A cache that holds only decisions of the filter. *)
Definition cache_ok (u : udpConn) : Prop :=
  ∀ addr b, addrCache u !! netAddr_String addr = Some b → refused u addr = b.

Definition no_filter_panic (u : udpConn) : Prop :=
  ∀ f a, filterFn u = Some f → f a ≠ Panic.
End filter.
Global Arguments udpConn : clear implicits.

(** ** The universal mux *)

(** The rest of the STUN library: telling STUN apart, decoding, and building
    the binding request the program sends. *)
Class StunWire (SL : StunLib) := {
  stun_IsMessage : list Ascii.ascii → bool;
  stun_Decode : list Ascii.ascii → res stun_Message;
  stun_BindingRequest : res (list Ascii.ascii)
}.

Section universal.
Context {B : PacketBuffer} {S : Type} {PC : PacketConn S} {SL : StunLib} {SW : StunWire SL}.
Context {N : NetworkTypes}.

(** [xorMapped]; [waiters_closed] is the state of [waitAddrReceived]. *)
Record xorMapped := mkXor {
  xaddr : option stun_XORMappedAddress;
  waiters_closed : bool;
  expiresAt : Z
}.

(** [UniversalUDPMuxDefault]: the embedded mux, and the records of the STUN
    servers, on a heap because the map and the waiters share them. *)
Record UniversalUDPMuxDefault := mkUMux {
  uMux : UDPMuxDefault (B := B) (S := udpConn S);
  xheap : list xorMapped;
  xorMappedMap : gmap string nat;
  XORMappedAddrCacheTTL : Z
}.

Definition set_uMux m u := mkUMux m (xheap u) (xorMappedMap u) (XORMappedAddrCacheTTL u).
Definition set_xheap f u := mkUMux (uMux u) (f (xheap u)) (xorMappedMap u) (XORMappedAddrCacheTTL u).
Definition set_xmap f u := mkUMux (uMux u) (xheap u) (f (xorMappedMap u)) (XORMappedAddrCacheTTL u).

Definition second : Z := 1000000000.

(** [NewUniversalUDPMuxDefault(params)]; it passes no interface filter on. *)
Definition NewUniversalUDPMuxDefault (conn : S) (filter : option (netip_Addr → res (bool * string)))
    (ttl : Z) (net : option (res (list Interface))) (newNet : res (res (list Interface))) :
    res UniversalUDPMuxDefault :=
  let ttl := if (ttl =? 0)%Z then (second * 25)%Z else ttl in
  m ← NewUDPMuxDefault (mkUdpConn conn filter ∅) net newNet None;
  Ok (mkUMux m [] ∅ ttl).

Definition GetSharedConn (u : UniversalUDPMuxDefault) : udpConn S := UDPConn (uMux u).
Definition U_GetListenAddresses (u : UniversalUDPMuxDefault) : list netAddr := [LocalAddr (uMux u)].
Definition GetRelayedAddr (u : UniversalUDPMuxDefault) : res netAddr :=
  Err (Errorf "not implemented yet").

Definition GetConnForURL (u : UniversalUDPMuxDefault) (ufrag url : string) (addr : netAddr) :
    res nat * UniversalUDPMuxDefault :=
  let '(r, m) := GetConn (uMux u) (ufrag +:+ url) addr in (r, set_uMux m u).

Definition closeWaiters (x : xorMapped) : xorMapped :=
  if waiters_closed x then x else mkXor (xaddr x) true (expiresAt x).

Definition pending (x : xorMapped) : bool := match xaddr x with None => true | Some _ => false end.

(** [a.expiresAt.Before(time.Now())] *)
Definition expired (now : Z) (x : xorMapped) : bool := (expiresAt x <? now)%Z.

Definition SetAddr (addr : stun_XORMappedAddress) (x : xorMapped) : xorMapped :=
  closeWaiters (mkXor (Some addr) (waiters_closed x) (expiresAt x)).

Definition update_x (i : nat) (f : xorMapped → xorMapped) (u : UniversalUDPMuxDefault) :
    UniversalUDPMuxDefault :=
  set_xheap (λ h, match h !! i with Some x => <[i := f x]> h | None => h end) u.

Definition isXORMappedResponse (u : UniversalUDPMuxDefault) (msg : stun_Message) (stunAddr : string) :
    bool :=
  match xorMappedMap u !! stunAddr with
  | Some _ => msg_Has_XORMapped msg
  | None => false
  end.

Definition handleXORMappedResponse (u : UniversalUDPMuxDefault) (stunAddr : UDPAddr)
    (msg : stun_Message) : res unit * UniversalUDPMuxDefault :=
  match xorMappedMap u !! UDPAddr_String stunAddr with
  | None => (Err (Errorf "no XOR address mapping"), u)
  | Some i =>
      match msg_GetFrom_XORMapped msg with
      | Err e => (Err e, u)
      | Panic => (Panic, u)
      | Ok addr =>
          (Ok tt, update_x i (SetAddr addr) (set_xmap <[UDPAddr_String stunAddr := i]> u))
      end
  end.

(** What other goroutines do to the mux while one is between two sections. *)
Class Others := others_do : UniversalUDPMuxDefault → UniversalUDPMuxDefault.

(** [HandleSTUNMessage] of the universal mux: the answers of known STUN servers
    stay here, everything else goes to the mux. The test and the handling of an
    answer take the lock one after the other. *)
Definition U_HandleSTUNMessage {O : Others} (pool : nat → list Ascii.ascii) (u : UniversalUDPMuxDefault)
    (msg : stun_Message) (addr : netAddr) : res unit * UniversalUDPMuxDefault :=
  match addr with
  | AOther _ _ => (Ok tt, u)
  | AUDP udpAddr =>
      if isXORMappedResponse u msg (UDPAddr_String udpAddr) then
        match handleXORMappedResponse (others_do u) udpAddr msg with
        | (Panic, u) => (Panic, u)
        | (_, u) => (Ok tt, u)
        end
      else
        let '(r, m) := HandleSTUNMessage pool (uMux u) msg addr in (r, set_uMux m u)
  end.

(** [GetXORMappedAddr], its first critical section: the cached address, or
    [None] to go on and send. *)
Definition xor_lookup (now : Z) (u : UniversalUDPMuxDefault) (server : netAddr) :
    option stun_XORMappedAddress * UniversalUDPMuxDefault :=
  let key := netAddr_String server in
  match xorMappedMap u !! key with
  | None => (None, u)
  | Some i =>
      match xheap u !! i with
      | None => (None, u)
      | Some x =>
          if expired now x then (None, set_xmap (delete key) (update_x i closeWaiters u))
          else if pending x then (None, u)
          else (xaddr x, u)
      end
  end.

(** [sendSTUN(serverAddr)]: the record whose channel to wait on. *)
Definition sendSTUN (now : Z) (u : UniversalUDPMuxDefault) (server : netAddr) :
    res nat * UniversalUDPMuxDefault :=
  let key := netAddr_String server in
  let '(i, u) :=
    match xorMappedMap u !! key with
    | Some i => (i, u)
    | None =>
        let i := length (xheap u) in
        (i, set_xmap <[key := i]>
              (set_xheap (λ h, h ++ [mkXor None false (now + XORMappedAddrCacheTTL u)]) u))
    end in
  match stun_BindingRequest with
  | Err e => (Err e, u)
  | Panic => (Panic, u)
  | Ok req =>
      let '(r, s) := pc_WriteTo (UDPConn (uMux u)) req server in
      let u := set_uMux (set_UDPConn s (uMux u)) u in
      match r with
      | Ok _ => (Ok i, u)
      | Err e => (Err e, u)
      | Panic => (Panic, u)
      end
  end.

(** The end of [GetXORMappedAddr], once the channel of the record is closed. *)
Definition xor_received (u : UniversalUDPMuxDefault) (server : netAddr) : res stun_XORMappedAddress :=
  or_err (Errorf "no XOR address mapping")
    (i ← xorMappedMap u !! netAddr_String server; x ← xheap u !! i; xaddr x).

Definition xor_timeout : res stun_XORMappedAddress :=
  Err (Errorf "timeout while waiting for XORMappedAddr").

(** [GetXORMappedAddr(serverAddr, deadline)]. [during] is what other goroutines
    do between the two critical sections ([None]: the deadline comes first). *)
Definition GetXORMappedAddr (now : Z) (u : UniversalUDPMuxDefault) (server : netAddr)
    (between : UniversalUDPMuxDefault → UniversalUDPMuxDefault)
    (during : UniversalUDPMuxDefault → option UniversalUDPMuxDefault) :
    res stun_XORMappedAddress * UniversalUDPMuxDefault :=
  match xor_lookup now u server with
  | (Some a, u) => (Ok a, u)
  | (None, u) =>
      match sendSTUN now (between u) server with
      | (Err e, u) => (Err (Errorf ("failed to send STUN packet: " +:+ error_text e)), u)
      | (Panic, u) => (Panic, u)
      | (Ok i, u) =>
          match during u with
          | None => (xor_timeout, u)
          | Some u => (xor_received u server, u)
          end
      end
  end.
End universal.

(** ** [ICEBind] *)

(** [netip.AddrPort] of a UDP address: [AddrFromSlice], [WithZone], and the
    port cut to 16 bits. *)
Definition UDPAddr_AddrPort (a : UDPAddr) : option netip_Addr * Z :=
  (if decide (length (ua_IP a) = 4) then Some (Addr4 (ua_IP a))
   else if decide (length (ua_IP a) = 16) then Some (Addr6 (ua_IP a) (bytes_of_string (ua_Zone a)))
   else None,
   (ua_Port a `mod` 65536)%Z).

(** wireguard-go's endpoints: made from an address, with the source read from
    the control message. *)
Class WgEndpoints := {
  Endpoint : Type;
  StdNetEndpoint : option netip_Addr * Z → Endpoint;
  GetSrcFromControl : list Ascii.ascii → Endpoint → Endpoint
}.

Section icebind.
Context {B : PacketBuffer} {S : Type} {PC : PacketConn S} {SL : StunLib} {SW : StunWire SL}.
Context {N : NetworkTypes} {W : WgEndpoints} {O : Others (B := B) (S := S)}.

(** [ipv4.Message] as a batch read leaves it. *)
Record Message := mkMessage {
  msg_Buffers : list (list Ascii.ascii);
  msg_N : nat;
  msg_OOB : list Ascii.ascii;
  msg_Addr : netAddr
}.

(** [ICEBind]; the embedded [StdNetBind] is wireguard-go's. *)
Record ICEBind := mkICEBind {
  transportNet : option (res (list Interface));
  udpMux : option (UniversalUDPMuxDefault (B := B) (S := S));
  ib_filterFn : option (netip_Addr → res (bool * string))
}.

Definition NewICEBind transportNet filterFn : ICEBind := mkICEBind transportNet None filterFn.

Definition GetICEMux (s : ICEBind) : res (UniversalUDPMuxDefault (B := B) (S := S)) :=
  or_err (Errorf "ICEBind has not been initialized yet") (udpMux s).

(** [createIPv4ReceiverFn]: a new mux on the socket; the function it returns
    is [receive]. *)
Definition createIPv4ReceiverFn (newNet : res (res (list Interface))) (conn : S) (s : ICEBind) :
    res ICEBind :=
  u ← NewUniversalUDPMuxDefault conn (ib_filterFn s) 0 (transportNet s) newNet;
  Ok (mkICEBind (transportNet s) (Some u) (ib_filterFn s)).

Definition parseSTUNMessage (raw : list Ascii.ascii) : res stun_Message := stun_Decode raw.

(** [filterOutStunMessages(buffers, n, addr)]: was it STUN, the error, the
    buffers as it leaves them, the mux. *)
Fixpoint filterOutStunMessages (pool : nat → list Ascii.ascii) (u : UniversalUDPMuxDefault (B := B) (S := S))
    (buffers : list (list Ascii.ascii)) (n : nat) (addr : netAddr) :
    res (bool * option error * list (list Ascii.ascii)) * UniversalUDPMuxDefault :=
  match buffers with
  | [] => (Ok (false, None, []), u)
  | b :: bs =>
      if negb (stun_IsMessage b) then
        let '(r, u) := filterOutStunMessages pool u bs n addr in
        ('(ok, e, bs) ← r; Ok (ok, e, b :: bs), u)
      else
        match (raw ← subslice 0 n b; parseSTUNMessage raw) with
        | Panic => (Panic, u)
        | Err e => (Ok (true, Some e, [] :: bs), u)
        | Ok msg =>
            match U_HandleSTUNMessage pool u msg addr with
            | (Panic, u) => (Panic, u)
            | (_, u) => (Ok (true, None, [] :: bs), u)
            end
        end
  end.

(** [sizes[i] = v], [eps[i] = v] *)
Definition set_at {A} (i : nat) (v : A) (l : list A) : res (list A) :=
  if decide (i < length l) then Ok (<[i:=v]> l) else Panic.

(** The loop over the messages read, from index [i] on. *)
Fixpoint receive_loop (pool : nat → list Ascii.ascii) (u : UniversalUDPMuxDefault (B := B) (S := S)) (i : nat)
    (msgs : list Message) (sizes : list nat) (eps : list Endpoint) :
    res (list nat * list Endpoint) * UniversalUDPMuxDefault :=
  match msgs with
  | [] => (Ok (sizes, eps), u)
  | msg :: msgs =>
      match filterOutStunMessages pool u (msg_Buffers msg) (msg_N msg) (msg_Addr msg) with
      | (Ok (ok, _, _), u) =>
          match (sizes ← set_at i (if ok : bool then 0 else msg_N msg) sizes;
                 match msg_Addr msg with
                 | AOther _ _ => Panic
                 | AUDP a =>
                     eps ← set_at i (GetSrcFromControl (msg_OOB msg) (StdNetEndpoint (UDPAddr_AddrPort a))) eps;
                     Ok (sizes, eps)
                 end) with
          | Ok (sizes, eps) => receive_loop pool u (i + 1) msgs sizes eps
          | Err e => (Err e, u)
          | Panic => (Panic, u)
          end
      | (Err e, u) => (Err e, u)
      | (Panic, u) => (Panic, u)
      end
  end.

(** The receive function: on Linux a batch is read, elsewhere one message. *)
Definition receive (linux : bool) (batch : res (list Message)) (single : res Message)
    (pool : nat → list Ascii.ascii) (u : UniversalUDPMuxDefault (B := B) (S := S)) (sizes : list nat) (eps : list Endpoint) :
    res (nat * list nat * list Endpoint) * UniversalUDPMuxDefault :=
  match (if linux then batch else m ← single; Ok [m]) with
  | Err e => (Err e, u)
  | Panic => (Panic, u)
  | Ok msgs =>
      let '(r, u) := receive_loop pool u 0 msgs sizes eps in
      ('(sizes, eps) ← r; Ok (length msgs, sizes, eps), u)
  end.

(** *** What WireGuard sees *)

Definition is_stun (m : Message) : bool := existsb stun_IsMessage (msg_Buffers m).

Lemma filterOut_stun pool u m bs ok e bufs u' :
  filterOutStunMessages pool u bs (msg_N m) (msg_Addr m) = (Ok (ok, e, bufs), u') →
  ok = existsb stun_IsMessage bs ∧ (ok = false → bufs = bs ∧ u' = u).
Proof.
  revert ok e bufs u'. induction bs as [|b bs IH]; intros ok e bufs u'; cbn [filterOutStunMessages existsb].
  { intros [= <- <- <- <-]. done. }
  destruct (stun_IsMessage b); cbn [negb orb].
  - destruct (raw ← subslice 0 (msg_N m) b; parseSTUNMessage raw) as [msg|e'|]; [|by intros [= <- <- <- <-]|done].
    destruct (U_HandleSTUNMessage pool u msg (msg_Addr m)) as [[|e'|] u1]; [|by intros [= <- <- <- <-]|done].
    by intros [= <- <- <- <-].
  - destruct (filterOutStunMessages pool u bs (msg_N m) (msg_Addr m)) as [[[[ok' e'] bs']| |] u1]; [|done..].
    cbn [mbind res_bind]. intros [= <- <- <- <-].
    destruct (IH _ _ _ _ eq_refl) as [-> Hf]. split; [done|].
    intros [-> ->]%Hf. done.
Qed.

Lemma set_at_Ok {A} i (v : A) l l' : set_at i v l = Ok l' → i < length l ∧ l' = <[i:=v]> l.
Proof. unfold set_at. case_decide; [by intros [= <-]|done]. Qed.

Lemma receive_loop_sizes pool u i msgs sizes eps sizes' eps' u' :
  receive_loop pool u i msgs sizes eps = (Ok (sizes', eps'), u') →
  length sizes' = length sizes ∧ length eps' = length eps ∧
  (∀ j, j < i ∨ i + length msgs ≤ j → sizes' !! j = sizes !! j) ∧
  (∀ j m, msgs !! j = Some m →
    sizes' !! (i + j) = Some (if is_stun m then 0 else msg_N m)) ∧
  (Forall (λ m, is_stun m = false) msgs → u' = u).
Proof.
  revert u i sizes eps. induction msgs as [|m msgs IH]; intros u i sizes eps; cbn [receive_loop].
  { intros [= <- <- <-]. split_and!; done. }
  destruct (filterOutStunMessages _ _ _ _ _) as [[[[ok e] bufs]| |] u1] eqn:Hf; [|done..].
  apply filterOut_stun in Hf as [Hok Hu].
  destruct (set_at i (if ok then 0 else msg_N m) sizes) as [s1| |] eqn:Hs; [|done..].
  cbn [mbind res_bind]. destruct (msg_Addr m) as [a|]; [|done].
  destruct (set_at i _ eps) as [e1| |] eqn:He; [|done..]. cbn [mbind res_bind].
  apply set_at_Ok in Hs as [Hi ->]. apply set_at_Ok in He as [Hi' ->].
  intros (Hl1 & Hl2 & Hout & Hin & Hsame)%IH. rewrite length_insert in Hl1. rewrite length_insert in Hl2.
  split_and!; [done|done| | |].
  - intros j Hj. cbn [length] in Hj. rewrite Hout by lia. rewrite list_lookup_insert_ne by lia. done.
  - intros [|j] m' Hm'; cbn in Hm'.
    + injection Hm' as <-. rewrite Nat.add_0_r, Hout by lia.
      rewrite list_lookup_insert_eq by done. unfold is_stun. by rewrite Hok.
    + specialize (Hin j m' Hm'). by replace (i + Datatypes.S j) with (i + 1 + j) by lia.
  - intros [Hm Hms]%Forall_cons_iff. rewrite Hsame by done. apply Hu. by rewrite Hok.
Qed.

(** C21. WireGuard never sees STUN: of the messages a read returns, each that
    holds a STUN buffer gets size 0 and every other keeps its size; entries
    past the messages are as before, and without STUN the mux is untouched. *)
Theorem receive_hides_stun linux batch single pool u sizes eps n sizes' eps' u' :
  receive linux batch single pool u sizes eps = (Ok (n, sizes', eps'), u') →
  ∃ msgs, (if linux then batch = Ok msgs else ∃ m, single = Ok m ∧ msgs = [m]) ∧
    n = length msgs ∧ length sizes' = length sizes ∧
    (∀ j m, msgs !! j = Some m → sizes' !! j = Some (if is_stun m then 0 else msg_N m)) ∧
    (∀ j, n ≤ j → sizes' !! j = sizes !! j) ∧
    (Forall (λ m, is_stun m = false) msgs → u' = u).
Proof.
  unfold receive. destruct (if linux then batch else _) as [msgs| |] eqn:Hm; [|done..].
  destruct (receive_loop pool u 0 msgs sizes eps) as [[[s e]| |] u1] eqn:Hr; [|done..].
  cbn [mbind res_bind]. intros [= <- <- <- <-].
  apply receive_loop_sizes in Hr as (H1 & H2 & H3 & H4 & H5).
  exists msgs. split; [|split_and!; try done].
  - destruct linux; [done|]. destruct single as [m| |]; [|done..]. injection Hm as <-. by exists m.
  - intros j Hj. apply H3. lia.
Qed.
End icebind.

(** ** The filter, with its cache, decides as without *)

Section filter_facts.
Context {S : Type} {PC : PacketConn S}.
Implicit Types u : udpConn S.

Lemma performFilterCheck_spec f u addr :
  filterFn u = Some f → no_filter_panic u → addrCache u !! netAddr_String addr = None →
  cache_ok u →
  let '(r, u') := performFilterCheck f u addr in
  inner u' = inner u ∧ filterFn u' = filterFn u ∧ cache_ok u' ∧
  (if refused u addr then ∃ e, r = Err e else r = Ok tt).
Proof.
  intros Hf Hnp Hno Hc. unfold performFilterCheck, refused. rewrite Hf.
  assert (getHostFromAddr addr ≠ Panic) as Hhost.
  { unfold getHostFromAddr, net_SplitHostPort.
    intros [=Hp]. repeat case_match; done. }
  destruct (getHostFromAddr addr) as [host|e|] eqn:Hh; [|done..].
  destruct (netip_ParseAddr (bytes_of_string host)) as [a|] eqn:Ha; [|done].
  pose proof (Hnp f a Hf) as Hpa.
  destruct (f a) as [[routed prefix]|e|] eqn:Hfa; [|done..].
  assert (cache_ok (mkUdpConn (inner u) (filterFn u) (<[netAddr_String addr:=routed]> (addrCache u)))) as Hc'.
  { intros addr' b. cbn [addrCache]. intros [[Heq <-]|[_ Hl]]%lookup_insert_Some.
    - unfold refused. cbn [filterFn]. rewrite Hf. unfold getHostFromAddr in *. rewrite <-Heq, Hh, Ha, Hfa. done.
    - by apply Hc in Hl. }
  rewrite Hf in Hc'. destruct routed; split_and!; try done. by eexists.
Qed.

(** C19. The address cache is sound and invisible: writing through [udpConn]
    reaches the socket, unchanged, exactly when the filter (asked directly)
    does not call the address routed; a refused write leaves the socket alone
    and fails; the cache stays a record of the filter's decisions. An address
    or filter answer that cannot be had lets the write through. *)
Theorem udpConn_WriteTo_filters u b addr :
  cache_ok u → no_filter_panic u →
  let '(r, u') := udpConn_WriteTo u b addr in
  cache_ok u' ∧ filterFn u' = filterFn u ∧
  if refused u addr then inner u' = inner u ∧ ∃ e, r = Err e
  else (r, inner u') = pc_WriteTo (inner u) b addr.
Proof.
  intros Hc Hnp. unfold udpConn_WriteTo.
  assert (∀ v, inner v = inner u → filterFn v = filterFn u → cache_ok v →
    let '(r, u') := inner_WriteTo v b addr in
    cache_ok u' ∧ filterFn u' = filterFn u ∧ (r, inner u') = pc_WriteTo (inner u) b addr) as Hin.
  { intros v E1 E2 Hcv. unfold inner_WriteTo. rewrite E1.
    by destruct (pc_WriteTo (inner u) b addr). }
  destruct (filterFn u) as [f|] eqn:Hf.
  2:{ specialize (Hin u eq_refl Hf Hc). unfold refused. rewrite Hf.
      by destruct (inner_WriteTo u b addr). }
  destruct (addrCache u !! netAddr_String addr) as [routed|] eqn:Hl.
  - rewrite (Hc _ _ Hl). destruct routed; cbn [handleCachedAddress].
    + split_and!; try done. by eexists.
    + specialize (Hin u eq_refl Hf Hc). by destruct (inner_WriteTo u b addr).
  - pose proof (performFilterCheck_spec f u addr Hf Hnp Hl Hc) as Hp. unfold handleUncachedAddress.
    destruct (performFilterCheck f u addr) as [r v]. destruct Hp as (E1 & E2 & Hcv & Hr).
    destruct (refused u addr).
    + destruct Hr as [e ->]. split_and!; try done; [by rewrite E2|by eexists].
    + subst r. rewrite Hf in E2. specialize (Hin v E1 E2 Hcv). by destruct (inner_WriteTo v b addr).
Qed.

(** A decision sticks: once an address is in the cache, later writes to it
    are decided by the cache alone, whatever the routes (the filter) have
    become. *)
Lemma cached_decision_sticks u b addr routed g :
  filterFn u ≠ None → addrCache u !! netAddr_String addr = Some routed →
  let u' := mkUdpConn (inner u) (Some g) (addrCache u) in
  (udpConn_WriteTo u' b addr).1 = (udpConn_WriteTo u b addr).1 ∧
  inner (udpConn_WriteTo u' b addr).2 = inner (udpConn_WriteTo u b addr).2 ∧
  (routed = true → inner (udpConn_WriteTo u b addr).2 = inner u).
Proof.
  intros Hf Hl. unfold udpConn_WriteTo. cbn [filterFn addrCache]. cbv zeta.
  destruct (filterFn u) as [f|]; [|done]. rewrite Hl.
  destruct routed; cbn [handleCachedAddress fst snd inner]; [by split_and!|].
  unfold inner_WriteTo. cbn [inner filterFn addrCache]. by destruct (pc_WriteTo (inner u) b addr).
Qed.
End filter_facts.

(** ** The records of the STUN servers *)

Section xor.
Context {B : PacketBuffer} {S : Type} {PC : PacketConn S} {SL : StunLib} {SW : StunWire SL}.
Abbreviation umux := (UniversalUDPMuxDefault (B := B) (S := S)).
Implicit Types u : umux.

(** Goroutines in [GetXORMappedAddr]: those that missed and will send, those
    waiting on the channel of a record, those woken that have yet to read the
    address, and what was returned. And the readers of the socket with an answer
    that came from a known server when [isXORMappedResponse] looked. *)
Record uworld := mkUWorld {
  w_u : umux;
  w_sending : list netAddr;
  w_waiting : list (netAddr * nat);
  w_woken : list netAddr;
  w_returned : list (netAddr * res stun_XORMappedAddress);
  w_answers : list (stun_Message * UDPAddr)
}.
Definition start_u u := mkUWorld u [] [] [] [] [].

(** Which step it is: only an answer is told apart. *)
Inductive ulabel := LAnswer (server : UDPAddr) | LOther.
Inductive ustep : ulabel → uworld → uworld → Prop :=
| ustep_lookup u sn wt wk rt an now server u' :
    xor_lookup now u server = (None, u') →
    ustep LOther (mkUWorld u sn wt wk rt an) (mkUWorld u' (server :: sn) wt wk rt an)
| ustep_hit u sn wt wk rt an now server ad u' :
    xor_lookup now u server = (Some ad, u') →
    ustep LOther (mkUWorld u sn wt wk rt an) (mkUWorld u' sn wt wk ((server, Ok ad) :: rt) an)
| ustep_send u sn1 sn2 wt wk rt an now server i u' :
    sendSTUN now u server = (Ok i, u') →
    ustep LOther (mkUWorld u (sn1 ++ server :: sn2) wt wk rt an) (mkUWorld u' (sn1 ++ sn2) ((server, i) :: wt) wk rt an)
| ustep_send_fails u sn1 sn2 wt wk rt an now server e u' :
    sendSTUN now u server = (Err e, u') →
    ustep LOther (mkUWorld u (sn1 ++ server :: sn2) wt wk rt an)
      (mkUWorld u' (sn1 ++ sn2) wt wk ((server, Err (Errorf ("failed to send STUN packet: " +:+ error_text e))) :: rt) an)
| ustep_isXOR u sn wt wk rt an msg a :
    isXORMappedResponse u msg (UDPAddr_String a) = true →
    ustep LOther (mkUWorld u sn wt wk rt an) (mkUWorld u sn wt wk rt ((msg, a) :: an))
| ustep_answer u sn wt wk rt an1 an2 msg a r u' :
    handleXORMappedResponse u a msg = (r, u') →
    ustep (LAnswer a) (mkUWorld u sn wt wk rt (an1 ++ (msg, a) :: an2)) (mkUWorld u' sn wt wk rt (an1 ++ an2))
| ustep_woken u sn wt1 wt2 wk rt an server i x :
    xheap u !! i = Some x → waiters_closed x = true →
    ustep LOther (mkUWorld u sn (wt1 ++ (server, i) :: wt2) wk rt an) (mkUWorld u sn (wt1 ++ wt2) (server :: wk) rt an)
| ustep_received u sn wt wk1 wk2 rt an server :
    ustep LOther (mkUWorld u sn wt (wk1 ++ server :: wk2) rt an)
      (mkUWorld u sn wt (wk1 ++ wk2) ((server, xor_received u server) :: rt) an)
| ustep_timeout u sn wt1 wt2 wk rt an server i :
    ustep LOther (mkUWorld u sn (wt1 ++ (server, i) :: wt2) wk rt an)
      (mkUWorld u sn (wt1 ++ wt2) wk ((server, xor_timeout) :: rt) an)
| ustep_mux u sn wt wk rt an m :
    ustep LOther (mkUWorld u sn wt wk rt an) (mkUWorld (set_uMux m u) sn wt wk rt an).
Definition any_ustep (w w' : uworld) : Prop := ∃ l, ustep l w w'.
(** A step that is not the handling of an answer of the server [a]. *)
Definition other_ustep (a : UDPAddr) (w w' : uworld) : Prop :=
  ∃ l, ustep l w w' ∧ ∀ b, l = LAnswer b → UDPAddr_String b ≠ UDPAddr_String a.

(** The records: the map points into the heap without sharing, and in it a
    record's channel is closed exactly when its address is known. *)
Record xinv u : Prop := {
  xinv_map : ∀ k i, xorMappedMap u !! k = Some i →
    ∃ x, xheap u !! i = Some x ∧ waiters_closed x = negb (pending x);
  xinv_inj : ∀ k k' i, xorMappedMap u !! k = Some i → xorMappedMap u !! k' = Some i → k = k'
}.

(** A waiter has not been forgotten: its record is the server's, or closed. *)
Definition served u (w : netAddr * nat) : Prop :=
  xorMappedMap u !! netAddr_String w.1 = Some w.2 ∨
  ∃ x, xheap u !! w.2 = Some x ∧ waiters_closed x = true.

Lemma lookup_update_x u i f j :
  xheap (update_x i f u) !! j = if decide (i = j) then f <$> xheap u !! j else xheap u !! j.
Proof.
  cbn. destruct (xheap u !! i) as [x|] eqn:Hx.
  - case_decide as Hd; subst.
    + rewrite list_lookup_insert_eq by (by apply lookup_lt_Some in Hx). by rewrite Hx.
    + by rewrite list_lookup_insert_ne.
  - case_decide; subst; [by rewrite Hx|done].
Qed.

Lemma closeWaiters_spec x : closeWaiters x = mkXor (xaddr x) true (expiresAt x).
Proof. unfold closeWaiters. destruct x as [a [] e]; done. Qed.

Lemma SetAddr_spec a x : SetAddr a x = mkXor (Some a) true (expiresAt x).
Proof. unfold SetAddr. by rewrite closeWaiters_spec. Qed.

Lemma insert_set_xmap u k i f : xorMappedMap u !! k = Some i →
  update_x i f (set_xmap <[k := i]> u) = update_x i f u.
Proof. intros Hi. destruct u as [m h xm ttl]. unfold update_x, set_xmap, set_xheap. cbn in *. by rewrite insert_id. Qed.

(** Closing channels never unserves a waiter. *)
Lemma served_update u i f w :
  (∀ x, waiters_closed (f x) = true) → served u w → served (update_x i f u) w.
Proof.
  intros Hf [Hm|(x & Hx & Hc)]; [by left|]. right.
  rewrite lookup_update_x. case_decide; [|by exists x].
  rewrite Hx. exists (f x). split; [done|]. apply Hf.
Qed.

Lemma xor_lookup_xinv now u server o u' : xor_lookup now u server = (o, u') → xinv u → xinv u'.
Proof.
  unfold xor_lookup. intros Hl I. pose proof I as [I1 I2].
  destruct (xorMappedMap u !! netAddr_String server) as [i|] eqn:Hi; [|by injection Hl as <- <-].
  destruct (xheap u !! i) as [x|] eqn:Hx; [|by injection Hl as <- <-].
  destruct (expired now x); [|by destruct (pending x); injection Hl as <- <-].
  injection Hl as <- <-. split.
  - cbn [set_xmap xorMappedMap]. intros k j [Hne Hk]%lookup_delete_Some. destruct (I1 k j Hk) as (y & Hy & Hcy).
    exists y. split; [|done]. cbn [set_xmap xheap].
    rewrite lookup_update_x, decide_False; [done|]. intros ->. apply Hne. by eapply I2.
  - cbn [set_xmap xorMappedMap]. intros k k' j [_ Hk]%lookup_delete_Some [_ Hk']%lookup_delete_Some. by eapply I2.
Qed.

Lemma xor_lookup_served now u server o u' w :
  xor_lookup now u server = (o, u') → served u w → served u' w.
Proof.
  unfold xor_lookup. intros Hl Hw.
  destruct (xorMappedMap u !! netAddr_String server) as [i|] eqn:Hi; [|by injection Hl as <- <-].
  destruct (xheap u !! i) as [x|] eqn:Hx; [|by injection Hl as <- <-].
  destruct (expired now x); [|by destruct (pending x); injection Hl as <- <-].
  injection Hl as <- <-.
  - destruct w as [s j]. destruct Hw as [Hm|Hcl]; cbn [fst snd] in *.
    + destruct (decide (netAddr_String server = netAddr_String s)) as [He|Hne].
      * right. rewrite <-He, Hi in Hm. injection Hm as ->. cbn [fst snd set_xmap xheap].
        rewrite lookup_update_x, decide_True, Hx by done.
        eexists. split; [done|]. by rewrite closeWaiters_spec.
      * left. cbn. by rewrite lookup_delete_ne.
    + right. destruct Hcl as (y & Hy & Hcy). cbn [set_xmap xheap snd].
      rewrite lookup_update_x. case_decide; [|by exists y]. rewrite Hy.
      eexists. split; [done|]. by rewrite closeWaiters_spec.
Qed.

(** The record [sendSTUN] finds or makes. *)
Definition stun_record (now : Z) u (server : netAddr) : nat * umux :=
  match xorMappedMap u !! netAddr_String server with
  | Some i => (i, u)
  | None =>
      (length (xheap u), set_xmap <[netAddr_String server := length (xheap u)]>
         (set_xheap (λ h, h ++ [mkXor None false (now + XORMappedAddrCacheTTL u)]) u))
  end.

Lemma sendSTUN_record now u server r u' :
  sendSTUN now u server = (r, u') →
  let v := (stun_record now u server).2 in
  (xheap u', xorMappedMap u') = (xheap v, xorMappedMap v) ∧
  ∀ i, r = Ok i → i = (stun_record now u server).1.
Proof.
  unfold sendSTUN. fold (stun_record now u server). destruct (stun_record now u server) as [i v].
  destruct stun_BindingRequest as [req|e|]; [|by intros [= <- <-]..].
  destruct (pc_WriteTo (UDPConn (uMux v)) req server) as [rw s].
  destruct rw; intros [= <- <-]; (split; [done|]); [by intros ? [= ->]|done..].
Qed.

Lemma stun_record_xinv now u server :
  xinv u → let '(i, v) := stun_record now u server in
  xinv v ∧ xorMappedMap v !! netAddr_String server = Some i.
Proof.
  intros [I1 I2]. unfold stun_record.
  destruct (xorMappedMap u !! netAddr_String server) as [i|] eqn:Hi; [done|].
  split; [split|]; cbn.
  - intros k j [[<- <-]|[_ Hk]]%lookup_insert_Some.
    + rewrite lookup_app_r, Nat.sub_diag by lia. by eexists.
    + destruct (I1 k j Hk) as (x & Hx & Hc). exists x.
      by rewrite lookup_app_l by (by apply lookup_lt_Some in Hx).
  - assert (∀ k, xorMappedMap u !! k ≠ Some (length (xheap u))) as Hfresh.
    { intros k Hk. destruct (I1 _ _ Hk) as (x & Hx%lookup_lt_Some & _). lia. }
    intros k k' j [[Hk1 Hj]|[_ Hk]]%lookup_insert_Some [[Hk1' Hj']|[_ Hk']]%lookup_insert_Some.
    + congruence.
    + rewrite <-Hj in Hk'. by destruct (Hfresh _ Hk').
    + rewrite <-Hj' in Hk. by destruct (Hfresh _ Hk).
    + by eapply I2.
  - by rewrite lookup_insert_eq.
Qed.

Lemma sendSTUN_xinv now u server r u' :
  sendSTUN now u server = (r, u') → xinv u →
  xinv u' ∧ ∀ i, r = Ok i → xorMappedMap u' !! netAddr_String server = Some i.
Proof.
  intros [Heq Hr]%sendSTUN_record I. pose proof (stun_record_xinv now u server I) as Hv.
  destruct (stun_record now u server) as [i v]. destruct Hv as [[I1 I2] Hm]. injection Heq as E1 E2.
  split; [split; rewrite ?E1, ?E2; done|]. intros j ->%Hr. by rewrite E2.
Qed.

Lemma sendSTUN_served now u server r u' w :
  sendSTUN now u server = (r, u') → served u w → served u' w.
Proof.
  intros [Heq _]%sendSTUN_record Hw.
  assert (served (stun_record now u server).2 w) as Hv.
  { unfold stun_record. destruct (xorMappedMap u !! netAddr_String server) as [i|] eqn:Hi; [done|].
    destruct Hw as [Hm|(x & Hx & Hc)].
    - left. cbn. rewrite lookup_insert_ne; [done|]. intros He. rewrite He in Hi. congruence.
    - right. exists x. cbn. by rewrite lookup_app_l by (by apply lookup_lt_Some in Hx). }
  unfold served in *. injection Heq as E1 E2. by rewrite E1, E2.
Qed.

(** What handling an answer does to the records: nothing, or it fills that of its
    server. *)
Lemma handleXOR_records u a msg r u' :
  handleXORMappedResponse u a msg = (r, u') →
  u' = u ∨ ∃ i ad, xorMappedMap u !! UDPAddr_String a = Some i ∧ u' = update_x i (SetAddr ad) u.
Proof.
  unfold handleXORMappedResponse. destruct (xorMappedMap u !! UDPAddr_String a) as [i|] eqn:Hi; [|left; congruence].
  destruct (msg_GetFrom_XORMapped msg) as [ad| |]; [|left; congruence..].
  intros [= <- <-]. right. exists i, ad. split; [done|].
  destruct u as [m h xm ttl]. unfold update_x, set_xmap, set_xheap. cbn in *. by rewrite insert_id.
Qed.

Lemma update_x_xinv u i ad : xinv u → xinv (update_x i (SetAddr ad) u).
Proof.
  intros [I1 I2]. split; [|exact I2]. intros k j Hk. destruct (I1 k j Hk) as (x & Hxj & Hc).
  rewrite lookup_update_x, Hxj. case_decide; [|by exists x].
  eexists. split; [done|]. by rewrite SetAddr_spec.
Qed.
Lemma handleXOR_xinv u a msg r u' : handleXORMappedResponse u a msg = (r, u') → xinv u → xinv u'.
Proof. intros [->|(i & ad & _ & ->)]%handleXOR_records I; [done|by apply update_x_xinv]. Qed.
Lemma handleXOR_served u a msg r u' w : handleXORMappedResponse u a msg = (r, u') → served u w → served u' w.
Proof.
  intros [->|(i & ad & _ & ->)]%handleXOR_records Hw; [done|].
  apply served_update; [intros x; by rewrite SetAddr_spec|done].
Qed.

Definition uinv (w : uworld) : Prop :=
  xinv (w_u w) ∧ ∀ r, r ∈ w_waiting w → served (w_u w) r.

Lemma ustep_inv l w w' : uinv w → ustep l w w' → uinv w'.
Proof.
  intros [I Hw]. destruct 1; cbn [w_u w_waiting] in *.
  - split; [by eapply xor_lookup_xinv|]. intros p Hp. eapply xor_lookup_served; eauto.
  - split; [by eapply xor_lookup_xinv|]. intros p Hp. eapply xor_lookup_served; eauto.
  - destruct (sendSTUN_xinv _ _ _ _ _ H I) as [I' Hi]. split; [done|].
    intros p [->|Hp]%elem_of_cons; [left; by apply Hi|]. eapply sendSTUN_served; eauto.
  - destruct (sendSTUN_xinv _ _ _ _ _ H I) as [I' _]. split; [done|].
    intros p Hp. eapply sendSTUN_served; eauto.
  - done.
  - split; [by eapply handleXOR_xinv|]. intros p Hp. eapply handleXOR_served; eauto.
  - split; [done|]. intros p Hp. apply Hw. set_solver.
  - done.
  - split; [done|]. intros p Hp. apply Hw. set_solver.
  - split; [by destruct I|]. exact Hw.
Qed.

Lemma uinv_reachable (u0 : umux) w :
  xorMappedMap u0 = ∅ → rtc any_ustep (start_u u0) w → uinv w.
Proof.
  intros H0 Hr. eapply (rtc_invariant any_ustep uinv); [intros ? ? ? [l ?]; by eapply ustep_inv|exact Hr|].
  split; [split; cbn; rewrite H0; intros; by simplify_map_eq|]. intros p ?%elem_of_nil. done.
Qed.

(** *** After an answer *)

(** A record whose channel is closed stays so. *)
Definition is_closed u (i : nat) : Prop := ∃ x, xheap u !! i = Some x ∧ waiters_closed x = true.
(** The server's record is [j] with its address, or else has none. *)
Definition answered (key : string) (j : nat) (ad : stun_XORMappedAddress) u : Prop :=
  ∀ i, xorMappedMap u !! key = Some i →
  ∃ x, xheap u !! i = Some x ∧ xaddr x = if decide (i = j) then Some ad else None.

Lemma update_x_closed u i f k : (∀ x, waiters_closed x = true → waiters_closed (f x) = true) →
  is_closed u k → is_closed (update_x i f u) k.
Proof.
  intros Hf (x & Hx & Hc). unfold is_closed. rewrite lookup_update_x, Hx. case_decide; [|by exists x].
  exists (f x). split; [done|]. by apply Hf.
Qed.
Lemma xor_lookup_closed now u server o u' k : xor_lookup now u server = (o, u') → is_closed u k → is_closed u' k.
Proof.
  unfold xor_lookup. intros Hl Hk. destruct (xorMappedMap u !! _) as [i|]; [|by injection Hl as <- <-].
  destruct (xheap u !! i) as [x|]; [|by injection Hl as <- <-].
  destruct (expired now x); [|by destruct (pending x); injection Hl as <- <-]. injection Hl as <- <-.
  apply (update_x_closed u i closeWaiters k) in Hk; [exact Hk|]. intros y _. by rewrite closeWaiters_spec.
Qed.
Lemma sendSTUN_closed now u server r u' k : sendSTUN now u server = (r, u') → is_closed u k → is_closed u' k.
Proof.
  intros [Heq _]%sendSTUN_record Hk. injection Heq as E1 _. unfold is_closed. rewrite E1. unfold stun_record.
  destruct (xorMappedMap u !! _); [exact Hk|]. destruct Hk as (x & Hx & Hc). exists x. cbn.
  by rewrite lookup_app_l by (by apply lookup_lt_Some in Hx).
Qed.
Lemma handleXOR_closed u a msg r u' k : handleXORMappedResponse u a msg = (r, u') → is_closed u k → is_closed u' k.
Proof.
  intros [->|(i & ad & _ & ->)]%handleXOR_records Hk; [done|]. apply update_x_closed; [|done]. intros x _. by rewrite SetAddr_spec.
Qed.
Lemma ustep_closed l w w' k : ustep l w w' → is_closed (w_u w) k → is_closed (w_u w') k.
Proof.
  destruct 1; cbn [w_u]; try done; [by eapply xor_lookup_closed|by eapply xor_lookup_closed|by eapply sendSTUN_closed
    |by eapply sendSTUN_closed|by eapply handleXOR_closed].
Qed.

Lemma xor_lookup_answered now u server o u' key j ad : xor_lookup now u server = (o, u') →
  answered key j ad u → answered key j ad u'.
Proof.
  unfold xor_lookup. intros Hl Ha. destruct (xorMappedMap u !! _) as [i|] eqn:Hi; [|by injection Hl as <- <-].
  destruct (xheap u !! i) as [x|] eqn:Hx; [|by injection Hl as <- <-].
  destruct (expired now x); [|by destruct (pending x); injection Hl as <- <-]. injection Hl as <- <-.
  intros k Hk. cbn [set_xmap xorMappedMap] in Hk. apply lookup_delete_Some in Hk as [_ Hk].
  destruct (Ha k Hk) as (y & Hy & Hay). cbn [set_xmap xheap].
  rewrite lookup_update_x, Hy. destruct (decide (i = k)); [|by exists y]. eexists. split; [done|]. by rewrite closeWaiters_spec.
Qed.
Lemma sendSTUN_answered now u server r u' key j ad : is_Some (xheap u !! j) → sendSTUN now u server = (r, u') →
  answered key j ad u → answered key j ad u'.
Proof.
  intros Hj [Heq _]%sendSTUN_record Ha. injection Heq as E1 E2. unfold answered. rewrite E1, E2. unfold stun_record.
  destruct (xorMappedMap u !! netAddr_String server) eqn:Hs; [exact Ha|]. cbn. intros i [[He <-]|[_ Hi]]%lookup_insert_Some.
  - rewrite lookup_app_r, Nat.sub_diag by lia. eexists. split; [done|]. cbn.
    rewrite decide_False; [done|]. intros <-. apply lookup_lt_is_Some in Hj. lia.
  - destruct (Ha i Hi) as (x & Hx & Hax). exists x. by rewrite lookup_app_l by (by apply lookup_lt_Some in Hx).
Qed.
Lemma handleXOR_answered u a msg r u' key j ad : xinv u → UDPAddr_String a ≠ key →
  handleXORMappedResponse u a msg = (r, u') → answered key j ad u → answered key j ad u'.
Proof.
  intros [_ I2] Hne [->|(i & ad' & Hi & ->)]%handleXOR_records Ha; [done|]. intros k Hk. destruct (Ha k Hk) as (x & Hx & Hax).
  rewrite lookup_update_x, decide_False; [by exists x|]. intros ->. apply Hne. by eapply I2.
Qed.
Lemma other_ustep_answered a w w' j ad : uinv w → is_closed (w_u w) j → other_ustep a w w' →
  answered (UDPAddr_String a) j ad (w_u w) → answered (UDPAddr_String a) j ad (w_u w').
Proof.
  intros [I _] (x & Hx & _) (l & Hs & Hl). destruct Hs; cbn [w_u] in *; try done.
  - by eapply xor_lookup_answered.
  - by eapply xor_lookup_answered.
  - by eapply sendSTUN_answered.
  - by eapply sendSTUN_answered.
  - eapply handleXOR_answered; [done|by apply Hl|done].
Qed.

(** C20. No waiter is lost, at the granularity of the locks: in every reachable
    state a goroutine waits for the record of its server or for one whose channel
    is closed. When the answer of a server is handled, which was seen to be one
    in an earlier section, and the server's record is still there, every
    goroutine waiting for that server then and ever after finds its channel
    closed; and until the next answer of that server is handled, one that reads
    the address gets this answer's while the record is there, and is told that
    there is no mapping when it was removed meanwhile. If the record was removed
    before the answer is handled, handling fails with no mapping and changes
    nothing, and those still waiting for that server have had their channels
    closed; if the answer's address cannot be read it changes nothing either. *)
Theorem stun_answer_wakes_all (u0 : umux) u sn wt wk rt an1 an2 msg a :
  xorMappedMap u0 = ∅ → rtc any_ustep (start_u u0) (mkUWorld u sn wt wk rt (an1 ++ (msg, a) :: an2)) →
  (∀ server i, (server, i) ∈ wt → xorMappedMap u !! netAddr_String server = Some i ∨ is_closed u i) ∧
  let '(r, u') := handleXORMappedResponse u a msg in
  match xorMappedMap u !! UDPAddr_String a with
  | None => r = Err (Errorf "no XOR address mapping") ∧ u' = u ∧
      ∀ server i, (server, i) ∈ wt → netAddr_String server = UDPAddr_String a → is_closed u i
  | Some j =>
      match msg_GetFrom_XORMapped msg with
      | Ok ad => r = Ok tt ∧
          (∀ server i w', (server, i) ∈ wt → netAddr_String server = UDPAddr_String a →
            rtc any_ustep (mkUWorld u' sn wt wk rt (an1 ++ an2)) w' → is_closed (w_u w') i) ∧
          (∀ server w', netAddr_String server = UDPAddr_String a →
            rtc (other_ustep a) (mkUWorld u' sn wt wk rt (an1 ++ an2)) w' →
            xor_received (w_u w') server =
            if decide (xorMappedMap (w_u w') !! UDPAddr_String a = Some j) then Ok ad
            else Err (Errorf "no XOR address mapping"))
      | Err e => r = Err e ∧ u' = u
      | Panic => r = Panic ∧ u' = u
      end
  end.
Proof.
  intros H0 Hr. pose proof (uinv_reachable _ _ H0 Hr) as Hinv. pose proof Hinv as [[I1 I2] Hw]. cbn [w_u w_waiting] in *.
  split; [intros server i Hin; exact (Hw _ Hin)|].
  unfold handleXORMappedResponse. destruct (xorMappedMap u !! UDPAddr_String a) as [j|] eqn:Hj.
  2:{ split; [done|]. split; [done|]. intros server i Hin He. destruct (Hw _ Hin) as [Hm|Hc]; [|exact Hc].
      cbn [fst snd] in Hm. rewrite He in Hm. congruence. }
  destruct (msg_GetFrom_XORMapped msg) as [ad|e|]; [|done..]. split; [done|].
  rewrite insert_set_xmap by done. destruct (I1 _ _ Hj) as (x & Hx & Hc).
  set (w1 := mkUWorld (update_x j (SetAddr ad) u) sn wt wk rt (an1 ++ an2)).
  assert (is_closed (w_u w1) j) as Hjc.
  { exists (SetAddr ad x). cbn [w_u w1]. rewrite lookup_update_x, decide_True, Hx by done. split; [done|by rewrite SetAddr_spec]. }
  assert (uinv w1) as Hinv1.
  { split; [by apply update_x_xinv|]. intros p Hp. apply served_update; [intros y; by rewrite SetAddr_spec|by apply Hw]. }
  split.
  - intros server i w' Hin He Hrun. refine (rtc_invariant any_ustep (λ w, is_closed (w_u w) i) _ _ _ Hrun _).
    { intros w2 w3 Hcl [l Hs]. by eapply ustep_closed. }
    destruct (proj2 Hinv1 (server, i) Hin) as [Hm|Hcl]; [|exact Hcl].
    cbn [fst snd w_u w1] in Hm. change (xorMappedMap (update_x j (SetAddr ad) u)) with (xorMappedMap u) in Hm.
    rewrite He, Hj in Hm. by injection Hm as <-.
  - intros server w' He Hrun.
    assert (uinv w' ∧ is_closed (w_u w') j ∧ answered (UDPAddr_String a) j ad (w_u w')) as (_ & _ & Ha).
    { refine (rtc_invariant (other_ustep a) (λ w, uinv w ∧ is_closed (w_u w) j ∧ answered (UDPAddr_String a) j ad (w_u w)) _ _ _ Hrun _).
      - intros w2 w3 (Hi2 & Hc2 & Ha2) Hs. split; [|split].
        + destruct Hs as (l & Hs & _). by eapply ustep_inv.
        + destruct Hs as (l & Hs & _). by eapply ustep_closed.
        + by eapply other_ustep_answered.
      - split; [done|]. split; [done|]. intros i Hi. cbn [w_u w1] in Hi. change (xorMappedMap u !! UDPAddr_String a = Some i) in Hi.
        rewrite Hj in Hi. injection Hi as <-. exists (SetAddr ad x). cbn [w_u w1].
        rewrite lookup_update_x, !decide_True, Hx by done. split; [done|by rewrite SetAddr_spec]. }
    unfold xor_received. rewrite He. unfold answered in Ha.
    destruct (xorMappedMap (w_u w') !! UDPAddr_String a) as [i|]; [|by rewrite decide_False].
    destruct (Ha i eq_refl) as (y & Hy & Hay). cbn [mbind option_bind]. rewrite Hy. cbn [mbind option_bind]. rewrite Hay.
    destruct (decide (i = j)) as [->|Hne]; [by rewrite decide_True|]. rewrite decide_False; [done|congruence].
Qed.

(** The whole of [HandleSTUNMessage] is a run of the steps, when what the others
    do in between is. *)
Lemma U_HandleSTUNMessage_run {O : Others (B := B) (S := S)} pool u msg addr sn wt wk rt an :
  (∀ an, rtc any_ustep (mkUWorld u sn wt wk rt an) (mkUWorld (others_do u) sn wt wk rt an)) →
  rtc any_ustep (mkUWorld u sn wt wk rt an) (mkUWorld (U_HandleSTUNMessage pool u msg addr).2 sn wt wk rt an).
Proof.
  intros Hothers. destruct addr as [a|]; [|reflexivity]. cbn [U_HandleSTUNMessage].
  destruct (isXORMappedResponse u msg (UDPAddr_String a)) eqn:Hx.
  - eapply rtc_l; [eexists; by apply (ustep_isXOR _ _ _ _ _ _ msg a)|].
    etrans; [apply Hothers|].
    destruct (handleXORMappedResponse (others_do u) a msg) as [r u'] eqn:Hh.
    apply rtc_once. eexists. apply (ustep_answer _ _ _ _ _ [] an msg a r). by destruct r.
  - destruct (HandleSTUNMessage pool (uMux u) msg (AUDP a)) as [r m]. apply rtc_once. eexists. apply ustep_mux.
Qed.

(** [GetXORMappedAddr] answers from the record, sending nothing, exactly
    when the server's address is known and not expired; in every other case,
    also while an earlier request is still pending, it sends one more binding
    request and waits. *)
Lemma GetXORMappedAddr_sends now u server between during req :
  xinv u → stun_BindingRequest = Ok req → (∀ v, uMux (between v) = uMux v) →
  let known := i ← xorMappedMap u !! netAddr_String server; x ← xheap u !! i;
               if expired now x then None else xaddr x in
  let '(r, u') := GetXORMappedAddr now u server between during in
  match known with
  | Some a => r = Ok a ∧ u' = u
  | None =>
      (∀ v, during v = None ∨ uMux v = uMux (default v (during v))) →
      UDPConn (uMux u') = (pc_WriteTo (UDPConn (uMux u)) req server).2 ∧
      (is_ok (pc_WriteTo (UDPConn (uMux u)) req server).1 = false → is_ok r = false)
  end.
Proof.
  intros [I1 _] Hreq Hb. unfold GetXORMappedAddr, xor_lookup.
  assert (∀ v, uMux v = uMux u →
    let '(r, u') := (match sendSTUN now (between v) server with
      | (Err e, u) => (Err (Errorf ("failed to send STUN packet: " +:+ error_text e)), u)
      | (Panic, u) => (Panic, u)
      | (Ok i, u) => match during u with
          | None => (xor_timeout, u) | Some u => (xor_received u server, u) end
      end) in
    (∀ v, during v = None ∨ uMux v = uMux (default v (during v))) →
    UDPConn (uMux u') = (pc_WriteTo (UDPConn (uMux u)) req server).2 ∧
    (is_ok (pc_WriteTo (UDPConn (uMux u)) req server).1 = false → is_ok r = false)) as Hsend.
  { intros v Hv. unfold sendSTUN.
    set (got := match xorMappedMap (between v) !! _ with Some i => (i, between v) | None => _ end).
    assert (uMux got.2 = uMux u) as Hg.
    { unfold got. rewrite <-Hv, <-(Hb v). by case_match. }
    destruct got as [i v']. cbn [snd] in Hg. rewrite Hreq, Hg.
    destruct (pc_WriteTo (UDPConn (uMux u)) req server) as [rw s].
    destruct rw as [n|e|]; cbn [fst snd is_ok]; [|done..].
    set (v1 := set_uMux _ v'). destruct (during v1) as [v2|] eqn:Hd; [|done].
    intros Hdur. destruct (Hdur v1) as [?|He]; [congruence|]. rewrite Hd in He. cbn in He.
    by rewrite <-He. }
  destruct (xorMappedMap u !! netAddr_String server) as [i|] eqn:Hi; [|by apply Hsend].
  destruct (I1 _ _ Hi) as (x & Hx & _). cbn [mbind option_bind]. rewrite Hx. cbn [mbind option_bind].
  destruct (expired now x); [by apply Hsend|]. unfold pending.
  destruct (xaddr x) as [ad|] eqn:Had; [done|]. by apply Hsend.
Qed.
End xor.

(** ** A concrete universal mux *)

#[export] Instance pair_StunWire : StunWire pair_StunLib := {|
  stun_IsMessage b := match b with "s"%char :: _ => true | _ => false end;
  stun_Decode b := Ok (b, None);
  stun_BindingRequest := Ok (bytes_of_string "stun-request")
|}.

#[export] Instance pair_WgEndpoints : WgEndpoints := {|
  Endpoint := option netip_Addr * Z; StdNetEndpoint := id; GetSrcFromControl _ e := e
|}.

(** A STUN library whose every message answers with one mapped address. *)
Definition answering : StunLib := {|
  stun_Message := unit; msg_Raw _ := []; msg_Get_Username _ := None;
  stun_XORMappedAddress := UDPAddr; msg_Has_XORMapped _ := true;
  msg_GetFrom_XORMapped _ := Ok ex_remote
|}.
Definition answering_wire : StunWire answering := {|
  stun_IsMessage _ := true; stun_Decode _ := Ok tt : res (stun_Message (StunLib := answering));
  stun_BindingRequest := Ok (bytes_of_string "stun-request")
|}.

(** 10.0.0.2 is in a routed network, nothing else is. *)
Definition ex_filter (a : netip_Addr) : res (bool * string) :=
  Ok (bool_decide (a = Addr4 (ua_IP ex_remote)), "10.0.0.0/30").
Definition ex_udpConn : udpConn log_socket := mkUdpConn (mkLog [] true) (Some ex_filter) ∅.

Lemma ex_udpConn_ok : cache_ok ex_udpConn ∧ no_filter_panic ex_udpConn.
Proof.
  split; [intros addr b; cbn; by rewrite lookup_empty|]. by intros f a [= <-].
Qed.

Lemma udpConn_WriteTo_filters_witness :
  inner (udpConn_WriteTo ex_udpConn [] (AUDP ex_remote)).2 = mkLog [] true ∧
  inner (udpConn_WriteTo ex_udpConn [] ex_local).2 = mkLog [([], ex_local)] true.
Proof.
  destruct ex_udpConn_ok as [Hc Hp]. split.
  - pose proof (udpConn_WriteTo_filters ex_udpConn [] (AUDP ex_remote) Hc Hp) as H.
    destruct (udpConn_WriteTo ex_udpConn [] (AUDP ex_remote)) as [r u']. destruct H as (_ & _ & H).
    assert (refused ex_udpConn (AUDP ex_remote) = true) as Hr by by vm_compute.
    rewrite Hr in H. apply H.
  - pose proof (udpConn_WriteTo_filters ex_udpConn [] ex_local Hc Hp) as H.
    destruct (udpConn_WriteTo ex_udpConn [] ex_local) as [r u']. destruct H as (_ & _ & H).
    assert (refused ex_udpConn ex_local = false) as Hr by by vm_compute.
    rewrite Hr in H. cbn in H. by injection H as _ H.
Defined.

Lemma cached_decision_sticks_witness :
  let u := (udpConn_WriteTo ex_udpConn [] (AUDP ex_remote)).2 in
  is_ok (udpConn_WriteTo (mkUdpConn (inner u) (Some (λ _, Ok (false, EmptyString))) (addrCache u))
    [] (AUDP ex_remote)).1 = false.
Proof.
  intros u. destruct (cached_decision_sticks u [] (AUDP ex_remote) true (λ _, Ok (false, EmptyString)))
    as (-> & _ & _); by vm_compute.
Defined.

Definition ex_umux {SL : StunLib} {SW : StunWire SL} :
    UniversalUDPMuxDefault (B := list_buffer) (S := log_socket) :=
  mkUMux (new_mux [] (mkUdpConn (mkLog [] true) None ∅)) [] ∅ (25 * second).

#[export] Instance ex_others {SL : StunLib} : Others (B := list_buffer) (S := log_socket) := λ u, u.
Definition ex_ep : Endpoint := (None, 0%Z).
Definition ex_batch : list Message :=
  [mkMessage [bytes_of_string "stun"] 4 [] ex_local; mkMessage [bytes_of_string "wire"] 4 [] ex_local].

Lemma receive_hides_stun_witness :
  ∃ n sizes eps u', receive true (Ok ex_batch) Panic (λ _, replicate 600 (byte_of_Z 0)) ex_umux
      [9; 9; 9] [ex_ep; ex_ep; ex_ep] = (Ok (n, sizes, eps), u') ∧
    sizes !! 0 = Some 0 ∧ sizes !! 1 = Some 4 ∧ sizes !! 2 = Some 9.
Proof.
  destruct (receive true (Ok ex_batch) Panic (λ _, replicate 600 (byte_of_Z 0)) ex_umux
      [9; 9; 9] [ex_ep; ex_ep; ex_ep]) as [[[[n sizes] eps]|e|] u'] eqn:Hr;
    [|by vm_compute in Hr..].
  exists n, sizes, eps, u'. split; [done|].
  destruct (receive_hides_stun _ _ _ _ _ _ _ _ _ _ _ Hr) as (msgs & [= <-] & -> & _ & Hin & Hout & _).
  split_and!; [by apply (Hin 0 (mkMessage [bytes_of_string "stun"] 4 [] ex_local))
              |by apply (Hin 1 (mkMessage [bytes_of_string "wire"] 4 [] ex_local))|].
  by apply (Hout 2).
Defined.

(** A goroutine waits for a server whose answer is under way: once it is handled
    the goroutine is woken, and reads the address of the answer. *)
Lemma stun_answer_wakes_all_witness :
  let u1 := (sendSTUN (SL := answering) (SW := answering_wire) 0
              (ex_umux (SL := answering) (SW := answering_wire)) ex_local).2 in
  let server := ex_ip 10 0 0 1 51820 in
  let u2 := (handleXORMappedResponse u1 server (tt : stun_Message (StunLib := answering))).2 in
  is_closed u2 0 ∧ xor_received u2 ex_local = Ok ex_remote.
Proof.
  intros u1 server u2.
  pose proof (stun_answer_wakes_all (SL := answering) (SW := answering_wire)
    (ex_umux (SL := answering) (SW := answering_wire)) u1 [] [(ex_local, 0)] [] [] [] [] tt server) as H.
  assert (rtc (any_ustep (SW := answering_wire)) (start_u (ex_umux (SL := answering) (SW := answering_wire)))
    (mkUWorld u1 [] [(ex_local, 0)] [] [] ([] ++ [(tt : stun_Message (StunLib := answering), server)]))) as Hr.
  { eapply rtc_l; [eexists; by apply (ustep_lookup _ _ _ _ _ _ 0 ex_local)|].
    eapply rtc_l; [eexists; apply (ustep_send _ [] [] [] _ _ _ 0 ex_local 0); by vm_compute|].
    apply rtc_once. eexists. by apply (ustep_isXOR _ _ _ _ _ _ (tt : stun_Message (StunLib := answering)) server). }
  destruct (H eq_refl Hr) as [_ H'].
  assert (xorMappedMap u1 !! UDPAddr_String server = Some 0) as Hmap by (vm_compute; reflexivity).
  rewrite Hmap in H'. unfold u2. destruct (handleXORMappedResponse u1 server _) as [r u'] eqn:Hh. cbn [snd].
  cbn [msg_GetFrom_XORMapped answering] in H'. destruct H' as (_ & Hclosed & Hread). split.
  - eapply (Hclosed ex_local 0 (mkUWorld u' [] [(ex_local, 0)] [] [] [])); [by apply list_elem_of_here|done|reflexivity].
  - pose proof (Hread ex_local (mkUWorld u' [] [(ex_local, 0)] [] [] []) eq_refl (rtc_refl _ _)) as He.
    cbn [w_u] in He. rewrite He, decide_True; [done|]. apply (f_equal snd) in Hh. cbn [snd] in Hh. subst u'. vm_compute. reflexivity.
Defined.

Lemma GetXORMappedAddr_sends_witness :
  sent (inner (UDPConn (uMux (GetXORMappedAddr 0 (ex_umux (SL := pair_StunLib)) ex_local id (λ _, None)).2))) =
  [(bytes_of_string "stun-request", ex_local)].
Proof.
  pose proof (GetXORMappedAddr_sends 0 (ex_umux (SL := pair_StunLib)) ex_local id (λ _, None)
    (bytes_of_string "stun-request")) as H.
  destruct (GetXORMappedAddr 0 ex_umux ex_local id (λ _, None)) as [r u'].
  destruct H as [H _]; [by split; cbn; intros; simplify_map_eq|done|done|by left|].
  cbn [snd]. by rewrite H.
Defined.
