(* ===== verification/WgConfigurer.v ===== *)
(** * [iface/wg_configurer*.go]: configuring a WireGuard device

    Two implementations of one interface: the userspace one talks to
    wireguard-go in the text of the UAPI, the kernel one hands structures to
    wgctrl. Keys are parsed by wgctrl ([WgTypes]); the devices themselves are
    the parameters [UapiDevice] and [KernelCtl]. *)
From Stdlib Require Import Ascii.
From S2P Require Import Prelude GoStrings GoNet GoCIDR NetEnv.

Definition ErrPeerNotFound : error := Sentinel "peer not found".
Definition ErrAllowedIPNotFound : error := Sentinel "allowed IP not found".

(** [wgtypes]: keys are byte arrays, parsed from and printed as base64. *)
Class WgTypes := {
  ParseKey : string → res (list Ascii.ascii);
  Key_String : list Ascii.ascii → string
}.

(** [wgtypes.PeerConfig] and [wgtypes.Config]; durations are nanoseconds. *)
Record PeerConfig := mkPeerConfig {
  PublicKey : list Ascii.ascii;
  Remove : bool;
  UpdateOnly : bool;
  PresharedKey : option (list Ascii.ascii);
  pc_Endpoint : option UDPAddr;
  PersistentKeepaliveInterval : option Z;
  ReplaceAllowedIPs : bool;
  AllowedIPs : list IPNet
}.

Record Config := mkConfig {
  PrivateKey : option (list Ascii.ascii);
  ListenPort : option Z;
  FirewallMark : option Z;
  ReplacePeers : bool;
  Peers : list PeerConfig
}.

Definition peer_config (p : PeerConfig) : Config := mkConfig None None None false [p].

Definition nl : Ascii.ascii := "010"%char.
Definition newline : string := String nl EmptyString.

(** [iface.WGStats]; a [time.Time] is its Unix seconds and nanoseconds. *)
Record WGStats := mkStats { LastHandshake : Z * Z; TxBytes : Z; RxBytes : Z }.

(** [getFwmark()]: [linux] is [runtime.GOOS == "linux"]. *)
Definition getFwmark (linux customRoutingDisabled : bool) : Z :=
  if linux && negb customRoutingDisabled then NetbirdFwmark else 0%Z.

(** ** The UAPI text *)

Definition opt_line {A} (o : option A) (f : A → string) : string :=
  match o with Some a => f a | None => EmptyString end.

(** [int(d.Seconds())]: truncated to seconds (exact in [float64] below 2^23 s). *)
Definition whole_seconds (d : Z) : Z := Z.quot d 1000000000.

Definition toWgPeerString (p : PeerConfig) : string :=
  "public_key=" +:+ hex_EncodeToString (PublicKey p) +:+ newline +:+
  opt_line (PresharedKey p) (λ k, "preshared_key=" +:+ hex_EncodeToString k +:+ newline) +:+
  (if Remove p then "remove=true" else EmptyString) +:+
  (if ReplaceAllowedIPs p then "replace_allowed_ips=true" +:+ newline else EmptyString) +:+
  foldr (λ aip s, "allowed_ip=" +:+ IPNet_String aip +:+ newline +:+ s) EmptyString (AllowedIPs p) +:+
  opt_line (pc_Endpoint p) (λ e, "endpoint=" +:+ UDPAddr_String e +:+ newline) +:+
  opt_line (PersistentKeepaliveInterval p)
    (λ d, "persistent_keepalive_interval=" +:+ strconv_Itoa (whole_seconds d) +:+ newline).

Definition toWgUserspaceString (cfg : Config) : string :=
  opt_line (PrivateKey cfg) (λ k, "private_key=" +:+ hex_EncodeToString k +:+ newline) +:+
  opt_line (ListenPort cfg) (λ p, "listen_port=" +:+ strconv_Itoa p +:+ newline) +:+
  (if ReplacePeers cfg then "replace_peers=true" +:+ newline else EmptyString) +:+
  opt_line (FirewallMark cfg) (λ m, "fwmark=" +:+ strconv_Itoa m +:+ newline) +:+
  foldr (λ p s, toWgPeerString p +:+ s) EmptyString (Peers cfg).

(** ** Reading the UAPI text *)

Section parsing.
Context {T : WgTypes}.

Definition is_peer_line (line : string) : bool := strings_HasPrefix line "public_key=".
Definition peer_line (hexKey : string) : string := "public_key=" +:+ hexKey.

(** The inner loop over the keys to look for. *)
Definition scan_keys (foundPeer : bool) (line : string) (keys : list string)
    (configFound : gmap string string) : gmap string string :=
  foldl (λ found key,
    if foundPeer && strings_HasPrefix line (key +:+ "=") then
      match strings_SplitN2 line "="%char with
      | [k; v] => <[k := v]> found
      | _ => found
      end
    else found) configFound keys.

(** The loop over the lines, with its [break]. *)
Fixpoint scan_lines (hexKey : string) (keys : list string) (lines : list string) (foundPeer : bool)
    (configFound : gmap string string) : bool * gmap string string :=
  match lines with
  | [] => (foundPeer, configFound)
  | line :: lines =>
      let line := strings_TrimSpace line in
      if is_peer_line line && foundPeer then (foundPeer, configFound)
      else
        let foundPeer := foundPeer || bool_decide (line = peer_line hexKey) in
        scan_lines hexKey keys lines foundPeer (scan_keys foundPeer line keys configFound)
  end.

(** [findPeerInfo(ipcInput, peerKey, searchConfigKeys)] *)
Definition findPeerInfo (ipcInput peerKey : string) (searchConfigKeys : list string) :
    res (gmap string string) :=
  peerKeyParsed ← wrap "parse key: " (ParseKey peerKey);
  let hexKey := hex_EncodeToString peerKeyParsed in
  let '(foundPeer, configFound) :=
    scan_lines hexKey searchConfigKeys (strings_Split ipcInput nl) false ∅ in
  match list_find (λ key, configFound !! key = None) searchConfigKeys with
  | Some (_, key) => Err (Errorf ("config key not found: " +:+ key))
  | None => if foundPeer then Ok configFound else Err (Wrapf EmptyString ErrPeerNotFound (": " +:+ peerKey))
  end.

(** The loop of [removeAllowedIP]: the prefixes that stay, and whether one was
    dropped. *)
Fixpoint scan_allowed (hexKey ip : string) (lines : list string) (foundPeer removed : bool)
    (kept : list IPNet) : res (bool * list IPNet) :=
  match lines with
  | [] => Ok (removed, kept)
  | line :: lines =>
      let line := strings_TrimSpace line in
      let foundPeer := if is_peer_line line && foundPeer then false else foundPeer in
      let foundPeer := foundPeer || bool_decide (line = peer_line hexKey) in
      if foundPeer && bool_decide (line = "allowed_ip=" +:+ ip) then
        scan_allowed hexKey ip lines foundPeer true kept
      else if foundPeer && strings_HasPrefix line "allowed_ip=" then
        '(_, ipNet) ← net_ParseCIDR (strings_TrimPrefix line "allowed_ip=");
        scan_allowed hexKey ip lines foundPeer removed (kept ++ [ipNet])
      else scan_allowed hexKey ip lines foundPeer removed kept
  end.

(** ** The userspace configurer *)

(** [device.Device] of wireguard-go: [IpcSet] and [IpcGet]. *)
Class UapiDevice (D : Type) := {
  IpcSet : D → string → res unit * D;
  IpcGet : D → res string
}.

Section usp.
Context {D : Type} {UD : UapiDevice D}.
Context (linux customRoutingDisabled : bool).

(** Run a computation that may fail before the device is touched. *)
Definition on_device {A} (d : D) (r : res A) (f : A → res unit * D) : res unit * D :=
  match r with Ok a => f a | Err e => (Err e, d) | Panic => (Panic, d) end.

Definition interface_config (key : list Ascii.ascii) (port : Z) : Config :=
  mkConfig (Some key) (Some port) (Some (getFwmark linux customRoutingDisabled)) true [].

Definition configureInterface (d : D) (privateKey : string) (port : Z) : res unit * D :=
  on_device d (ParseKey privateKey) (λ key,
    IpcSet d (toWgUserspaceString (interface_config key port))).

(** The peer [updatePeer] sends, in both configurers. *)
Definition update_peer (key : list Ascii.ascii) (ipNet : IPNet) (keepAlive : Z)
    (endpoint : option UDPAddr) (psk : option (list Ascii.ascii)) : PeerConfig :=
  mkPeerConfig key false false psk endpoint (Some keepAlive) true [ipNet].

Definition updatePeer (d : D) (peerKey allowedIps : string) (keepAlive : Z)
    (endpoint : option UDPAddr) (psk : option (list Ascii.ascii)) : res unit * D :=
  on_device d ('(_, ipNet) ← net_ParseCIDR allowedIps; key ← ParseKey peerKey; Ok (ipNet, key))
    (λ '(ipNet, key),
      IpcSet d (toWgUserspaceString (peer_config (update_peer key ipNet keepAlive endpoint psk)))).

Definition remove_peer (key : list Ascii.ascii) : PeerConfig :=
  mkPeerConfig key true false None None None false [].

Definition removePeer (d : D) (peerKey : string) : res unit * D :=
  on_device d (ParseKey peerKey) (λ key,
    IpcSet d (toWgUserspaceString (peer_config (remove_peer key)))).

Definition add_ip_peer (key : list Ascii.ascii) (ipNet : IPNet) : PeerConfig :=
  mkPeerConfig key false true None None None false [ipNet].

Definition addAllowedIP (d : D) (peerKey allowedIP : string) : res unit * D :=
  on_device d ('(_, ipNet) ← net_ParseCIDR allowedIP; key ← ParseKey peerKey; Ok (ipNet, key))
    (λ '(ipNet, key), IpcSet d (toWgUserspaceString (peer_config (add_ip_peer key ipNet)))).

Definition allowed_ips_peer (key : list Ascii.ascii) (ips : list IPNet) : PeerConfig :=
  mkPeerConfig key false true None None None true ips.

Definition removeAllowedIP (d : D) (peerKey ip : string) : res unit * D :=
  on_device d
    (ipc ← IpcGet d;
     key ← ParseKey peerKey;
     '(removed, kept) ← scan_allowed (hex_EncodeToString key) ip (strings_Split ipc nl) false false [];
     if removed : bool then Ok (key, kept) else Err ErrAllowedIPNotFound)
    (λ '(key, kept), IpcSet d (toWgUserspaceString (peer_config (allowed_ips_peer key kept)))).

(** [time.Unix(sec, nsec)], the seconds wrapping at 64 bits. *)
Definition wrap64 (z : Z) : Z := ((z + 2 ^ 63) `mod` 2 ^ 64 - 2 ^ 63)%Z.
Definition time_Unix (sec nsec : Z) : Z * Z :=
  (wrap64 (sec + nsec / 1000000000), nsec `mod` 1000000000)%Z.

Definition stat_keys : list string :=
  ["last_handshake_time_sec"; "last_handshake_time_nsec"; "tx_bytes"; "rx_bytes"].

(** [stats[key]] parsed; a missing key is the empty string. *)
Definition stat (stats : gmap string string) (what key : string) : res Z :=
  wrap ("parse " +:+ what +:+ ": ") (strconv_Atoi (default EmptyString (stats !! key))).

Definition getStats (d : D) (peerKey : string) : res WGStats :=
  ipc ← wrap "ipc get: " (IpcGet d);
  stats ← wrap "find peer info: " (findPeerInfo ipc peerKey stat_keys);
  sec ← stat stats "handshake sec" "last_handshake_time_sec";
  nsec ← stat stats "handshake nsec" "last_handshake_time_nsec";
  txBytes ← stat stats "tx_bytes" "tx_bytes";
  rxBytes ← stat stats "rx_bytes" "rx_bytes";
  Ok (mkStats (time_Unix sec nsec) txBytes rxBytes).
End usp.

(** ** The kernel configurer *)

(** [wgtypes.Peer], the fields the program reads. *)
Record KPeer := mkKPeer {
  k_PublicKey : list Ascii.ascii;
  k_AllowedIPs : list IPNet;
  k_LastHandshake : Z * Z;
  k_Transmit : Z;
  k_Receive : Z
}.

(** [wgctrl]: opening a client, reading a device's peers, configuring it. *)
Class KernelCtl (K : Type) := {
  wgctrl_New : K → res unit;
  wg_Device : K → string → res (list KPeer);
  wg_ConfigureDevice : K → string → Config → res unit * K
}.

Section kernel.
Context {K : Type} {KC : KernelCtl K}.
Context (linux customRoutingDisabled : bool) (deviceName : string).

Definition k_configure (k : K) (cfg : Config) : res unit * K :=
  on_device k (_ ← wgctrl_New k; wg_Device k deviceName)
    (λ _, wg_ConfigureDevice k deviceName cfg).

(** [fmt.Errorf("pre%wpost", err)] on the outcome of configuring. *)
Definition k_wrap (pre post : string) (r : res unit * K) : res unit * K :=
  match r with (Err e, k) => (Err (Wrapf pre e post), k) | _ => r end.

Definition quote : string := String "034"%char EmptyString.
Definition received : string := "received error " +:+ quote.

Definition k_configureInterface (k : K) (privateKey : string) (port : Z) : res unit * K :=
  on_device k (ParseKey privateKey) (λ key,
    k_wrap received (quote +:+ " while configuring interface " +:+ deviceName +:+ " with port " +:+ strconv_Itoa port)
      (k_configure k (interface_config linux customRoutingDisabled key port))).

Definition k_updatePeer (k : K) (peerKey allowedIps : string) (keepAlive : Z)
    (endpoint : option UDPAddr) (psk : option (list Ascii.ascii)) : res unit * K :=
  on_device k ('(_, ipNet) ← net_ParseCIDR allowedIps; key ← ParseKey peerKey; Ok (ipNet, key))
    (λ '(ipNet, key),
      k_wrap received (quote +:+ " while updating peer on interface " +:+ deviceName +:+
          " with settings: allowed ips " +:+ allowedIps +:+ ", endpoint " +:+
          match endpoint with Some e => UDPAddr_String e | None => "<nil>" end)
        (k_configure k (peer_config (update_peer key ipNet keepAlive endpoint psk)))).

Definition k_removePeer (k : K) (peerKey : string) : res unit * K :=
  on_device k (ParseKey peerKey) (λ key,
    k_wrap received (quote +:+ " while removing peer " +:+ peerKey +:+ " from interface " +:+ deviceName)
      (k_configure k (peer_config (remove_peer key)))).

Definition k_addAllowedIP (k : K) (peerKey allowedIP : string) : res unit * K :=
  on_device k ('(_, ipNet) ← net_ParseCIDR allowedIP; key ← ParseKey peerKey; Ok (ipNet, key))
    (λ '(ipNet, key),
      k_wrap received (quote +:+ " while adding allowed Ip to peer on interface " +:+ deviceName +:+
          " with settings: allowed ips " +:+ allowedIP)
        (k_configure k (peer_config (add_ip_peer key ipNet)))).

Definition getPeer (k : K) (ifaceName peerPubKey : string) : res KPeer :=
  _ ← wrap "wgctl: " (wgctrl_New k);
  peers ← wrap ("get device " +:+ ifaceName +:+ ": ") (wg_Device k ifaceName);
  or_err ErrPeerNotFound
    (snd <$> list_find (λ p, Key_String (k_PublicKey p) = peerPubKey) peers).

(** The loop: the first prefix that prints as the wanted one is cut out. *)
Fixpoint drop_first (wanted : string) (ips : list IPNet) : list IPNet :=
  match ips with
  | [] => []
  | ip :: ips => if decide (IPNet_String ip = wanted) then ips else ip :: drop_first wanted ips
  end.

Definition k_removeAllowedIP (k : K) (peerKey allowedIP : string) : res unit * K :=
  on_device k
    ('(_, ipNet) ← wrap "parse allowed IP: " (net_ParseCIDR allowedIP);
     key ← wrap "parse peer key: " (ParseKey peerKey);
     existing ← wrap "get peer: " (getPeer k deviceName peerKey);
     Ok (key, drop_first (IPNet_String ipNet) (k_AllowedIPs existing)))
    (λ '(key, ips),
      k_wrap ("remove allowed IP " +:+ allowedIP +:+ " on interface " +:+ deviceName +:+ ": ") EmptyString
        (k_configure k (peer_config (allowed_ips_peer key ips)))).

Definition k_getStats (k : K) (peerKey : string) : res WGStats :=
  peer ← wrap "get wireguard stats: " (getPeer k deviceName peerKey);
  Ok (mkStats (k_LastHandshake peer) (k_Transmit peer) (k_Receive peer)).
End kernel.
End parsing.

(** ** One interface, two implementations

    [wgConfigurer] as a class: the operations that change a device as data,
    reading the statistics of a peer, and closing. *)
Section interface.
Context {T : WgTypes}.
Context (linux customRoutingDisabled : bool).

Inductive configurer_op :=
| OpConfigureInterface (privateKey : string) (port : Z)
| OpUpdatePeer (peerKey allowedIps : string) (keepAlive : Z) (endpoint : option UDPAddr)
    (psk : option (list Ascii.ascii))
| OpRemovePeer (peerKey : string)
| OpAddAllowedIP (peerKey allowedIP : string)
| OpRemoveAllowedIP (peerKey allowedIP : string).

(** What an operation asks of the device, or the error in its arguments;
    [None] when it depends on what the device already has. *)
Definition op_config (op : configurer_op) : option (res Config) :=
  match op with
  | OpConfigureInterface privateKey port => Some (
      key ← ParseKey privateKey; Ok (interface_config linux customRoutingDisabled key port))
  | OpUpdatePeer peerKey allowedIps keepAlive endpoint psk => Some (
      '(_, n) ← net_ParseCIDR allowedIps; key ← ParseKey peerKey;
      Ok (peer_config (update_peer key n keepAlive endpoint psk)))
  | OpRemovePeer peerKey => Some (key ← ParseKey peerKey; Ok (peer_config (remove_peer key)))
  | OpAddAllowedIP peerKey allowedIP => Some (
      '(_, n) ← net_ParseCIDR allowedIP; key ← ParseKey peerKey; Ok (peer_config (add_ip_peer key n)))
  | OpRemoveAllowedIP _ _ => None
  end.

Class Configurer (D : Type) := {
  run_op : D → configurer_op → res unit * D;
  op_getStats : D → string → res WGStats;
  op_close : D → D
}.

(** The userspace configurer is a device and its UAPI listener, which [close]
    takes down (the file Servers); the kernel's [close] does nothing. *)
#[export] Instance usp_Configurer {D U} `{UapiDevice D} (close_uapi : U → U) : Configurer (D * U) := {|
  run_op '(d, u) op :=
    let '(r, d) := match op with
      | OpConfigureInterface k p => configureInterface linux customRoutingDisabled d k p
      | OpUpdatePeer k a ka e psk => updatePeer d k a ka e psk
      | OpRemovePeer k => removePeer d k
      | OpAddAllowedIP k a => addAllowedIP d k a
      | OpRemoveAllowedIP k a => removeAllowedIP d k a
      end in (r, (d, u));
  op_getStats '(d, _) peerKey := getStats d peerKey;
  op_close '(d, u) := (d, close_uapi u)
|}.

Definition kernel_Configurer {K} `{KernelCtl K} (deviceName : string) : Configurer K := {|
  run_op k op :=
    match op with
    | OpConfigureInterface key p => k_configureInterface linux customRoutingDisabled deviceName k key p
    | OpUpdatePeer key a ka e psk => k_updatePeer deviceName k key a ka e psk
    | OpRemovePeer key => k_removePeer deviceName k key
    | OpAddAllowedIP key a => k_addAllowedIP deviceName k key a
    | OpRemoveAllowedIP key a => k_removeAllowedIP deviceName k key a
    end;
  op_getStats k peerKey := k_getStats deviceName k peerKey;
  op_close k := k
|}.

(** Two outcomes that differ at most in how an error is worded. *)
Definition same_outcome (r r' : res unit) : Prop :=
  match r, r' with
  | Ok _, Ok _ => True
  | Err e, Err e' => ∀ target, errors_Is e target = errors_Is e' target
  | Panic, Panic => True
  | _, _ => False
  end.

Lemma k_wrap_spec {K} pre post (r : res unit * K) :
  same_outcome (k_wrap pre post r).1 r.1 ∧ (k_wrap pre post r).2 = r.2.
Proof. by destruct r as [[]]. Qed.

(** The operations that do not depend on what the device has, when wgctrl
    opens and finds the device: arguments that do not parse give the same error
    from both configurers and leave the device alone; otherwise the userspace
    device is sent the text of exactly the configuration the kernel is given,
    and the kernel's errors come back wrapped, still recognisable. *)
Lemma configurers_agree {D U K} `{UapiDevice D} `{KernelCtl K} deviceName (close_uapi : U → U)
    (d : D) (u : U) (k : K) op config :
  wgctrl_New k = Ok tt → is_ok (wg_Device k deviceName) = true → op_config op = Some config →
  let usp := run_op (Configurer := usp_Configurer close_uapi) (d, u) op in
  let kern := run_op (Configurer := kernel_Configurer deviceName) k op in
  match config with
  | Ok c => let '(r, d') := IpcSet d (toWgUserspaceString c) in usp = (r, (d', u)) ∧
      same_outcome kern.1 (wg_ConfigureDevice k deviceName c).1 ∧
      kern.2 = (wg_ConfigureDevice k deviceName c).2
  | Err e => usp = (Err e, (d, u)) ∧ kern = (Err e, k)
  | Panic => usp = (Panic, (d, u)) ∧ kern = (Panic, k)
  end.
Proof.
  intros Hn Hd. assert (∀ c, k_configure deviceName k c = wg_ConfigureDevice k deviceName c) as Hc.
  { intros c. unfold k_configure. rewrite Hn. cbn. by destruct (wg_Device k deviceName). }
  destruct op as [key port|key a ka e psk|key|key a|key a]; cbn [op_config]; intros [= <-];
    cbn [run_op usp_Configurer kernel_Configurer];
    unfold configureInterface, updatePeer, removePeer, addAllowedIP,
      k_configureInterface, k_updatePeer, k_removePeer, k_addAllowedIP;
    try (destruct (net_ParseCIDR a) as [[x n]| |]; [|done..]); cbn [mbind res_bind];
    (destruct (ParseKey key) as [pk| |]; [|done..]); cbn [mbind res_bind on_device];
    rewrite Hc; destruct (IpcSet d _) as [r d']; (split; [done|]); apply k_wrap_spec.
Qed.
End interface.

(** ** Text of lines *)

(** Lines, each ended by a newline. *)
Definition unlines (ls : list string) : string :=
  foldr (λ l s, l +:+ newline +:+ s) EmptyString ls.

Lemma unlines_app k l : unlines (k ++ l) = unlines k +:+ unlines l.
Proof.
  induction k as [|x k IH]; cbn [app unlines foldr]; [done|].
  fold (unlines (k ++ l)). fold (unlines k). by rewrite IH, !str_app_assoc.
Qed.

Lemma split_line l s : no_space l = true → strings_Split (l +:+ newline +:+ s) nl = l :: strings_Split s nl.
Proof. intros Hl. apply strings_Split_app. by apply no_space_char_in. Qed.

Lemma split_unlines ls s :
  Forall (λ l, no_space l = true) ls →
  strings_Split (unlines ls +:+ s) nl = ls ++ strings_Split s nl.
Proof.
  induction 1 as [|l ls Hl Hls IH]; [done|].
  cbn [unlines foldr]. fold (unlines ls). rewrite !str_app_assoc, split_line by done. by rewrite IH.
Qed.

(** *** The lines of a configuration *)

Definition opt_list {A} (o : option A) (f : A → string) : list string :=
  match o with Some a => [f a] | None => [] end.

Definition peer_lines (p : PeerConfig) : list string :=
  ["public_key=" +:+ hex_EncodeToString (PublicKey p)] ++
  opt_list (PresharedKey p) (λ k, "preshared_key=" +:+ hex_EncodeToString k) ++
  (if ReplaceAllowedIPs p then ["replace_allowed_ips=true"] else []) ++
  map (λ aip, "allowed_ip=" +:+ IPNet_String aip) (AllowedIPs p) ++
  opt_list (pc_Endpoint p) (λ e, "endpoint=" +:+ UDPAddr_String e) ++
  opt_list (PersistentKeepaliveInterval p)
    (λ d, "persistent_keepalive_interval=" +:+ strconv_Itoa (whole_seconds d)).

Definition config_lines (cfg : Config) : list string :=
  opt_list (PrivateKey cfg) (λ k, "private_key=" +:+ hex_EncodeToString k) ++
  opt_list (ListenPort cfg) (λ p, "listen_port=" +:+ strconv_Itoa p) ++
  (if ReplacePeers cfg then ["replace_peers=true"] else []) ++
  opt_list (FirewallMark cfg) (λ m, "fwmark=" +:+ strconv_Itoa m) ++
  concat (map peer_lines (Peers cfg)).

Definition zone_ok (p : PeerConfig) : Prop :=
  match pc_Endpoint p with Some e => no_space (ua_Zone e) = true | None => True end.

Lemma opt_list_no_space {A} (o : option A) f :
  (∀ a, o = Some a → no_space (f a) = true) → Forall (λ l, no_space l = true) (opt_list o f).
Proof. destruct o; cbn; constructor; [auto|constructor]. Qed.

Lemma if_list_no_space (b : bool) l : no_space l = true → Forall (λ l, no_space l = true) (if b then [l] else []).
Proof. destruct b; by repeat constructor. Qed.

Lemma unlines_opt {A} (o : option A) f :
  unlines (opt_list o f) = opt_line o (λ a, f a +:+ newline).
Proof. destruct o; cbn; [|done]. by rewrite ?str_app_nil_r. Qed.

Lemma unlines_allowed l :
  unlines (map (λ aip, "allowed_ip=" +:+ IPNet_String aip) l) =
  foldr (λ aip s, "allowed_ip=" +:+ IPNet_String aip +:+ newline +:+ s) EmptyString l.
Proof. induction l as [|a l IH]; [done|]. cbn. by rewrite <-IH. Qed.

Lemma toWgPeerString_lines p :
  Remove p = false → toWgPeerString p = unlines (peer_lines p).
Proof.
  intros Hr. unfold toWgPeerString, peer_lines. rewrite Hr, !unlines_app, !unlines_opt, unlines_allowed.
  destruct (ReplaceAllowedIPs p); cbn [unlines foldr]; rewrite ?str_app_nil_l, ?str_app_nil_r, ?str_app_assoc;
    destruct (PresharedKey p), (pc_Endpoint p), (PersistentKeepaliveInterval p); cbn [opt_line];
    by rewrite ?str_app_assoc.
Qed.

Lemma peer_lines_no_space p : zone_ok p → Forall (λ l, no_space l = true) (peer_lines p).
Proof.
  intros Hz. unfold peer_lines, zone_ok in *.
  repeat (apply Forall_app; split).
  - constructor; [|constructor]. by rewrite no_space_app, no_space_hex.
  - apply opt_list_no_space. intros k _. by rewrite no_space_app, no_space_hex.
  - apply if_list_no_space; done.
  - apply List.Forall_forall. intros l (n & <- & _)%in_map_iff. by rewrite no_space_app, no_space_IPNet.
  - apply opt_list_no_space. intros e He. rewrite He in Hz. by rewrite no_space_app, no_space_UDPAddr.
  - apply opt_list_no_space. intros d _. by rewrite no_space_app, no_space_Itoa.
Qed.

(** C17. The UAPI text is, line by line, the keys and values of the
    configuration, in wireguard-go's order, each on its own line, provided no
    peer is to be removed. *)
Theorem toWgUserspaceString_lines cfg :
  Forall (λ p, Remove p = false ∧ zone_ok p) (Peers cfg) →
  strings_Split (toWgUserspaceString cfg) nl = config_lines cfg ++ [EmptyString].
Proof.
  intros Hp.
  assert (toWgUserspaceString cfg = unlines (config_lines cfg)) as ->.
  { unfold toWgUserspaceString, config_lines. rewrite !unlines_app, !unlines_opt.
    assert (foldr (λ p s, toWgPeerString p +:+ s) EmptyString (Peers cfg) =
      unlines (concat (map peer_lines (Peers cfg)))) as ->.
    { induction Hp as [|p ps [Hr _] _ IH]; [done|]. cbn [foldr map concat].
      by rewrite IH, unlines_app, toWgPeerString_lines. }
    destruct (PrivateKey cfg), (ListenPort cfg), (ReplacePeers cfg), (FirewallMark cfg);
      cbn [opt_line unlines foldr]; by rewrite ?str_app_nil_l, ?str_app_nil_r, ?str_app_assoc. }
  rewrite <-(str_app_nil_r (unlines _)), split_unlines; [done|].
  unfold config_lines. repeat (apply Forall_app; split).
  - apply opt_list_no_space. intros k _. by rewrite no_space_app, no_space_hex.
  - apply opt_list_no_space. intros k _. by rewrite no_space_app, no_space_Itoa.
  - apply if_list_no_space; done.
  - apply opt_list_no_space. intros k _. by rewrite no_space_app, no_space_Itoa.
  - induction Hp as [|p ps [_ Hz] _ IH]; cbn [map concat]; [constructor|].
    apply Forall_app. split; [by apply peer_lines_no_space|done].
Qed.

(** [remove=true] is written without a newline: the first line after it is
    glued to it, so a configuration that removes a peer and then names another
    reads as neither. *)
Lemma remove_line_is_glued p q :
  Remove p = true → ReplaceAllowedIPs p = false → AllowedIPs p = [] → pc_Endpoint p = None →
  PersistentKeepaliveInterval p = None → PresharedKey p = None →
  let text := strings_Split (toWgUserspaceString (mkConfig None None None false [p; q])) nl in
  ("remove=truepublic_key=" +:+ hex_EncodeToString (PublicKey q)) ∈ text ∧ "remove=true" ∉ take 2 text ∧
  strings_Split (toWgUserspaceString (peer_config p)) nl =
    ["public_key=" +:+ hex_EncodeToString (PublicKey p); "remove=true"].
Proof.
  intros Hr Ha Hi He Hk Hs.
  assert (∀ s, toWgPeerString p +:+ s =
    ("public_key=" +:+ hex_EncodeToString (PublicKey p)) +:+ newline +:+ "remove=true" +:+ s) as Hp.
  { intros s. unfold toWgPeerString. rewrite Hr, Ha, Hi, He, Hk, Hs. cbn [opt_line foldr].
    by rewrite ?str_app_nil_l, ?str_app_nil_r, ?str_app_assoc. }
  assert (∀ s, ∃ r, toWgPeerString q +:+ s =
    ("public_key=" +:+ hex_EncodeToString (PublicKey q)) +:+ newline +:+ r) as Hq.
  { intros s. unfold toWgPeerString. eexists. by rewrite !str_app_assoc. }
  unfold toWgUserspaceString, peer_config. cbn [PrivateKey ListenPort ReplacePeers FirewallMark Peers opt_line foldr].
  rewrite !str_app_nil_l, !Hp. destruct (Hq EmptyString) as [r ->].
  rewrite split_line by (by rewrite no_space_app, no_space_hex).
  change ("remove=true" +:+ ("public_key=" +:+ ?x) +:+ ?y) with (("remove=truepublic_key=" +:+ x) +:+ y).
  rewrite split_line by (by rewrite no_space_app, no_space_hex).
  split_and!.
  - rewrite !elem_of_cons. by right; left.
  - cbn [take]. rewrite !not_elem_of_cons. split_and!; [done|done|apply not_elem_of_nil].
  - rewrite split_line by (by rewrite no_space_app, no_space_hex). done.
Qed.

(** ** Reading a device's text back *)

(** What [IpcGet] writes: key=value lines of the interface, then per peer its
    public key and its lines. *)
Record peer_section := mkSection { sec_key : string; sec_vals : list (string * string) }.

Definition kv_line (kv : string * string) : string := kv.1 +:+ "=" +:+ kv.2.
Definition section_lines (s : peer_section) : list string :=
  peer_line (sec_key s) :: map kv_line (sec_vals s).
Definition device_lines (header : list (string * string)) (secs : list peer_section) : list string :=
  map kv_line header ++ concat (map section_lines secs).
Definition device_text header secs : string := unlines (device_lines header secs).

(** A key=value pair that is no [public_key] line and holds no white space. *)
Definition kv_ok (kv : string * string) : Prop :=
  no_space kv.1 = true ∧ no_space kv.2 = true ∧ char_in "="%char kv.1 = false ∧ kv.1 ≠ "public_key".

Definition section_ok (s : peer_section) : Prop :=
  no_space (sec_key s) = true ∧ Forall kv_ok (sec_vals s).

(** Keys in front of the equals sign are told apart by it. *)
Lemma kv_prefix k v key :
  char_in "="%char k = false → char_in "="%char key = false →
  strings_HasPrefix (kv_line (k, v)) (key +:+ "=") = bool_decide (k = key).
Proof.
  intros Hk Hkey. apply eq_true_iff_eq. rewrite strings_HasPrefix_spec, bool_decide_eq_true. split.
  - intros [r Hr]. unfold kv_line in Hr. cbn [fst snd] in Hr.
    assert (strings_SplitN2 (k +:+ String "="%char v) "="%char =
            strings_SplitN2 (key +:+ String "="%char r) "="%char) as He.
    { f_equal. rewrite str_app_assoc in Hr. exact Hr. }
    rewrite !strings_SplitN2_app in He by done. congruence.
  - intros ->. exists v. unfold kv_line. cbn [fst snd]. by rewrite str_app_assoc.
Qed.

Lemma kv_no_space kv : kv_ok kv → no_space (kv_line kv) = true.
Proof. intros (H1 & H2 & _). unfold kv_line. by rewrite !no_space_app, H1, H2. Qed.

Lemma kv_not_peer kv : kv_ok kv → is_peer_line (kv_line kv) = false.
Proof.
  intros (_ & _ & H1 & H2). unfold is_peer_line. change "public_key=" with ("public_key" +:+ "=").
  destruct kv as [k v]. rewrite kv_prefix by done. by apply bool_decide_eq_false.
Qed.

Lemma peer_line_is key : is_peer_line (peer_line key) = true.
Proof. apply strings_HasPrefix_app. Qed.

Lemma peer_line_inj k k' : peer_line k = peer_line k' → k = k'.
Proof. unfold peer_line. intros H. cbn in H. by injection H. Qed.

Lemma not_peer_line line key : is_peer_line line = false → line ≠ peer_line key.
Proof. intros H ->. by rewrite peer_line_is in H. Qed.

Lemma section_no_space s : section_ok s → Forall (λ l, no_space l = true) (section_lines s).
Proof.
  intros [Hk Hv]. constructor; [unfold peer_line; by rewrite no_space_app, Hk|].
  apply List.Forall_map. eapply List.Forall_impl; [|exact Hv]. apply kv_no_space.
Qed.

Lemma device_split header secs :
  Forall kv_ok header → Forall section_ok secs →
  strings_Split (device_text header secs) nl = device_lines header secs ++ [EmptyString].
Proof.
  intros Hh Hs. unfold device_text. rewrite <-(str_app_nil_r (unlines _)), split_unlines; [done|].
  apply Forall_app. split.
  - apply List.Forall_map. eapply List.Forall_impl; [|exact Hh]. apply kv_no_space.
  - induction Hs as [|s secs H _ IH]; [constructor|]. cbn [map concat]. apply Forall_app.
    split; [by apply section_no_space|done].
Qed.

Section scan.
Context (hexKey : string).

(** *** [findPeerInfo] *)
Context (keys : list string).
Context (Hkeys : Forall (λ k, char_in "="%char k = false ∧ k ≠ "public_key") keys).

Definition add_known (found : gmap string string) (kv : string * string) : gmap string string :=
  if decide (kv.1 ∈ keys) then <[kv.1 := kv.2]> found else found.

Lemma scan_keys_kv kv found :
  kv_ok kv → scan_keys true (kv_line kv) keys found = add_known found kv.
Proof.
  intros (_ & _ & Hk & _). destruct kv as [k v]. unfold scan_keys, add_known. cbn [fst snd] in *.
  assert (strings_SplitN2 (kv_line (k, v)) "="%char = [k; v]) as Hsp by by apply strings_SplitN2_app.
  rewrite Hsp. clear Hsp. revert found. induction Hkeys as [|key ks [Hkey _] Hks IH]; intros found.
  { by rewrite decide_False by by apply not_elem_of_nil. }
  specialize (IH Hks). cbn [foldl andb]. rewrite kv_prefix by done. case_bool_decide as Hd.
  - subst key. rewrite IH. rewrite (decide_True (P := k ∈ k :: ks)) by by left.
    case_decide; [by rewrite insert_insert_eq|done].
  - rewrite IH. by destruct (decide (k ∈ ks)) as [Hin|Hin];
      [rewrite decide_True by (by right)|rewrite decide_False by (by intros [?|?]%elem_of_cons)].
Qed.

Lemma scan_keys_false line found : scan_keys false line keys found = found.
Proof. unfold scan_keys. clear Hkeys. induction keys as [|k ks IH]; [done|]. apply IH. Qed.

Lemma scan_keys_other line found :
  (∀ k, k ∈ keys → strings_HasPrefix line (k +:+ "=") = false) → scan_keys true line keys found = found.
Proof.
  unfold scan_keys. clear Hkeys. induction keys as [|k ks IH]; intros H; [done|]. cbn [foldl andb].
  rewrite H by by left. apply IH. intros k' Hk'. apply H. by right.
Qed.

Lemma scan_keys_peer_line key found : scan_keys true (peer_line key) keys found = found.
Proof.
  apply scan_keys_other. intros k Hk. rewrite List.Forall_forall in Hkeys.
  apply list_elem_of_In, Hkeys in Hk as [H1 H2].
  change (peer_line key) with (kv_line ("public_key", key)). rewrite kv_prefix by done.
  apply bool_decide_eq_false. congruence.
Qed.

Lemma scan_keys_empty found : scan_keys true EmptyString keys found = found.
Proof. apply scan_keys_other. intros [] _; done. Qed.

Lemma scan_skip_kvs kvs rest found :
  Forall kv_ok kvs →
  scan_lines hexKey keys (map kv_line kvs ++ rest) false found = scan_lines hexKey keys rest false found.
Proof.
  induction 1 as [|kv kvs Hkv _ IH]; [done|]. cbn [map app scan_lines].
  rewrite strings_TrimSpace_no_space by by apply kv_no_space.
  rewrite kv_not_peer by done. cbn [andb orb].
  rewrite bool_decide_eq_false_2 by (by apply not_peer_line, kv_not_peer).
  by rewrite scan_keys_false.
Qed.

Lemma scan_take_kvs kvs rest found :
  Forall kv_ok kvs →
  scan_lines hexKey keys (map kv_line kvs ++ rest) true found =
  scan_lines hexKey keys rest true (foldl add_known found kvs).
Proof.
  intros H. revert found. induction H as [|kv kvs Hkv _ IH]; intros found; [done|].
  cbn [map app scan_lines foldl].
  rewrite strings_TrimSpace_no_space by by apply kv_no_space.
  rewrite kv_not_peer by done. cbn [andb orb]. by rewrite scan_keys_kv.
Qed.

Lemma peer_line_trim key : no_space key = true → strings_TrimSpace (peer_line key) = peer_line key.
Proof. intros H. apply strings_TrimSpace_no_space. unfold peer_line. by rewrite no_space_app, H. Qed.

(** The first section of the peer is what is read. *)
Definition the_section (secs : list peer_section) : option peer_section :=
  snd <$> list_find (λ s, sec_key s = hexKey) secs.

Lemma scan_sections secs :
  Forall section_ok secs →
  scan_lines hexKey keys (concat (map section_lines secs) ++ [EmptyString]) false ∅ =
  match the_section secs with
  | Some s => (true, foldl add_known ∅ (sec_vals s))
  | None => (false, ∅)
  end.
Proof.
  unfold the_section. induction 1 as [|s secs [Hk Hv] Hsecs IH].
  { cbn [map concat app scan_lines list_find fmap option_fmap option_map].
    change (strings_TrimSpace EmptyString) with EmptyString.
    change (is_peer_line EmptyString) with false. cbn [andb orb].
    rewrite bool_decide_eq_false_2 by done. by rewrite scan_keys_false. }
  cbn [map concat app section_lines scan_lines]. rewrite peer_line_trim by done.
  rewrite peer_line_is. cbn [andb orb]. rewrite <-app_assoc. cbn [list_find].
  destruct (decide (sec_key s = hexKey)) as [He|Hne].
  - rewrite bool_decide_eq_true_2 by by rewrite He.
    rewrite scan_keys_peer_line, scan_take_kvs by done.
    cbn [fmap option_fmap option_map snd].
    destruct Hsecs as [|s' secs [Hk' _] _]; cbn [map concat app section_lines scan_lines].
    + change (strings_TrimSpace EmptyString) with EmptyString.
      change (is_peer_line EmptyString) with false. cbn [andb orb]. by rewrite scan_keys_empty.
    + by rewrite peer_line_trim, peer_line_is.
  - rewrite bool_decide_eq_false_2 by (by intros ?%peer_line_inj).
    rewrite scan_keys_false, scan_skip_kvs, IH by done.
    by destruct (list_find _ secs) as [[]|].
Qed.
End scan.

(** The last value a section gives a key. *)
Definition last_value (vals : list (string * string)) (key : string) : option string :=
  snd <$> list.last (filter (λ kv, kv.1 = key) vals).

Lemma foldl_add_known keys vals found k :
  foldl (add_known keys) found vals !! k =
  if decide (k ∈ keys) then match last_value vals k with Some v => Some v | None => found !! k end
  else found !! k.
Proof.
  revert found. induction vals as [|kv vals IH]; intros found; cbn [foldl].
  { cbn. by case_decide. }
  rewrite IH. unfold last_value. rewrite filter_cons. unfold add_known.
  destruct (decide (k ∈ keys)) as [Hin|Hout].
  - destruct (decide (kv.1 = k)) as [<-|Hne].
    + rewrite (decide_True (P := kv.1 ∈ keys)) by done. rewrite list.last_cons, lookup_insert_eq.
      by destruct (list.last (filter _ vals)).
    + destruct (list.last (filter _ vals)); [done|]. cbn [fmap option_fmap option_map].
      destruct (decide (kv.1 ∈ keys)); [by rewrite lookup_insert_ne|done].
  - destruct (decide (kv.1 ∈ keys)); [|done]. rewrite lookup_insert_ne; [done|]. by intros <-.
Qed.

Section reading.
Context {T : WgTypes}.

(** C18. [findPeerInfo] on a device's text, whatever keys are asked for: when
    the first section of the peer lacks one of them, or the device has no
    section of the peer, it fails and names the first such key; otherwise it
    gives the last value that section has of every key asked for and no other
    entry, wherever the section stands. Asked for no key, it succeeds exactly
    when the peer has a section and else fails with [ErrPeerNotFound]. *)
Theorem findPeerInfo_reads_section header secs peerKey key keys :
  Forall kv_ok header → Forall section_ok secs →
  Forall (λ k, char_in "="%char k = false ∧ k ≠ "public_key") keys →
  ParseKey peerKey = Ok key →
  let sec := the_section (hex_EncodeToString key) secs in
  let value k := s ← sec; last_value (sec_vals s) k in
  match list_find (λ k, value k = None) keys with
  | Some (_, missing) =>
      findPeerInfo (device_text header secs) peerKey keys =
      Err (Errorf ("config key not found: " +:+ missing))
  | None => match sec with
    | Some _ => ∃ m, findPeerInfo (device_text header secs) peerKey keys = Ok m ∧
        ∀ k, m !! k = if decide (k ∈ keys) then value k else None
    | None => ∃ e, findPeerInfo (device_text header secs) peerKey keys = Err e ∧
        errors_Is e ErrPeerNotFound = true
    end
  end.
Proof.
  intros Hh Hs Hk Hp. unfold findPeerInfo. rewrite Hp. cbn [wrap mbind res_bind].
  rewrite device_split by done. unfold device_lines. rewrite <-app_assoc, scan_skip_kvs by done.
  rewrite scan_sections by done. set (hexKey := hex_EncodeToString key).
  cbv zeta. set (sec := the_section hexKey secs).
  set (got := match sec with Some s => _ | None => _ end).
  assert (∀ k, got.2 !! k = if decide (k ∈ keys) then s ← sec; last_value (sec_vals s) k else None) as Hgot.
  { intros k. unfold got. destruct sec as [s|]; cbn [snd mbind option_bind].
    - rewrite foldl_add_known. case_decide; [|by rewrite lookup_empty].
      destruct (last_value _ _); [done|by rewrite lookup_empty].
    - rewrite lookup_empty. by case_decide. }
  assert (got.1 = match sec with Some _ => true | None => false end) as Hfound by (unfold got; by destruct sec).
  destruct got as [found m]. cbn [fst snd] in *. subst found.
  assert (list_find (λ k, m !! k = None) keys =
          list_find (λ k, (s ← sec; last_value (sec_vals s) k) = None) keys) as ->.
  { apply list_find_ext_in. intros k Hin. by rewrite Hgot, decide_True by done. }
  destruct (list_find _ keys) as [[i k]|]; [done|]. destruct sec; by eexists.
Qed.

Lemma scan_lines_not_found hexKey keys lines found :
  let '(f, m) := scan_lines hexKey keys lines false found in f = false → m = found.
Proof.
  revert found. induction lines as [|line lines IH]; intros found; [done|]. cbn [scan_lines].
  rewrite andb_false_r. cbn [orb]. destruct (bool_decide _) eqn:Hb.
  - assert (∀ lines found, (scan_lines hexKey keys lines true found).1 = true) as Ht.
    { clear. induction lines as [|l lines IH]; intros found; [done|]. cbn [scan_lines orb].
      destruct (is_peer_line _ && true); [done|apply IH]. }
    specialize (Ht lines (scan_keys true (strings_TrimSpace line) keys found)).
    destruct (scan_lines _ _ _ _ _) as [f m]. cbn in Ht. congruence.
  - assert (scan_keys false (strings_TrimSpace line) keys found = found) as ->.
    { unfold scan_keys. clear. induction keys as [|k ks IHk]; [done|]. apply IHk. }
    apply IH.
Qed.

(** A statistic that cannot be parsed is no missing peer. *)
Lemma stat_error stats what key :
  match stat stats what key with
  | Ok _ => True | Err e => errors_Is e ErrPeerNotFound = false | Panic => False
  end.
Proof.
  unfold stat, strconv_Atoi. destruct (match default EmptyString (stats !! key) with
    | EmptyString => _ | String _ _ => _ end) as [z|]; [|done].
  by destruct (decide (int64_min ≤ z ≤ int64_max)%Z).
Qed.

(** A peer the device does not know: the kernel configurer's statistics
    fail with [ErrPeerNotFound]; the userspace configurer's never do, whatever
    text the device gives, because the missing key is reported first. *)
Lemma getStats_missing_peer {D K} `{UapiDevice D} `{KernelCtl K} (d : D) (k : K) deviceName peerKey
    ipc key peers :
  IpcGet d = Ok ipc → ParseKey peerKey = Ok key →
  wgctrl_New k = Ok tt → wg_Device k deviceName = Ok peers →
  Forall (λ p, Key_String (k_PublicKey p) ≠ peerKey) peers →
  (∃ e, k_getStats deviceName k peerKey = Err e ∧ errors_Is e ErrPeerNotFound = true) ∧
  (∀ e, getStats d peerKey = Err e → errors_Is e ErrPeerNotFound = false).
Proof.
  intros Hipc Hkey Hn Hd Hp. split.
  - unfold k_getStats, getPeer. rewrite Hn, Hd. cbn [wrap mbind res_bind].
    assert (list_find (λ p, Key_String (k_PublicKey p) = peerKey) peers = None) as ->.
    { apply list_find_None. eapply List.Forall_impl; [|exact Hp]. done. }
    eexists. split; [reflexivity|done].
  - intros e. unfold getStats. rewrite Hipc. cbn [wrap mbind res_bind].
    destruct (findPeerInfo ipc peerKey stat_keys) as [stats|e'|] eqn:Hf; cbn [wrap mbind res_bind]; [|intros [= <-]|done].
    + pose proof (stat_error stats "handshake sec" "last_handshake_time_sec").
      destruct (stat stats "handshake sec" _); cbn [mbind res_bind]; [|by intros [= <-]|done].
      pose proof (stat_error stats "handshake nsec" "last_handshake_time_nsec").
      destruct (stat stats "handshake nsec" _); cbn [mbind res_bind]; [|by intros [= <-]|done].
      pose proof (stat_error stats "tx_bytes" "tx_bytes").
      destruct (stat stats "tx_bytes" _); cbn [mbind res_bind]; [|by intros [= <-]|done].
      pose proof (stat_error stats "rx_bytes" "rx_bytes").
      by destruct (stat stats "rx_bytes" _); cbn [mbind res_bind]; [|intros [= <-]|].
    + cbn [errors_Is]. unfold findPeerInfo in Hf. rewrite Hkey in Hf. cbn [wrap mbind res_bind] in Hf.
      pose proof (scan_lines_not_found (hex_EncodeToString key) stat_keys (strings_Split ipc nl) ∅) as Hnf.
      destruct (scan_lines _ _ _ _ _) as [found m].
      destruct (list_find (λ k, m !! k = None) stat_keys) as [[i k']|] eqn:Hlf; [by injection Hf as <-|].
      destruct found; [done|]. rewrite (Hnf eq_refl) in Hlf. by vm_compute in Hlf.
Qed.

(** *** [removeAllowedIP] *)

Lemma res_bind_ext {A B} (m : res A) (f g : A → res B) : (∀ a, f a = g a) → (m ≫= f) = (m ≫= g).
Proof. destruct m; [|done..]. intros H. apply H. Qed.

(** The allowed IPs of a section, and the networks some of them parse to. *)
Definition section_allowed (vals : list (string * string)) : list string :=
  (filter (λ kv, kv.1 = "allowed_ip") vals).*2.

Fixpoint parse_nets (ips : list string) : res (list IPNet) :=
  match ips with
  | [] => Ok []
  | ip :: ips => '(_, n) ← net_ParseCIDR ip; ns ← parse_nets ips; Ok (n :: ns)
  end.

Lemma kv_allowed k v : char_in "="%char k = false →
  strings_HasPrefix (kv_line (k, v)) "allowed_ip=" = bool_decide (k = "allowed_ip").
Proof. intros Hk. exact (kv_prefix k v "allowed_ip" Hk eq_refl). Qed.

Lemma kv_line_allowed k v ip : char_in "="%char k = false →
  kv_line (k, v) = "allowed_ip=" +:+ ip ↔ k = "allowed_ip" ∧ v = ip.
Proof.
  intros Hk. split; [|by intros [-> ->]]. intros He.
  assert (strings_SplitN2 (kv_line (k, v)) "="%char = ["allowed_ip"; ip]) as Hs by by rewrite He.
  unfold kv_line in Hs. cbn [fst snd] in Hs.
  change ("=" +:+ v) with (String "="%char v) in Hs. rewrite strings_SplitN2_app in Hs by done.
  by injection Hs.
Qed.

Lemma scan_allowed_skip hexKey ip kvs rest removed kept :
  Forall kv_ok kvs →
  scan_allowed hexKey ip (map kv_line kvs ++ rest) false removed kept =
  scan_allowed hexKey ip rest false removed kept.
Proof.
  induction 1 as [|kv kvs Hkv _ IH]; [done|]. cbn [map app scan_allowed].
  rewrite strings_TrimSpace_no_space by by apply kv_no_space.
  rewrite kv_not_peer by done. cbn [andb orb].
  by rewrite bool_decide_eq_false_2 by (by apply not_peer_line, kv_not_peer).
Qed.

Lemma scan_allowed_take hexKey ip kvs rest removed kept :
  Forall kv_ok kvs →
  scan_allowed hexKey ip (map kv_line kvs ++ rest) true removed kept =
  (ns ← parse_nets (filter (λ a, a ≠ ip) (section_allowed kvs));
   scan_allowed hexKey ip rest true (removed || bool_decide (ip ∈ section_allowed kvs)) (kept ++ ns)).
Proof.
  intros H. revert removed kept.
  induction H as [|[k v] kvs Hkv _ IH]; intros removed kept.
  { cbn. by rewrite orb_false_r, app_nil_r. }
  pose proof Hkv as (_ & _ & Hk & _). cbn [fst] in Hk. cbn [map app scan_allowed].
  rewrite strings_TrimSpace_no_space by by apply kv_no_space.
  rewrite kv_not_peer by done. cbn [andb orb]. rewrite kv_allowed by done.
  unfold section_allowed. rewrite filter_cons. cbn [fst snd].
  destruct (decide (k = "allowed_ip")) as [->|Hne].
  - rewrite (bool_decide_eq_true_2 ("allowed_ip" = _)) by done. rewrite fmap_cons. cbn [snd].
    rewrite filter_cons. destruct (decide (v = ip)) as [->|Hv].
    + rewrite bool_decide_eq_true_2 by done. rewrite (decide_False (P := ip ≠ ip)) by naive_solver.
      rewrite IH. fold (section_allowed kvs).
      rewrite (bool_decide_eq_true_2 (ip ∈ ip :: _)) by by left.
      by destruct removed, (parse_nets _).
    + rewrite bool_decide_eq_false_2 by (by intros [_ ?]%kv_line_allowed).
      rewrite decide_True by done. cbn [parse_nets].
      change (strings_TrimPrefix (kv_line ("allowed_ip", v)) "allowed_ip=") with
        (strings_TrimPrefix ("allowed_ip=" +:+ v) "allowed_ip=").
      rewrite strings_TrimPrefix_app. destruct (net_ParseCIDR v) as [[a n]| |]; [|done..].
      cbn [mbind res_bind]. rewrite IH. fold (section_allowed kvs).
      destruct (parse_nets _) as [ns| |]; [|done..]. cbn [mbind res_bind].
      rewrite <-app_assoc. do 2 f_equal. apply bool_decide_ext. rewrite elem_of_cons. naive_solver.
  - rewrite bool_decide_eq_false_2 by (by intros [? _]%kv_line_allowed).
    rewrite bool_decide_eq_false_2 by done. rewrite IH. done.
Qed.

Lemma scan_allowed_end hexKey ip b removed kept :
  scan_allowed hexKey ip [EmptyString] b removed kept = Ok (removed, kept).
Proof. by destruct b. Qed.

Lemma scan_allowed_others hexKey ip secs b removed kept :
  Forall section_ok secs → hexKey ∉ map sec_key secs →
  scan_allowed hexKey ip (concat (map section_lines secs) ++ [EmptyString]) b removed kept =
  Ok (removed, kept).
Proof.
  intros H. revert b. induction H as [|s secs [Hk Hv] _ IH]; intros b Hno; [apply scan_allowed_end|].
  cbn [map] in Hno. apply not_elem_of_cons in Hno as [Hne Hno].
  cbn [map concat app section_lines scan_allowed]. rewrite peer_line_trim by done.
  rewrite peer_line_is. cbn [andb]. rewrite (bool_decide_eq_false_2 (peer_line _ = _)) by (by intros ?%peer_line_inj).
  assert ((if b then false else b) || false = false) as -> by by destruct b.
  cbn [andb]. rewrite <-app_assoc, scan_allowed_skip by done. by apply IH.
Qed.

Lemma scan_allowed_sections hexKey ip secs :
  Forall section_ok secs → NoDup (map sec_key secs) →
  let allowed := from_option (λ s, section_allowed (sec_vals s)) [] (the_section hexKey secs) in
  scan_allowed hexKey ip (concat (map section_lines secs) ++ [EmptyString]) false false [] =
  (ns ← parse_nets (filter (λ a, a ≠ ip) allowed); Ok (bool_decide (ip ∈ allowed), ns)).
Proof.
  unfold the_section. induction 1 as [|s secs [Hk Hv] Hsecs IH].
  { intros _. done. }
  cbn [map]. intros [Hno Hnd]%list.NoDup_cons. cbn [list_find map concat app section_lines scan_allowed].
  rewrite peer_line_trim by done. rewrite peer_line_is. cbn [andb orb]. rewrite <-app_assoc.
  destruct (decide (sec_key s = hexKey)) as [<-|Hne].
  - rewrite (bool_decide_eq_true_2 (peer_line _ = _)) by done.
    assert (bool_decide (peer_line (sec_key s) = "allowed_ip=" +:+ ip) = false) as ->
      by (apply bool_decide_eq_false; unfold peer_line; cbn; discriminate).
    change (strings_HasPrefix (peer_line (sec_key s)) "allowed_ip=") with false.
    cbn [andb]. rewrite scan_allowed_take by done.
    cbn [fmap option_fmap option_map from_option snd].
    apply res_bind_ext. intros ns. cbn [orb app]. by rewrite scan_allowed_others.
  - rewrite (bool_decide_eq_false_2 (peer_line _ = _)) by (by intros ?%peer_line_inj).
    cbn [andb]. rewrite scan_allowed_skip, IH by done. by destruct (list_find _ secs) as [[]|].
Qed.

(** With one section per peer, its allowed IPs are those of all its sections. *)
Lemma section_of_key k (secs : list peer_section) :
  NoDup (map sec_key secs) →
  from_option (λ s, section_allowed (sec_vals s)) [] (the_section k secs) =
  flat_map (λ s, if decide (sec_key s = k) then section_allowed (sec_vals s) else []) secs.
Proof.
  unfold the_section. induction secs as [|s secs IH]; [done|]. intros [Hn Hnd]%list.NoDup_cons.
  cbn [list_find flat_map]. specialize (IH Hnd). case_decide as He.
  - cbn [fmap option_fmap option_map from_option snd]. subst k. clear IH Hnd. symmetry.
    rewrite <-(app_nil_r (section_allowed _)) at 2. f_equal.
    induction secs as [|s' secs IH]; [done|]. cbn [map flat_map] in *.
    apply not_elem_of_cons in Hn as [Hne Hn]. rewrite decide_False by congruence. by apply IH.
  - rewrite <-IH. by destruct (list_find _ secs) as [[]|].
Qed.

Context {D : Type} {UD : UapiDevice D}.

Lemma removeAllowedIP_sections (d : D) header secs peerKey key ip :
  Forall kv_ok header → Forall section_ok secs → NoDup (map sec_key secs) →
  IpcGet d = Ok (device_text header secs) → ParseKey peerKey = Ok key →
  let allowed := from_option (λ s, section_allowed (sec_vals s)) [] (the_section (hex_EncodeToString key) secs) in
  removeAllowedIP d peerKey ip =
  on_device d
    (ns ← parse_nets (filter (λ a, a ≠ ip) allowed);
     if bool_decide (ip ∈ allowed) then Ok ns else Err ErrAllowedIPNotFound)
    (λ ns, IpcSet d (toWgUserspaceString (peer_config (allowed_ips_peer key ns)))).
Proof.
  intros Hh Hs Hnd Hipc Hkey. unfold removeAllowedIP. rewrite Hipc, Hkey. cbn [mbind res_bind].
  rewrite device_split by done. unfold device_lines. rewrite <-app_assoc, scan_allowed_skip by done.
  rewrite scan_allowed_sections by done. cbv zeta. set (allowed := from_option _ _ _).
  destruct (parse_nets (filter (λ a, a ≠ ip) allowed)) as [ns| |]; [|done..]. cbn [mbind res_bind].
  by case_bool_decide.
Qed.

(** C16. Removing an allowed IP in userspace, on a device whose text has one
    section per peer: when another allowed IP the peer lists does not parse, its
    error; when the peer does not list the text, or the device does not know
    the peer, [ErrAllowedIPNotFound]; in both cases the device is not touched.
    Otherwise the device is sent that peer alone, to be updated with its allowed
    IPs replaced by exactly its other ones, in order: nothing is lost, and
    allowed IPs of other peers play no part. *)
Theorem removeAllowedIP_sends_others (d : D) header secs peerKey key ip :
  Forall kv_ok header → Forall section_ok secs → NoDup (map sec_key secs) →
  IpcGet d = Ok (device_text header secs) → ParseKey peerKey = Ok key →
  let allowed := flat_map (λ s,
    if decide (sec_key s = hex_EncodeToString key) then section_allowed (sec_vals s) else []) secs in
  removeAllowedIP d peerKey ip =
  match parse_nets (filter (λ a, a ≠ ip) allowed) with
  | Ok ns =>
      if decide (ip ∈ allowed) then
        IpcSet d (toWgUserspaceString (mkConfig None None None false
          [mkPeerConfig key false true None None None true ns]))
      else (Err ErrAllowedIPNotFound, d)
  | Err e => (Err e, d)
  | Panic => (Panic, d)
  end.
Proof.
  intros Hh Hs Hnd Hipc Hkey.
  rewrite (removeAllowedIP_sections _ header secs peerKey key) by done. cbv zeta.
  rewrite (section_of_key (hex_EncodeToString key) secs Hnd).
  destruct (parse_nets _) as [ns| |]; cbn [mbind res_bind]; [|done..]. by case_decide; case_bool_decide.
Qed.

(** The two configurers disagree on how an allowed IP may be written: the
    userspace one compares texts, so an address with host bits, which
    [addAllowedIP] accepts, is never found there; the kernel one compares
    networks and drops it. *)
Lemma removeAllowedIP_host_bits {K} `{KernelCtl K} (d : D) (k : K) deviceName header secs
    peerKey key ip addr n peers p :
  Forall kv_ok header → Forall section_ok secs → NoDup (map sec_key secs) →
  IpcGet d = Ok (device_text header secs) → ParseKey peerKey = Ok key →
  Forall (λ s, Forall (λ a, ∃ x m, net_ParseCIDR a = Ok (x, m) ∧ a = IPNet_String m)
    (section_allowed (sec_vals s))) secs →
  net_ParseCIDR ip = Ok (addr, n) → IPNet_String n ≠ ip →
  wgctrl_New k = Ok tt → wg_Device k deviceName = Ok peers →
  list_find (λ p, Key_String (k_PublicKey p) = peerKey) peers = Some (0, p) →
  removeAllowedIP d peerKey ip = (Err ErrAllowedIPNotFound, d) ∧
  k_removeAllowedIP deviceName k peerKey ip =
    k_wrap ("remove allowed IP " +:+ ip +:+ " on interface " +:+ deviceName +:+ ": ") EmptyString
      (wg_ConfigureDevice k deviceName
         (peer_config (allowed_ips_peer key (drop_first (IPNet_String n) (k_AllowedIPs p))))).
Proof.
  intros Hh Hs Hnd Hipc Hkey Hcan Hip Hne Hn Hd Hf. split.
  - rewrite (removeAllowedIP_sections _ header secs peerKey key) by done.
    set (allowed := from_option _ _ _).
    assert (Forall (λ a, ∃ x m, net_ParseCIDR a = Ok (x, m) ∧ a = IPNet_String m) allowed) as Hall.
    { unfold allowed, the_section.
      destruct (list_find _ secs) as [[i s]|] eqn:Hl; cbn; [|constructor].
      apply list_find_Some in Hl as (Hi & _ & _). by eapply Forall_lookup in Hcan. }
    assert (ip ∉ allowed) as Hout.
    { intros Hin. rewrite List.Forall_forall in Hall.
      apply list_elem_of_In, Hall in Hin as (x & m & Hp & He). congruence. }
    rewrite bool_decide_eq_false_2 by done.
    assert (∃ ns, parse_nets (filter (λ a, a ≠ ip) allowed) = Ok ns) as [ns ->].
    { clear -Hall. induction Hall as [|a l (x & m & Hp & _) _ [ns IH]]; [by eexists|].
      rewrite filter_cons. destruct (decide (a ≠ ip)); [|by eexists].
      cbn [parse_nets]. rewrite Hp. cbn [mbind res_bind]. rewrite IH. by eexists. }
    done.
  - unfold k_removeAllowedIP, getPeer, k_configure.
    rewrite Hip, Hkey, Hn, Hd. cbn [wrap mbind res_bind]. rewrite Hf.
    done.
Qed.
End reading.

(** ** A concrete device *)

(** Keys that are their own text, a device that keeps the text it was sent,
    and a kernel that keeps the last configuration. *)
#[export] Instance ex_WgTypes : WgTypes := {|
  ParseKey s := Ok (bytes_of_string s); Key_String := string_of_bytes
|}.
#[export] Instance ex_UapiDevice : UapiDevice (string * list string) := {|
  IpcSet d s := (Ok tt, (d.1, d.2 ++ [s])); IpcGet d := Ok d.1
|}.
#[export] Instance ex_KernelCtl : KernelCtl (list KPeer * list Config) := {|
  wgctrl_New _ := Ok tt; wg_Device k _ := Ok k.1;
  wg_ConfigureDevice k _ c := (Ok tt, (k.1, k.2 ++ [c]))
|}.

Definition hexk (s : string) : string := hex_EncodeToString (bytes_of_string s).
Definition ex_header : list (string * string) := [("private_key", "00"); ("listen_port", "51820")].
Definition ex_section (k : string) : peer_section :=
  mkSection (hexk k) [("last_handshake_time_sec", "5"); ("tx_bytes", "7"); ("rx_bytes", "8");
    ("allowed_ip", "10.0.0.0/24"); ("allowed_ip", "10.0.1.0/24"); ("last_handshake_time_nsec", "6")].
Definition ex_secs : list peer_section := [ex_section "p"; ex_section "q"].
Definition ex_device : string * list string := (device_text ex_header ex_secs, []).
Definition ex_net (s : string) : IPNet :=
  match net_ParseCIDR s with Ok (_, n) => n | _ => mkIPNet [] [] end.
Definition ex_kernel : list KPeer * list Config :=
  ([mkKPeer (bytes_of_string "q") [ex_net "10.0.0.0/24"; ex_net "10.0.1.0/24"] (0, 0)%Z 0 0], []).

Lemma kv_ok_dec kvs :
  forallb (λ kv, no_space kv.1 && no_space kv.2 && negb (char_in "="%char kv.1)
    && negb (bool_decide (kv.1 = "public_key"))) kvs = true → Forall kv_ok kvs.
Proof.
  intros H. rewrite forallb_forall in H. apply List.Forall_forall. intros kv Hin.
  specialize (H kv Hin). rewrite !andb_true_iff, !negb_true_iff, bool_decide_eq_false in H. unfold kv_ok. tauto.
Qed.

Lemma ex_device_ok : Forall kv_ok ex_header ∧ Forall section_ok ex_secs ∧ NoDup (map sec_key ex_secs).
Proof.
  split; [by apply kv_ok_dec|]. split.
  - assert (∀ k, section_ok (ex_section k)) as H by (intros k; split; [apply no_space_hex|by apply kv_ok_dec]).
    by repeat constructor.
  - apply (bool_decide_unpack _). by vm_compute.
Qed.

Lemma toWgUserspaceString_lines_witness :
  strings_Split (toWgUserspaceString (peer_config (update_peer (bytes_of_string "p")
    (ex_net "10.0.0.1/24") (25 * 1000000000) (Some (mkUDPAddr (map byte_of_Z [1; 2; 3; 4]%Z) 51820 EmptyString)) None))) nl =
  ["public_key=70"; "replace_allowed_ips=true"; "allowed_ip=10.0.0.0/24"; "endpoint=1.2.3.4:51820";
   "persistent_keepalive_interval=25"; EmptyString].
Proof. rewrite toWgUserspaceString_lines by (repeat constructor). by vm_compute. Defined.

Lemma remove_line_is_glued_witness :
  "remove=truepublic_key=71" ∈ strings_Split (toWgUserspaceString (mkConfig None None None false
    [remove_peer (bytes_of_string "p"); add_ip_peer (bytes_of_string "q") (ex_net "10.0.0.0/24")])) nl.
Proof. apply (remove_line_is_glued (remove_peer (bytes_of_string "p")) (add_ip_peer (bytes_of_string "q") (ex_net "10.0.0.0/24"))); done. Defined.

Lemma findPeerInfo_reads_section_witness :
  (∃ m, findPeerInfo (device_text ex_header ex_secs) "q" stat_keys = Ok m) ∧
  findPeerInfo (device_text ex_header ex_secs) "q" ["tx_bytes"; "fwmark"; "endpoint"] =
  Err (Errorf "config key not found: fwmark").
Proof.
  destruct ex_device_ok as (H1 & H2 & _). split.
  - destruct (findPeerInfo_reads_section ex_header ex_secs "q" (bytes_of_string "q") stat_keys H1 H2)
      as (m & Hm & _); [by repeat constructor|done|by exists m].
  - apply (findPeerInfo_reads_section ex_header ex_secs "q" (bytes_of_string "q")
      ["tx_bytes"; "fwmark"; "endpoint"] H1 H2); [by repeat constructor|done].
Defined.

Lemma getStats_missing_peer_witness :
  ∀ e, getStats ex_device "nobody" = Err e → errors_Is e ErrPeerNotFound = false.
Proof.
  apply (getStats_missing_peer ex_device ex_kernel "wg0" "nobody" (device_text ex_header ex_secs)
    (bytes_of_string "nobody") ex_kernel.1); try done. by repeat constructor.
Defined.

Lemma removeAllowedIP_sends_others_witness :
  (removeAllowedIP ex_device "q" "10.0.0.0/24").2.2 =
  [toWgUserspaceString (peer_config (allowed_ips_peer (bytes_of_string "q") [ex_net "10.0.1.0/24"]))] ∧
  removeAllowedIP ex_device "nobody" "10.0.0.0/24" = (Err ErrAllowedIPNotFound, ex_device).
Proof.
  destruct ex_device_ok as (H1 & H2 & H3). split.
  - by rewrite (removeAllowedIP_sends_others ex_device ex_header ex_secs "q" (bytes_of_string "q")
      "10.0.0.0/24" H1 H2 H3 ltac:(done) ltac:(done)).
  - by rewrite (removeAllowedIP_sends_others ex_device ex_header ex_secs "nobody" (bytes_of_string "nobody")
      "10.0.0.0/24" H1 H2 H3 ltac:(done) ltac:(done)).
Defined.

Lemma removeAllowedIP_host_bits_witness :
  (removeAllowedIP ex_device "q" "10.0.0.7/24").1 = Err ErrAllowedIPNotFound ∧
  (k_removeAllowedIP "wg0" ex_kernel "q" "10.0.0.7/24").2.2 =
    [peer_config (allowed_ips_peer (bytes_of_string "q") [ex_net "10.0.1.0/24"])].
Proof.
  destruct ex_device_ok as (H1 & H2 & H3).
  edestruct (removeAllowedIP_host_bits ex_device ex_kernel "wg0" ex_header ex_secs "q" (bytes_of_string "q")
    "10.0.0.7/24") as [-> ->]; try done.
  repeat constructor; do 2 eexists; (split; [by vm_compute|by vm_compute]).
Defined.

Lemma configurers_agree_witness :
  (run_op (Configurer := usp_Configurer true false id) (ex_device, tt) (OpRemovePeer "p")).2.1.2 =
    [toWgUserspaceString (peer_config (remove_peer (bytes_of_string "p")))] ∧
  (run_op (Configurer := kernel_Configurer true false "wg0") ex_kernel (OpRemovePeer "p")).2.2 =
    [peer_config (remove_peer (bytes_of_string "p"))].
Proof.
  destruct (configurers_agree true false "wg0" id ex_device tt ex_kernel (OpRemovePeer "p") _
    ltac:(done) ltac:(done) ltac:(done)) as (_ & _ & ->). done.
Defined.
