(* ===== verification/Ebpf.v ===== *)
(** * [client/internal/ebpf]: the eBPF manager

    One XDP program on the loopback interface serves two features, the
    WireGuard proxy and the DNS forwarder; a flag word shared with the kernel
    says which are on. The kernel (loading, attaching, writing maps) is the
    parameter [BpfKernel]. *)
From Stdlib Require Import Ascii.
From S2P Require Import Prelude GoStrings GoNet.

(** The shared maps the manager writes. *)
Inductive bpf_map := NbFeatures | NbMapDnsIp | NbMapDnsPort | NbWgProxySettingsMap.

Global Instance bpf_map_eq_dec : EqDecision bpf_map.
Proof. solve_decision. Defined.

(** What cilium/ebpf and the kernel offer. *)
Class BpfKernel (K : Type) := {
  link_t : Type;
  RemoveMemlock : K → res unit * K;
  InterfaceByName_lo : K → res Z * K;
  loadBpfObjects : K → res unit * K;
  AttachXDP : K → Z → res link_t * K;
  objs_Close : K → res unit * K;
  link_Close : K → link_t → res unit * K;
  map_Put : K → bpf_map → Z → Z → res unit * K
}.

Definition featureFlagWGProxy : Z := 1.
Definition featureFlagDnsForwarder : Z := 2.
Definition mapKeyFeatures : Z := 0.
Definition mapKeyDNSIP : Z := 0.
Definition mapKeyDNSPort : Z := 1.
Definition mapKeyProxyPort : Z := 0.
Definition mapKeyWgPort : Z := 1.

Definition uint16 (z : Z) : Z := (z `mod` 65536)%Z.

Section manager.
Context {K : Type} {BK : BpfKernel K}.

(** [GeneralManager], with the kernel it acts on. *)
Record GeneralManager := mkManager {
  link : option link_t;
  featureFlags : Z;
  kernel : K
}.

Definition set_kernel k tf := mkManager (link tf) (featureFlags tf) k.

(** Do a kernel action; on failure return its error, as [if err != nil]. *)
Definition step_k {A} (tf : GeneralManager) (r : res A * K)
    (f : A → GeneralManager → res unit * GeneralManager) : res unit * GeneralManager :=
  match r with
  | (Ok a, k) => f a (set_kernel k tf)
  | (Err e, k) => (Err e, set_kernel k tf)
  | (Panic, k) => (Panic, set_kernel k tf)
  end.

Definition setFeatureFlag (feature : Z) (tf : GeneralManager) : GeneralManager :=
  mkManager (link tf) (Z.lor (featureFlags tf) feature) (kernel tf).

Definition loadXdp (tf : GeneralManager) : res unit * GeneralManager :=
  match link tf with
  | Some _ => (Ok tt, tf)
  | None =>
      step_k tf (RemoveMemlock (kernel tf)) (λ _ tf,
      step_k tf (InterfaceByName_lo (kernel tf)) (λ index tf,
      step_k tf (loadBpfObjects (kernel tf)) (λ _ tf,
      match AttachXDP (kernel tf) index with
      | (Ok l, k) => (Ok tt, mkManager (Some l) (featureFlags tf) k)
      | (Err e, k) => (Err e, mkManager None (featureFlags tf) (objs_Close k).2)
      | (Panic, k) => (Panic, set_kernel k tf)
      end)))
  end.

(** [close()]: the objects, then the link; only the link's error counts. *)
Definition close (tf : GeneralManager) : res unit * GeneralManager :=
  let k := (objs_Close (kernel tf)).2 in
  match link tf with
  | None => (Panic, tf)
  | Some l => let '(r, k) := link_Close k l in (r, mkManager None (featureFlags tf) k)
  end.

Definition unsetFeatureFlag (feature : Z) (tf : GeneralManager) : res unit * GeneralManager :=
  let tf := mkManager (link tf) (Z.ldiff (featureFlags tf) feature) (kernel tf) in
  match link tf with
  | None => (Ok tt, tf)
  | Some _ =>
      if (featureFlags tf =? 0)%Z then close tf
      else step_k tf (map_Put (kernel tf) NbFeatures mapKeyFeatures (featureFlags tf)) (λ _ tf, (Ok tt, tf))
  end.

(** [then_m]: go on after a step that succeeded. *)
Definition then_m (r : res unit * GeneralManager) (f : GeneralManager → res unit * GeneralManager) :
    res unit * GeneralManager :=
  match r with (Ok _, tf) => f tf | _ => r end.

Definition publish_feature (feature : Z) (tf : GeneralManager) : res unit * GeneralManager :=
  let tf := setFeatureFlag feature tf in
  step_k tf (map_Put (kernel tf) NbFeatures mapKeyFeatures (featureFlags tf)) (λ _ tf, (Ok tt, tf)).

(** [ip2int(ip)]: a text that is no IPv4 address makes [Uint32(nil)] panic. *)
Definition ip2int (ipString : string) : res Z :=
  match net_ParseIP (bytes_of_string ipString) ≫= To4 with
  | Some [a; b; c; d] =>
      Ok (Z_of_byte a * 16777216 + Z_of_byte b * 65536 + Z_of_byte c * 256 + Z_of_byte d)%Z
  | _ => Panic
  end.

Definition LoadDNSFwd (ip : string) (dnsPort : Z) (tf : GeneralManager) : res unit * GeneralManager :=
  then_m (loadXdp tf) (λ tf,
    match ip2int ip with
    | Ok v => step_k tf (map_Put (kernel tf) NbMapDnsIp mapKeyDNSIP v) (λ _ tf,
              step_k tf (map_Put (kernel tf) NbMapDnsPort mapKeyDNSPort (uint16 dnsPort)) (λ _ tf,
              publish_feature featureFlagDnsForwarder tf))
    | _ => (Panic, tf)
    end).

Definition FreeDNSFwd (tf : GeneralManager) : res unit * GeneralManager :=
  unsetFeatureFlag featureFlagDnsForwarder tf.

Definition LoadWgProxy (proxyPort wgPort : Z) (tf : GeneralManager) : res unit * GeneralManager :=
  then_m (loadXdp tf) (λ tf,
    step_k tf (map_Put (kernel tf) NbWgProxySettingsMap mapKeyProxyPort (uint16 proxyPort)) (λ _ tf,
    step_k tf (map_Put (kernel tf) NbWgProxySettingsMap mapKeyWgPort (uint16 wgPort)) (λ _ tf,
    publish_feature featureFlagWGProxy tf))).

Definition FreeWGProxy (tf : GeneralManager) : res unit * GeneralManager :=
  unsetFeatureFlag featureFlagWGProxy tf.

(** ** The interface [manager.Manager] *)
Inductive manager_op :=
| OpLoadDNSFwd (ip : string) (dnsPort : Z)
| OpFreeDNSFwd
| OpLoadWgProxy (proxyPort wgPort : Z)
| OpFreeWGProxy.

Definition run_manager (op : manager_op) : GeneralManager → res unit * GeneralManager :=
  match op with
  | OpLoadDNSFwd ip p => LoadDNSFwd ip p
  | OpFreeDNSFwd => FreeDNSFwd
  | OpLoadWgProxy p w => LoadWgProxy p w
  | OpFreeWGProxy => FreeWGProxy
  end.

(** A call that panics ends the program, so only the others go on. *)
Inductive mstep : GeneralManager → GeneralManager → Prop :=
| mstep_op tf op : (run_manager op tf).1 ≠ Panic → mstep tf (run_manager op tf).2.

Definition newGeneralManager (k : K) : GeneralManager := mkManager None 0 k.

(** ** The flags and the link *)

(** No link, no flags; and only the two flags. *)
Definition minv (tf : GeneralManager) : Prop :=
  featureFlags tf ∈ [0; 1; 2; 3]%Z ∧ (link tf = None → featureFlags tf = 0%Z).

Lemma minv_set_kernel k tf : minv tf → minv (set_kernel k tf).
Proof. done. Qed.

Lemma minv_step_k {A} tf (r : res A * K) f :
  minv tf → (∀ a tf', minv tf' → link tf' = link tf → featureFlags tf' = featureFlags tf → minv (f a tf').2) →
  minv (step_k tf r f).2.
Proof. intros I Hf. destruct r as [[a|e|] k]; cbn [step_k snd]; [by apply Hf|done..]. Qed.

Lemma loadXdp_spec tf :
  let '(r, tf') := loadXdp tf in
  featureFlags tf' = featureFlags tf ∧
  (r = Ok tt → is_Some (link tf')) ∧ (link tf' = None → link tf = None).
Proof.
  unfold loadXdp. destruct (link tf) as [l|] eqn:Hl; [by split_and!; intros; [|rewrite Hl; eexists|congruence]|].
  destruct (RemoveMemlock (kernel tf)) as [[] k1]; cbn [step_k]; [|done..].
  destruct (InterfaceByName_lo _) as [[] k2]; cbn [step_k]; [|done..].
  destruct (loadBpfObjects _) as [[] k3]; cbn [step_k]; [|done..].
  by destruct (AttachXDP _ _) as [[] k4].
Qed.

Lemma minv_loadXdp tf : minv tf → minv (loadXdp tf).2.
Proof.
  intros [Hf Hl]. pose proof (loadXdp_spec tf) as H. destruct (loadXdp tf) as [r tf'].
  destruct H as (E & _ & Hn). split; cbn; rewrite E; [done|]. intros ?%Hn. auto.
Qed.

Lemma flags_lor x f : x ∈ [0; 1; 2; 3]%Z → f ∈ [1; 2]%Z → Z.lor x f ∈ [0; 1; 2; 3]%Z.
Proof. rewrite !elem_of_cons, !elem_of_nil. intros Hx Hf. naive_solver. Qed.

Lemma flags_ldiff x f : x ∈ [0; 1; 2; 3]%Z → f ∈ [1; 2]%Z → Z.ldiff x f ∈ [0; 1; 2; 3]%Z.
Proof. rewrite !elem_of_cons, !elem_of_nil. intros Hx Hf. naive_solver. Qed.

Lemma minv_publish f tf : f ∈ [1; 2]%Z → minv tf → is_Some (link tf) → minv (publish_feature f tf).2.
Proof.
  intros Hf [Hx _] [l Hl]. unfold publish_feature. apply minv_step_k; [|done].
  split; cbn; [by apply flags_lor|congruence].
Qed.

Lemma minv_unset f tf : f ∈ [1; 2]%Z → minv tf → minv (unsetFeatureFlag f tf).2.
Proof.
  intros Hf [Hx Hl]. unfold unsetFeatureFlag. cbn [link featureFlags].
  destruct (link tf) as [l|] eqn:El.
  - destruct (Z.ldiff (featureFlags tf) f =? 0)%Z eqn:Hz.
    + unfold close. cbn [link]. destruct (link_Close _ _) as [r k]. cbn.
      apply Z.eqb_eq in Hz. split; cbn; [by apply flags_ldiff|done].
    + apply minv_step_k; [|done]. split; cbn; [by apply flags_ldiff|done].
  - split; cbn; [by apply flags_ldiff|]. intros _. by rewrite Hl.
Qed.

Lemma minv_run op tf : minv tf → minv (run_manager op tf).2.
Proof.
  intros I. destruct op as [ip p| |p w|]; cbn [run_manager].
  - unfold LoadDNSFwd. pose proof (loadXdp_spec tf) as Hs. pose proof (minv_loadXdp tf I) as Hm.
    destruct (loadXdp tf) as [[[]|e|] tf1]; cbn [then_m snd] in *; [|done..].
    destruct Hs as (_ & Hs & _). specialize (Hs eq_refl). destruct (ip2int ip); [|done..].
    apply minv_step_k; [done|]. intros _ tf2 I2 L2 _. apply minv_step_k; [done|].
    intros _ tf3 I3 L3 _. apply minv_publish; [by right; left|done|by rewrite L3, L2].
  - apply minv_unset; [by right; left|done].
  - unfold LoadWgProxy. pose proof (loadXdp_spec tf) as Hs. pose proof (minv_loadXdp tf I) as Hm.
    destruct (loadXdp tf) as [[[]|e|] tf1]; cbn [then_m snd] in *; [|done..].
    destruct Hs as (_ & Hs & _). specialize (Hs eq_refl).
    apply minv_step_k; [done|]. intros _ tf2 I2 L2 _. apply minv_step_k; [done|].
    intros _ tf3 I3 L3 _. apply minv_publish; [by left|done|by rewrite L3, L2].
  - apply minv_unset; [by left|done].
Qed.
End manager.
Global Arguments GeneralManager K {BK}.

Section facts.
Context {K : Type} {BK : BpfKernel K}.
Implicit Types tf : GeneralManager K.

Lemma minv_reachable k tf : rtc mstep (newGeneralManager k) tf → minv tf.
Proof.
  intros Hr. eapply (rtc_invariant mstep minv); [|exact Hr|].
  - intros s s' I Hs. inversion Hs; subst. by apply minv_run.
  - split; cbn; [by left|done].
Qed.

(** What success of an operation means. *)
Definition loaded (f : Z) tf tf' (word : K → Z) : Prop :=
  is_Some (link tf') ∧ featureFlags tf' = Z.lor (featureFlags tf) f ∧
  word (kernel tf') = featureFlags tf'.
Definition freed (f : Z) tf tf' (word : K → Z) : Prop :=
  featureFlags tf' = Z.ldiff (featureFlags tf) f ∧
  (featureFlags tf' = 0%Z → link tf' = None) ∧
  (featureFlags tf' ≠ 0%Z → link tf' = link tf ∧ word (kernel tf') = featureFlags tf').

Lemma step_k_Ok {A} tf (r : res A * K) f tf' :
  step_k tf r f = (Ok tt, tf') → ∃ a k, r = (Ok a, k) ∧ f a (set_kernel k tf) = (Ok tt, tf').
Proof. destruct r as [[a|e|] k]; cbn [step_k]; [eauto|done..]. Qed.

Lemma publish_Ok f tf tf' (word : K → Z) :
  (∀ k v k', map_Put k NbFeatures mapKeyFeatures v = (Ok tt, k') → word k' = v) →
  publish_feature f tf = (Ok tt, tf') → is_Some (link tf) → loaded f tf tf' word.
Proof.
  unfold publish_feature. intros Hw (a & k & Hp & [= <-])%step_k_Ok Hl. destruct a.
  split_and!; [done|done|]. cbn. by eapply Hw.
Qed.

Lemma unset_Ok f tf tf' (word : K → Z) :
  (∀ k v k', map_Put k NbFeatures mapKeyFeatures v = (Ok tt, k') → word k' = v) →
  minv tf → unsetFeatureFlag f tf = (Ok tt, tf') → freed f tf tf' word.
Proof.
  intros Hw [_ Hl]. unfold unsetFeatureFlag, freed. cbn [link featureFlags].
  destruct (link tf) as [l|] eqn:El.
  - destruct (Z.ldiff (featureFlags tf) f =? 0)%Z eqn:Hz.
    + apply Z.eqb_eq in Hz. unfold close. cbn [link]. destruct (link_Close _ _) as [r k].
      intros [= -> <-]. cbn. split_and!; [done|done|]. intros Hnz. by destruct Hnz.
    + apply Z.eqb_neq in Hz. intros (a & k & Hp & [= <-])%step_k_Ok. destruct a. cbn.
      split_and!; [done|done|]. intros _. split; [done|]. by eapply Hw.
  - intros [= <-]. cbn. split_and!; [done|done|]. intros Hnz. by rewrite Hl, Z.ldiff_0_l in Hnz.
Qed.

(** C38. In every reachable state the program is detached only while no feature
    is on. A successful load attaches it, adds its own feature to those that
    were on and tells the kernel the result; a successful free removes only
    its own, keeps the link while another feature is on and detaches the
    program with the last one. *)
Theorem manager_features k (word : K → Z) tf op tf' :
  (∀ k v k', map_Put k NbFeatures mapKeyFeatures v = (Ok tt, k') → word k' = v) →
  rtc mstep (newGeneralManager k) tf → run_manager op tf = (Ok tt, tf') →
  (link tf' = None → featureFlags tf' = 0%Z) ∧
  match op with
  | OpLoadDNSFwd ip _ => (∃ v, ip2int ip = Ok v) ∧ loaded featureFlagDnsForwarder tf tf' word
  | OpLoadWgProxy _ _ => loaded featureFlagWGProxy tf tf' word
  | OpFreeDNSFwd => freed featureFlagDnsForwarder tf tf' word
  | OpFreeWGProxy => freed featureFlagWGProxy tf tf' word
  end.
Proof.
  intros Hw Hr Hop. pose proof (minv_reachable _ _ Hr) as I.
  split.
  { pose proof (minv_run op tf I) as [_ Hl]. by rewrite Hop in Hl. }
  pose proof (loadXdp_spec tf) as Hs.
  destruct op as [ip p| |p w|]; cbn [run_manager] in Hop.
  - unfold LoadDNSFwd in Hop. destruct (loadXdp tf) as [[[]|e|] tf1]; cbn [then_m] in Hop; [|done..].
    destruct Hs as (E & Hs & _). specialize (Hs eq_refl).
    destruct (ip2int ip) as [v| |]; [|done..]. split; [by exists v|].
    apply step_k_Ok in Hop as (? & k2 & _ & Hop). apply step_k_Ok in Hop as (? & k3 & _ & Hop).
    apply (publish_Ok _ _ _ word) in Hop as (H1 & H2 & H3); [|done|done].
    split_and!; [done| |done]. by rewrite H2; cbn; rewrite E.
  - by apply unset_Ok.
  - unfold LoadWgProxy in Hop. destruct (loadXdp tf) as [[[]|e|] tf1]; cbn [then_m] in Hop; [|done..].
    destruct Hs as (E & Hs & _). specialize (Hs eq_refl).
    apply step_k_Ok in Hop as (? & k2 & _ & Hop). apply step_k_Ok in Hop as (? & k3 & _ & Hop).
    apply (publish_Ok _ _ _ word) in Hop as (H1 & H2 & H3); [|done|done].
    split_and!; [done| |done]. by rewrite H2; cbn; rewrite E.
  - by apply unset_Ok.
Qed.

(** [ip2int] has no error to return: a text that is no IPv4 address panics. *)
Theorem ip2int_panics ip :
  ip2int ip = Panic ↔ (net_ParseIP (bytes_of_string ip) ≫= To4) = None.
Proof.
  unfold ip2int. destruct (net_ParseIP (bytes_of_string ip)) as [x|]; cbn [mbind option_bind]; [|done].
  destruct (To4 x) as [y|] eqn:Hy; [|done].
  destruct (To4_Some_cons _ _ Hy) as (a & b & c & d & ->). done.
Qed.
End facts.

(** ** A kernel that accepts everything *)

Record ex_kernel_state := mkExKernel { ex_attached : bool; ex_features : Z }.

#[export] Instance ex_BpfKernel : BpfKernel ex_kernel_state := {|
  link_t := unit;
  RemoveMemlock k := (Ok tt, k);
  InterfaceByName_lo k := (Ok 1%Z, k);
  loadBpfObjects k := (Ok tt, k);
  AttachXDP k _ := (Ok tt, mkExKernel true (ex_features k));
  objs_Close k := (Ok tt, k);
  link_Close k _ := (Ok tt, mkExKernel false (ex_features k));
  map_Put k m _ v := (Ok tt, match m with NbFeatures => mkExKernel (ex_attached k) v | _ => k end)
|}.

Definition ex_manager : GeneralManager ex_kernel_state :=
  (LoadWgProxy 3128 51820 (LoadDNSFwd "10.0.0.1" 53 (newGeneralManager (mkExKernel false 0))).2).2.

Lemma manager_features_witness :
  freed featureFlagDnsForwarder ex_manager (FreeDNSFwd ex_manager).2 ex_features ∧
  ex_features (kernel (FreeDNSFwd ex_manager).2) = 1%Z.
Proof.
  assert (rtc mstep (newGeneralManager (mkExKernel false 0)) ex_manager) as Hr.
  { eapply rtc_l; [apply (mstep_op _ (OpLoadDNSFwd "10.0.0.1" 53)); by vm_compute|].
    apply rtc_once, (mstep_op _ (OpLoadWgProxy 3128 51820)). by vm_compute. }
  split; [|by vm_compute].
  apply (manager_features (mkExKernel false 0) ex_features ex_manager OpFreeDNSFwd (FreeDNSFwd ex_manager).2);
    [|exact Hr|by vm_compute].
  by intros k v k' [= <-].
Defined.
