(* ===== verification/WgProxy.v ===== *)
(** * [client/internal/wgproxy]: moving WireGuard packets through a relay

    The eBPF proxy gives every relayed (TURN) connection a local port of its
    own and tells them apart by it; the userspace proxy has one connection
    each. [portlookup.go] finds a port to listen on, [factory*.go] chooses
    between the two. Sockets and syscalls are parameters. *)
From Stdlib Require Import Ascii.
From S2P Require Import Prelude GoStrings GoNet Ebpf.

(** ** [portlookup.go] *)

Definition portRangeStart : Z := 3128.
Definition portRangeEnd : Z := 3228.

(** The loop from [i] for [n] ports; [tryToBind i] is [nil] or an error. *)
Fixpoint search_from (tryToBind : Z → res unit) (i : Z) (n : nat) : res Z :=
  match n with
  | O => Err (Errorf "failed to bind free port for eBPF proxy")
  | S n => match tryToBind i with
           | Ok _ => Ok i
           | Err _ => search_from tryToBind (i + 1) n
           | Panic => Panic
           end
  end.

Definition searchFreePort (tryToBind : Z → res unit) : res Z :=
  search_from tryToBind portRangeStart (Z.to_nat (portRangeEnd - portRangeStart + 1)).

Lemma search_from_spec tryToBind i n :
  (∀ j, tryToBind j ≠ Panic) →
  match search_from tryToBind i n with
  | Ok p => (i ≤ p < i + Z.of_nat n)%Z ∧ is_ok (tryToBind p) = true ∧
            ∀ j, (i ≤ j < p)%Z → is_ok (tryToBind j) = false
  | Err _ => ∀ j, (i ≤ j < i + Z.of_nat n)%Z → is_ok (tryToBind j) = false
  | Panic => False
  end.
Proof.
  intros Hnp. revert i. induction n as [|n IH]; intros i; cbn [search_from]; [lia|].
  destruct (tryToBind i) eqn:Hi; [|specialize (IH (i + 1)%Z)|by destruct (Hnp i)].
  - rewrite Hi. split_and!; [lia|lia|done|lia].
  - revert IH. destruct (search_from tryToBind (i + 1) n) as [p|e'|]; intros IH; [| |done].
    + destruct IH as (H1 & H2 & H3). split_and!; [lia|lia|done|].
      intros j Hj. destruct (decide (j = i)) as [->|]; [by rewrite Hi|]. apply H3. lia.
    + intros j Hj. destruct (decide (j = i)) as [->|]; [by rewrite Hi|]. apply IH. lia.
Qed.

(** ** The ports of the eBPF proxy *)

Section ebpf_proxy.
Context {Conn : Type}.

(** The part of [WGEBPFProxy] that [turnConnMutex] guards; ports are [uint16]. *)
Record turn_store := mkStore { lastUsedPort : Z; turnConnStore : gmap Z Conn }.

Definition next_port (p : Z) : Z := if (p =? 65535)%Z then 1%Z else (p + 1)%Z.

(** The loop of [nextFreePort] from [generatePort] on. *)
Fixpoint generatePort (fuel : nat) (st : turn_store) : option Z :=
  match fuel with
  | O => None
  | S fuel =>
      let p := next_port (lastUsedPort st) in
      match turnConnStore st !! p with
      | Some _ => generatePort fuel (mkStore p (turnConnStore st))
      | None => Some p
      end
  end.

Definition all_ports : nat := Z.to_nat 65535.

(** [nextFreePort()]; [None] is a loop that does not end. *)
Definition nextFreePort (st : turn_store) : option (res Z * turn_store) :=
  if bool_decide (Z.of_nat (size (turnConnStore st)) = 65535)%Z
  then Some (Err (Errorf "reached maximum turn connection numbers"), st)
  else p ← generatePort all_ports st; Some (Ok p, mkStore p (turnConnStore st)).

Definition storeTurnConn (st : turn_store) (turnConn : Conn) : option (res Z * turn_store) :=
  '(r, st) ← nextFreePort st;
  match r with
  | Ok np => Some (Ok np, mkStore (lastUsedPort st) (<[np := turnConn]> (turnConnStore st)))
  | _ => Some (r, st)
  end.

Definition removeTurnConn (st : turn_store) (turnConnID : Z) : turn_store :=
  mkStore (lastUsedPort st) (delete turnConnID (turnConnStore st)).

(** [AddTurnConn(turnConn)]: the endpoint WireGuard is to use. *)
Definition AddTurnConn (st : turn_store) (turnConn : Conn) : option (res netAddr * turn_store) :=
  '(r, st) ← storeTurnConn st turnConn;
  Some (p ← r; Ok (AUDP (mkUDPAddr (v4InV6Prefix ++ map byte_of_Z [127; 0; 0; 1]%Z) p EmptyString)), st).

(** Ports are in range. *)
Definition store_ok (st : turn_store) : Prop :=
  (0 ≤ lastUsedPort st ≤ 65535)%Z ∧ ∀ p, is_Some (turnConnStore st !! p) → (1 ≤ p ≤ 65535)%Z.

(** The [k]-th port after [last], counting round from 65535 to 1. *)
Definition port_after (last k : Z) : Z := ((last + k - 1) `mod` 65535 + 1)%Z.

Lemma port_after_range last k : (1 ≤ port_after last k ≤ 65535)%Z.
Proof. unfold port_after. pose proof (Z.mod_pos_bound (last + k - 1) 65535 ltac:(lia)). lia. Qed.

Lemma next_port_after last : (0 ≤ last ≤ 65535)%Z → next_port last = port_after last 1.
Proof.
  intros Hl. unfold next_port, port_after. replace (last + 1 - 1)%Z with last by lia.
  destruct (last =? 65535)%Z eqn:He; [apply Z.eqb_eq in He as ->; done|].
  apply Z.eqb_neq in He. rewrite Z.mod_small by lia. lia.
Qed.

Lemma port_after_next last k :
  (0 ≤ last ≤ 65535)%Z → port_after (next_port last) k = port_after last (k + 1).
Proof.
  intros Hl. unfold next_port, port_after. destruct (last =? 65535)%Z eqn:He.
  - apply Z.eqb_eq in He as ->. replace (65535 + (k + 1) - 1)%Z with ((1 + k - 1) + 1 * 65535)%Z by lia.
    by rewrite Z.mod_add by lia.
  - do 2 f_equal. lia.
Qed.

Lemma generatePort_spec fuel st :
  (0 ≤ lastUsedPort st ≤ 65535)%Z →
  match generatePort fuel st with
  | Some p => ∃ k, (1 ≤ k ≤ Z.of_nat fuel)%Z ∧ p = port_after (lastUsedPort st) k ∧
      turnConnStore st !! p = None ∧
      ∀ j, (1 ≤ j < k)%Z → is_Some (turnConnStore st !! port_after (lastUsedPort st) j)
  | None => ∀ j, (1 ≤ j ≤ Z.of_nat fuel)%Z → is_Some (turnConnStore st !! port_after (lastUsedPort st) j)
  end.
Proof.
  revert st. induction fuel as [|fuel IH]; intros st Hl; cbn [generatePort]; [lia|].
  rewrite next_port_after by done.
  pose proof (port_after_range (lastUsedPort st) 1) as Hr.
  destruct (turnConnStore st !! port_after (lastUsedPort st) 1) as [c|] eqn:Hc.
  - specialize (IH (mkStore (port_after (lastUsedPort st) 1) (turnConnStore st)) ltac:(cbn; lia)).
    cbn [lastUsedPort turnConnStore] in IH.
    assert (∀ j, port_after (port_after (lastUsedPort st) 1) j = port_after (lastUsedPort st) (j + 1)) as Hnext.
    { intros j. by rewrite <-next_port_after, port_after_next. }
    destruct (generatePort fuel _) as [p|].
    + destruct IH as (k & Hk & -> & Hn & Hall). exists (k + 1)%Z. split_and!; [lia|lia|by rewrite Hnext|done|].
      intros j Hj. destruct (decide (j = 1)%Z) as [->|]; [by eexists|].
      replace j with ((j - 1) + 1)%Z by lia. rewrite <-Hnext. apply Hall. lia.
    + intros j Hj. destruct (decide (j = 1)%Z) as [->|]; [by eexists|].
      replace j with ((j - 1) + 1)%Z by lia. rewrite <-Hnext. apply IH. lia.
  - exists 1%Z. split_and!; [lia|lia|done|done|]. lia.
Qed.

(** Every port is the [k]-th after [last] for some [k]. *)
Lemma port_after_all last p :
  (0 ≤ last ≤ 65535)%Z → (1 ≤ p ≤ 65535)%Z → ∃ k, (1 ≤ k ≤ 65535)%Z ∧ port_after last k = p.
Proof.
  intros Hl Hp. exists ((p - 1 - last) `mod` 65535 + 1)%Z.
  pose proof (Z.mod_pos_bound (p - 1 - last) 65535 ltac:(lia)). split; [lia|].
  unfold port_after.
  replace (last + ((p - 1 - last) `mod` 65535 + 1) - 1)%Z with (last + (p - 1 - last) `mod` 65535)%Z by lia.
  rewrite Z.add_mod_idemp_r by lia. replace (last + (p - 1 - last))%Z with (p - 1)%Z by lia.
  rewrite Z.mod_small by lia. lia.
Qed.

(** A map with a value at every port has 65535 entries at least. *)
Lemma full_store (m : gmap Z Conn) :
  (∀ p, (1 ≤ p ≤ 65535)%Z → is_Some (m !! p)) → (65535 ≤ Z.of_nat (size m))%Z.
Proof.
  intros Hall. set (ports := list_to_set (C := gset Z) (seqZ 1 65535)).
  assert (ports ⊆ dom m) as Hsub.
  { intros p. unfold ports. rewrite elem_of_list_to_set, elem_of_seqZ, elem_of_dom. intros Hp. apply Hall. lia. }
  apply subseteq_size in Hsub. rewrite size_dom in Hsub. unfold ports in Hsub.
  rewrite size_list_to_set in Hsub by apply NoDup_seqZ. rewrite length_seqZ in Hsub. lia.
Qed.

Lemma store_size_bound st : store_ok st → (Z.of_nat (size (turnConnStore st)) ≤ 65535)%Z.
Proof.
  intros [_ Hr]. assert (dom (turnConnStore st) ⊆ list_to_set (C := gset Z) (seqZ 1 65535)) as Hsub.
  { intros p. rewrite elem_of_dom, elem_of_list_to_set, elem_of_seqZ. intros Hp%Hr. lia. }
  apply subseteq_size in Hsub. rewrite size_dom, size_list_to_set in Hsub by apply NoDup_seqZ.
  rewrite length_seqZ in Hsub. lia.
Qed.

(** C27. [nextFreePort] terminates, within 65535 rounds of its loop: it fails
    exactly when all ports are taken, and else returns the first free port
    after the last one used, going round from 65535 to 1 and never to 0. *)
Theorem nextFreePort_first_free st :
  store_ok st →
  ∃ r st', nextFreePort st = Some (r, st') ∧ turnConnStore st' = turnConnStore st ∧
  match r with
  | Ok p => (1 ≤ p ≤ 65535)%Z ∧ lastUsedPort st' = p ∧ turnConnStore st !! p = None ∧
      ∃ k, p = port_after (lastUsedPort st) k ∧
        ∀ j, (1 ≤ j < k)%Z → is_Some (turnConnStore st !! port_after (lastUsedPort st) j)
  | Err _ => st' = st ∧ ∀ p, (1 ≤ p ≤ 65535)%Z → is_Some (turnConnStore st !! p)
  | Panic => False
  end.
Proof.
  intros Hok. pose proof Hok as [Hl Hr]. unfold nextFreePort. case_bool_decide as Hsz.
  - do 2 eexists. split; [done|]. split; [done|]. split; [done|]. intros p Hp.
    destruct (turnConnStore st !! p) as [c|] eqn:Hc; [by eexists|]. exfalso.
    assert (dom (turnConnStore st) ⊆ list_to_set (C := gset Z) (seqZ 1 65535) ∖ {[p]}) as Hsub.
    { intros q. rewrite elem_of_dom, elem_of_difference, elem_of_list_to_set, elem_of_seqZ, elem_of_singleton.
      intros Hq. split; [apply Hr in Hq; lia|]. intros ->. rewrite Hc in Hq. by destruct Hq. }
    apply subseteq_size in Hsub. rewrite size_dom, size_difference in Hsub.
    + rewrite size_list_to_set, length_seqZ, size_singleton in Hsub by apply NoDup_seqZ. lia.
    + intros q ->%elem_of_singleton. rewrite elem_of_list_to_set, elem_of_seqZ. lia.
  - pose proof (generatePort_spec all_ports st Hl) as Hg. unfold all_ports in *.
    destruct (generatePort (Z.to_nat 65535) st) as [p|].
    + cbn [mbind option_bind]. destruct Hg as (k & Hk & -> & Hn & Hall).
      do 2 eexists. split; [done|]. split; [done|].
      split; [apply port_after_range|]. split; [done|]. split; [done|]. by exists k.
    + exfalso. apply Hsz. apply Z.le_antisymm; [by apply store_size_bound|].
      apply full_store. intros p Hp. destruct (port_after_all (lastUsedPort st) p Hl Hp) as (k & Hk & <-).
      apply Hg. lia.
Qed.

(** [proxyToRemote], one packet from WireGuard: the connection of the port it
    was sent to, with what fits the buffer it is read into, or nothing. *)
Definition proxy_buffer : nat := 1500.
Definition to_remote (st : turn_store) (b : list Ascii.ascii) (addrPort : Z) :
    option (Conn * list Ascii.ascii) :=
  c ← turnConnStore st !! (addrPort `mod` 65536)%Z; Some (c, take proxy_buffer b).

(** [proxyToLocal]: what it reads until the first error, [EOF] included, goes
    out from the connection's port; then the port is removed. *)
Fixpoint to_local (reads : list (res (list Ascii.ascii))) : list (list Ascii.ascii) :=
  match reads with
  | Ok b :: reads => b :: to_local reads
  | _ => []
  end.

(** ** Connections and their goroutines

    [AddTurnConn] stores a connection and starts [proxyToLocal] for it, which
    removes its port when it ends. *)
Record proxy_world := mkPW { pw_store : turn_store; pw_running : list (Z * Conn) }.

Inductive pstep : proxy_world → proxy_world → Prop :=
| pstep_add st rs c a st' :
    AddTurnConn st c = Some (Ok (AUDP a), st') → pstep (mkPW st rs) (mkPW st' ((ua_Port a, c) :: rs))
| pstep_add_full st rs c e st' :
    AddTurnConn st c = Some (Err e, st') → pstep (mkPW st rs) (mkPW st' rs)
| pstep_end st rs1 rs2 p c :
    pstep (mkPW st (rs1 ++ (p, c) :: rs2)) (mkPW (removeTurnConn st p) (rs1 ++ rs2)).

Definition pw_ok (w : proxy_world) : Prop :=
  store_ok (pw_store w) ∧ NoDup (pw_running w).*1 ∧
  turnConnStore (pw_store w) = list_to_map (pw_running w).

Lemma pstep_ok w w' : pw_ok w → pstep w w' → pw_ok w'.
Proof.
  intros (Hok & Hnd & Hm) Hs. destruct Hs as [st rs c a st' Ha|st rs c e st' Ha|st rs1 rs2 p c];
    cbn [pw_store pw_running] in *.
  - destruct (nextFreePort_first_free st Hok) as (r & st1 & Hn & E & Hr).
    unfold AddTurnConn, storeTurnConn in Ha. rewrite Hn in Ha. cbn [mbind option_bind] in Ha.
    destruct r as [np|e|]; [|done..]. cbn [mbind option_bind res_bind] in Ha.
    injection Ha as <- <-. cbn [ua_Port]. rewrite E.
    destruct Hr as (Hp & Hlast & Hfree & _). split_and!.
    + split; cbn; [lia|]. intros q. destruct (decide (q = np)) as [->|]; [done|].
      rewrite lookup_insert_ne by done. apply Hok.
    + cbn [fmap list_fmap fst]. apply list.NoDup_cons. split; [|done].
      intros Hin. rewrite Hm in Hfree. by apply not_elem_of_list_to_map in Hfree.
    + cbn. by rewrite Hm.
  - destruct (nextFreePort_first_free st Hok) as (r & st1 & Hn & E & Hr).
    unfold AddTurnConn, storeTurnConn in Ha. rewrite Hn in Ha. cbn [mbind option_bind] in Ha.
    destruct r as [np|e'|]; [done| |done]. cbn [mbind option_bind res_bind] in Ha. injection Ha as <- <-.
    destruct Hr as [-> _]. done.
  - assert (∀ q d, (q, d) ∈ rs1 ++ (p, c) :: rs2 ↔ turnConnStore st !! q = Some d) as Hin.
    { intros q d. rewrite Hm. by apply elem_of_list_to_map. }
    rewrite fmap_app, fmap_cons in Hnd. cbn [fst] in Hnd.
    assert (NoDup (rs1 ++ rs2).*1 ∧ p ∉ (rs1 ++ rs2).*1) as [Hnd' Hp].
    { rewrite fmap_app, elem_of_app. apply list.NoDup_app in Hnd as (H1 & H2 & [H3 H4]%list.NoDup_cons).
      split; [apply list.NoDup_app; split_and!; [done| |done]|].
      - intros x Hx Hx'. apply (H2 x Hx). by right.
      - intros [Hx|Hx]; [apply (H2 p Hx); by left|done]. }
    split_and!; [|done|].
    + split; [apply Hok|]. intros q. cbn. rewrite lookup_delete_is_Some. intros [_ Hq]. by apply Hok.
    + cbn. apply map_eq. intros q. destruct (decide (q = p)) as [->|Hne].
      * rewrite lookup_delete_eq. symmetry. by apply not_elem_of_list_to_map.
      * rewrite lookup_delete_ne by done. apply option_eq. intros d. rewrite <-Hin.
        rewrite <-(elem_of_list_to_map (M := gmap Z)) by done.
        rewrite !elem_of_app, elem_of_cons. split; [|tauto]. intros [?|[[= -> ->]|?]]; [by left|done|by right].
Qed.

Definition new_proxy : proxy_world := mkPW (mkStore 0 ∅) [].

Lemma pw_reachable w : rtc pstep new_proxy w → pw_ok w.
Proof.
  intros Hr. eapply (rtc_invariant pstep pw_ok); [intros; by eapply pstep_ok|exact Hr|].
  split_and!; [split; cbn; [lia|]|constructor|done].
  intros q [? Hq]. by rewrite lookup_empty in Hq.
Qed.

Lemma pw_lookup w p c : pw_ok w → turnConnStore (pw_store w) !! p = Some c ↔ (p, c) ∈ pw_running w.
Proof. intros (_ & Hnd & Hm). rewrite Hm. symmetry. by apply elem_of_list_to_map. Qed.

Lemma running_route w p c : pw_ok w → (p, c) ∈ pw_running w →
  (1 ≤ p ≤ 65535)%Z ∧ ∀ b, to_remote (pw_store w) b p = Some (c, take proxy_buffer b).
Proof.
  intros Hok Hpc%(pw_lookup w p c Hok).
  assert (1 ≤ p ≤ 65535)%Z as Hp by (apply Hok; by exists c).
  split; [done|]. intros b. unfold to_remote. rewrite Z.mod_small by lia. by rewrite Hpc.
Qed.

(** C26. In every interleaving of new and ending connections a port belongs to
    one running connection and finds exactly it: no two share a port, an ended
    one is gone, ports stay in 1 to 65535, and what WireGuard answers to the
    port goes to that connection, the first 1500 bytes of a datagram. *)
Theorem turn_ports_route w p c :
  rtc pstep new_proxy w →
  (turnConnStore (pw_store w) !! p = Some c ↔ (p, c) ∈ pw_running w) ∧
  ((p, c) ∈ pw_running w → (1 ≤ p ≤ 65535)%Z ∧ (∀ d, (p, d) ∈ pw_running w → d = c) ∧
    ∀ b, to_remote (pw_store w) b p = Some (c, take proxy_buffer b)).
Proof.
  intros Hok%pw_reachable. split; [by apply pw_lookup|]. intros Hpc.
  destruct (running_route w p c Hok Hpc) as [Hp Hroute]. split_and!; [lia|lia| |done].
  intros d Hd%(pw_lookup w p d Hok). apply (pw_lookup w p c Hok) in Hpc. congruence.
Qed.
End ebpf_proxy.

(** ** Packets to WireGuard *)

Definition loopback : list Ascii.ascii := map byte_of_Z [127; 0; 0; 1]%Z.

(** google/gopacket: an IPv4/UDP packet, lengths and checksums filled in. *)
Class Gopacket := {
  SerializeUDP : list Ascii.ascii → list Ascii.ascii → Z → Z → list Ascii.ascii → res (list Ascii.ascii)
}.

(** The raw socket and the proxy's own; [net_ListenPacket_once] is listening on
    an address with the listener closed at once. *)
Class ProxySys (Σ : Type) := {
  rawConn_t : Type;
  conn_t : Type;
  net_ListenPacket_once : Σ → string → string → res unit;
  sys_Socket : Σ → res Z * Σ;
  sys_SetHdrincl : Σ → Z → res unit * Σ;
  sys_BindToDevice_lo : Σ → Z → res unit * Σ;
  nbnet_SetSocketOpt : Σ → Z → res unit * Σ;
  os_NewFile : Σ → Z → bool;
  net_FilePacketConn : Σ → Z → res rawConn_t * Σ;
  nbnet_ListenUDP : Σ → UDPAddr → res conn_t * Σ;
  raw_WriteTo : Σ → rawConn_t → list Ascii.ascii → list Ascii.ascii → res unit * Σ;
  raw_Close : Σ → rawConn_t → res unit * Σ;
  udp_Close : Σ → conn_t → res unit * Σ
}.

Definition tryToBind {Σ : Type} {PS : ProxySys Σ} (s : Σ) (port : Z) : res unit :=
  net_ListenPacket_once s "udp" (":" +:+ strconv_Itoa port).

(** The two calls of [ebpfMgr.Manager] the proxy makes. *)
Class WgProxyManager (M : Type) := {
  mgr_LoadWgProxy : M → Z → Z → res unit * M;
  mgr_FreeWGProxy : M → res unit * M
}.

(** The eBPF manager is such a manager. *)
#[export] Instance GeneralManager_WgProxyManager {K} `{BpfKernel K} : WgProxyManager (GeneralManager K) := {|
  mgr_LoadWgProxy m proxyPort wgPort := LoadWgProxy proxyPort wgPort m;
  mgr_FreeWGProxy m := FreeWGProxy m
|}.

Section proxy.
Context {Σ M Conn : Type} {PS : ProxySys Σ} {WM : WgProxyManager M} {GP : Gopacket}.

(** [WGEBPFProxy], with the system and the manager it acts on. *)
Record WGEBPFProxy := mkProxy {
  px_sys : Σ;
  ebpfManager : M;
  localWGListenPort : Z;
  px_store : turn_store (Conn := Conn);
  rawConn : option rawConn_t;
  px_conn : option conn_t
}.

(** [CloseConn()]: the connections are not the proxy's to close. *)
Definition CloseConn (p : WGEBPFProxy) : res unit := Ok tt.

Definition NewWGEBPFProxy (sys : Σ) (mgr : M) (wgPort : Z) : WGEBPFProxy :=
  mkProxy sys mgr wgPort (mkStore 0 ∅) None None.

Definition set_sys s p := mkProxy s (ebpfManager p) (localWGListenPort p) (px_store p) (rawConn p) (px_conn p).
Definition set_mgr m p := mkProxy (px_sys p) m (localWGListenPort p) (px_store p) (rawConn p) (px_conn p).
Definition set_raw r p := mkProxy (px_sys p) (ebpfManager p) (localWGListenPort p) (px_store p) r (px_conn p).
Definition set_conn c p := mkProxy (px_sys p) (ebpfManager p) (localWGListenPort p) (px_store p) (rawConn p) c.

(** A system call of a sequence, its error wrapped with what it was for. *)
Definition sys_step {A C} (pre : string) (r : res A * Σ) (f : A → Σ → res C * Σ) : res C * Σ :=
  match r with
  | (Ok a, s) => f a s
  | (Err e, s) => (Err (Wrapf pre e EmptyString), s)
  | (Panic, s) => (Panic, s)
  end.

Definition prepareSenderRawSocket (s : Σ) : res rawConn_t * Σ :=
  sys_step "creating raw socket failed: " (sys_Socket s) (λ fd s,
  sys_step "setting IP_HDRINCL failed: " (sys_SetHdrincl s fd) (λ _ s,
  sys_step "binding to lo interface failed: " (sys_BindToDevice_lo s fd) (λ _ s,
  sys_step "setting fwmark failed: " (nbnet_SetSocketOpt s fd) (λ _ s,
  if os_NewFile s fd then
    sys_step "converting file to packet conn failed: " (net_FilePacketConn s fd) (λ c s, (Ok c, s))
  else (Err (Errorf "converting fd to file failed"), s))))).

(** [sendPkg(data, port)]: a datagram from the connection's port to WireGuard. *)
Definition sendPkg (p : WGEBPFProxy) (data : list Ascii.ascii) (port : Z) : res unit * WGEBPFProxy :=
  match wrap "serialize layers: " (SerializeUDP loopback loopback port (localWGListenPort p `mod` 65536) data) with
  | Err e => (Err e, p)
  | Panic => (Panic, p)
  | Ok pkt =>
      match rawConn p with
      | None => (Panic, p)
      | Some c => let '(r, s) := raw_WriteTo (px_sys p) c pkt loopback in
                  (wrap "write to raw conn: " r, set_sys s p)
      end
  end.

(** [Free()]: everything is released; the first error of the three is told. *)
Definition Free (p : WGEBPFProxy) : res unit * WGEBPFProxy :=
  let '(err1, s) := match px_conn p with Some c => udp_Close (px_sys p) c | None => (Ok tt, px_sys p) end in
  let '(err2, m) := mgr_FreeWGProxy (ebpfManager p) in
  let '(err3, s) := match rawConn p with Some c => raw_Close s c | None => (Ok tt, s) end in
  (_ ← err1; _ ← err2; err3, set_mgr m (set_sys s p)).

(** [listen()] *)
Definition listen (p : WGEBPFProxy) : res unit * WGEBPFProxy :=
  match searchFreePort (tryToBind (px_sys p)) with
  | Err e => (Err e, p)
  | Panic => (Panic, p)
  | Ok port =>
      match prepareSenderRawSocket (px_sys p) with
      | (Err e, s) => (Err e, set_sys s p)
      | (Panic, s) => (Panic, set_sys s p)
      | (Ok raw, s) =>
          let p := set_raw (Some raw) (set_sys s p) in
          match mgr_LoadWgProxy (ebpfManager p) port (localWGListenPort p) with
          | (Err e, m) => (Err e, set_mgr m p)
          | (Panic, m) => (Panic, set_mgr m p)
          | (Ok _, m) =>
              let p := set_mgr m p in
              match nbnet_ListenUDP (px_sys p) (mkUDPAddr loopback port EmptyString) with
              | (Err e, s) => (Err e, (Free (set_sys s p)).2)
              | (Panic, s) => (Panic, set_sys s p)
              | (Ok c, s) => (Ok tt, set_conn (Some c) (set_sys s p))
              end
          end
      end
  end.

(** [factory_linux.go]: [None] is the userspace proxy. The proxy given up on
    failure is returned too: its resources are not freed. *)
Definition NewFactory (sys : Σ) (mgr : M) (userspace : bool) (wgPort : Z) : option WGEBPFProxy * option WGEBPFProxy :=
  if userspace then (None, None)
  else match listen (NewWGEBPFProxy sys mgr wgPort) with
       | (Ok _, p) => (Some p, None)
       | (_, p) => (None, Some p)
       end.

Definition Factory_Free (f : option WGEBPFProxy) : res unit * option WGEBPFProxy :=
  match f with Some p => let '(r, p) := Free p in (r, Some p) | None => (Ok tt, None) end.

(** [listen] succeeds with a port of 3128 to 3228 that nobody holds, told
    to the manager together with WireGuard's; if the last step fails it frees
    what it took; but if the manager refuses, the raw socket stays open, and
    the factory then drops the proxy that holds it. *)
Lemma listen_outcomes sys mgr wgPort :
  (∀ j, tryToBind sys j ≠ Panic) →
  let '(r, p) := listen (NewWGEBPFProxy sys mgr wgPort) in
  match r with
  | Ok _ => ∃ port raw c, (3128 ≤ port ≤ 3228)%Z ∧ is_ok (tryToBind sys port) = true ∧
      (∀ j, (3128 ≤ j < port)%Z → is_ok (tryToBind sys j) = false) ∧
      rawConn p = Some raw ∧ px_conn p = Some c ∧
      mgr_LoadWgProxy mgr port wgPort = (Ok tt, ebpfManager p) ∧
      NewFactory sys mgr false wgPort = (Some p, None)
  | Err e =>
      (rawConn p = None ∧ ebpfManager p = mgr) ∨
      (∃ raw port m, rawConn p = Some raw ∧ mgr_LoadWgProxy mgr port wgPort = (Err e, m) ∧
         prepareSenderRawSocket sys = (Ok raw, px_sys p) ∧
         NewFactory sys mgr false wgPort = (None, Some p)) ∨
      (∃ raw port m s s', mgr_LoadWgProxy mgr port wgPort = (Ok tt, m) ∧
         nbnet_ListenUDP s (mkUDPAddr loopback port EmptyString) = (Err e, s') ∧
         ebpfManager p = (mgr_FreeWGProxy m).2 ∧ px_sys p = (raw_Close s' raw).2)
  | Panic => True
  end.
Proof.
  intros Hnp. destruct (listen (NewWGEBPFProxy sys mgr wgPort)) as [r p] eqn:Hlisten.
  assert (NewFactory sys mgr false wgPort =
    match r with Ok _ => (Some p, None) | _ => (None, Some p) end) as ->.
  { unfold NewFactory. rewrite Hlisten. by destruct r. }
  pose proof (search_from_spec (tryToBind sys) portRangeStart (Z.to_nat (portRangeEnd - portRangeStart + 1)) Hnp) as Hs.
  fold (searchFreePort (tryToBind sys)) in Hs.
  unfold listen in Hlisten. cbn [NewWGEBPFProxy px_sys] in Hlisten.
  destruct (searchFreePort (tryToBind sys)) as [port|e|]; [|injection Hlisten as <- <-; by left|by injection Hlisten as <- <-].
  destruct (prepareSenderRawSocket sys) as [[raw|e|] s] eqn:Hraw;
    [|injection Hlisten as <- <-; by left|by injection Hlisten as <- <-].
  cbn [NewWGEBPFProxy set_raw set_sys set_mgr ebpfManager localWGListenPort px_sys] in Hlisten.
  destruct (mgr_LoadWgProxy mgr port wgPort) as [[[]|e|] m] eqn:Hload; [| |by injection Hlisten as <- <-].
  - destruct (nbnet_ListenUDP s (mkUDPAddr loopback port EmptyString)) as [[c|e|] s'] eqn:Hl;
      [| |by injection Hlisten as <- <-].
    + injection Hlisten as <- <-. destruct Hs as (Hrange & Hok & Hbefore). unfold portRangeStart, portRangeEnd in *.
      exists port, raw, c. split_and!; try done; lia.
    + unfold Free in Hlisten. cbn [px_conn rawConn ebpfManager set_sys px_sys] in Hlisten.
      destruct (mgr_FreeWGProxy m) as [err2 m2] eqn:Hfm. destruct (raw_Close s' raw) as [err3 s3] eqn:Hrc.
      injection Hlisten as <- <-. right; right. exists raw, port, m, s, s'.
      rewrite Hfm, Hrc. done.
  - injection Hlisten as <- <-. right; left. exists raw, port, m. done.
Qed.

(** [Free] releases the connection, the eBPF program and the raw socket
    whatever fails, and reports the first failure in that order. *)
Lemma Free_releases_all p raw c :
  rawConn p = Some raw → px_conn p = Some c →
  let '(r, p') := Free p in
  let '(e1, s1) := udp_Close (px_sys p) c in
  let '(e2, m) := mgr_FreeWGProxy (ebpfManager p) in
  let '(e3, s3) := raw_Close s1 raw in
  ebpfManager p' = m ∧ px_sys p' = s3 ∧
  (r = if is_ok e1 then if is_ok e2 then e3 else e2 else e1).
Proof.
  intros Hr Hc. unfold Free. rewrite Hr, Hc.
  destruct (udp_Close (px_sys p) c) as [e1 s1]. destruct (mgr_FreeWGProxy (ebpfManager p)) as [e2 m].
  destruct (raw_Close s1 raw) as [e3 s3]. split_and!; [done|done|].
  by destruct e1 as [[]| |], e2 as [[]| |].
Qed.
End proxy.

(** ** [proxy_userspace.go] *)

Section userspace.
Context {Conn : Type}.

(** [WGUserSpaceProxy]; [cancelled] is the state of its context. *)
Record WGUserSpaceProxy := mkUserProxy {
  us_wgPort : Z;
  us_cancelled : bool;
  remoteConn : option Conn;
  localConn : option Conn
}.

Definition NewWGUserSpaceProxy (wgPort : Z) : WGUserSpaceProxy := mkUserProxy wgPort false None None.

(** [AddTurnConn(turnConn)]; [dial] is the outcome of dialling WireGuard. *)
Definition us_AddTurnConn (p : WGUserSpaceProxy) (turnConn : Conn) (dial : string → res Conn) :
    res Conn * WGUserSpaceProxy :=
  match dial (":" +:+ strconv_Itoa (us_wgPort p)) with
  | Ok c => (Ok c, mkUserProxy (us_wgPort p) (us_cancelled p) (Some turnConn) (Some c))
  | Err e => (Err e, mkUserProxy (us_wgPort p) (us_cancelled p) (Some turnConn) None)
  | Panic => (Panic, p)
  end.

Definition us_CloseConn (p : WGUserSpaceProxy) (close : Conn → res unit) : res unit * WGUserSpaceProxy :=
  (match localConn p with None => Ok tt | Some c => close c end,
   mkUserProxy (us_wgPort p) true (remoteConn p) (localConn p)).

Definition us_Free (p : WGUserSpaceProxy) : res unit := Ok tt.

(** [Factory.GetProxy(ctx)] for a factory on WireGuard's port. *)
Definition GetProxy {EbpfProxy : Type} (ebpfProxy : option EbpfProxy) (wgPort : Z) : EbpfProxy + WGUserSpaceProxy :=
  match ebpfProxy with Some p => inl p | None => inr (NewWGUserSpaceProxy wgPort) end.

(** Both copy loops: [cancel] says before which rounds the context is done.
    A failed read, also on a closed connection, only starts the next round. *)
Fixpoint us_copy (rounds : list (bool * res (list Ascii.ascii))) : list (list Ascii.ascii) :=
  match rounds with
  | [] => []
  | (true, _) :: _ => []
  | (false, Ok b) :: rounds => b :: us_copy rounds
  | (false, _) :: rounds => us_copy rounds
  end.

(** Both proxies forward packets unchanged and in order. The eBPF one
    stops at the first failed read; the userspace one never does until its
    context is cancelled, so a closed connection keeps it reading. *)
Lemma proxies_forward (reads : list (res (list Ascii.ascii))) :
  us_copy (map (λ r, (false, r)) reads) = omap (λ r, match r with Ok b => Some b | _ => None end) reads ∧
  to_local reads `prefix_of` us_copy (map (λ r, (false, r)) reads) ∧
  (Forall (λ r, is_ok r = true) reads → map Ok (to_local reads) = reads) ∧
  ∀ pre e post, reads = map Ok pre ++ Err e :: post → to_local reads = pre.
Proof.
  split_and!.
  - induction reads as [|[b|e|] reads IH]; cbn; [done|by rewrite IH|done..].
  - induction reads as [|[b|e|] reads IH]; cbn; [done|by apply prefix_cons|apply prefix_nil..].
  - induction 1 as [|[b|e|] reads Hr _ IH]; cbn; [done|by rewrite IH|done..].
  - intros pre e post ->. induction pre as [|b pre IH]; cbn; [done|by rewrite IH].
Qed.
End userspace.

(** ** A concrete proxy *)

Record ex_sys_state := mkExSys { busy : list Z; log : list string }.
Definition ex_say (m : string) (s : ex_sys_state) : ex_sys_state := mkExSys (busy s) (log s ++ [m]).

#[export] Instance ex_ProxySys : ProxySys ex_sys_state := {|
  rawConn_t := unit; conn_t := unit;
  net_ListenPacket_once s _ a := if bool_decide (a ∈ map (λ p, ":" +:+ strconv_Itoa p) (busy s)) then Err (Errorf "address already in use") else Ok tt;
  sys_Socket s := (Ok 3%Z, ex_say "socket" s);
  sys_SetHdrincl s _ := (Ok tt, s); sys_BindToDevice_lo s _ := (Ok tt, s);
  nbnet_SetSocketOpt s _ := (Ok tt, s); os_NewFile _ _ := true;
  net_FilePacketConn s _ := (Ok tt, s);
  nbnet_ListenUDP s _ := (Ok tt, ex_say "listen" s);
  raw_WriteTo s _ _ _ := (Ok tt, ex_say "send" s);
  raw_Close s _ := (Ok tt, ex_say "close raw" s);
  udp_Close s _ := (Err (Errorf "udp"), ex_say "close udp" s)
|}.
(** A manager that refuses to load when it is [true]. *)
#[export] Instance ex_WgProxyManager : WgProxyManager bool := {|
  mgr_LoadWgProxy (m : bool) _ _ := (if m then Err (Errorf "no ebpf") else Ok tt, m);
  mgr_FreeWGProxy m := (Ok tt, m)
|}.

Definition ex_store : turn_store := mkStore 65534 (<[65535%Z := "a"]> {[ 1%Z := "b" ]}).

Lemma nextFreePort_first_free_witness :
  store_ok ex_store ∧ ∃ st, nextFreePort ex_store = Some (Ok 2%Z, st).
Proof.
  assert (store_ok ex_store) as Hok.
  { split; cbn; [lia|]. intros p [c Hp]. unfold ex_store in Hp. cbn in Hp.
    apply lookup_insert_Some in Hp as [[<- _]|[_ Hp]]; [lia|].
    apply lookup_singleton_Some in Hp as [<- _]. lia. }
  split; [done|].
  destruct (nextFreePort_first_free ex_store Hok) as (r & st & Hn & _).
  exists st. rewrite Hn. do 2 f_equal.
  assert (fst <$> nextFreePort ex_store = Some (Ok 2%Z)) as H by by vm_compute.
  rewrite Hn in H. by injection H.
Defined.

Definition ex_two : gmap Z string := <[2%Z := "b"]> {[ 1%Z := "a" ]}.
Definition ex_pworld : proxy_world := mkPW (removeTurnConn (mkStore 2 ex_two) 1) [(2%Z, "b")].

Lemma ex_pworld_reachable : rtc pstep new_proxy ex_pworld.
Proof.
  eapply rtc_l; [apply (pstep_add (mkStore 0 ∅) [] "a" (mkUDPAddr (v4InV6Prefix ++ loopback) 1 EmptyString)
    (mkStore 1 {[ 1%Z := "a" ]})); by vm_compute|].
  eapply rtc_l; [apply (pstep_add _ _ "b" (mkUDPAddr (v4InV6Prefix ++ loopback) 2 EmptyString)
    (mkStore 2 ex_two)); by vm_compute|].
  apply rtc_once, (pstep_end (mkStore 2 ex_two) [(2%Z, "b")] [] 1%Z "a").
Qed.

Lemma turn_ports_route_witness : to_remote (pw_store ex_pworld) [] 2 = Some ("b", []).
Proof. apply (turn_ports_route ex_pworld 2%Z "b" ex_pworld_reachable). by left. Defined.

Lemma listen_outcomes_witness :
  ∃ p, NewFactory (Conn := string) (mkExSys [3128; 3129]%Z []) true false 51820 = (None, Some p) ∧
    rawConn p = Some tt ∧ log (px_sys p) = ["socket"].
Proof.
  pose proof (listen_outcomes (Conn := string) (mkExSys [3128; 3129]%Z []) true 51820) as H.
  destruct (listen _) as [r p] eqn:Hl. vm_compute in Hl. injection Hl as <- <-.
  eexists. destruct H as [[H _]|[(raw & port & m & _ & _ & _ & H)|(raw & port & m & s & s' & H & _)]];
    [intros j; cbn; by case_bool_decide|done| |done].
  split; [exact H|]. done.
Defined.

Lemma Free_releases_all_witness :
  let p := mkProxy (Conn := string) (mkExSys [] []) false 51820 ex_store (Some tt) (Some tt) in
  (Free p).1 = Err (Errorf "udp") ∧ log (px_sys (Free p).2) = ["close udp"; "close raw"].
Proof.
  intros p. pose proof (Free_releases_all p tt tt eq_refl eq_refl) as H.
  destruct (Free p) as [r p']. destruct H as (_ & Hs & Hr). cbn [fst snd]. rewrite Hr, Hs. done.
Defined.
