(* ===== verification/Stdnet.v ===== *)
(** * [client/internal/stdnet/]: the interfaces ICE may use

    A [Net] lists the interfaces of the system that a name filter allows: no
    loopback, none with a blacklisted prefix, no WireGuard device. The
    operating system and wgctrl are parameters. On a mobile the app describes
    the interfaces in a text, one line each. *)
From Stdlib Require Import Ascii.
From S2P Require Import Prelude Host GoStrings GoNet GoText NetEnv NetHooks GoCIDR GoScan MuxedConn Mux MuxSetup.

(** [wgctrl.New()] and [client.Device(name)]: the error, if any. *)
Class WgCtl := {
  wgctrl_New : option error;
  wgctrl_Device : string → option error
}.

(** [transport.Interface]: a [net.Interface], its flags apart, with addresses. *)
Record netif := mkNetif {
  ni_index : Z; ni_MTU : Z; ni_Broadcast : bool; ni_PointToPoint : bool; ni_Multicast : bool; ni_if : Interface
}.
(** With the addresses read. *)
Definition with_addrs (addrs : list ifAddr) (i : netif) : netif :=
  mkNetif (ni_index i) (ni_MTU i) (ni_Broadcast i) (ni_PointToPoint i) (ni_Multicast i)
    (mkInterface (if_Name (ni_if i)) (if_Up (ni_if i)) (if_Loopback (ni_if i)) (Ok addrs)).

Definition ErrInterfaceNotFound : error := Sentinel "interface not found".

Section stdnet.
Context {C : WgCtl}.

(** [InterfaceFilter(disallowList)]; [ios] is [runtime.GOOS == "ios"]. *)
Definition InterfaceFilter (ios : bool) (disallowList : list string) (iFace : string) : bool :=
  if strings_HasPrefix iFace "lo" then false
  else if existsb (λ s, strings_HasPrefix iFace s && negb ios) disallowList then false
  else match wgctrl_New with
       | Some _ => true
       | None => match wgctrl_Device iFace with Some _ => true | None => false end
       end.

(** The loop of [pionDiscover.iFaces()]: one interface whose addresses cannot
    be read fails the whole list. [Addrs()] does not panic. *)
Fixpoint read_addrs (oifs : list netif) : list netif + error :=
  match oifs with
  | [] => inl []
  | oif :: oifs =>
      match if_Addrs (ni_if oif) with
      | Ok addrs =>
          match read_addrs oifs with
          | inl ifs => inl (with_addrs addrs oif :: ifs)
          | inr e => inr e
          end
      | Err e => inr e
      | Panic => inr (Errorf EmptyString)
      end
  end.
Definition pion_iFaces (net_Interfaces : list netif + error) : list netif + error :=
  match net_Interfaces with
  | inl oifs => read_addrs oifs
  | inr e => inr e
  end.

(** ** What a mobile platform tells *)

(** [fmt.Sscanf(s, "%s %d %d %t %t %t %t %t", ...)] *)
Definition scan_fields : scan netif :=
  name ← scan_s;
  index ← then_scan scan_d;
  mtu ← then_scan scan_d;
  up ← then_scan scan_t;
  broadcast ← then_scan scan_t;
  loopback ← then_scan scan_t;
  pointToPoint ← then_scan scan_t;
  multicast ← then_scan scan_t;
  mret (mkNetif index mtu broadcast pointToPoint multicast (mkInterface name up loopback (Ok []))).

(** An address of the second field: [None] is [continue]. The network that was
    parsed gets the address itself, and keeps its mask. *)
Definition mobile_addr (addr : string) : option ifAddr :=
  if strings_Contains addr "%" then None
  else match net_ParseCIDR addr with Ok (ip, ipNet) => Some (IPNetAddr (mkIPNet ip (net_Mask ipNet))) | _ => None end.
Definition is_trimmed (c : Ascii.ascii) : bool := bool_decide (c = space ∨ c = newline).

(** A line: [None] is [continue], also when no address was found. *)
Definition parse_interface (iface : string) : option netif :=
  if bool_decide (strings_TrimSpace iface = EmptyString) then None
  else match strings_Split iface "|"%char with
       | [field0; field1] =>
           '(i, _) ← scan_fields (bytes_of_string field0);
           match omap mobile_addr (strings_Split (strings_Trim is_trimmed field1) space) with
           | [] => None
           | addrs => Some (with_addrs addrs i)
           end
       | _ => None
       end.
Definition parseInterfacesString (interfaces : string) : list netif :=
  omap parse_interface (strings_Split interfaces newline).
(** [mobileIFaceDiscover.iFaces()] *)
Definition mobile_iFaces (external : string + error) : list netif + error :=
  match external with
  | inl ifacesString => inl (parseInterfacesString ifacesString)
  | inr e => inr e
  end.

(** [stdnet.Net] *)
Record Net := mkNet { n_interfaces : list netif; n_filter : option (string → bool) }.

Definition filterInterfaces (n : Net) (interfaces : list netif) : list netif :=
  match n_filter n with
  | None => interfaces
  | Some f => filter (λ i, f (if_Name (ni_if i)) = true) interfaces
  end.
(** [UpdateInterfaces()]: on an error the old list stays. *)
Definition UpdateInterfaces (iFaces : list netif + error) (n : Net) : Net * option error :=
  match iFaces with
  | inl all => (mkNet (filterInterfaces n all) (n_filter n), None)
  | inr e => (n, Some e)
  end.
(** [NewNet(disallowList)] returns the [Net] beside an error. *)
Definition NewNet (ios : bool) (disallowList : list string) (net_Interfaces : list netif + error) : Net * option error :=
  UpdateInterfaces (pion_iFaces net_Interfaces) (mkNet [] (Some (InterfaceFilter ios disallowList))).

(** The [newStdNet] of the engine and of a connection. *)
Definition engine_newStdNet (ios : bool) (IFaceBlackList : list string) (net_Interfaces : list netif + error) : Net * option error :=
  NewNet ios IFaceBlackList net_Interfaces.
Definition conn_newStdNet (ios : bool) (InterfaceBlackList : list string) (net_Interfaces : list netif + error) : Net * option error :=
  NewNet ios InterfaceBlackList net_Interfaces.

(** [NewNetWithDiscover(iFaceDiscover, disallowList)] *)
Definition NewNetWithDiscover (ios : bool) (external : string + error) (disallowList : list string) : Net * option error :=
  UpdateInterfaces (mobile_iFaces external) (mkNet [] (Some (InterfaceFilter ios disallowList))).

Definition Interfaces (n : Net) : res (list netif) := Ok (n_interfaces n).
Definition not_found (what : string) : error := Wrapf EmptyString ErrInterfaceNotFound (": " +:+ what).
Definition first_with (P : netif → bool) (what : string) (n : Net) : res netif :=
  match filter (λ i, P i = true) (n_interfaces n) with
  | i :: _ => Ok i
  | [] => Err (not_found what)
  end.
Definition InterfaceByIndex (index : Z) (n : Net) : res netif :=
  first_with (λ i, (ni_index i =? index)%Z) ("index=" +:+ strconv_Itoa index) n.
Definition InterfaceByName (name : string) (n : Net) : res netif :=
  first_with (λ i, bool_decide (if_Name (ni_if i) = name)) name n.
End stdnet.

(** ** Sockets of a [Net]

    They are those of [util/net]: marked, and with hooks. *)
Section sockets.
Context {N : NetHost}.

Definition Net_Dial (k : hooks) (network address : string) := Dial k network address.
Definition Net_DialUDP (k : hooks) (network : string) (raddr : UDPAddr) := DialUDP k network raddr.
Definition Net_DialTCP (k : hooks) (network raddr : string) := DialTCP k network raddr.
Definition Net_ListenPacket (k : hooks) (network address : string) := ListenPacket k network address.
Definition Net_ListenUDP (k : hooks) (network : string) (locAddr : UDPAddr) := ListenUDP k network locAddr.
End sockets.

(** ** What is allowed *)

Section allowed.
Context {C : WgCtl}.

(** A name ICE may use. *)
Definition allowed (ios : bool) (disallowList : list string) (name : string) : Prop :=
  (¬ ∃ r, name = "lo" +:+ r) ∧
  (ios = false → ∀ s r, s ∈ disallowList → name ≠ s +:+ r) ∧
  (wgctrl_New = None → wgctrl_Device name ≠ None).

Lemma blacklisted ios disallowList name :
  existsb (λ s, strings_HasPrefix name s && negb ios) disallowList = false ↔
  (ios = false → ∀ s r, s ∈ disallowList → name ≠ s +:+ r).
Proof.
  rewrite <-not_true_iff_false, existsb_exists. split.
  - intros Hn -> s r Hs Hr. apply Hn. exists s. rewrite <-list_elem_of_In. split; [done|].
    rewrite andb_true_r. apply strings_HasPrefix_spec. eauto.
  - intros Hn (s&Hs&[Hp Hi]%andb_true_iff). apply negb_true_iff in Hi. apply strings_HasPrefix_spec in Hp as [r Hr].
    apply (Hn Hi s r); [by apply list_elem_of_In|done].
Qed.

Lemma InterfaceFilter_allowed ios disallowList name :
  InterfaceFilter ios disallowList name = true ↔ allowed ios disallowList name.
Proof.
  unfold InterfaceFilter, allowed. rewrite <-blacklisted, <-(strings_HasPrefix_spec name "lo").
  destruct (strings_HasPrefix name "lo"), (existsb _ disallowList), wgctrl_New, (wgctrl_Device name); naive_solver.
Qed.

#[export] Instance allowed_dec ios disallowList name : Decision (allowed ios disallowList name).
Proof.
  refine (cast_if (decide (InterfaceFilter ios disallowList name = true))); by rewrite <-InterfaceFilter_allowed.
Defined.

(** The interfaces whose addresses can be read. *)
Definition readable (i : netif) : Prop := is_ok (if_Addrs (ni_if i)) = true.

Lemma read_addrs_spec oifs :
  match read_addrs oifs with
  | inl ifs => ifs = oifs ∧ Forall readable oifs
  | inr _ => ¬ Forall readable oifs
  end.
Proof.
  induction oifs as [|[n mtu bc pp mc [nm up lb [addrs|e|]]] oifs IH]; cbn; [done| | |].
  - destruct (read_addrs oifs) as [rest|e].
    + destruct IH as [-> HF]. split; [done|]. by constructor.
    + by intros [_ HF]%list.Forall_cons.
  - by intros [HF _]%list.Forall_cons.
  - by intros [HF _]%list.Forall_cons.
Qed.

Lemma first_with_filter (P : netif → bool) (f : string → bool) what l :
  first_with P what (mkNet (filter (λ i, f (if_Name (ni_if i)) = true) l) (Some f)) =
  match filter (λ i, P i = true ∧ f (if_Name (ni_if i)) = true) l with i :: _ => Ok i | [] => Err (not_found what) end.
Proof. unfold first_with. cbn [n_interfaces]. by rewrite list_filter_filter. Qed.

Lemma filterInterfaces_elem n f l i :
  n_filter n = Some f → i ∈ filterInterfaces n l ↔ i ∈ l ∧ f (if_Name (ni_if i)) = true.
Proof. unfold filterInterfaces. intros ->. rewrite list_elem_of_filter. naive_solver. Qed.

Lemma by_name_filter ios disallowList name (l : list netif) :
  filter (λ i, bool_decide (if_Name (ni_if i) = name) = true ∧ InterfaceFilter ios disallowList (if_Name (ni_if i)) = true) l =
  filter (λ i, if_Name (ni_if i) = name ∧ allowed ios disallowList name) l.
Proof.
  apply list_filter_iff. intros i. rewrite bool_decide_eq_true, InterfaceFilter_allowed. naive_solver.
Qed.

(** When the addresses of every interface of the system can be read, a
    [Net] gives by name and by index the first interface that is asked for and
    allowed, and its list holds exactly the allowed ones: none whose name
    starts with [lo] or a blacklisted prefix, and no WireGuard device. A mux
    over it listens only on addresses of allowed interfaces that are up. One
    interface whose addresses cannot be read leaves the [Net] empty, with an
    error beside it. *)
Lemma Net_serves_allowed {NT : NetworkTypes} disallowList sys n err :
  NewNet false disallowList (inl sys) = (n, err) →
  match err with
  | Some _ => n_interfaces n = [] ∧ ¬ Forall readable sys
  | None =>
      Forall readable sys ∧
      (∀ name, InterfaceByName name n =
        match filter (λ i, if_Name (ni_if i) = name ∧ allowed false disallowList name) sys with
        | i :: _ => Ok i | [] => Err (not_found name) end) ∧
      (∀ index i, InterfaceByIndex index n = Ok i → ni_index i = index ∧ i ∈ sys ∧ allowed false disallowList (if_Name (ni_if i))) ∧
      (∀ i, i ∈ n_interfaces n ↔ i ∈ sys ∧ allowed false disallowList (if_Name (ni_if i))) ∧
      (∀ ifFilter ipFilter types lb ips ip,
        localInterfaces ifFilter ipFilter types lb (Ok (map ni_if (n_interfaces n))) = Ok ips → ip ∈ ips →
        ∃ i, i ∈ sys ∧ if_Up (ni_if i) = true ∧ allowed false disallowList (if_Name (ni_if i)))
  end.
Proof.
  unfold NewNet, UpdateInterfaces, pion_iFaces. pose proof (read_addrs_spec sys) as Hr.
  destruct (read_addrs sys) as [ifs|e]; intros [= <- <-]; [|done]. destruct Hr as [-> HF].
  assert (∀ i, i ∈ filterInterfaces (mkNet [] (Some (InterfaceFilter false disallowList))) sys ↔
    i ∈ sys ∧ allowed false disallowList (if_Name (ni_if i))) as Hel.
  { intros i. rewrite filterInterfaces_elem; [|done]. by rewrite InterfaceFilter_allowed. }
  split_and!; [done| | |done|].
  - intros name. unfold InterfaceByName, filterInterfaces. cbn [n_filter]. by rewrite first_with_filter, by_name_filter.
  - intros index i. unfold InterfaceByIndex, first_with. cbn [n_interfaces].
    destruct (filter _ _) as [|j l] eqn:Hf; [done|]. intros [= ->].
    assert (i ∈ i :: l) as Hi by left. rewrite <-Hf, list_elem_of_filter, Hel in Hi. destruct Hi as [->%Z.eqb_eq Hi]. done.
  - intros ifFilter ipFilter types lb ips ip Hl Hip. apply (localInterfaces_iff _ _ _ _ _ _ _ Hl) in Hip as (i&addrs&a&Hi&Hup&_).
    cbn [n_interfaces] in Hi. apply list_elem_of_In, in_map_iff in Hi as (j&<-&Hj%list_elem_of_In).
    exists j. apply Hel in Hj as [? ?]. done.
Qed.
End allowed.

(** ** The text of a mobile platform *)

Section mobile.
Context {C : WgCtl}.

(** What the text lists as an address: a prefix, an address with a zone, or a
    word that is no prefix. *)
Inductive listed :=
| Prefix (ip : list Ascii.ascii) (ones : Z)
| Zoned (ip : list Ascii.ascii) (zone : string) (ones : Z)
| NoPrefix (w : string).
Definition listed_text (a : listed) : string :=
  match a with
  | Prefix ip ones => IP_String ip +:+ "/" +:+ strconv_Itoa ones
  | Zoned ip zone ones => IP_String ip +:+ "%" +:+ zone +:+ "/" +:+ strconv_Itoa ones
  | NoPrefix w => w
  end.
Definition listed_ok (a : listed) : Prop :=
  match a with
  | Prefix ip ones => (length ip = 4 ∨ length ip = 16) ∧ (0 ≤ ones ≤ 8 * Z.of_nat (mask_bytes ip))%Z
  | Zoned ip zone ones => (length ip = 4 ∨ length ip = 16) ∧ no_space zone = true ∧ char_in "|" zone = false
  | NoPrefix w => is_word w = true ∧ char_in "|" w = false ∧ is_ok (net_ParseCIDR w) = false
  end.
#[local] Instance listed_ok_dec a : Decision (listed_ok a).
Proof. destruct a; apply _. Defined.

(** What an interface has of it: the address in 16 bytes, with the mask of the
    prefix length in the family it is written in. *)
Definition listed_addr (a : listed) : option ifAddr :=
  match a with
  | Prefix ip ones => Some (IPNetAddr (mkIPNet (default [] (To16 ip)) (net_CIDRMask ones (mask_bytes ip))))
  | _ => None
  end.

(** A line of the text, for an interface and the addresses listed. *)
Definition line_words (i : netif) : list string :=
  [if_Name (ni_if i); strconv_Itoa (ni_index i); strconv_Itoa (ni_MTU i); bool_text (if_Up (ni_if i));
   bool_text (ni_Broadcast i); bool_text (if_Loopback (ni_if i)); bool_text (ni_PointToPoint i); bool_text (ni_Multicast i)].
Definition describe (d : netif * list listed) : string :=
  strings_Join (line_words d.1) " " +:+ String "|" (strings_Join (map listed_text d.2) " ").

(** What can be described: a name of one word, numbers of 64 bits, and
    addresses as above. *)
Definition describable (d : netif * list listed) : Prop :=
  is_word (if_Name (ni_if d.1)) = true ∧ char_in "|" (if_Name (ni_if d.1)) = false ∧ if_Addrs (ni_if d.1) = Ok [] ∧
  (int64_min ≤ ni_index d.1 ≤ int64_max)%Z ∧ (int64_min ≤ ni_MTU d.1 ≤ int64_max)%Z ∧
  Forall listed_ok d.2.

#[local] Instance ifAddr_eq_dec : EqDecision ifAddr.
Proof. solve_decision. Defined.
#[export] Instance describable_dec d : Decision (describable d).
Proof. unfold describable. apply _. Defined.

(** What is made of it: an interface with the prefixes listed for it, if any. *)
Definition described (d : netif * list listed) : option netif :=
  match omap listed_addr d.2 with [] => None | addrs => Some (with_addrs addrs d.1) end.

Lemma ip_text_chars ip c : length ip = 4 ∨ length ip = 16 → ip_char c = false → char_in c (IP_String ip) = false.
Proof.
  intros Hl Hc. apply not_true_is_false. intros Hin%char_in_elem. unfold IP_String in Hin.
  rewrite bytes_of_string_of_bytes in Hin. revert Hin. apply ip_char_absent; [by apply IP_bytes_ip|done].
Qed.

Lemma listed_words a : listed_ok a → is_word (listed_text a) = true ∧ char_in "|" (listed_text a) = false.
Proof.
  assert (∀ ip s, length ip = 4 ∨ length ip = 16 → no_space s = true → char_in "|" s = false →
    is_word (IP_String ip +:+ s) = true ∧ char_in "|" (IP_String ip +:+ s) = false) as Hip.
  { intros ip s Hl Hs Hc. split; [|by rewrite char_in_app, ip_text_chars].
    unfold is_word. rewrite no_space_app, no_space_IP, Hs by (destruct Hl as [->| ->]; done).
    apply negb_true_iff, bool_decide_eq_false. intros He. apply (IP_bytes_nonempty ip).
    apply (f_equal bytes_of_string) in He. unfold IP_String in He. rewrite bytes_of_string_app, bytes_of_string_of_bytes in He.
    by apply app_eq_nil in He as [-> _]. }
  assert (∀ z, char_in "|" (strconv_Itoa z) = false) as Hz by (intros z; apply strconv_Itoa_no_char; set_solver).
  destruct a as [ip ones|ip zone ones|w]; cbn [listed_ok listed_text].
  - intros [Hl _]. apply Hip; [done|..]; [by rewrite no_space_app, no_space_Itoa|by rewrite char_in_app, Hz].
  - intros (Hl&Hs&Hc). apply Hip; [done|..]; [by rewrite !no_space_app, Hs, no_space_Itoa|by rewrite !char_in_app, Hc, Hz].
  - tauto.
Qed.

(** The loop reads each listed word as it should. *)
Lemma mobile_addr_listed a : listed_ok a → mobile_addr (listed_text a) = listed_addr a.
Proof.
  assert (∀ s, strings_Contains s "%" = char_in "%" s) as Hcont.
  { intros s. induction s as [|c s IH]; [done|]. cbn [strings_Contains char_in]. rewrite IH. f_equal.
    unfold strings_HasPrefix. cbn [strip_prefix]. destruct (decide ("%"%char = c)) as [<-|Hne]; [done|].
    by rewrite !bool_decide_false by (congruence || by intros []). }
  unfold mobile_addr. rewrite Hcont. destruct a as [ip ones|ip zone ones|w]; cbn [listed_ok listed_text listed_addr].
  - intros [Hl Hn]. rewrite !char_in_app, ip_text_chars by done. cbn [orb char_in].
    rewrite bool_decide_false, strconv_Itoa_no_char by (done || set_solver). cbn [orb].
    by rewrite net_ParseCIDR_print.
  - intros _. rewrite !char_in_app. cbn [char_in]. rewrite bool_decide_true by done. by rewrite !orb_true_r.
  - intros (_&_&Hw). destruct (char_in "%" w); [done|]. by destruct (net_ParseCIDR w).
Qed.

Lemma is_word_Itoa z : is_word (strconv_Itoa z) = true.
Proof. unfold is_word. rewrite no_space_Itoa. cbn. apply negb_true_iff, bool_decide_eq_false, strconv_Itoa_nonempty. Qed.
Lemma is_word_bool b : is_word (bool_text b) = true.
Proof. by destruct b. Qed.
Lemma line_words_words d : describable d → Forall (λ w, is_word w = true ∧ char_in "|" w = false) (line_words d.1).
Proof.
  intros (Hn&Hb&_). unfold line_words.
  assert (∀ z, is_word (strconv_Itoa z) = true ∧ char_in "|" (strconv_Itoa z) = false) as Hi.
  { intros z. split; [apply is_word_Itoa|]. apply strconv_Itoa_no_char. set_solver. }
  assert (∀ b, is_word (bool_text b) = true ∧ char_in "|" (bool_text b) = false) as Ht by (intros b; by destruct b).
  repeat first [apply Hi | apply Ht | constructor | done].
Qed.

Lemma char_in_Join c ws : c ≠ space → Forall (λ w, char_in c w = false) ws → char_in c (strings_Join ws " ") = false.
Proof.
  intros Hc. induction 1 as [|w ws Hw Hws IH]; [done|]. destruct ws as [|w' ws]; [done|].
  change (strings_Join (w :: w' :: ws) " ") with (w +:+ String space (strings_Join (w' :: ws) " ")).
  rewrite char_in_app, Hw. cbn [orb char_in]. rewrite bool_decide_false by congruence. exact IH.
Qed.

Lemma bytes_Join w w' ws :
  bytes_of_string (strings_Join (w :: w' :: ws) " ") = bytes_of_string w ++ space :: bytes_of_string (strings_Join (w' :: ws) " ").
Proof.
  change (strings_Join (w :: w' :: ws) " ") with (w +:+ String space (strings_Join (w' :: ws) " ")).
  by rewrite bytes_of_string_app.
Qed.

Lemma then_scan_string {A} (m : scan A) w a rest : scans m (bytes_of_string w) a → is_word w = true → token_end rest →
  then_scan m (space :: bytes_of_string w ++ rest) = Some (a, rest).
Proof. intros Hm Hw Hr. apply then_scan_word; [done|by apply starts_word_string|done]. Qed.

Lemma scan_fields_line d : describable d →
  scan_fields (bytes_of_string (strings_Join (line_words d.1) " ")) = Some (d.1, []).
Proof.
  destruct d as [[n mtu bc pp mc [nm up lb addrs]] l]. intros (Hn&_&Ha&Hi&Hm&_). cbn [fst ni_index ni_MTU ni_if if_Name if_Addrs] in *. subst.
  unfold line_words. cbn [ni_index ni_MTU ni_Broadcast ni_PointToPoint ni_Multicast ni_if if_Name if_Up if_Loopback].
  rewrite !bytes_Join. cbn [strings_Join]. unfold scan_fields, mbind, scan_bind.
  rewrite (scans_s nm Hn) by done. cbn [mbind option_bind].
  rewrite (then_scan_string _ _ n) by (apply scans_d || apply is_word_Itoa || done; lia). cbn [mbind option_bind].
  rewrite (then_scan_string _ _ mtu) by (apply scans_d || apply is_word_Itoa || done; lia). cbn [mbind option_bind].
  do 4 (rewrite (then_scan_string _ _ _ _ (scans_t _) (is_word_bool _)) by done; cbn [mbind option_bind]).
  rewrite <-(app_nil_r (bytes_of_string (bool_text mc))).
  rewrite (then_scan_string _ _ _ _ (scans_t _) (is_word_bool _)) by done. done.
Qed.

Lemma trim_left_nil s : trim_left s = EmptyString → ∀ c, char_in c s = true → is_space c = true.
Proof.
  induction s as [|d s IH]; [done|]. cbn [trim_left char_in]. destruct (is_space d) eqn:Hd; [|done].
  intros Hs c [->%bool_decide_eq_true|Hc]%orb_true_iff; [done|by apply IH].
Qed.
Lemma TrimSpace_not_blank c s : is_space c = false → strings_TrimSpace (String c s) ≠ EmptyString.
Proof.
  intros Hc Ht. unfold strings_TrimSpace in Ht. cbn [trim_left] in Ht. rewrite Hc in Ht.
  apply str_rev_nil in Ht. pose proof (trim_left_nil _ Ht c) as Hin. rewrite Hc in Hin.
  assert (char_in c (str_rev (String c s)) = true) as Hr; [|by specialize (Hin Hr)].
  apply char_in_elem. unfold str_rev. rewrite bytes_of_string_of_bytes, elem_of_reverse. left.
Qed.

Lemma listed_texts d : describable d → Forall (λ w, is_word w = true ∧ char_in "|" w = false) (map listed_text d.2).
Proof. intros (_&_&_&_&_&Ha). apply Forall_fmap. eapply List.Forall_impl; [|exact Ha]. apply listed_words. Qed.

Lemma parse_describe d : describable d → parse_interface (describe d) = described d.
Proof.
  intros Hd. pose proof (line_words_words d Hd) as Hws. pose proof Hd as (Hn&_&_&_&_&Hok).
  pose proof (listed_texts d Hd) as Haddrs.
  assert (Forall (λ w, is_word w = true) (map listed_text d.2) ∧ Forall (λ w, char_in "|" w = false) (map listed_text d.2)) as [Ha1 Ha2].
  { split; (eapply List.Forall_impl; [|exact Haddrs]); by intros ? []. }
  unfold parse_interface. rewrite bool_decide_false.
  2: { unfold describe, line_words. destruct (if_Name (ni_if d.1)) as [|c nm]; [done|].
       cbn [strings_Join]. rewrite !str_app_cons. apply TrimSpace_not_blank.
       apply andb_true_iff in Hn as [[Hc _]%andb_true_iff _]. by apply negb_true_iff in Hc. }
  unfold describe. rewrite strings_Split_app, strings_Split_no_sep.
  3: { apply char_in_Join; [done|]. eapply List.Forall_impl; [|exact Hws]. by intros ? []. }
  2: { by apply char_in_Join. }
  rewrite scan_fields_line by done. cbn [mbind option_bind]. unfold described.
  rewrite strings_Trim_Join; [|done|].
  2: { intros c Hc%bool_decide_eq_true. destruct Hc as [->| ->]; done. }
  assert (omap mobile_addr (map listed_text d.2) = omap listed_addr d.2) as Homap.
  { clear -Hok. induction Hok as [|a l Ha _ IH]; [done|]. cbn [map omap list_omap]. by rewrite mobile_addr_listed, IH. }
  destruct (decide (map listed_text d.2 = [])) as [He|Hne].
  { rewrite He. rewrite <-Homap, He. done. }
  rewrite (strings_Split_Join space) by
    (done || (eapply List.Forall_impl; [|exact Ha1]; intros w [Hw _]%andb_true_iff; by apply no_space_char_in)).
  by rewrite Homap.
Qed.

Lemma describe_line d : describable d → char_in newline (describe d) = false.
Proof.
  intros Hd. pose proof (line_words_words d Hd) as Hws. pose proof (listed_texts d Hd) as Haddrs.
  assert (∀ ws, Forall (λ w, is_word w = true ∧ char_in "|" w = false) ws → char_in newline (strings_Join ws " ") = false) as Hj.
  { intros ws Hf. apply char_in_Join; [done|]. eapply List.Forall_impl; [|exact Hf].
    intros w [[Hw _]%andb_true_iff _]. by apply no_space_char_in. }
  unfold describe. rewrite char_in_app. cbn [char_in]. rewrite !Hj by done. done.
Qed.

(** C34. The text of a mobile platform is read back: of interfaces described one per
    line, each by its name, numbers, flags and addresses, the [Net] holds exactly
    the allowed ones for which a prefix is listed, with the address (not the
    network) and the mask of each prefix listed for them, in order; an address
    with a zone and a word that is no prefix are left out. *)
Theorem mobile_text_read_back disallowList ios l :
  Forall describable l →
  let text := strings_Join (map describe l) (String newline EmptyString) in
  let '(n, err) := NewNetWithDiscover ios (inl text) disallowList in
  err = None ∧
  n_interfaces n = filter (λ i, allowed ios disallowList (if_Name (ni_if i))) (omap described l).
Proof.
  intros Hl text. unfold NewNetWithDiscover, UpdateInterfaces, mobile_iFaces. split; [done|]. cbn [n_interfaces].
  assert (parseInterfacesString text = omap described l) as ->.
  { unfold parseInterfacesString, text. destruct (decide (l = [])) as [->|Hne]; [done|].
    rewrite strings_Split_Join.
    - clear Hne text. induction Hl as [|d l Hd Hl IH]; [done|]. cbn [map omap list_omap]. rewrite parse_describe by done.
      by rewrite IH.
    - by destruct l.
    - apply Forall_fmap. eapply List.Forall_impl; [|exact Hl]. intros d. apply describe_line. }
  unfold filterInterfaces. cbn [n_filter]. apply list_filter_iff. intros i. apply InterfaceFilter_allowed.
Qed.
End mobile.

(** ** A system with a WireGuard device *)

#[local] Instance ex_wgctl : WgCtl := {|
  wgctrl_New := None;
  wgctrl_Device name := if bool_decide (name = "utun9") then None else Some (Errorf "no such device")
|}.
Definition ex_addr : ifAddr := IPNetAddr (mkIPNet ex_global (net_CIDRMask 64 16)).
Definition ex_sys : list netif := imap (λ k i, mkNetif (Z.of_nat k) 1500 true false true i)
  [ mkInterface "lo" true true (Ok [IPNetAddr (mkIPNet IPv6loopback (net_CIDRMask 128 16))]);
    mkInterface "wt0" true false (Ok [ex_addr]);
    mkInterface "utun9" true false (Ok [ex_addr]);
    mkInterface "eth0" true false (Ok [ex_addr]) ].

Definition ex_described : list (netif * list listed) :=
  let v4 l := map byte_of_Z l in
  [ (mkNetif 1 65536 false false false (mkInterface "lo" true true (Ok [])), [Prefix (v4 [127; 0; 0; 1]%Z) 8]);
    (mkNetif 2 1500 true false true (mkInterface "wlan0" true false (Ok [])),
       [Zoned ex_global "wlan0" 64; NoPrefix "10.0.0.7"; Prefix (v4 [10; 0; 0; 5]%Z) 24]);
    (mkNetif 3 1500 true false true (mkInterface "dummy0" true false (Ok [])), []) ].
Lemma mobile_text_read_back_witness :
  let n := (NewNetWithDiscover false
    (inl (strings_Join (map describe ex_described) (String newline EmptyString))) []).1 in
  map (λ i, (if_Name (ni_if i), if_Addrs (ni_if i))) (n_interfaces n)
    = [("wlan0", Ok [IPNetAddr (mkIPNet (v4InV6Prefix ++ map byte_of_Z [10; 0; 0; 5]%Z) (map byte_of_Z [255; 255; 255; 0]%Z))])].
Proof.
  pose proof (mobile_text_read_back [] false ex_described ltac:(apply (bool_decide_unpack _); vm_compute; exact I)) as Hm.
  cbv zeta in Hm. destruct (NewNetWithDiscover _ _ _) as [n err]. destruct Hm as [_ Hn]. cbv zeta. cbn [fst]. rewrite Hn.
  vm_compute. reflexivity.
Defined.

Lemma Net_serves_allowed_witness :
  let n := (NewNet false ["wt"; "docker"] (inl ex_sys)).1 in
  map (λ i, if_Name (ni_if i)) (n_interfaces n) = ["eth0"] ∧ ∃ i, InterfaceByName "eth0" n = Ok i ∧ i ∈ ex_sys.
Proof.
  split; [by vm_compute|].
  destruct (Net_serves_allowed (NT := ex_networks) ["wt"; "docker"] ex_sys _ None (surjective_pairing _)) as (_&_&Hidx&Hin&_).
  eexists. split; [by vm_compute|]. by apply (Hidx 3%Z).
Defined.
