(* ===== verification/SharedSock.v ===== *)
(** * [sharedsock/]: sharing WireGuard's port through raw sockets

    A BPF program lets only STUN packets for the port through; two reader
    goroutines feed one channel that [ReadFrom] takes from; [WriteTo] builds UDP
    packets by hand. Packet parsing and serialisation (gopacket), routing and
    the sockets are parameters. *)
From Stdlib Require Import Ascii.
From S2P Require Import Prelude GoStrings GoNet.

(** ** The filter *)

(** The instructions of [golang.org/x/net/bpf] the filter uses. *)
Inductive bpf_instruction :=
| LoadAbsolute (Off Size : Z)
| JumpIf_NotEqual (Val : Z) (SkipTrue : nat)
| RetConstant (Val : Z).

Definition magicCookie : Z := 0x2112A442.

Definition rawInstructions (dstPortOff cookieOff dstPort : Z) : list bpf_instruction :=
  [LoadAbsolute dstPortOff 2;
   JumpIf_NotEqual dstPort 3;
   LoadAbsolute cookieOff 4;
   JumpIf_NotEqual magicCookie 1;
   RetConstant 0xffffffff;
   RetConstant 0].

(** [bpf.Assemble], and what the kernel makes of a packet with the program
    attached: how many bytes it keeps. *)
Class BPF := {
  bpf_raw : Type;
  bpf_Assemble : list bpf_instruction → res (list bpf_raw);
  bpf_run : list bpf_raw → list Ascii.ascii → Z
}.

(** [Size] bytes at [Off], big-endian. *)
Fixpoint be_value (bs : list Ascii.ascii) (acc : Z) : Z :=
  match bs with [] => acc | b :: bs => be_value bs (acc * 256 + Z_of_byte b) end.
Definition load (off size : Z) (p : list Ascii.ascii) : option Z :=
  if decide (off + size ≤ Z.of_nat (length p))%Z
  then Some (be_value (slice (Z.to_nat off) (Z.to_nat (off + size)) p) 0) else None.

(** The documented execution: a load outside the packet, or running off the
    program, drops the packet. Jumps go forward, so the length is fuel. *)
Fixpoint bpf_exec (n : nat) (prog : list bpf_instruction) (a : Z) (p : list Ascii.ascii) : Z :=
  match n, prog with
  | Datatypes.S n, LoadAbsolute off size :: prog =>
      match load off size p with Some v => bpf_exec n prog v p | None => 0%Z end
  | Datatypes.S n, JumpIf_NotEqual v skip :: prog =>
      bpf_exec n (if decide (a = v) then prog else drop skip prog) a p
  | Datatypes.S n, RetConstant v :: _ => v
  | _, _ => 0%Z
  end.
Class BPFSpec (B : BPF) := {
  bpf_run_exec : ∀ prog raw p, bpf_Assemble prog = Ok raw →
    bpf_run raw p = bpf_exec (length prog) prog 0 p
}.

(** [GetInstructions(dstPort)]: raw IPv4 packets come with their IP header, raw
    IPv6 ones without. *)
Definition GetInstructions {B : BPF} (dstPort : Z) : res (list bpf_raw * list bpf_raw) :=
  raw4 ← bpf_Assemble (rawInstructions 22 32 dstPort);
  raw6 ← bpf_Assemble (rawInstructions 2 12 dstPort);
  Ok (raw4, raw6).

(** ** [Listen] and [Close] *)

Inductive sock_event :=
| EvSocket4 | EvSocket6 | EvReader4 | EvReader6 | EvRouter | EvCancel | EvClose4 | EvClose6.

Global Instance sock_event_eq_dec : EqDecision sock_event.
Proof. solve_decision. Defined.

(** What the operating system answers. *)
Record listen_env := mkListenEnv {
  le_router : res unit;
  le_socket4 : res unit;
  le_mark4 : res unit;
  le_socket6 : res unit;
  le_mark6 : res unit;
  le_instructions : res unit;
  le_bpf4 : res unit;
  le_bpf6 : res unit
}.

Definition sock_Close (conn4 conn6 : bool) : list sock_event :=
  EvCancel :: (if conn4 then [EvClose4] else []) ++ (if conn6 then [EvClose6] else []).

(** [if err != nil { return nil, fmt.Errorf(pre + "%w", err) }] under the
    deferred [Close]. *)
Definition guard (conn4 conn6 : bool) (pre : string) (r : res unit) (log : list sock_event)
    (next : list sock_event → res unit * list sock_event) : res unit * list sock_event :=
  match r with
  | Ok _ => next log
  | Err e => (Err (Wrapf pre e EmptyString), log ++ sock_Close conn4 conn6)
  | Panic => (Panic, log)
  end.

(** [Listen(port, filter)]: a missing IPv6 socket is only logged. *)
Definition Listen (env : listen_env) : res unit * list sock_event :=
  guard false false "failed to create raw socket router: " (le_router env) [] (λ log,
  guard false false "failed to create ipv4 raw socket: " (le_socket4 env) log (λ log,
  let log := log ++ [EvSocket4] in
  guard true false "failed to set SO_MARK on ipv4 socket: " (le_mark4 env) log (λ log,
  let has6 := is_ok (le_socket6 env) in
  let log := if has6 then log ++ [EvSocket6] else log in
  guard true has6 "failed to set SO_MARK on ipv6 socket: " (if has6 then le_mark6 env else Ok tt) log (λ log,
  guard true has6 "getBPFInstructions failed with: " (le_instructions env) log (λ log,
  guard true has6 "socket4.SetBPF failed with: " (le_bpf4 env) log (λ log,
  guard true has6 "socket6.SetBPF failed with: " (if has6 then le_bpf6 env else Ok tt) log (λ log,
  (Ok tt, log ++ [EvReader4] ++ (if has6 then [EvReader6] else []) ++ [EvRouter])))))))).

(** [SetDeadline], [SetReadDeadline], [SetWriteDeadline]: the second socket is
    set only when the first was. *)
Definition set_deadlines (what : string) (conn4 : res unit) (conn6 : option (res unit)) : res unit :=
  match conn4 with
  | Ok _ => match conn6 with
            | None => Ok tt
            | Some r => wrap ("s.conn6." +:+ what +:+ " error: ") r
            end
  | Err e => Err (Wrapf ("s.conn4." +:+ what +:+ " error: ") e EmptyString)
  | Panic => Panic
  end.

(** ** Reading *)

Inductive sockaddr := Inet4 (addr : list Ascii.ascii) | Inet6 (addr : list Ascii.ascii) | InvalidFamily.
Record rcvdPacket := mkPkt { pkt_addr : sockaddr; pkt_buf : list Ascii.ascii; pkt_err : option error }.

(** [read]: what the receiver returned goes into a fresh buffer of 1500 bytes,
    of which the first [n] are kept. *)
Definition recv_packet (got : list Ascii.ascii) (addr : sockaddr) (err : option error) : rcvdPacket :=
  mkPkt addr (take 1500 got) err.

(** [LocalAddr()]: the unspecified IPv4 address ([net.IPv4zero], 16 bytes). *)
Definition sock_LocalAddr (port : Z) : UDPAddr :=
  mkUDPAddr (replicate 10 Ascii.zero ++ [byte_of_Z 255; byte_of_Z 255] ++ replicate 4 Ascii.zero) port EmptyString.

Definition ErrSharedSockStopped : error := Sentinel "shared socked stopped".

(** gopacket: a packet decoded from its IPv4, or from its UDP, header into the
    source port, the length field of the UDP header and the payload; a UDP
    packet with its checksum over the addresses. *)
Class Gopacket := {
  decode_ipv4 : list Ascii.ascii → res (Z * Z * list Ascii.ascii);
  decode_udp : list Ascii.ascii → res (Z * Z * list Ascii.ascii);
  serialize_udp : list Ascii.ascii → list Ascii.ascii → Z → Z → list Ascii.ascii → res (list Ascii.ascii)
}.

(** [copy(b, payload)] *)
Definition copy_into (b payload : list Ascii.ascii) : list Ascii.ascii :=
  take (length b) payload ++ drop (length payload) b.

Section socket.
Context {G : Gopacket}.

(** [ReadFrom(b)] on a packet from the channel, or [None] when the socket was
    stopped: the count, the address, the error, and the buffer. *)
Definition ReadFrom (pkt : option rcvdPacket) (b : list Ascii.ascii) :
    Z * option UDPAddr * option error * list Ascii.ascii :=
  match pkt with
  | None => ((-1)%Z, None, Some ErrSharedSockStopped, b)
  | Some pkt =>
      match pkt_err pkt with
      | Some e => ((-1)%Z, None, Some e, b)
      | None =>
          match pkt_addr pkt with
          | InvalidFamily => ((-1)%Z, None, Some (Errorf "received invalid address family"), b)
          | Inet4 ip | Inet6 ip =>
              match (match pkt_addr pkt with Inet4 _ => decode_ipv4 | _ => decode_udp end) (pkt_buf pkt) with
              | Ok (srcPort, udpLength, payload) =>
                  (udpLength, Some (mkUDPAddr ip srcPort EmptyString), None, copy_into b payload)
              | Err e => (0%Z, None, Some e, b)
              | Panic => (0%Z, None, None, b)
              end
          end
      end
  end.

(** ** Writing *)

(** [getWriterObjects(src, dest)]: whether IPv6 is used, and the socket address. *)
Definition getWriterObjects (dest : list Ascii.ascii) : bool * list Ascii.ascii :=
  match To4 dest with
  | None => (true, default [] (To16 dest))
  | Some ip4 => (false, ip4)
  end.

(** [WriteTo(buf, rAddr)]: the count, which is 0 on success, and the error; and
    the packet given to a raw socket. Without an IPv6 socket an IPv6 destination
    is written to a nil one. *)
Definition WriteTo (port : Z) (conn6 : bool) (route : list Ascii.ascii → res (list Ascii.ascii))
    (sendto : bool → list Ascii.ascii → list Ascii.ascii → res unit)
    (buf : list Ascii.ascii) (rAddr : netAddr) : res (Z * option error) :=
  match rAddr with
  | AOther _ _ => Ok ((-1)%Z, Some (Errorf "invalid address type"))
  | AUDP a =>
      match route (ua_IP a) with
      | Err e => Ok (0%Z, Some (Wrapf "got an error while checking route, err: " e EmptyString))
      | Panic => Panic
      | Ok src =>
          let '(v6, sa) := getWriterObjects (ua_IP a) in
          match serialize_udp src (ua_IP a) port (ua_Port a) buf with
          | Err e => Ok ((-1)%Z, Some (Wrapf "failed serialize rcvdPacket: " e EmptyString))
          | Panic => Panic
          | Ok bs =>
              if v6 && negb conn6 then Panic
              else match sendto v6 bs sa with
                   | Ok _ => Ok (0%Z, None)
                   | Err e => Ok (0%Z, Some e)
                   | Panic => Panic
                   end
          end
      end
  end.
End socket.

(** [updateRouter()]: every tick replaces the router, unless a new one cannot be
    made; [None] is the context being done. *)
Fixpoint updateRouter {R} (events : list (option (res R))) (router : R) : R :=
  match events with
  | Some (Ok router) :: events => updateRouter events router
  | Some _ :: events => updateRouter events router
  | None :: _ | [] => router
  end.
Lemma updateRouter_keeps {R} (events : list (option (res R))) router :
  Forall (λ e, match e with Some (Ok _) => False | _ => True end) events → updateRouter events router = router.
Proof. induction 1 as [|[[]|] events He _ IH]; done. Qed.

(** ** The readers and the channel

    Two readers, each with at most the packet it is waiting to hand over; a
    [ReadFrom] takes one of them; [Close] stops everything. *)
Record demux := mkDemux {
  dm_pending4 : option rcvdPacket;
  dm_pending6 : option rcvdPacket;
  dm_stopped : bool;
  dm_received : list (bool * rcvdPacket);   (** what the sockets gave, IPv6 marked *)
  dm_delivered : list (bool * rcvdPacket)   (** what [ReadFrom] took *)
}.

Inductive dstep : demux → demux → Prop :=
| ds_recv4 got addr err q s r d : let p := recv_packet got addr err in
    dstep (mkDemux None q s r d) (mkDemux (Some p) q s (r ++ [(false, p)]) d)
| ds_recv6 got addr err q s r d : let p := recv_packet got addr err in
    dstep (mkDemux q None s r d) (mkDemux q (Some p) s (r ++ [(true, p)]) d)
| ds_take4 p q r d s : dstep (mkDemux (Some p) q s r d) (mkDemux None q s r (d ++ [(false, p)]))
| ds_take6 p q r d s : dstep (mkDemux q (Some p) s r d) (mkDemux q None s r (d ++ [(true, p)]))
| ds_close p q s r d : dstep (mkDemux p q s r d) (mkDemux p q true r d).

Definition demux_start : demux := mkDemux None None false [] [].

(** ** What the filter lets through *)

Lemma load_app pre off size p : (0 ≤ off)%Z → (0 ≤ size)%Z →
  load (Z.of_nat (length pre) + off) size (pre ++ p) = load off size p.
Proof.
  intros Ho Hs. unfold load. rewrite length_app.
  destruct (decide (off + size ≤ Z.of_nat (length p))%Z) as [H|H].
  - rewrite decide_True by lia. unfold slice.
    replace (Z.to_nat (Z.of_nat (length pre) + off)) with (length pre + Z.to_nat off) by lia.
    replace (Z.to_nat (Z.of_nat (length pre) + off + size) - (length pre + Z.to_nat off))
      with (Z.to_nat (off + size) - Z.to_nat off) by lia.
    by rewrite <-drop_drop, drop_app_length.
  - rewrite decide_False by lia. done.
Qed.

(** The destination port of a UDP header, and a STUN payload. *)
Definition udp_dst (udp : list Ascii.ascii) : Z := be_value (slice 2 4 udp) 0.
Definition has_cookie (payload : list Ascii.ascii) : Prop :=
  8 ≤ length payload ∧ be_value (slice 4 8 payload) 0 = magicCookie.

Lemma load_udp_dst udp rest : length udp = 8 → load 2 2 (udp ++ rest) = Some (udp_dst udp).
Proof.
  intros Hl. do 8 (destruct udp as [|? udp]; [done|]). destruct udp; [|done].
  unfold load. rewrite decide_True by (rewrite length_app; cbn [length]; lia). reflexivity.
Qed.

Lemma load_cookie payload : load 4 4 payload =
  if decide (8 ≤ length payload) then Some (be_value (slice 4 8 payload) 0) else None.
Proof. unfold load. repeat case_decide; done || lia. Qed.

Lemma exec_filter dstPortOff cookieOff dstPort p :
  bpf_exec (length (rawInstructions dstPortOff cookieOff dstPort)) (rawInstructions dstPortOff cookieOff dstPort) 0 p =
  match load dstPortOff 2 p with
  | Some v => if decide (v = dstPort) then
      match load cookieOff 4 p with
      | Some c => if decide (c = magicCookie) then 0xffffffff%Z else 0%Z
      | None => 0%Z
      end else 0%Z
  | None => 0%Z
  end.
Proof.
  unfold rawInstructions. cbn [length bpf_exec]. destruct (load dstPortOff 2 p) as [v|]; [|done].
  destruct (decide (v = dstPort)); cbn [drop bpf_exec]; [|done].
  destruct (load cookieOff 4 p) as [c|]; [|done]. by destruct (decide (c = magicCookie)).
Qed.

Lemma exec_udp port udp payload pre : length udp = 8 →
  bpf_exec 6 (rawInstructions (Z.of_nat (length pre) + 2) (Z.of_nat (length pre) + 12) port) 0 (pre ++ udp ++ payload) ≠ 0%Z ↔
  udp_dst udp = port ∧ has_cookie payload.
Proof.
  intros Hl. change 6 with (length (rawInstructions (Z.of_nat (length pre) + 2) (Z.of_nat (length pre) + 12) port)).
  rewrite exec_filter, load_app, load_udp_dst by (done || lia). case_decide as Hp; [|naive_solver].
  rewrite load_app by lia. change 12%Z with (Z.of_nat 8 + 4)%Z. rewrite <-Hl, load_app, load_cookie by lia.
  unfold has_cookie. repeat case_decide; naive_solver.
Qed.

(** C24. The filter keeps a packet for WireGuard's port exactly when its UDP
    destination is that port and its payload is long enough to hold STUN's magic
    cookie and holds it: over IPv4 with a header of 20 bytes, and over IPv6. An
    IPv4 header with options shifts everything: whatever the packet carries, it
    is dropped unless the bytes at offset 22, inside the options, spell the
    port. *)
Theorem stun_filter_accepts {B : BPF} {BS : BPFSpec B} port raw4 raw6 :
  GetInstructions port = Ok (raw4, raw6) →
  (∀ ip udp payload, length ip = 20 → length udp = 8 →
    bpf_run raw4 (ip ++ udp ++ payload) ≠ 0%Z ↔ udp_dst udp = port ∧ has_cookie payload) ∧
  (∀ udp payload, length udp = 8 →
    bpf_run raw6 (udp ++ payload) ≠ 0%Z ↔ udp_dst udp = port ∧ has_cookie payload) ∧
  (∀ ip rest, 24 ≤ length ip → be_value (slice 22 24 ip) 0 ≠ port → bpf_run raw4 (ip ++ rest) = 0%Z).
Proof.
  unfold GetInstructions. intros (r4&H4&Hr)%res_bind_Ok. apply res_bind_Ok in Hr as (r6&H6&[= -> ->]).
  split; [|split].
  - intros ip udp payload Hip Hl. rewrite (bpf_run_exec _ _ _ H4), <-(exec_udp port udp payload ip Hl), Hip. done.
  - intros udp payload Hl. rewrite (bpf_run_exec _ _ _ H6). apply (exec_udp port udp payload [] Hl).
  - intros ip rest Hip Hne. rewrite (bpf_run_exec _ _ _ H4), exec_filter.
    assert (load 22 2 (ip ++ rest) = Some (be_value (slice 22 24 ip) 0)) as ->; [|by rewrite decide_False].
    do 24 (destruct ip as [|? ip]; [cbn in Hip; lia|]). unfold load.
    rewrite decide_True by (rewrite length_app; cbn [length]; lia). reflexivity.
Qed.

Definition ex_BPF : BPF := {| bpf_raw := bpf_instruction; bpf_Assemble := Ok; bpf_run raw p := bpf_exec (length raw) raw 0 p |}.
#[local] Instance ex_BPFSpec : BPFSpec ex_BPF.
Proof. split. by intros prog raw p [= ->]. Qed.

Definition ex_udp : list Ascii.ascii := map byte_of_Z [0; 1; 202; 110; 0; 16; 0; 0]%Z.
Definition ex_stun : list Ascii.ascii := map byte_of_Z [0; 1; 0; 0; 0x21; 0x12; 0xA4; 0x42]%Z.

Lemma stun_filter_accepts_witness :
  bpf_run (BPF := ex_BPF) (rawInstructions 22 32 51822) (replicate 20 "000"%char ++ ex_udp ++ ex_stun) ≠ 0%Z.
Proof.
  apply (proj1 (stun_filter_accepts (B := ex_BPF) 51822 (rawInstructions 22 32 51822) (rawInstructions 2 12 51822) eq_refl)
    (replicate 20 "000"%char) ex_udp ex_stun eq_refl eq_refl).
  split; [reflexivity|]. split; [|reflexivity]. apply (bool_decide_unpack _). vm_compute. exact I.
Defined.

(** ** What [Listen] leaves behind *)

Ltac listen_leaf Hl :=
  injection Hl as <- <-; cbn [app is_ok]; apply (bool_decide_unpack _); vm_compute; exact I.
Ltac listen_next Hl Hp r := destruct r; [|by listen_leaf Hl|injection Hl as <- <-; by destruct Hp].

(** [Listen] holds nothing when it fails: every raw socket it opened is
    closed, its context is cancelled and no reader was started. When it succeeds
    it closes nothing, and exactly the sockets it opened are read. *)
Lemma Listen_releases env r log :
  Listen env = (r, log) → r ≠ Panic →
  (EvSocket4 ∈ log ↔ (if is_ok r then EvReader4 ∈ log else EvClose4 ∈ log)) ∧
  (EvSocket6 ∈ log ↔ (if is_ok r then EvReader6 ∈ log else EvClose6 ∈ log)) ∧
  (if is_ok r then EvRouter ∈ log ∧ EvCancel ∉ log ∧ EvClose4 ∉ log ∧ EvClose6 ∉ log
   else EvCancel ∈ log ∧ EvReader4 ∉ log ∧ EvReader6 ∉ log ∧ EvRouter ∉ log).
Proof.
  unfold Listen, guard, sock_Close. intros Hl Hp.
  listen_next Hl Hp (le_router env). listen_next Hl Hp (le_socket4 env). listen_next Hl Hp (le_mark4 env).
  destruct (is_ok (le_socket6 env)).
  - listen_next Hl Hp (le_mark6 env). listen_next Hl Hp (le_instructions env).
    listen_next Hl Hp (le_bpf4 env). listen_next Hl Hp (le_bpf6 env). by listen_leaf Hl.
  - listen_next Hl Hp (le_instructions env). listen_next Hl Hp (le_bpf4 env). by listen_leaf Hl.
Qed.

Lemma Listen_releases_witness :
  let env := mkListenEnv (Ok tt) (Ok tt) (Ok tt) (Ok tt) (Ok tt) (Ok tt) (Ok tt) (Err (Errorf "no filter")) in
  EvClose4 ∈ (Listen env).2 ∧ EvClose6 ∈ (Listen env).2.
Proof.
  intros env. destruct (Listen_releases env (Listen env).1 (Listen env).2 eq_refl ltac:(vm_compute; discriminate)) as (H4&H6&_).
  split; [apply H4|apply H6]; apply (bool_decide_unpack _); vm_compute; exact I.
Defined.

(** ** From the raw sockets to [ReadFrom] *)

Definition of_family (six : bool) (l : list (bool * rcvdPacket)) : list (bool * rcvdPacket) :=
  filter (λ x, x.1 = six) l.
Definition pending_of (six : bool) (s : demux) : list (bool * rcvdPacket) :=
  match (if six then dm_pending6 s else dm_pending4 s) with Some p => [(six, p)] | None => [] end.

Definition demux_inv (s : demux) : Prop :=
  ∀ six, of_family six (dm_received s) = of_family six (dm_delivered s) ++ pending_of six s.

Lemma of_family_snoc six f p l : of_family six (l ++ [(f, p)]) = of_family six l ++ (if bool_decide (f = six) then [(f, p)] else []).
Proof.
  unfold of_family. rewrite list.filter_app. f_equal. rewrite filter_cons. cbn [fst].
  case_decide; [by rewrite bool_decide_true|by rewrite bool_decide_false].
Qed.

Lemma demux_step_inv s s' : demux_inv s → dstep s s' → demux_inv s'.
Proof.
  intros Hi Hs six. specialize (Hi six).
  inversion Hs; subst; unfold pending_of in *; cbn [dm_received dm_delivered dm_pending4 dm_pending6] in *;
    rewrite ?of_family_snoc; destruct six; cbn [bool_decide decide] in *;
    repeat match goal with |- context [bool_decide ?P] => change (bool_decide P) with true || change (bool_decide P) with false end;
    rewrite ?Hi, ?app_nil_r, <-?app_assoc; cbn [app]; rewrite ?app_nil_r; done.
Qed.

(** Whatever the interleaving of the readers, the readers of the channel and
    [Close], the packets of each family reach [ReadFrom] in the order the kernel
    gave them, none twice, and at most the last one is still waiting; and what
    [ReadFrom] makes of one is its sender and its payload, but a count that
    includes the 8 bytes of the UDP header, which are not in the buffer. *)
Lemma demux_keeps_order {G : Gopacket} s :
  rtc dstep demux_start s →
  (∀ six, of_family six (dm_received s) = of_family six (dm_delivered s) ++ pending_of six s) ∧
  ∀ p ip src payload b, pkt_err p = None → pkt_addr p = Inet4 ip →
    decode_ipv4 (pkt_buf p) = Ok (src, Z.of_nat (8 + length payload), payload) → length payload ≤ length b →
    ReadFrom (Some p) b = (Z.of_nat (length payload + 8), Some (mkUDPAddr ip src EmptyString), None,
                           payload ++ drop (length payload) b).
Proof.
  intros Hr. split.
  - apply (rtc_invariant dstep demux_inv demux_step_inv _ _ Hr). intros six. by destruct six.
  - intros p ip src payload b He Ha Hd Hl. unfold ReadFrom. rewrite He, Ha, Hd. unfold copy_into.
    rewrite (take_ge payload) by lia. do 3 f_equal. lia.
Qed.

Definition ex_gopacket : Gopacket := {|
  decode_ipv4 bs := Ok (5349%Z, Z.of_nat (8 + length (drop 28 bs)), drop 28 bs);
  decode_udp bs := Ok (5349%Z, Z.of_nat (8 + length (drop 8 bs)), drop 8 bs);
  serialize_udp _ _ _ _ bs := Ok bs
|}.
Definition ex_pkt : rcvdPacket := mkPkt (Inet4 (replicate 4 "001"%char)) (replicate 28 "000"%char ++ ex_stun) None.

Lemma demux_keeps_order_witness :
  (ReadFrom (G := ex_gopacket) (Some ex_pkt) (replicate 1500 "000"%char)).1.1.1 = 16%Z ∧
  of_family true (dm_received (mkDemux None (Some ex_pkt) false [(true, ex_pkt)] [])) = [(true, ex_pkt)].
Proof.
  assert (rtc dstep demux_start (mkDemux None (Some ex_pkt) false [(true, ex_pkt)] [])) as Hr.
  { eapply rtc_l; [apply (ds_recv6 (pkt_buf ex_pkt) (pkt_addr ex_pkt) None None false [] [])|apply rtc_refl]. }
  destruct (demux_keeps_order (G := ex_gopacket) _ Hr) as [Hf Hn]. split.
  - rewrite (Hn ex_pkt (replicate 4 "001"%char) 5349%Z ex_stun (replicate 1500 "000"%char)); try reflexivity.
    apply (bool_decide_unpack _). vm_compute. exact I.
  - rewrite (Hf true). reflexivity.
Defined.

(** An IPv6 destination is written to a socket that is not there. *)
Lemma WriteTo_panics {G : Gopacket} port route sendto buf a src bs :
  route (ua_IP a) = Ok src → To4 (ua_IP a) = None → serialize_udp src (ua_IP a) port (ua_Port a) buf = Ok bs →
  WriteTo port false route sendto buf (AUDP a) = Panic.
Proof. intros Hr H4 Hs. unfold WriteTo, getWriterObjects. by rewrite Hr, H4, Hs. Qed.
