(* ===== verification/RawMux.v ===== *)
(** * [ReadFromConn]: the kernel device's reader

    Over the kernel's WireGuard device the universal mux reads the shared raw
    socket itself: this file composes [sharedsock/] with
    [iface/bind/udp_mux_universal.go], from the bytes the kernel hands to the
    filter to the message the mux handles. *)
From Stdlib Require Import Ascii.
From S2P Require Import Prelude GoStrings GoNet MuxedConn Mux UniversalMux SharedSock.

Section reader.
Context {B : PacketBuffer} {S : Type} {PC : PacketConn S} {SL : StunLib} {SW : StunWire SL} {G : Gopacket}.
Context {O : Others (B := B) (S := S)}.

(** One round of the loop on what [ReadFrom] returned: errors and messages that
    cannot be decoded are logged. *)
Definition ReadFromConn_round (pool : nat → list Ascii.ascii) (u : UniversalUDPMuxDefault (B := B) (S := S))
    (n : Z) (a : netAddr) (err : option error) (buf : list Ascii.ascii) :
    res unit * UniversalUDPMuxDefault (B := B) (S := S) :=
  match err with
  | Some _ => (Ok tt, u)
  | None =>
      if bool_decide (0 ≤ n)%Z then
        match (raw ← subslice 0 (Z.to_nat n) buf; stun_Decode raw) with
        | Panic => (Panic, u)
        | Err _ => (Ok tt, u)
        | Ok msg => match U_HandleSTUNMessage pool u msg a with
                    | (Panic, u) => (Panic, u)
                    | (_, u) => (Ok tt, u)
                    end
        end
      else (Panic, u)
  end.

(** [ReadFromConn(ctx)] over the shared socket: the packets [ReadFrom] takes,
    until the context is cancelled; the buffer is reused, and a panic ends the
    program. *)
Fixpoint ReadFromConn (pool : nat → list Ascii.ascii) (u : UniversalUDPMuxDefault (B := B) (S := S))
    (buf : list Ascii.ascii) (pkts : list (option rcvdPacket)) : res unit * UniversalUDPMuxDefault (B := B) (S := S) :=
  match pkts with
  | [] => (Ok tt, u)
  | pkt :: pkts =>
      let '(n, addr, err, buf) := ReadFrom pkt buf in
      let a := match addr with Some a => AUDP a | None => AOther EmptyString EmptyString end in
      match ReadFromConn_round pool u n a err buf with
      | (Panic, u) => (Panic, u)
      | (_, u) => ReadFromConn pool u buf pkts
      end
  end.
Definition ReadFromConn_buf : nat := 1500.
End reader.

(** An IPv4 header without options of a UDP packet that is no fragment. *)
Definition plain_ipv4 (ip : list Ascii.ascii) : Prop :=
  length ip = 20 ∧ ip !! 0 = Some (byte_of_Z 69) ∧ ip !! 9 = Some (byte_of_Z 17) ∧
  Z.land (be_value (slice 6 8 ip) 0) 16383 = 0%Z.
(** Its total length, of header and datagram; and the ports and length of a UDP
    header. *)
Definition ip_total (ip : list Ascii.ascii) : Z := be_value (slice 2 4 ip) 0.
Definition udp_src (udp : list Ascii.ascii) : Z := be_value (slice 0 2 udp) 0.
Definition udp_length (udp : list Ascii.ascii) : Z := be_value (slice 4 6 udp) 0.

(** What gopacket documents: the payload of a plain IPv4 packet is cut to the
    total length; the length field of a UDP header is given as it stands, and
    that much of what there is is the payload. A port with a layer type of its
    own registered is not followed by a payload. *)
Class GopacketSpec (G : Gopacket) := {
  has_layer : Z → Prop;
  decode_plain : ∀ ip udp payload, plain_ipv4 ip → length udp = 8 → (28 ≤ ip_total ip)%Z → (8 ≤ udp_length udp)%Z →
    ¬ has_layer (udp_src udp) → ¬ has_layer (udp_dst udp) →
    decode_ipv4 (ip ++ udp ++ payload) =
    Ok (udp_src udp, udp_length udp,
        take (Z.to_nat (udp_length udp - 8)) (take (Z.to_nat (ip_total ip - 28)) payload))
}.

Section facts.
Context {B : PacketBuffer} {S : Type} {PC : PacketConn S} {SL : StunLib} {SW : StunWire SL} {G : Gopacket} {GS : GopacketSpec G}.
Context {O : Others (B := B) (S := S)}.

Lemma copy_into_length b payload : length (copy_into b payload) = length b.
Proof. unfold copy_into. rewrite length_app, length_take, length_drop. lia. Qed.

Lemma ReadFrom_buffer pkt b : length (ReadFrom pkt b).2 = length b.
Proof.
  unfold ReadFrom. destruct pkt as [[addr bs [e|]]|]; cbn [pkt_err pkt_addr pkt_buf]; [done| |done].
  destruct addr as [ip|ip|]; [| |done]; [destruct (decode_ipv4 bs) as [[[]]| |]|destruct (decode_udp bs) as [[[]]| |]];
    cbn [snd]; rewrite ?copy_into_length; done.
Qed.

(** The packet of a datagram over IPv4. *)
Definition ipv4_packet (src : list Ascii.ascii) (ip udp payload : list Ascii.ascii) : rcvdPacket :=
  recv_packet (ip ++ udp ++ payload) (Inet4 src) None.

Lemma ReadFrom_ipv4 src ip udp payload b :
  plain_ipv4 ip → ip_total ip = Z.of_nat (28 + length payload) → length udp = 8 → (8 ≤ udp_length udp)%Z →
  ¬ has_layer (udp_src udp) → ¬ has_layer (udp_dst udp) → length payload ≤ 1472 →
  ReadFrom (Some (ipv4_packet src ip udp payload)) b =
  (udp_length udp, Some (mkUDPAddr src (udp_src udp) EmptyString), None,
   copy_into b (take (Z.to_nat (udp_length udp - 8)) payload)).
Proof.
  intros Hip Ht Hl Hn Hs Hd Hp. unfold ReadFrom, ipv4_packet, recv_packet. cbn [pkt_err pkt_addr pkt_buf].
  pose proof (proj1 Hip) as Hi. rewrite take_ge by (rewrite !length_app; lia).
  rewrite decode_plain by (done || lia). rewrite (take_ge payload) by lia. done.
Qed.

(** C33. A datagram over IPv4 for WireGuard's port with STUN's cookie, at most 1472
    bytes of payload, a plain IP header with its true length, ports that gopacket
    has no layer for and a UDP length field above 1500 passes the filter and then,
    from any state the reader is in, panics it: the slice of the 1500-byte buffer
    is taken to the length the sender claimed. With a true length the mux is given
    the payload and 8 bytes of what the buffer held before. *)
Theorem claimed_length_panics {BP : BPF} {BS : BPFSpec BP} port raw4 raw6 src ip udp payload pool
    (u : UniversalUDPMuxDefault (B := B) (S := S)) buf later :
  GetInstructions port = Ok (raw4, raw6) →
  plain_ipv4 ip → ip_total ip = Z.of_nat (28 + length payload) →
  length udp = 8 → udp_dst udp = port → ¬ has_layer port → ¬ has_layer (udp_src udp) →
  has_cookie payload → length payload ≤ 1472 → length buf = ReadFromConn_buf →
  bpf_run raw4 (ip ++ udp ++ payload) ≠ 0%Z ∧
  ((1500 < udp_length udp)%Z → ReadFromConn pool u buf (Some (ipv4_packet src ip udp payload) :: later) = (Panic, u)) ∧
  (udp_length udp = Z.of_nat (8 + length payload) →
   ∃ buf', ReadFrom (Some (ipv4_packet src ip udp payload)) buf =
     (udp_length udp, Some (mkUDPAddr src (udp_src udp) EmptyString), None, buf') ∧
     subslice 0 (Z.to_nat (udp_length udp)) buf' = Ok (payload ++ slice (length payload) (length payload + 8) buf)).
Proof.
  intros Hg Hip Ht Hl Hdst Hld Hls Hck Hp Hb. subst port. split; [|split].
  - unfold GetInstructions in Hg. apply res_bind_Ok in Hg as (r4&H4&Hr). apply res_bind_Ok in Hr as (r6&H6&[= -> ->]).
    pose proof (proj1 Hip) as Hi.
    rewrite (bpf_run_exec _ _ _ H4). pose proof (exec_udp (udp_dst udp) udp payload ip Hl) as He. rewrite Hi in He. by apply He.
  - intros Hc. cbn [ReadFromConn]. rewrite ReadFrom_ipv4 by (done || lia).
    assert (subslice 0 (Z.to_nat (udp_length udp)) (copy_into buf (take (Z.to_nat (udp_length udp - 8)) payload)) = Panic) as Hs.
    { unfold subslice. rewrite copy_into_length, Hb. unfold ReadFromConn_buf. by rewrite decide_False by lia. }
    unfold ReadFromConn_round. rewrite bool_decide_true by lia. by rewrite Hs.
  - intros Hc. eexists. rewrite ReadFrom_ipv4 by (done || lia). split; [reflexivity|].
    rewrite Hc. rewrite Nat2Z.id. unfold subslice. rewrite decide_True by (rewrite copy_into_length, Hb; unfold ReadFromConn_buf; lia).
    f_equal. unfold slice, copy_into. replace (Z.to_nat (Z.of_nat (8 + length payload) - 8)) with (length payload) by lia. rewrite firstn_all.
    rewrite Nat.sub_0_r, drop_0, (take_ge payload) by (unfold ReadFromConn_buf in Hb; lia).
    rewrite take_app, (take_ge payload) by lia. do 2 f_equal. lia.
Qed.
End facts.

(** A parser of such packets that knows DNS, and a datagram of 8 bytes of
    payload that claims 2000. *)
Definition ex_parser : Gopacket := {|
  decode_ipv4 bs := let udp := slice 20 28 bs in
    if bool_decide (udp_src udp = 53 ∨ udp_dst udp = 53)%Z then Err (Errorf "No decoder for layer type DNS")
    else Ok (udp_src udp, udp_length udp,
             take (Z.to_nat (udp_length udp - 8)) (take (Z.to_nat (ip_total (take 20 bs) - 28)) (drop 28 bs)))%Z;
  decode_udp bs := Err (Errorf "not used");
  serialize_udp _ _ _ _ bs := Ok bs
|}.
#[local] Instance ex_parser_spec : GopacketSpec ex_parser.
Proof.
  refine {| has_layer p := p = 53%Z |}.
  intros ip udp payload [Hi _] Hl _ _ Hs Hd. cbn [decode_ipv4 ex_parser].
  assert (slice 20 28 (ip ++ udp ++ payload) = udp) as ->.
  { unfold slice. rewrite <-Hi, drop_app_length, take_app_length'; [done|lia]. }
  assert (drop 28 (ip ++ udp ++ payload) = payload) as ->.
  { rewrite (app_assoc ip), drop_app_length'; [done|]. rewrite length_app. lia. }
  rewrite bool_decide_false by tauto. by rewrite take_app_length' by done.
Defined.
#[local] Existing Instance ex_BPFSpec.

Definition ex_ip : list Ascii.ascii :=
  map byte_of_Z ([69; 0; 0; Z.of_nat (28 + length ex_stun); 0; 0; 0; 0; 64; 17; 0; 0; 1; 1; 1; 1; 2; 2; 2; 2])%Z.
Definition ex_claim : list Ascii.ascii := map byte_of_Z [0; 1; 202; 110; 7; 208; 0; 0]%Z.
Lemma claimed_length_panics_witness :
  let packet := Some (ipv4_packet (replicate 4 "001"%char) ex_ip ex_claim ex_stun) in
  (ReadFromConn (G := ex_parser) (B := list_buffer) (S := log_socket) (λ _, replicate 600 (byte_of_Z 0)) ex_umux
    (replicate 1500 "000"%char) [packet]).1 = Panic.
Proof.
  intros packet.
  destruct (claimed_length_panics (B := list_buffer) (S := log_socket) (G := ex_parser) (GS := ex_parser_spec) (BP := ex_BPF)
    51822 (rawInstructions 22 32 51822) (rawInstructions 2 12 51822) (replicate 4 "001"%char) ex_ip
    ex_claim ex_stun (λ _, replicate 600 (byte_of_Z 0)) ex_umux (replicate 1500 "000"%char) [] eq_refl)
    as (_&Hp&_).
  - repeat split.
  - vm_compute. reflexivity.
  - reflexivity.
  - vm_compute. reflexivity.
  - discriminate.
  - vm_compute. discriminate.
  - split; [|reflexivity]. apply (bool_decide_unpack _). vm_compute. exact I.
  - apply (bool_decide_unpack _). vm_compute. exact I.
  - reflexivity.
  - unfold packet. rewrite Hp; [reflexivity|]. vm_compute. reflexivity.
Defined.
