(* ===== verification/Xdp.v ===== *)
(** * [client/internal/ebpf/ebpf/src]: the XDP program

    [prog.c] with [dns_fwd.c] and [wg_proxy.c], as a function on the bytes of a
    frame and on what outlives one, the maps the manager writes and the
    program's own variables. The byte order of the machine is a parameter:
    the program is built for both. Like the source, it takes an IPv4 header for
    20 bytes, and leaves the UDP checksum as it was, which the loopback interface
    does not verify. Composed with the manager of Ebpf.v and the
    proxy of WgProxy.v, it moves packets between WireGuard and the relayed
    connections. *)
From Stdlib Require Import Ascii.
From S2P Require Import Prelude GoNet MuxedConn Ebpf WgProxy SharedSock.

(** ** Integers in memory *)

(** The low [n] bytes of an integer, the highest first. *)
Fixpoint be_bytes (n : nat) (z : Z) : list Ascii.ascii :=
  match n with O => [] | Datatypes.S n => be_bytes n (z / 256) ++ [byte_of_Z z] end.

Lemma length_be_bytes n z : length (be_bytes n z) = n.
Proof. revert z. induction n as [|n IH]; intros z; cbn; [done|]. rewrite length_app, IH. cbn. lia. Qed.

Lemma be_value_snoc bs b acc : be_value (bs ++ [b]) acc = (be_value bs acc * 256 + Z_of_byte b)%Z.
Proof. revert acc. by induction bs; intros acc; cbn. Qed.

Lemma be_value_bytes n z : be_value (be_bytes n z) 0 = (z `mod` 256 ^ Z.of_nat n)%Z.
Proof.
  revert z. induction n as [|n IH]; intros z; [by rewrite Z.mod_1_r|].
  cbn [be_bytes]. rewrite be_value_snoc, IH, Z_of_byte_of_Z, Nat2Z.inj_succ, Z.pow_succ_r by lia.
  rewrite (Z.rem_mul_r z 256) by lia. lia.
Qed.

Lemma be_bytes_value bs : be_bytes (length bs) (be_value bs 0) = bs.
Proof.
  induction bs as [|b bs IH] using rev_ind; [done|].
  rewrite length_app, Nat.add_1_r, be_value_snoc. cbn [be_bytes].
  pose proof (Z_of_byte_bounds b) as Hb.
  rewrite Z.div_add_l, (Z.div_small (Z_of_byte b)), Z.add_0_r, IH by lia.
  f_equal. f_equal. rewrite <-(byte_of_Z_of_byte b) at 2.
  apply byte_of_Z_inj_mod. rewrite Z.add_comm, Z.mod_add by lia. done.
Qed.

Lemma be_bytes_inj n p q :
  (0 ≤ p < 256 ^ Z.of_nat n)%Z → (0 ≤ q < 256 ^ Z.of_nat n)%Z → be_bytes n p = be_bytes n q → p = q.
Proof.
  intros Hp Hq H%(f_equal (λ bs, be_value bs 0)). rewrite !be_value_bytes in H.
  by rewrite !Z.mod_small in H.
Qed.

Section program.
Variable little : bool.

(** The integer at the bytes of a variable or a field, and the bytes of one. *)
Definition host_value (bs : list Ascii.ascii) : Z := be_value (if little then rev bs else bs) 0.
Definition host_bytes (n : nat) (z : Z) : list Ascii.ascii :=
  if little then rev (be_bytes n z) else be_bytes n z.

Definition htons (z : Z) : Z := host_value (be_bytes 2 z).
Definition htonl (z : Z) : Z := host_value (be_bytes 4 z).

(** A field of the frame, [n] bytes at [off]; reading and assigning it. *)
Definition field (off n : nat) (pkt : list Ascii.ascii) : Z := host_value (slice off (off + n) pkt).
Definition assign (off n : nat) (z : Z) (pkt : list Ascii.ascii) : list Ascii.ascii :=
  write_at off (host_bytes n z) pkt.

(** ** The maps and the variables *)

Definition bpf_maps : Type := bpf_map → Z → Z.
Definition max_entries : Z := 10.
Definition bpf_map_lookup_elem (m : bpf_maps) (which : bpf_map) (key : Z) : option Z :=
  if (key <? max_entries)%Z then Some (m which key) else None.

Record bpf_vars := mkVars { dns_ip : Z; dns_port : Z; proxy_port : Z; wg_port : Z }.
Record bpf_state := mkState { bs_maps : bpf_maps; bs_vars : bpf_vars }.

(** ** [dns_fwd.c] *)

Definition map_key_dns_ip : Z := 0.
Definition map_key_dns_port : Z := 1.
Definition GENERAL_DNS_PORT : Z := 13568.

Definition read_settings (m : bpf_maps) (v : bpf_vars) : bool * bpf_vars :=
  match bpf_map_lookup_elem m NbMapDnsIp map_key_dns_ip with
  | None => (false, v)
  | Some ip_value =>
      let v := mkVars (htonl ip_value) (dns_port v) (proxy_port v) (wg_port v) in
      match bpf_map_lookup_elem m NbMapDnsPort map_key_dns_port with
      | None => (false, v)
      | Some port_value => (true, mkVars (dns_ip v) (htons port_value) (proxy_port v) (wg_port v))
      end
  end.

(** Offsets in the frame: [ip->saddr] 26, [ip->daddr] 30, [udp->source] 34,
    [udp->dest] 36. *)
Definition xdp_dns_fwd (m : bpf_maps) (v : bpf_vars) (pkt : list Ascii.ascii) : bpf_vars * list Ascii.ascii :=
  let '(go, v) := if (dns_port v =? 0)%Z then read_settings m v else (true, v) in
  if negb go then (v, pkt)
  else if (field 36 2 pkt =? GENERAL_DNS_PORT)%Z && (field 30 4 pkt =? dns_ip v)%Z
  then (v, assign 36 2 (dns_port v) pkt)
  else if (field 34 2 pkt =? dns_port v)%Z && (field 26 4 pkt =? dns_ip v)%Z
  then (v, assign 34 2 GENERAL_DNS_PORT pkt)
  else (v, pkt).

(** ** [wg_proxy.c] *)

Definition map_key_proxy_port : Z := 0.
Definition map_key_wg_port : Z := 1.

Definition read_port_settings (m : bpf_maps) (v : bpf_vars) : bool * bpf_vars :=
  match bpf_map_lookup_elem m NbWgProxySettingsMap map_key_proxy_port with
  | None => (false, v)
  | Some value =>
      let v := mkVars (dns_ip v) (dns_port v) value (wg_port v) in
      match bpf_map_lookup_elem m NbWgProxySettingsMap map_key_wg_port with
      | None => (false, v)
      | Some value => (true, mkVars (dns_ip v) (dns_port v) (proxy_port v) (htons value))
      end
  end.

Definition xdp_wg_proxy (m : bpf_maps) (v : bpf_vars) (pkt : list Ascii.ascii) : bpf_vars * list Ascii.ascii :=
  let '(go, v) :=
    if (proxy_port v =? 0)%Z || (wg_port v =? 0)%Z then read_port_settings m v else (true, v) in
  if negb go then (v, pkt)
  else if negb (field 30 4 pkt =? htonl 2130706433)%Z then (v, pkt)
  else if negb (field 34 2 pkt =? wg_port v)%Z then (v, pkt)
  else
    let new_src_port := field 36 2 pkt in
    let new_dst_port := htons (proxy_port v) in
    (v, assign 34 2 new_src_port (assign 36 2 new_dst_port pkt)).

(** ** [prog.c] *)

Definition flag_feature_wg_proxy : Z := 1.
Definition flag_feature_dns_fwd : Z := 2.
Definition map_key_features : Z := 0.
Definition ETH_P_IP : Z := 2048.
Definition IPPROTO_UDP : Z := 17.

(** [eth->h_proto] is at 12, [ip->protocol] at 23; the three headers take 42
    bytes. Every frame is passed on. *)
Definition nb_xdp_prog (s : bpf_state) (pkt : list Ascii.ascii) : bpf_state * list Ascii.ascii :=
  let m := bs_maps s in
  match bpf_map_lookup_elem m NbFeatures map_key_features with
  | None => (s, pkt)
  | Some features =>
      if decide (length pkt < 14 + 20 + 8) then (s, pkt)
      else if negb (field 12 2 pkt =? htons ETH_P_IP)%Z then (s, pkt)
      else if negb (field 23 1 pkt =? IPPROTO_UDP)%Z then (s, pkt)
      else
        let '(v, pkt) := if negb (Z.land features flag_feature_dns_fwd =? 0)%Z
                         then xdp_dns_fwd m (bs_vars s) pkt else (bs_vars s, pkt) in
        let '(v, pkt) := if negb (Z.land features flag_feature_wg_proxy =? 0)%Z
                         then xdp_wg_proxy m v pkt else (v, pkt) in
        (mkState m v, pkt)
  end.
End program.

(** ** Host integers and network bytes *)

Section hosts.
Variable little : bool.

Lemma host_value_inj bs bs' :
  length bs = length bs' → host_value little bs = host_value little bs' ↔ bs = bs'.
Proof.
  intros Hl. split; [|by intros ->]. unfold host_value. intros H.
  apply (f_equal (be_bytes (length bs))) in H.
  destruct little; [|by rewrite Hl, be_bytes_value, <-Hl, be_bytes_value in H].
  rewrite <-length_rev, be_bytes_value in H.
  rewrite length_rev, Hl, <-length_rev, be_bytes_value in H.
  by rewrite <-(rev_involutive bs), H, rev_involutive.
Qed.

Lemma host_bytes_value bs : host_bytes little (length bs) (host_value little bs) = bs.
Proof.
  unfold host_bytes, host_value. destruct little; [|apply be_bytes_value].
  rewrite <-length_rev, be_bytes_value. apply rev_involutive.
Qed.

Lemma host_bytes_htons z : host_bytes little 2 (htons little z) = be_bytes 2 z.
Proof. unfold htons. exact (host_bytes_value (be_bytes 2 z)). Qed.

Lemma host_eqb bs bs' : length bs = length bs' →
  (host_value little bs =? host_value little bs')%Z = bool_decide (bs = bs').
Proof.
  intros Hl. apply Bool.eq_true_iff_eq. rewrite Z.eqb_eq, bool_decide_eq_true. by apply host_value_inj.
Qed.

Lemma htons_zero z : (0 ≤ z < 65536)%Z → (htons little z =? 0)%Z = (z =? 0)%Z.
Proof.
  intros Hz. assert (htons little 0 = 0%Z) as H0 by (by destruct little).
  rewrite <-H0 at 1. unfold htons. rewrite host_eqb by (by rewrite !length_be_bytes).
  apply Bool.eq_true_iff_eq. rewrite bool_decide_eq_true, Z.eqb_eq. split; [|by intros ->].
  intros H%(f_equal (λ bs, be_value bs 0)). rewrite !be_value_bytes in H.
  by rewrite !Z.mod_small in H by (cbn; lia).
Qed.
End hosts.

(** ** UDP over IPv4

    The fields of a frame that the program takes for a datagram; [u_rest] is the
    length, the checksum and the payload. *)
Record udp4 := mkUdp4 {
  u_eth : list Ascii.ascii;
  u_ip : list Ascii.ascii;
  u_sum : list Ascii.ascii;
  u_saddr : list Ascii.ascii;
  u_daddr : list Ascii.ascii;
  u_sport : list Ascii.ascii;
  u_dport : list Ascii.ascii;
  u_rest : list Ascii.ascii
}.

Definition udp4_ok (f : udp4) : Prop :=
  length (u_eth f) = 12 ∧ length (u_ip f) = 9 ∧ length (u_sum f) = 2 ∧
  length (u_saddr f) = 4 ∧ length (u_daddr f) = 4 ∧
  length (u_sport f) = 2 ∧ length (u_dport f) = 2 ∧ 4 ≤ length (u_rest f).

Definition frame_of (f : udp4) : list Ascii.ascii :=
  u_eth f ++ be_bytes 2 ETH_P_IP ++ u_ip f ++ [byte_of_Z IPPROTO_UDP] ++ u_sum f ++
  u_saddr f ++ u_daddr f ++ u_sport f ++ u_dport f ++ u_rest f.

Definition set_ports (sport dport : list Ascii.ascii) (f : udp4) : udp4 :=
  mkUdp4 (u_eth f) (u_ip f) (u_sum f) (u_saddr f) (u_daddr f) sport dport (u_rest f).

Definition parse_udp4 (pkt : list Ascii.ascii) : option udp4 :=
  if decide (42 ≤ length pkt ∧ slice 12 14 pkt = be_bytes 2 ETH_P_IP ∧ slice 23 24 pkt = [byte_of_Z IPPROTO_UDP])
  then Some (mkUdp4 (slice 0 12 pkt) (slice 14 23 pkt) (slice 24 26 pkt) (slice 26 30 pkt)
               (slice 30 34 pkt) (slice 34 36 pkt) (slice 36 38 pkt) (drop 38 pkt))
  else None.

Lemma slice_step {A} lo hi (l : list A) : lo ≤ hi → drop lo l = slice lo hi l ++ drop hi l.
Proof.
  intros Hl. unfold slice. rewrite <-(take_drop (hi - lo) (drop lo l)) at 1.
  rewrite drop_drop. by replace (lo + (hi - lo)) with hi by lia.
Qed.

Lemma parse_udp4_Some pkt f : parse_udp4 pkt = Some f → pkt = frame_of f ∧ udp4_ok f.
Proof.
  unfold parse_udp4. case_decide as H; [|done]. destruct H as (Hl & He & Hp). intros [= <-].
  split.
  - unfold frame_of. cbn [u_eth u_ip u_sum u_saddr u_daddr u_sport u_dport u_rest].
    rewrite <-He, <-Hp. change pkt with (drop 0 pkt) at 1.
    by rewrite (slice_step 0 12), (slice_step 12 14), (slice_step 14 23), (slice_step 23 24), (slice_step 24 26),
      (slice_step 26 30), (slice_step 30 34), (slice_step 34 36), (slice_step 36 38) by lia.
  - unfold udp4_ok, slice. cbn [u_eth u_ip u_sum u_saddr u_daddr u_sport u_dport u_rest].
    rewrite !length_take, !length_drop. lia.
Qed.

Lemma slice_skip {A} (pre rest : list A) lo hi :
  length pre ≤ lo → slice lo hi (pre ++ rest) = slice (lo - length pre) (hi - length pre) rest.
Proof.
  intros Hl. unfold slice. rewrite drop_app_ge by done. f_equal. lia.
Qed.
Lemma slice_first {A} (pre rest : list A) n : length pre = n → slice 0 n (pre ++ rest) = pre.
Proof. intros <-. unfold slice. rewrite drop_0, Nat.sub_0_r. apply take_app_length. Qed.

Lemma frame_fields f : udp4_ok f →
  42 ≤ length (frame_of f) ∧
  slice 12 14 (frame_of f) = be_bytes 2 ETH_P_IP ∧ slice 23 24 (frame_of f) = [byte_of_Z IPPROTO_UDP] ∧
  slice 26 30 (frame_of f) = u_saddr f ∧ slice 30 34 (frame_of f) = u_daddr f ∧
  slice 34 36 (frame_of f) = u_sport f ∧ slice 36 38 (frame_of f) = u_dport f ∧
  slice 0 12 (frame_of f) = u_eth f ∧ slice 14 23 (frame_of f) = u_ip f ∧
  slice 24 26 (frame_of f) = u_sum f ∧ drop 38 (frame_of f) = u_rest f.
Proof.
  intros (H1 & H2 & H3 & H4 & H5 & H6 & H7 & H8). unfold frame_of. split.
  { rewrite !length_app, length_be_bytes. cbn [length]. lia. }
  split_and!;
    repeat (rewrite slice_skip by (rewrite ?length_be_bytes; cbn [length]; lia));
    rewrite ?length_be_bytes, ?H1, ?H2, ?H3, ?H4, ?H5, ?H6; cbn [length Nat.sub];
    try (apply slice_first; rewrite ?length_be_bytes; done).
  repeat (rewrite drop_app_ge by (rewrite ?length_be_bytes; cbn [length]; lia)).
  rewrite length_be_bytes, H1, H2, H3, H4, H5, H6, H7. done.
Qed.

Lemma parse_frame f : udp4_ok f → parse_udp4 (frame_of f) = Some f.
Proof.
  intros (Hl & He & Hp & Hs & Hd & Hsp & Hdp & Hm & Hi & Hc & Hr)%frame_fields.
  unfold parse_udp4. rewrite decide_True by done.
  rewrite Hm, Hi, Hc, Hs, Hd, Hsp, Hdp, Hr. by destruct f.
Qed.

Lemma assign_dport little bs f : length bs = 2 → udp4_ok f →
  assign little 36 2 (host_value little bs) (frame_of f) = frame_of (set_ports (u_sport f) bs f).
Proof.
  intros Hbs (H1 & H2 & H3 & H4 & H5 & H6 & H7 & H8). unfold assign, write_at.
  rewrite <-Hbs, host_bytes_value, Hbs. unfold frame_of, set_ports. cbn [u_eth u_ip u_sum u_saddr u_daddr u_sport u_dport u_rest].
  rewrite !(app_assoc (u_eth f)), !app_assoc, <-!(app_assoc _ (u_dport f)), <-!(app_assoc _ bs).
  rewrite take_app_length' by (rewrite !length_app, length_be_bytes; cbn [length]; lia).
  rewrite drop_app_ge by (rewrite !length_app, length_be_bytes; cbn [length]; lia).
  do 2 f_equal. rewrite !length_app, length_be_bytes. cbn [length].
  rewrite drop_app_length' by lia. done.
Qed.

Lemma assign_sport little bs f : length bs = 2 → udp4_ok f →
  assign little 34 2 (host_value little bs) (frame_of f) = frame_of (set_ports bs (u_dport f) f).
Proof.
  intros Hbs (H1 & H2 & H3 & H4 & H5 & H6 & H7 & H8). unfold assign, write_at.
  rewrite <-Hbs, host_bytes_value, Hbs. unfold frame_of, set_ports. cbn [u_eth u_ip u_sum u_saddr u_daddr u_sport u_dport u_rest].
  rewrite !(app_assoc (u_eth f)), !app_assoc, <-!(app_assoc _ (u_dport f)), <-!(app_assoc _ (u_sport f)), <-!(app_assoc _ bs).
  rewrite take_app_length' by (rewrite !length_app, length_be_bytes; cbn [length]; lia).
  rewrite drop_app_ge by (rewrite !length_app, length_be_bytes; cbn [length]; lia).
  do 2 f_equal. rewrite !length_app, length_be_bytes. cbn [length].
  rewrite drop_app_length' by lia. done.
Qed.

(** ** What the program is for *)

Record settings := mkSettings { s_ip : Z; s_dns : Z; s_proxy : Z; s_wg : Z }.
Definition zero_settings : settings := mkSettings 0 0 0 0.
Definition settings_ok (s : settings) : Prop :=
  (0 ≤ s_dns s < 65536)%Z ∧ (0 ≤ s_wg s < 65536)%Z.

(** Ports of 16 bits, as the maps hold them. *)
Definition maps_ok (m : bpf_maps) : Prop :=
  (0 ≤ m NbMapDnsPort map_key_dns_port < 65536)%Z ∧ (0 ≤ m NbWgProxySettingsMap map_key_wg_port < 65536)%Z.

Definition on (feature : Z) (m : bpf_maps) : bool := negb (Z.land (m NbFeatures map_key_features) feature =? 0)%Z.

(** Settings are read while one is 0. *)
Definition refresh_dns (m : bpf_maps) (s : settings) : settings :=
  if (s_dns s =? 0)%Z then mkSettings (m NbMapDnsIp map_key_dns_ip) (m NbMapDnsPort map_key_dns_port) (s_proxy s) (s_wg s) else s.
Definition refresh_wg (m : bpf_maps) (s : settings) : settings :=
  if (s_proxy s =? 0)%Z || (s_wg s =? 0)%Z
  then mkSettings (s_ip s) (s_dns s) (m NbWgProxySettingsMap map_key_proxy_port) (m NbWgProxySettingsMap map_key_wg_port) else s.

Definition dns_spec (dns_name : list Ascii.ascii) (s : settings) (f : udp4) : udp4 :=
  if bool_decide (u_dport f = dns_name) && bool_decide (u_daddr f = be_bytes 4 (s_ip s))
  then set_ports (u_sport f) (be_bytes 2 (s_dns s)) f
  else if bool_decide (u_sport f = be_bytes 2 (s_dns s)) && bool_decide (u_saddr f = be_bytes 4 (s_ip s))
  then set_ports dns_name (u_dport f) f else f.

(** A datagram of WireGuard's to 127.0.0.1 goes to the proxy, from the port it
    was meant for. *)
Definition wg_spec (s : settings) (f : udp4) : udp4 :=
  if bool_decide (u_daddr f = loopback) && bool_decide (u_sport f = be_bytes 2 (s_wg s))
  then set_ports (u_dport f) (be_bytes 2 (s_proxy s)) f else f.

Definition xdp_spec (dns_name : list Ascii.ascii) (m : bpf_maps) (s : settings) (f : udp4) : settings * udp4 :=
  let '(s, f) := if on flag_feature_dns_fwd m
                 then let s := refresh_dns m s in (s, dns_spec dns_name s f) else (s, f) in
  if on flag_feature_wg_proxy m then let s := refresh_wg m s in (s, wg_spec s f) else (s, f).

Section refinement.
Variable little : bool.

(** The port the program takes for 53, in the frame. *)
Definition dns_name : list Ascii.ascii := host_bytes little 2 GENERAL_DNS_PORT.
Definition to_vars (s : settings) : bpf_vars :=
  mkVars (htonl little (s_ip s)) (htons little (s_dns s)) (s_proxy s) (htons little (s_wg s)).

Lemma to_vars_zero : to_vars zero_settings = mkVars 0 0 0 0.
Proof. unfold to_vars. cbn [zero_settings s_ip s_dns s_proxy s_wg]. by destruct little. Qed.

Lemma udp4_ok_set_ports sp dp f : length sp = 2 → length dp = 2 → udp4_ok f → udp4_ok (set_ports sp dp f).
Proof. intros Hs Hd (?&?&?&?&?&?&?&?). split_and!; done. Qed.

Lemma length_dns_name : length dns_name = 2.
Proof. unfold dns_name. by destruct little. Qed.
Lemma dns_name_value : host_value little dns_name = GENERAL_DNS_PORT.
Proof. unfold dns_name. by destruct little. Qed.

Lemma frame_field f : udp4_ok f →
  field little 12 2 (frame_of f) = htons little ETH_P_IP ∧ field little 23 1 (frame_of f) = IPPROTO_UDP ∧
  field little 26 4 (frame_of f) = host_value little (u_saddr f) ∧
  field little 30 4 (frame_of f) = host_value little (u_daddr f) ∧
  field little 34 2 (frame_of f) = host_value little (u_sport f) ∧
  field little 36 2 (frame_of f) = host_value little (u_dport f).
Proof.
  intros (_ & He & Hp & Hs & Hd & Hsp & Hdp & _)%frame_fields. unfold field. cbn [Nat.add].
  rewrite He, Hp, Hs, Hd, Hsp, Hdp. split_and!; [done| |done..]. by destruct little.
Qed.

Lemma dns_refines m s f : settings_ok s → udp4_ok f →
  xdp_dns_fwd little m (to_vars s) (frame_of f) =
    (to_vars (refresh_dns m s), frame_of (dns_spec dns_name (refresh_dns m s) f)).
Proof.
  intros Hs Hf. unfold xdp_dns_fwd. cbn [to_vars dns_port]. rewrite htons_zero by apply Hs.
  assert (∀ b, (if (s_dns s =? 0)%Z then read_settings little m (to_vars s) else (true, to_vars s)) = b →
    b = (true, to_vars (refresh_dns m s))) as Hr.
  { intros ? <-. unfold refresh_dns. by destruct (s_dns s =? 0)%Z. }
  rewrite (Hr _ eq_refl). cbn [negb]. generalize (refresh_dns m s). clear Hr Hs s. intros s.
  destruct (frame_field f Hf) as (_ & _ & -> & -> & -> & ->). pose proof Hf as (_ & _ & _ & H4 & H5 & H6 & H7 & _).
  cbn [to_vars dns_port dns_ip]. rewrite <-dns_name_value. unfold htons, htonl.
  rewrite !host_eqb by (rewrite ?length_be_bytes, ?length_dns_name; done).
  unfold dns_spec. rewrite assign_dport, assign_sport by (rewrite ?length_be_bytes, ?length_dns_name; done).
  by repeat case_match.
Qed.

Lemma wg_refines m s f : settings_ok s → udp4_ok f →
  xdp_wg_proxy little m (to_vars s) (frame_of f) =
    (to_vars (refresh_wg m s), frame_of (wg_spec (refresh_wg m s) f)).
Proof.
  intros Hs Hf. unfold xdp_wg_proxy. cbn [to_vars proxy_port wg_port]. rewrite htons_zero by apply Hs.
  assert (∀ b, (if (s_proxy s =? 0)%Z || (s_wg s =? 0)%Z then read_port_settings little m (to_vars s)
                else (true, to_vars s)) = b → b = (true, to_vars (refresh_wg m s))) as Hr.
  { intros ? <-. unfold refresh_wg. by destruct (_ || _). }
  rewrite (Hr _ eq_refl). cbn [negb]. generalize (refresh_wg m s). clear Hr Hs s. intros s.
  destruct (frame_field f Hf) as (_ & _ & _ & -> & -> & ->). pose proof Hf as (_ & _ & _ & H4 & H5 & H6 & H7 & _).
  cbn [to_vars proxy_port wg_port]. unfold htons, htonl.
  change (be_bytes 4 2130706433) with loopback.
  rewrite !host_eqb by (rewrite ?length_be_bytes; done).
  unfold wg_spec. rewrite assign_dport by (rewrite ?length_be_bytes; done).
  rewrite assign_sport; [|done|by apply udp4_ok_set_ports; rewrite ?length_be_bytes].
  by repeat (case_bool_decide; cbn [andb negb]).
Qed.

Lemma refresh_ok m s : maps_ok m → settings_ok s → settings_ok (refresh_dns m s) ∧ settings_ok (refresh_wg m s).
Proof.
  intros [Hd Hw] [Hsd Hsw]. unfold refresh_dns, refresh_wg. split; case_match; done.
Qed.

Lemma dns_spec_ok s f : udp4_ok f → udp4_ok (dns_spec dns_name s f).
Proof.
  intros Hf. unfold dns_spec. pose proof Hf as (_ & _ & _ & H4 & H5 & H6 & H7 & _).
  repeat case_match; try done; apply udp4_ok_set_ports; rewrite ?length_be_bytes, ?length_dns_name; done.
Qed.

(** On every frame and from every settings the program has read so far, the
    bytes [nb_xdp_prog] leaves are those of the specification: what is no UDP
    datagram over IPv4 is not touched, the others have their ports set by the
    DNS rule and then WireGuard's, each if its feature is on, on machines of
    either byte order; and its variables hold the settings of the maps once
    read. *)
Lemma program_refines m s pkt :
  maps_ok m → settings_ok s →
  match parse_udp4 pkt with
  | None => nb_xdp_prog little (mkState m (to_vars s)) pkt = (mkState m (to_vars s), pkt)
  | Some f =>
      pkt = frame_of f ∧ settings_ok (xdp_spec dns_name m s f).1 ∧
      nb_xdp_prog little (mkState m (to_vars s)) pkt =
      (mkState m (to_vars (xdp_spec dns_name m s f).1), frame_of (xdp_spec dns_name m s f).2)
  end.
Proof.
  intros Hm Hs. destruct (parse_udp4 pkt) as [f|] eqn:Hp.
  - apply parse_udp4_Some in Hp as [-> Hf]. destruct (frame_field f Hf) as (He & Hu & _).
    pose proof (frame_fields f Hf) as [Hl _].
    pose proof (refresh_ok m s Hm Hs) as [Hd Hw]. pose proof (refresh_ok m _ Hm Hd) as [_ Hdw].
    unfold nb_xdp_prog, xdp_spec, on. cbn [bs_maps bs_vars]. unfold bpf_map_lookup_elem. cbn [Z.ltb].
    change ((map_key_features <? max_entries)%Z) with true. cbn match.
    rewrite decide_False, He, Hu, !Z.eqb_refl by lia. cbn [negb].
    destruct (negb (Z.land (m NbFeatures map_key_features) flag_feature_dns_fwd =? 0)%Z);
    destruct (negb (Z.land (m NbFeatures map_key_features) flag_feature_wg_proxy =? 0)%Z);
    rewrite ?dns_refines by done; rewrite ?wg_refines by (done || by apply dns_spec_ok); done.
  - unfold nb_xdp_prog. cbn [bs_maps]. unfold bpf_map_lookup_elem.
    change ((map_key_features <? max_entries)%Z) with true. cbn match.
    unfold parse_udp4 in Hp. case_decide as Hc; [done|].
    case_decide as Hl; [done|]. assert (42 ≤ length pkt) as Hl' by lia.
    unfold field, htons. cbn [Nat.add].
    change IPPROTO_UDP with (host_value false [byte_of_Z IPPROTO_UDP]).
    assert (∀ lo hi, hi ≤ 42 → length (slice lo hi pkt) = hi - lo) as Hsl.
    { intros lo hi Hh. unfold slice. rewrite length_take, length_drop. lia. }
    rewrite host_eqb by by rewrite Hsl, length_be_bytes by lia.
    replace (host_value false [byte_of_Z IPPROTO_UDP]) with (host_value little [byte_of_Z IPPROTO_UDP])
      by by destruct little.
    rewrite host_eqb by by rewrite Hsl by lia.
    case_bool_decide as He; [|done]. case_bool_decide as Hu; [|done].
    destruct Hc. done.
Qed.
End refinement.

(** ** The program in the kernel

    What the manager's calls mean for frames on the loopback interface: the
    objects loaded last, and whether their program is attached. *)
Class XdpKernel (K : Type) {BK : BpfKernel K} := {
  xdp_attached : K → bool;
  xdp_state : K → bpf_state;
  set_xdp_state : bpf_state → K → K
}.

Definition map_update (which : bpf_map) (key v : Z) (s : bpf_state) : bpf_state :=
  mkState (λ which' key', if bool_decide (which' = which) && (key' =? key)%Z then v else bs_maps s which' key') (bs_vars s).
Definition bpf_zero : bpf_state := mkState (λ _ _, 0%Z) (mkVars 0 0 0 0).

(** Arrays and variables start at 0; a successful call does what it says. *)
Class XdpKernelSpec (K : Type) {BK : BpfKernel K} (XK : XdpKernel K) := {
  xdp_set_state s k : xdp_state (set_xdp_state s k) = s;
  xdp_set_attached s k : xdp_attached (set_xdp_state s k) = xdp_attached k;
  xdp_loads k k' : loadBpfObjects k = (Ok tt, k') → xdp_state k' = bpf_zero;
  xdp_attaches k i l k' : AttachXDP k i = (Ok l, k') → xdp_attached k' = true ∧ xdp_state k' = xdp_state k;
  xdp_puts k which key v k' : map_Put k which key v = (Ok tt, k') →
    xdp_attached k' = xdp_attached k ∧ xdp_state k' = map_update which key v (xdp_state k)
}.

Section kernel.
Context {K : Type} {BK : BpfKernel K} {XK : XdpKernel K} {XS : XdpKernelSpec K XK}.
Variable little : bool.

(** A frame on the loopback interface, and several. *)
Definition xdp_receive (k : K) (pkt : list Ascii.ascii) : list Ascii.ascii * K :=
  if xdp_attached k
  then let '(s, pkt) := nb_xdp_prog little (xdp_state k) pkt in (pkt, set_xdp_state s k)
  else (pkt, k).
Definition xdp_receives (k : K) (pkts : list (list Ascii.ascii)) : K := foldl (λ k pkt, (xdp_receive k pkt).2) k pkts.

(** The program runs with maps [m] and what it has read, [s]. *)
Definition runs (m : bpf_maps) (s : settings) (k : K) : Prop :=
  xdp_attached k = true ∧ xdp_state k = mkState m (to_vars little s).

Lemma receive_runs m s k pkt : maps_ok m → settings_ok s → runs m s k →
  match parse_udp4 pkt with
  | None => (xdp_receive k pkt).1 = pkt ∧ runs m s (xdp_receive k pkt).2
  | Some f =>
      pkt = frame_of f ∧ settings_ok (xdp_spec (dns_name little) m s f).1 ∧
      (xdp_receive k pkt).1 = frame_of (xdp_spec (dns_name little) m s f).2 ∧
      runs m (xdp_spec (dns_name little) m s f).1 (xdp_receive k pkt).2
  end.
Proof.
  intros Hm Hs [Ha Hk]. pose proof (program_refines little m s pkt Hm Hs) as Hp.
  unfold xdp_receive, runs. rewrite Ha, Hk. destruct (parse_udp4 pkt) as [f|].
  - destruct Hp as (-> & Hs' & ->). cbn [fst snd]. by rewrite xdp_set_attached, xdp_set_state.
  - rewrite Hp. cbn [fst snd]. by rewrite xdp_set_attached, xdp_set_state.
Qed.

(** What holds of the settings read, whatever datagrams come. *)
Lemma receives_runs m (P : settings → Prop) s k pkts :
  maps_ok m → (∀ s f, P s → P (xdp_spec (dns_name little) m s f).1) →
  settings_ok s → P s → runs m s k →
  ∃ s', settings_ok s' ∧ P s' ∧ runs m s' (xdp_receives k pkts).
Proof.
  intros Hm HP. revert s k. induction pkts as [|pkt pkts IH]; intros s k Hs Hp Hr; [by exists s|].
  pose proof (receive_runs m s k pkt Hm Hs Hr) as H.
  change (xdp_receives k (pkt :: pkts)) with (xdp_receives (xdp_receive k pkt).2 pkts).
  destruct (parse_udp4 pkt) as [f|].
  - destruct H as (_ & Hs' & _ & Hr'). by eapply IH; [|apply HP|].
  - destruct H as [_ Hr']. by eapply IH.
Qed.

(** ** Loading the features *)

(** The objects a call of the manager finds or makes. *)
Definition loaded_state (tf : GeneralManager K) : bpf_state :=
  match link tf with None => bpf_zero | Some _ => xdp_state (kernel tf) end.
Definition mgr_attached (tf : GeneralManager K) : Prop :=
  is_Some (link tf) → xdp_attached (kernel tf) = true.

Lemma loadXdp_state tf tf' : mgr_attached tf → loadXdp tf = (Ok tt, tf') →
  is_Some (link tf') ∧ xdp_attached (kernel tf') = true ∧ featureFlags tf' = featureFlags tf ∧
  xdp_state (kernel tf') = loaded_state tf.
Proof.
  unfold loadXdp, mgr_attached, loaded_state. intros Hat. destruct (link tf) as [l|] eqn:Hl.
  { intros [= <-]. rewrite Hl. split_and!; [done| |done..]. by apply Hat. }
  intros (a1 & k1 & _ & (a2 & k2 & _ & (a3 & k3 & Hload & Ha)%step_k_Ok)%step_k_Ok)%step_k_Ok.
  cbn [kernel set_kernel featureFlags link] in Ha, Hload. destruct a3. apply xdp_loads in Hload.
  destruct (AttachXDP k3 a2) as [[l|e|] k4] eqn:Hx; [|done..]. injection Ha as <-.
  apply xdp_attaches in Hx as [Hx1 Hx2]. cbn [link featureFlags kernel]. rewrite Hx2.
  split_and!; [by eexists|done..].
Qed.

(** A successful [Put] through the manager. *)
Lemma put_step tf which key v f tf' :
  step_k tf (map_Put (kernel tf) which key v) f = (Ok tt, tf') →
  ∃ tf1, f tt tf1 = (Ok tt, tf') ∧ link tf1 = link tf ∧ featureFlags tf1 = featureFlags tf ∧
    xdp_attached (kernel tf1) = xdp_attached (kernel tf) ∧
    xdp_state (kernel tf1) = map_update which key v (xdp_state (kernel tf)).
Proof.
  intros ([] & k & Hp & Hf)%step_k_Ok. apply xdp_puts in Hp as [Ha Hs].
  eexists. split; [exact Hf|]. done.
Qed.

Lemma publish_state feature tf tf' : publish_feature feature tf = (Ok tt, tf') →
  link tf' = link tf ∧ featureFlags tf' = Z.lor (featureFlags tf) feature ∧
  xdp_attached (kernel tf') = xdp_attached (kernel tf) ∧
  xdp_state (kernel tf') = map_update NbFeatures mapKeyFeatures (Z.lor (featureFlags tf) feature) (xdp_state (kernel tf)).
Proof. unfold publish_feature. intros (tf1 & [= <-] & H)%put_step. exact H. Qed.

Lemma LoadWgProxy_state proxyPort wgPort tf tf' : mgr_attached tf →
  LoadWgProxy proxyPort wgPort tf = (Ok tt, tf') →
  is_Some (link tf') ∧ xdp_attached (kernel tf') = true ∧
  featureFlags tf' = Z.lor (featureFlags tf) featureFlagWGProxy ∧
  xdp_state (kernel tf') =
    map_update NbFeatures mapKeyFeatures (Z.lor (featureFlags tf) featureFlagWGProxy)
      (map_update NbWgProxySettingsMap mapKeyWgPort (uint16 wgPort)
        (map_update NbWgProxySettingsMap mapKeyProxyPort (uint16 proxyPort) (loaded_state tf))).
Proof.
  intros Hat. unfold LoadWgProxy. destruct (loadXdp tf) as [[[]|e|] tf1] eqn:Hl; cbn [then_m]; [|done..].
  apply loadXdp_state in Hl as (Hl & Ha & Hf & Hs); [|done].
  intros (tf2 & (tf3 & (L4 & F4 & A4 & S4)%publish_state & L3 & F3 & A3 & S3)%put_step & L2 & F2 & A2 & S2)%put_step.
  rewrite L4, L3, L2, F4, F3, F2, Hf, A4, A3, A2, S4, S3, S2, Hs, F3, F2, Hf. done.
Qed.

Lemma LoadDNSFwd_state ip dnsPort tf tf' : mgr_attached tf →
  LoadDNSFwd ip dnsPort tf = (Ok tt, tf') →
  ∃ v, ip2int ip = Ok v ∧ is_Some (link tf') ∧ xdp_attached (kernel tf') = true ∧
  featureFlags tf' = Z.lor (featureFlags tf) featureFlagDnsForwarder ∧
  xdp_state (kernel tf') =
    map_update NbFeatures mapKeyFeatures (Z.lor (featureFlags tf) featureFlagDnsForwarder)
      (map_update NbMapDnsPort mapKeyDNSPort (uint16 dnsPort)
        (map_update NbMapDnsIp mapKeyDNSIP v (loaded_state tf))).
Proof.
  intros Hat. unfold LoadDNSFwd. destruct (loadXdp tf) as [[[]|e|] tf1] eqn:Hl; cbn [then_m]; [|done..].
  apply loadXdp_state in Hl as (Hl & Ha & Hf & Hs); [|done].
  destruct (ip2int ip) as [v|e|]; [|done..].
  intros (tf2 & (tf3 & (L4 & F4 & A4 & S4)%publish_state & L3 & F3 & A3 & S3)%put_step & L2 & F2 & A2 & S2)%put_step.
  exists v. rewrite L4, L3, L2, F4, F3, F2, Hf, A4, A3, A2, S4, S3, S2, Hs, F3, F2, Hf. done.
Qed.

Lemma FreeWGProxy_state tf tf' : mgr_attached tf → is_Some (link tf) →
  Z.ldiff (featureFlags tf) featureFlagWGProxy ≠ 0%Z → FreeWGProxy tf = (Ok tt, tf') →
  is_Some (link tf') ∧ xdp_attached (kernel tf') = true ∧
  featureFlags tf' = Z.ldiff (featureFlags tf) featureFlagWGProxy ∧
  xdp_state (kernel tf') =
    map_update NbFeatures mapKeyFeatures (Z.ldiff (featureFlags tf) featureFlagWGProxy) (xdp_state (kernel tf)).
Proof.
  intros Hat Hl Hf. pose proof (Hat Hl) as Ha. unfold FreeWGProxy, unsetFeatureFlag. cbn [link featureFlags].
  destruct Hl as [l Hl]. rewrite Hl. rewrite (proj2 (Z.eqb_neq _ _) Hf).
  intros (tf1 & [= <-] & L1 & F1 & A1 & S1)%put_step. cbn [link featureFlags kernel] in *.
  rewrite L1, F1, A1, S1. split_and!; [by eexists|done..].
Qed.

(** ** What the socket of a port is given *)

Definition payload_of (f : udp4) : list Ascii.ascii :=
  take (Z.to_nat (be_value (take 2 (u_rest f)) 0) - 8) (drop 4 (u_rest f)).
Definition deliver (port : Z) (pkt : list Ascii.ascii) : option (Z * list Ascii.ascii) :=
  f ← parse_udp4 pkt;
  if bool_decide (u_dport f = be_bytes 2 port) then Some (be_value (u_sport f) 0, payload_of f) else None.

(** A datagram between two ports of 127.0.0.1. *)
Definition local_datagram (src dst : Z) (f : udp4) : Prop :=
  udp4_ok f ∧ u_saddr f = loopback ∧ u_daddr f = loopback ∧
  u_sport f = be_bytes 2 src ∧ u_dport f = be_bytes 2 dst.

Lemma deliver_ports src dst f : udp4_ok f → (0 ≤ src < 65536)%Z →
  deliver dst (frame_of (set_ports (be_bytes 2 src) (be_bytes 2 dst) f)) = Some (src, payload_of f).
Proof.
  intros Hf Hs. unfold deliver. rewrite parse_frame by (by apply udp4_ok_set_ports; rewrite ?length_be_bytes).
  cbn [mbind option_bind set_ports u_dport u_sport]. rewrite bool_decide_eq_true_2 by done.
  rewrite be_value_bytes, Z.mod_small by (cbn; lia). done.
Qed.

Lemma same_ports f : set_ports (u_sport f) (u_dport f) f = f.
Proof. by destruct f. Qed.

(** ** The proxy's settings, once loaded *)

Definition wg_known (m : bpf_maps) (proxy wg : Z) (s : settings) : Prop :=
  s_proxy (refresh_wg m s) = proxy ∧ s_wg (refresh_wg m s) = wg.

Lemma wg_known_step dn m a w s f : (a ≠ 0)%Z → (w ≠ 0)%Z → wg_known m a w s → wg_known m a w (xdp_spec dn m s f).1.
Proof.
  intros Ha Hw Hk. assert (∀ s, wg_known m a w s → wg_known m a w (refresh_wg m s)) as Hr.
  { intros s' [H1 H2]. unfold wg_known. unfold refresh_wg at 1 3.
    rewrite H1, H2, (proj2 (Z.eqb_neq a 0) Ha), (proj2 (Z.eqb_neq w 0) Hw). done. }
  assert (wg_known m a w (refresh_dns m s)) as Hd.
  { unfold refresh_dns. destruct (s_dns s =? 0)%Z; [|done].
    destruct Hk as [H1 H2]. unfold wg_known, refresh_wg in *. cbn [s_proxy s_wg].
    by destruct ((s_proxy s =? 0)%Z || (s_wg s =? 0)%Z). }
  unfold xdp_spec. destruct (on flag_feature_dns_fwd m), (on flag_feature_wg_proxy m); cbn [fst]; auto.
Qed.

(** With the proxy's feature alone. *)
Lemma wg_only dn m a w s f : on flag_feature_dns_fwd m = false → on flag_feature_wg_proxy m = true →
  wg_known m a w s →
  (xdp_spec dn m s f).2 = if bool_decide (u_daddr f = loopback) && bool_decide (u_sport f = be_bytes 2 w)
                          then set_ports (u_dport f) (be_bytes 2 a) f else f.
Proof. intros Hd Hw [H1 H2]. unfold xdp_spec, wg_spec. by rewrite Hd, Hw; cbn [snd]; rewrite H1, H2. Qed.

Context {Σ Conn : Type} {PS : ProxySys Σ}.

Lemma listen_loads sys (mgr : GeneralManager K) wgPort (px : WGEBPFProxy (Conn := Conn)) :
  minv mgr → link mgr = None → (∀ j, tryToBind sys j ≠ Panic) → (0 < wgPort < 65536)%Z →
  listen (NewWGEBPFProxy sys mgr wgPort) = (Ok tt, px) →
  ∃ port m, (3128 ≤ port ≤ 3228)%Z ∧ maps_ok m ∧
    on flag_feature_dns_fwd m = false ∧ on flag_feature_wg_proxy m = true ∧
    wg_known m port wgPort zero_settings ∧ runs m zero_settings (kernel (ebpfManager px)).
Proof.
  intros [_ Hz] Hl Hnp Hw Hlisten. pose proof (listen_outcomes (Conn := Conn) sys mgr wgPort Hnp) as H.
  rewrite Hlisten in H. destruct H as (port & raw & c & Hport & _ & _ & _ & _ & Hload & _).
  cbn [mgr_LoadWgProxy GeneralManager_WgProxyManager] in Hload.
  apply LoadWgProxy_state in Hload as (_ & Ha & _ & Hs); [|intros [l ?]; congruence].
  unfold loaded_state in Hs. rewrite Hl, Hz in Hs by done. unfold uint16 in Hs. rewrite !Z.mod_small in Hs by lia.
  exists port, (bs_maps (xdp_state (kernel (ebpfManager px)))). split; [done|]. unfold runs. rewrite Hs, to_vars_zero.
  split_and!; try done. split; [change (0 ≤ 0 < 65536)%Z|change (0 ≤ wgPort < 65536)%Z]; lia.
Qed.

Lemma listening_frames sys (mgr : GeneralManager K) wgPort (px : WGEBPFProxy (Conn := Conn)) :
  minv mgr → link mgr = None → (∀ j, tryToBind sys j ≠ Panic) → (0 < wgPort < 65536)%Z →
  listen (NewWGEBPFProxy sys mgr wgPort) = (Ok tt, px) →
  ∃ port, (3128 ≤ port ≤ 3228)%Z ∧ ∀ pkts, let k := xdp_receives (kernel (ebpfManager px)) pkts in
  (∀ f, udp4_ok f → (xdp_receive k (frame_of f)).1 = frame_of
     (if bool_decide (u_daddr f = loopback) && bool_decide (u_sport f = be_bytes 2 wgPort)
      then set_ports (u_dport f) (be_bytes 2 port) f else f)) ∧
  (∀ pkt, parse_udp4 pkt = None → (xdp_receive k pkt).1 = pkt).
Proof.
  intros I Hl Hnp Hw Hlisten.
  destruct (listen_loads sys mgr wgPort px I Hl Hnp Hw Hlisten) as (port & m & Hport & Hm & Hd & Hon & Hk & Hr).
  exists port. split; [done|]. intros pkts k.
  destruct (receives_runs m (wg_known m port wgPort) zero_settings (kernel (ebpfManager px)) pkts) as (s & Hs & Hks & Hrs);
    [done|intros; apply wg_known_step; [lia|lia|done]|by split|done|done|]. fold k in Hrs.
  split.
  - intros f Hf. pose proof (receive_runs m s k (frame_of f) Hm Hs Hrs) as H. rewrite parse_frame in H by done.
    destruct H as (_ & _ & -> & _). by rewrite (wg_only _ _ port wgPort).
  - intros pkt Hp. pose proof (receive_runs m s k pkt Hm Hs Hrs) as H. rewrite Hp in H. apply H.
Qed.

(** C6. From end to end, once [listen] has loaded the program, after any frames:
    a datagram WireGuard sends to a relayed connection's endpoint comes out of
    the proxy's socket with the endpoint's port as its source, so that its
    payload, the first 1500 bytes of it, is written to exactly that connection;
    what [sendPkg] sends from the endpoint reaches WireGuard from it, save for
    the connection whose endpoint has WireGuard's own port, which is sent its
    own datagrams back; and no other frame is changed. *)
Theorem relay_end_to_end sys (mgr : GeneralManager K) k0 wgPort (px : WGEBPFProxy (Conn := Conn)) (w : proxy_world (Conn := Conn)) :
  rtc mstep (newGeneralManager k0) mgr → link mgr = None →
  (∀ j, tryToBind sys j ≠ Panic) → (0 < wgPort < 65536)%Z →
  listen (NewWGEBPFProxy sys mgr wgPort) = (Ok tt, px) →
  rtc pstep new_proxy w →
  ∃ port, (3128 ≤ port ≤ 3228)%Z ∧ ∀ pkts, let k := xdp_receives (kernel (ebpfManager px)) pkts in
  (∀ p c f, (p, c) ∈ pw_running w → local_datagram wgPort p f →
     deliver port (xdp_receive k (frame_of f)).1 = Some (p, payload_of f) ∧
     to_remote (pw_store w) (payload_of f) p = Some (c, take proxy_buffer (payload_of f))) ∧
  (∀ p c f, (p, c) ∈ pw_running w → local_datagram p wgPort f →
     if decide (p = wgPort) then
       deliver port (xdp_receive k (frame_of f)).1 = Some (p, payload_of f) ∧
       to_remote (pw_store w) (payload_of f) p = Some (c, take proxy_buffer (payload_of f))
     else deliver wgPort (xdp_receive k (frame_of f)).1 = Some (p, payload_of f)) ∧
  (∀ pkt, (∀ f, udp4_ok f → pkt = frame_of f → u_daddr f = loopback → u_sport f ≠ be_bytes 2 wgPort) →
     (xdp_receive k pkt).1 = pkt).
Proof.
  intros Hreach Hl Hnp Hw Hlisten Hok%pw_reachable.
  destruct (listening_frames sys mgr wgPort px (minv_reachable _ _ Hreach) Hl Hnp Hw Hlisten) as (port & Hport & Hall).
  exists port. split; [done|]. intros pkts k. destruct (Hall pkts) as [Hf Hnone]. fold k in Hf, Hnone.
  assert (∀ p c f, (p, c) ∈ pw_running w → local_datagram wgPort p f →
     deliver port (xdp_receive k (frame_of f)).1 = Some (p, payload_of f) ∧
     to_remote (pw_store w) (payload_of f) p = Some (c, take proxy_buffer (payload_of f))) as Hto.
  { intros p c f Hpc (Hfok & _ & Hda & Hsp & Hdp).
    destruct (running_route w p c Hok Hpc) as [Hp Hroute]. split; [|by apply Hroute].
    rewrite Hf, !bool_decide_eq_true_2 by done. rewrite Hdp. cbn [andb]. apply deliver_ports; [done|lia]. }
  split_and!; [exact Hto| |].
  - intros p c f Hpc Hdg. case_decide as Hp; [subst p; by apply (Hto wgPort c f)|].
    destruct (running_route w p c Hok Hpc) as [Hpr _]. destruct Hdg as (Hfok & _ & Hda & Hsp & Hdp).
    rewrite Hf, (bool_decide_eq_false_2 (u_sport f = _)) by
      (done || rewrite Hsp; intros ?%be_bytes_inj; cbn in *; lia). rewrite andb_false_r.
    rewrite <-(same_ports f) at 1. rewrite Hsp, Hdp. apply deliver_ports; [done|lia].
  - intros pkt Hpkt. destruct (parse_udp4 pkt) as [f|] eqn:Hparse; [|by apply Hnone].
    apply parse_udp4_Some in Hparse as [-> Hfok]. rewrite Hf by done.
    case_bool_decide as Hda; [|done]. by rewrite (bool_decide_eq_false_2 (u_sport f = _)) by (by apply Hpkt).
Qed.

(** ** DNS *)

Definition dns_known (m : bpf_maps) (v d : Z) (s : settings) : Prop :=
  s_ip (refresh_dns m s) = v ∧ s_dns (refresh_dns m s) = d.

Lemma dns_known_step dn m v d s f : (d ≠ 0)%Z → dns_known m v d s → dns_known m v d (xdp_spec dn m s f).1.
Proof.
  intros Hd Hk. assert (∀ s, dns_known m v d s → dns_known m v d (refresh_wg m s)) as Hw.
  { intros s' [H1 H2]. unfold refresh_wg. destruct (_ || _); [|done].
    unfold dns_known, refresh_dns in *. cbn [s_dns]. by destruct (s_dns s' =? 0)%Z. }
  assert (dns_known m v d (refresh_dns m s)) as Hr.
  { destruct Hk as [H1 H2]. unfold dns_known. unfold refresh_dns at 1 3.
    by rewrite H2, (proj2 (Z.eqb_neq d 0) Hd). }
  unfold xdp_spec. destruct (on flag_feature_dns_fwd m), (on flag_feature_wg_proxy m); cbn [fst]; auto.
Qed.

Lemma ip2int_range ip v : ip2int ip = Ok v → (0 ≤ v < 256 ^ 4)%Z.
Proof.
  unfold ip2int. destruct (net_ParseIP (bytes_of_string ip) ≫= To4) as [[|a [|b [|c [|d [|]]]]]|]; try done.
  intros [= <-]. pose proof (Z_of_byte_bounds a). pose proof (Z_of_byte_bounds b).
  pose proof (Z_of_byte_bounds c). pose proof (Z_of_byte_bounds d). lia.
Qed.

Lemma forwarding_frames (mgr : GeneralManager K) ip dnsPort tf' :
  minv mgr → link mgr = None → (0 < dnsPort < 65536)%Z → LoadDNSFwd ip dnsPort mgr = (Ok tt, tf') →
  ∃ v, ip2int ip = Ok v ∧ ∀ pkts f, udp4_ok f →
    (xdp_receive (xdp_receives (kernel tf') pkts) (frame_of f)).1 =
    frame_of (dns_spec (dns_name little) (mkSettings v dnsPort 0 0) f).
Proof.
  intros [_ Hz] Hl Hd Hload.
  apply LoadDNSFwd_state in Hload as (v & Hv & _ & Ha & _ & Hs); [|intros [l ?]; congruence].
  unfold loaded_state in Hs. rewrite Hl, Hz in Hs by done. unfold uint16 in Hs. rewrite !Z.mod_small in Hs by lia.
  exists v. split; [done|]. intros pkts f Hf.
  set (m := bs_maps (xdp_state (kernel tf'))).
  assert (maps_ok m) as Hm.
  { unfold m. rewrite Hs. split; [change (0 ≤ dnsPort < 65536)%Z|change (0 ≤ 0 < 65536)%Z]; lia. }
  destruct (receives_runs m (dns_known m v dnsPort) zero_settings (kernel tf') pkts) as (s & Hsok & [Hk1 Hk2] & Hr);
    [done|intros; apply dns_known_step; [lia|done]| |unfold m; by rewrite Hs| |].
  { split; cbn; lia. }
  { split; [done|]. unfold m. rewrite Hs, to_vars_zero. done. }
  pose proof (receive_runs m s _ (frame_of f) Hm Hsok Hr) as H. rewrite parse_frame in H by done.
  destruct H as (_ & _ & -> & _). f_equal. unfold xdp_spec.
  assert (on flag_feature_dns_fwd m = true) as -> by by unfold m; rewrite Hs.
  assert (on flag_feature_wg_proxy m = false) as -> by by unfold m; rewrite Hs.
  cbn [snd]. unfold dns_spec. rewrite Hk1, Hk2. done.
Qed.

(** C39. Once [LoadDNSFwd(ip, port)] has succeeded, a query a client sends to
    port 53 of [ip] goes to [port], and the answer from there comes back to the
    client from port 53, whatever frames came before: but only on
    little-endian machines. On others the constant meant to be 53 is another
    port; queries pass by, and what [port] sends gets a wrong source. *)
Theorem dns_round_trip (mgr : GeneralManager K) k0 ip dnsPort tf' :
  rtc mstep (newGeneralManager k0) mgr → link mgr = None → (0 < dnsPort < 65536)%Z →
  LoadDNSFwd ip dnsPort mgr = (Ok tt, tf') →
  ∃ v, ip2int ip = Ok v ∧ ∀ pkts c query answer, let k := xdp_receives (kernel tf') pkts in
  (0 ≤ c < 65536)%Z → c ∉ [53; 13568; dnsPort]%Z → udp4_ok query → udp4_ok answer →
  u_daddr query = be_bytes 4 v → u_dport query = be_bytes 2 53 → u_sport query = be_bytes 2 c →
  u_saddr answer = be_bytes 4 v → u_sport answer = be_bytes 2 dnsPort → u_dport answer = be_bytes 2 c →
  if little then
    (xdp_receive k (frame_of query)).1 = frame_of (set_ports (be_bytes 2 c) (be_bytes 2 dnsPort) query) ∧
    (xdp_receive k (frame_of answer)).1 = frame_of (set_ports (be_bytes 2 53) (be_bytes 2 c) answer)
  else
    (xdp_receive k (frame_of query)).1 = frame_of query ∧
    (xdp_receive k (frame_of answer)).1 = frame_of (set_ports (be_bytes 2 13568) (be_bytes 2 c) answer).
Proof.
  intros Hreach Hl Hd Hload.
  destruct (forwarding_frames mgr ip dnsPort tf' (minv_reachable _ _ Hreach) Hl Hd Hload) as (v & Hv & Hf).
  exists v. split; [done|]. intros pkts c q a k Hc Hne Hq Ha Hqd Hqp Hqs Has Hap Hac.
  assert (∀ p, p ∈ [53; 13568; dnsPort]%Z → be_bytes 2 c ≠ be_bytes 2 p) as Hports.
  { intros p Hp He. apply be_bytes_inj in He; [by subst|cbn; lia|].
    rewrite !elem_of_cons, elem_of_nil in Hp. cbn. lia. }
  assert (be_bytes 2 c ≠ dns_name little) as Hcn.
  { unfold dns_name. destruct little; [apply (Hports 53%Z)|apply (Hports 13568%Z)]; by rewrite !elem_of_cons; auto. }
  unfold k. rewrite !Hf by done. unfold dns_spec. cbn [s_ip s_dns].
  rewrite Hqd, Hqp, Hqs, Has, Hap, Hac, (bool_decide_eq_false_2 (be_bytes 2 c = dns_name little)) by done.
  rewrite (bool_decide_eq_false_2 (be_bytes 2 c = be_bytes 2 dnsPort)) by (apply Hports; rewrite !elem_of_cons; auto).
  rewrite (bool_decide_eq_true_2 (be_bytes 4 v = be_bytes 4 v)) by done.
  rewrite (bool_decide_eq_true_2 (be_bytes 2 dnsPort = be_bytes 2 dnsPort)) by done.
  unfold dns_name. by destruct little.
Qed.

(** ** Settings are read once *)

Lemma maps_ok_update which key v s : maps_ok (bs_maps s) → (0 ≤ v < 65536)%Z ∨ which = NbFeatures ∨ which = NbMapDnsIp →
  maps_ok (bs_maps (map_update which key v s)).
Proof.
  intros [H1 H2] Hv. split; cbn; case_match eqn:E; try done;
    apply andb_true_iff in E as [?%bool_decide_eq_true_1 _]; subst; by destruct Hv as [|[]].
Qed.

Lemma uint16_range z : (0 ≤ uint16 z < 65536)%Z.
Proof. apply Z.mod_pos_bound. lia. Qed.

(** With every setting known the program reads none. *)
Lemma xdp_spec_known dn m s f : s_dns s ≠ 0%Z → s_proxy s ≠ 0%Z → s_wg s ≠ 0%Z →
  xdp_spec dn m s f =
  (s, let f := if on flag_feature_dns_fwd m then dns_spec dn s f else f in
      if on flag_feature_wg_proxy m then wg_spec s f else f).
Proof.
  intros Hd Hp Hw. unfold xdp_spec. destruct s as [v d a w]. cbn [s_dns s_proxy s_wg] in *.
  assert (refresh_dns m (mkSettings v d a w) = mkSettings v d a w) as Hr.
  { unfold refresh_dns. cbn [s_dns]. by rewrite (proj2 (Z.eqb_neq d 0)). }
  assert (refresh_wg m (mkSettings v d a w) = mkSettings v d a w) as Hr'.
  { unfold refresh_wg. cbn [s_proxy s_wg]. by rewrite (proj2 (Z.eqb_neq a 0)), (proj2 (Z.eqb_neq w 0)). }
  destruct (on flag_feature_dns_fwd m), (on flag_feature_wg_proxy m); by rewrite ?Hr, ?Hr'.
Qed.

(** Both features loaded, and a datagram seen. *)
Lemma both_read (mgr : GeneralManager K) ip d a w tf1 tf2 pkt f0 :
  minv mgr → link mgr = None → (0 < d < 65536)%Z → (0 < a < 65536)%Z → (0 < w < 65536)%Z →
  LoadDNSFwd ip d mgr = (Ok tt, tf1) → LoadWgProxy a w tf1 = (Ok tt, tf2) → parse_udp4 pkt = Some f0 →
  ∃ v m, ip2int ip = Ok v ∧ maps_ok m ∧ is_Some (link tf2) ∧ featureFlags tf2 = 3%Z ∧
    runs m (mkSettings v d a w) (xdp_receive (kernel tf2) pkt).2.
Proof.
  intros [_ Hz] Hl Hd Ha Hw Hdns Hwg Hpkt.
  apply LoadDNSFwd_state in Hdns as (v & Hv & [l1 Hl1] & Ha1 & F1 & S1); [|intros [l ?]; congruence].
  apply LoadWgProxy_state in Hwg as (L2 & Ha2 & F2 & S2); [|by intros _].
  exists v, (bs_maps (xdp_state (kernel tf2))). rewrite Hz in F1 by done. rewrite F1 in F2.
  unfold loaded_state in S1, S2. rewrite Hl1, S1 in S2. rewrite Hl in S2.
  assert (xdp_state (kernel tf2) = mkState (bs_maps (xdp_state (kernel tf2))) (to_vars little zero_settings)) as Hst.
  { by rewrite S2, to_vars_zero. }
  assert (maps_ok (bs_maps (xdp_state (kernel tf2)))) as Hm.
  { rewrite S2. repeat (apply maps_ok_update; [|pose proof uint16_range; auto]). split; cbn; lia. }
  split_and!; [done|done|done|done|].
  pose proof (receive_runs _ zero_settings _ pkt Hm ltac:(split; cbn; lia) (conj Ha2 Hst)) as H.
  rewrite Hpkt in H. destruct H as (_ & _ & _ & H).
  assert ((xdp_spec (dns_name little) (bs_maps (xdp_state (kernel tf2))) zero_settings f0).1 = mkSettings v d a w) as <-;
    [|done].
  rewrite S2. unfold uint16. rewrite F1, !Z.mod_small by lia. reflexivity.
Qed.

(** C40. The program reads its ports once. A proxy that is freed and loaded again
    while the DNS forwarder keeps the program attached is not noticed: what
    WireGuard sends from the old port still goes to the old proxy's port, and
    what it sends from a new one is not redirected at all. *)
Theorem settings_are_read_once (mgr : GeneralManager K) k0 ip d a w a' w' tf1 tf2 pkt f0 tf3 tf4 :
  rtc mstep (newGeneralManager k0) mgr → link mgr = None →
  (0 < d < 65536)%Z → (0 < a < 65536)%Z → (0 < w < 65536)%Z → ip2int ip ≠ Ok 2130706433%Z →
  LoadDNSFwd ip d mgr = (Ok tt, tf1) → LoadWgProxy a w tf1 = (Ok tt, tf2) → parse_udp4 pkt = Some f0 →
  FreeWGProxy (set_kernel (xdp_receive (kernel tf2) pkt).2 tf2) = (Ok tt, tf3) →
  LoadWgProxy a' w' tf3 = (Ok tt, tf4) →
  ∀ pkts p f src, let k := xdp_receives (kernel tf4) pkts in (0 ≤ src < 65536)%Z → local_datagram src p f →
  (xdp_receive k (frame_of f)).1 =
  frame_of (if decide (src = w) then set_ports (be_bytes 2 p) (be_bytes 2 a) f else f).
Proof.
  intros Hreach Hl Hd Ha Hw Hip Hdns Hwg Hpkt Hfree Hwg' pkts p f src k Hsrc (Hf & Hsa & Hda & Hsp & Hdp).
  destruct (both_read mgr ip d a w tf1 tf2 pkt f0 (minv_reachable _ _ Hreach) Hl Hd Ha Hw Hdns Hwg Hpkt)
    as (v & m & Hv & Hm & Hl2 & F2 & Ha2 & S2).
  apply FreeWGProxy_state in Hfree as ([l3 Hl3] & A3 & F3 & S3); [|by intros _|done|by cbn; rewrite F2].
  apply LoadWgProxy_state in Hwg' as (_ & A4 & F4 & S4); [|by intros _].
  cbn [featureFlags set_kernel kernel] in *. unfold loaded_state in S4. rewrite F2 in F3. rewrite Hl3, S3, S2, F3, F2 in S4.
  set (m' := bs_maps (xdp_state (kernel tf4))). set (s := mkSettings v d a w).
  assert (maps_ok m') as Hm'.
  { unfold m'. rewrite S4. repeat (apply maps_ok_update; [|pose proof uint16_range; auto]). done. }
  assert (∀ m f, (xdp_spec (dns_name little) m s f).1 = s) as Hs by (intros; rewrite xdp_spec_known; cbn; [done|lia..]).
  destruct (receives_runs m' (λ s', s' = s) s (kernel tf4) pkts) as (s' & Hsok & -> & Hr);
    [done|by intros ? ? ->|split; cbn; lia|done|split; [done|unfold m'; by rewrite S4]|].
  pose proof (receive_runs m' s _ (frame_of f) Hm' Hsok Hr) as H. rewrite parse_frame in H by done.
  unfold k. destruct H as (_ & _ & -> & _). f_equal.
  assert (on flag_feature_dns_fwd m' = true) as Hon by (unfold m'; by rewrite S4).
  assert (on flag_feature_wg_proxy m' = true) as Hon' by (unfold m'; by rewrite S4).
  assert (be_bytes 4 v ≠ loopback) as Hvl.
  { intros He. change loopback with (be_bytes 4 2130706433) in He.
    apply be_bytes_inj in He; [by subst v|by eapply ip2int_range|by cbn]. }
  rewrite xdp_spec_known, Hon, Hon' by (cbn; lia). cbn [snd]. unfold dns_spec, wg_spec. cbn [s s_ip s_dns s_proxy s_wg].
  rewrite (bool_decide_eq_false_2 (u_daddr f = be_bytes 4 v)), (bool_decide_eq_false_2 (u_saddr f = be_bytes 4 v)) by congruence.
  rewrite !andb_false_r, Hda, Hsp, Hdp, (bool_decide_eq_true_2 (loopback = loopback)) by done. cbn [andb].
  case_decide as Hsw; [by rewrite Hsw, bool_decide_eq_true_2|].
  rewrite bool_decide_eq_false_2; [done|]. intros ?%be_bytes_inj; [done|cbn; lia..].
Qed.
End kernel.

(** ** A kernel that accepts everything, and some datagrams *)

Record ex_xdp := mkExXdp { ex_on : bool; ex_state : bpf_state }.

#[export] Instance ex_XdpBpf : BpfKernel ex_xdp := {|
  link_t := unit;
  RemoveMemlock k := (Ok tt, k);
  InterfaceByName_lo k := (Ok 1%Z, k);
  loadBpfObjects k := (Ok tt, mkExXdp (ex_on k) bpf_zero);
  AttachXDP k _ := (Ok tt, mkExXdp true (ex_state k));
  objs_Close k := (Ok tt, k);
  link_Close k _ := (Ok tt, mkExXdp false (ex_state k));
  map_Put k m key v := (Ok tt, mkExXdp (ex_on k) (map_update m key v (ex_state k)))
|}.
#[export] Instance ex_XdpKernel : XdpKernel ex_xdp := {|
  xdp_attached := ex_on;
  xdp_state := ex_state;
  set_xdp_state s k := mkExXdp (ex_on k) s
|}.
#[export] Instance ex_XdpKernelSpec : XdpKernelSpec ex_xdp ex_XdpKernel.
Proof.
  split; [done|done|by intros k k' [= <-]|by intros k i l k' [= <- <-]|by intros k m key v k' [= <-]].
Qed.

Definition ex_fresh : GeneralManager ex_xdp := newGeneralManager (mkExXdp false bpf_zero).

Definition ex_datagram (saddr daddr : list Ascii.ascii) (src dst : Z) (payload : list Ascii.ascii) : udp4 :=
  mkUdp4 (replicate 12 b0) (replicate 9 b0) (replicate 2 b0) saddr daddr (be_bytes 2 src) (be_bytes 2 dst)
    (be_bytes 2 (8 + Z.of_nat (length payload)) ++ replicate 2 b0 ++ payload).
Definition ex_payload : list Ascii.ascii := bytes_of_string "ping".
Definition ex_proxy : WGEBPFProxy (Conn := string) :=
  (listen (NewWGEBPFProxy (mkExSys [] []) ex_fresh 51820)).2.

Lemma ex_datagram_udp saddr daddr src dst : length saddr = 4 → length daddr = 4 →
  udp4_ok (ex_datagram saddr daddr src dst ex_payload).
Proof. intros Hs Hd. split_and!; try done. cbn. lia. Qed.

Lemma ex_datagram_ok src dst : local_datagram src dst (ex_datagram loopback loopback src dst ex_payload).
Proof. split_and!; [by apply ex_datagram_udp|done..]. Qed.

Lemma relay_end_to_end_witness :
  ∃ port, deliver port (xdp_receive true (xdp_receives true (kernel (ebpfManager ex_proxy)) [ex_payload])
                          (frame_of (ex_datagram loopback loopback 51820 2 ex_payload))).1 = Some (2%Z, ex_payload) ∧
    to_remote (pw_store ex_pworld) ex_payload 2 = Some ("b", ex_payload).
Proof.
  destruct (relay_end_to_end (Conn := string) true (mkExSys [] []) ex_fresh (mkExXdp false bpf_zero) 51820 ex_proxy ex_pworld)
    as (port & _ & Hall); [apply rtc_refl|done|intros j; cbn; by case_bool_decide|lia|by vm_compute|exact ex_pworld_reachable|].
  exists port. apply (Hall [ex_payload]); [by left|apply ex_datagram_ok].
Defined.

Definition ex_forwarding : GeneralManager ex_xdp := (LoadDNSFwd "100.64.0.1" 5353 ex_fresh).2.
Definition ex_resolver : list Ascii.ascii := map byte_of_Z [100; 64; 0; 1]%Z.

Lemma dns_round_trip_witness :
  (xdp_receive true (kernel ex_forwarding) (frame_of (ex_datagram ex_resolver ex_resolver 40000 53 ex_payload))).1 =
    frame_of (ex_datagram ex_resolver ex_resolver 40000 5353 ex_payload) ∧
  (xdp_receive true (kernel ex_forwarding) (frame_of (ex_datagram ex_resolver ex_resolver 5353 40000 ex_payload))).1 =
    frame_of (ex_datagram ex_resolver ex_resolver 53 40000 ex_payload).
Proof.
  destruct (dns_round_trip true ex_fresh (mkExXdp false bpf_zero) "100.64.0.1" 5353 ex_forwarding) as (v & Hv & Hall);
    [apply rtc_refl|done|lia|by vm_compute|].
  assert (v = 1681915905)%Z as -> by (vm_compute in Hv; by injection Hv).
  apply (Hall [] 40000%Z); try done; [rewrite !elem_of_cons, elem_of_nil; lia|by apply ex_datagram_udp..].
Defined.

Definition ex_both : GeneralManager ex_xdp := (LoadWgProxy 3128 51820 ex_forwarding).2.
Definition ex_pkt : udp4 := ex_datagram loopback loopback 51820 2 ex_payload.
Definition ex_freed : GeneralManager ex_xdp :=
  (FreeWGProxy (set_kernel (xdp_receive true (kernel ex_both) (frame_of ex_pkt)).2 ex_both)).2.
Definition ex_again : GeneralManager ex_xdp := (LoadWgProxy 3129 51821 ex_freed).2.

Lemma settings_are_read_once_witness :
  (xdp_receive true (kernel ex_again) (frame_of ex_pkt)).1 = frame_of (ex_datagram loopback loopback 2 3128 ex_payload) ∧
  (xdp_receive true (kernel ex_again) (frame_of (ex_datagram loopback loopback 51821 2 ex_payload))).1 =
    frame_of (ex_datagram loopback loopback 51821 2 ex_payload).
Proof.
  pose proof (settings_are_read_once true ex_fresh (mkExXdp false bpf_zero) "100.64.0.1" 5353 3128 51820 3129 51821
    ex_forwarding ex_both (frame_of ex_pkt) ex_pkt ex_freed ex_again) as H.
  assert (rtc mstep ex_fresh ex_fresh) as Hr by apply rtc_refl.
  specialize (H Hr eq_refl ltac:(lia) ltac:(lia) ltac:(lia) ltac:(by vm_compute) ltac:(by vm_compute)
    ltac:(by vm_compute) ltac:(by vm_compute) ltac:(by vm_compute) ltac:(by vm_compute) []).
  split; [apply (H 2%Z ex_pkt 51820%Z)|apply (H 2%Z _ 51821%Z)]; lia || apply ex_datagram_ok.
Defined.
