(* ===== verification/Stubs.v ===== *)
(** * What the other platforms have instead, and the process's surroundings

    The one-line versions of what only Linux has ([sock_nolinux.go],
    [stun_filter_nolinux.go], [instantiater_nonlinux.go], [factory_nonlinux.go],
    [module.go], [name_darwin.go]), and [util/membership_*.go],
    [util/syslog_*.go], [iface/wg_log.go]. *)
From Stdlib Require Import Ascii.
From S2P Require Import Prelude GoStrings GoNet Ebpf WgProxy SharedSock.

(** ** Without Linux *)

Definition nolinux_Listen {Conn : Type} (GOOS : string) (port : Z) : res Conn :=
  Err (Errorf ("Not supported OS " +:+ GOOS +:+ ". SharedSocket is only supported on Linux")).
Definition nolinux_NewIncomingSTUNFilter {BPFFilter : Type} : option BPFFilter := None.
Definition nonlinux_GetEbpfManagerInstance {Manager : Type} : res Manager := Panic.
(** [Factory] as the port and the proxy, which [nil] is none. *)
Definition nonlinux_NewFactory {EbpfProxy : Type} (userspace : bool) (wgPort : Z) : Z * option EbpfProxy := (wgPort, None).
Definition stub_WireGuardModuleIsLoaded : bool := false.
Definition darwin_WgInterfaceDefault : string := "utun1000".

(** The manager that cannot be had is never asked for: relayed connections get
    a proxy in the process, and what is freed is nothing. *)
Lemma nonlinux_relays_in_process {EbpfProxy : Type} userspace wgPort :
  let '(port, p) := nonlinux_NewFactory (EbpfProxy := EbpfProxy) userspace wgPort in
  ∃ u, GetProxy p port = inr u ∧ us_wgPort (Conn := unit) u = wgPort ∧ us_cancelled u = false.
Proof. eexists. by split. Qed.

(** ** The process *)

Definition IsAdmin (Geteuid : Z) : bool := (Geteuid =? 0)%Z.
Definition windows_IsAdmin (IsAdminDesktop : res bool) : bool :=
  match IsAdminDesktop with Ok adminDesktop => adminDesktop | _ => false end.

(** The levels are wireguard-go's. *)
Definition wgLogLevel {Level : Type} (LogLevelVerbose LogLevelSilent : Level) (getenv : string → string) : Level :=
  if bool_decide (getenv "NB_WG_DEBUG" = "true") then LogLevelVerbose else LogLevelSilent.

(** The hooks of the log; a hook that could not be made is added as [nil]. *)
Definition AddSyslogHook {Hook : Type} (NewSyslogHook : res Hook) (hooks : list (option Hook)) : list (option Hook) :=
  hooks ++ [match NewSyslogHook with Ok h => Some h | _ => None end].
Definition windows_AddSyslogHook {Hook : Type} (hooks : list (option Hook)) : list (option Hook) := hooks.

Lemma AddSyslogHook_nil {Hook : Type} (r : res Hook) hooks :
  None ∉ hooks → None ∈ AddSyslogHook r hooks ↔ is_ok r = false.
Proof.
  unfold AddSyslogHook. intros Hn. rewrite elem_of_app, list_elem_of_singleton. destruct r; cbn; naive_solver.
Qed.
