(* ===== verification/KernelModules.v ===== *)
(** * [iface/module_linux.go]: kernel modules

    Is the [tun] or the [wireguard] module there, and if not, can it be loaded:
    [/proc/modules], [modules.builtin] and [modules.dep] are read as text, the
    module directory is walked, and modules are given to the kernel. The kernel
    is the log of calls and what it answers after them. *)
From Stdlib Require Import Ascii.
From S2P Require Import Prelude Host GoStrings GoNet GoText.

(** ** Names and states *)

(** The constants start at 1, [iota] in the second line of their block. *)
Inductive status := unknown | unloaded | unloading | loading | live | inuse.
Definition status_int (s : status) : Z :=
  match s with unknown => 1 | unloaded => 2 | unloading => 3 | loading => 4 | live => 5 | inuse => 6 end.
(** [state >= loading] *)
Definition at_least_loading (s : status) : bool := (status_int loading <=? status_int s)%Z.

Global Instance status_eq_dec : EqDecision status.
Proof. solve_decision. Defined.

Record module := mkModule { m_name : string; m_path : string }.

Definition defaultModuleDir : string := "/lib/modules".
Definition envDisableWireGuardKernel : string := "NB_WG_KERNEL_DISABLED".
Definition ErrModuleNotFound : error := Sentinel "module not found".

(** [getModuleRoot()]: the release field ends at its first zero byte. *)
Fixpoint c_string (bs : list Ascii.ascii) : option (list Ascii.ascii) :=
  match bs with
  | [] => None
  | b :: bs => if decide (b = Ascii.zero) then Some [] else cons b <$> c_string bs
  end.
Definition getModuleRoot (release : list Ascii.ascii) : res string :=
  r ← or_panic (c_string release);
  Ok (filepath_Join defaultModuleDir (string_of_bytes r)).

Definition cleanName (s : string) : string := replace_char "-" "_" (strings_TrimSpace s).

(** [pathToName(s)]: every extension is cut off; each is a byte at least, so the
    length bounds the loop. *)
Fixpoint strip_exts (fuel : nat) (s : string) : string :=
  match fuel, filepath_Ext s with
  | Datatypes.S fuel, String c e => strip_exts fuel (strings_TrimSuffix s (String c e))
  | _, _ => s
  end.
Definition pathToName (s : string) : string :=
  let s := filepath_Base s in cleanName (strip_exts (String.length s) s).

(** ** Reading the tables *)

(** One line of [/proc/modules]. *)
Definition line_status (name line : string) : res (option status) :=
  let fields := strings_Fields line in
  f0 ← or_panic (fields !! 0);
  if negb (bool_decide (f0 = name)) then Ok None
  else
    f2 ← or_panic (fields !! 2);
    if negb (bool_decide (f2 = "0")) then Ok (Some inuse)
    else
      f4 ← or_panic (fields !! 4);
      Ok (Some (if bool_decide (f4 = "Live") then live
                else if bool_decide (f4 = "Loading") then loading
                else if bool_decide (f4 = "Unloading") then unloading
                else unloaded)).
Definition read_status (name text : string) : res status :=
  default unloaded <$> scan_for (line_status name) text.

Definition line_builtin (name line : string) : res (option unit) :=
  Ok (if bool_decide (pathToName line = name) then Some tt else None).
Definition read_builtin (name text : string) : res bool :=
  (λ o, bool_decide (is_Some o)) <$> scan_for (line_builtin name) text.

(** One line of [modules.dep]. *)
Definition line_deps (name line : string) : res (option (list string)) :=
  let fields := strings_Fields line in
  f0 ← or_panic (fields !! 0);
  Ok (if bool_decide (pathToName (strings_TrimSuffix f0 ":") = name) then Some fields else None).
Definition deps_modules (root name : string) (deps : list string) : list module :=
  map (λ v, mkModule (pathToName v) (filepath_Join root v))
    (filter (λ v, pathToName v ≠ name) deps).
Definition read_deps (root name text : string) : res (list module) :=
  deps ← scan_for (line_deps name) text;
  match deps with
  | None | Some [] => Err ErrModuleNotFound
  | Some (d :: ds) => Ok (deps_modules root name (strings_TrimSuffix d ":" :: ds))
  end.

(** ** The module directory

    [filepath.WalkDir] visits a directory before its entries, in their order.
    A directory that cannot be read gives the entries read so far, and the
    callback ignores the error. *)
Inductive fsnode :=
| Regular
| Special
| Directory (entries : list (string * fsnode)).

(** The callback's [foundPath] and [skipRemainingDirs], and whether it returned
    [fs.SkipDir]. *)
Definition walk_state : Type := string * bool.
Definition visit (name path : string) (node : fsnode) (s : walk_state) : walk_state * bool :=
  let '(found, skip) := s in
  if skip then (s, true)
  else match node with
       | Regular => if bool_decide (pathToName path = name) then ((path, true), false) else (s, false)
       | _ => (s, false)
       end.
(** The walk of a node, and whether it returned [fs.SkipDir] to its directory. *)
Fixpoint walkDir (name path : string) (node : fsnode) (s : walk_state) : walk_state * bool :=
  let '(s, skip) := visit name path node s in
  match node with
  | Directory entries =>
      if skip then (s, false)
      else ((fix walk (es : list (string * fsnode)) (s : walk_state) : walk_state :=
               match es with
               | [] => s
               | (n, e) :: es =>
                   let '(s, skip) := walkDir name (filepath_Join path n) e s in
                   if skip then s else walk es s
               end) entries s, false)
  | _ => (s, skip)
  end.
(** [getModulePath(name)]: the empty path when there is none, or no directory. *)
Definition getModulePath (root : string) (tree : option fsnode) (name : string) : string :=
  match tree with
  | None => EmptyString
  | Some node => (walkDir name root node (EmptyString, false)).1.1
  end.

(** ** Loading *)

Inductive mod_event :=
| EvRead (path : string)
| EvOpen (path : string)
| EvStat (path : string)
| EvLinkAdd
| EvFinit (path : string)
| EvInit (path : string).

Global Instance mod_event_eq_dec : EqDecision mod_event.
Proof. solve_decision. Defined.

Definition ENOSYS : error := Sentinel "function not implemented".
Definition EINVAL : error := Sentinel "invalid argument".

Class KernelHost := {
  kh_root : string;
  kh_tree : option fsnode;
  kh_getenv : string → string;
  kh_read : list mod_event → string → res string;     (** opening and reading a file *)
  kh_open : list mod_event → string → res unit;
  kh_stat : list mod_event → string → res unit;
  kh_link_add : list mod_event → res unit;             (** a link with an impossible MTU *)
  kh_finit : list mod_event → string → res unit;
  kh_init : list mod_event → string → res unit
}.

Section loading.
Context {K : KernelHost}.

Definition read_file (path : string) : Host mod_event string := call (EvRead path) (λ log, kh_read log path).

Definition isBuiltinModule (name : string) : Host mod_event bool :=
  text ← read_file (filepath_Join kh_root "/modules.builtin"); lift (read_builtin name text).
Definition moduleStatus (name : string) : Host mod_event status :=
  text ← read_file "/proc/modules"; lift (read_status name text).
Definition getModuleDependencies (name : string) : Host mod_event (list module) :=
  text ← read_file (filepath_Join kh_root "/modules.dep"); lift (read_deps kh_root name text).

Definition isModuleEnabled (name : string) : Host mod_event bool :=
  builtin ← try (isBuiltinModule name);
  state ← try (moduleStatus name);
  mret ((match builtin with inl b => b | inr _ => false end) ||
        (match state with inl s => at_least_loading s | inr _ => false end)).

(** [loadModule(name, path)]: without [finit_module] the file is read and given
    to [init_module]. *)
Definition loadModule (name path : string) : Host mod_event unit :=
  state ← moduleStatus name;
  if at_least_loading state then mret tt
  else
    _ ← call (EvOpen path) (λ log, kh_open log path);
    r ← try (call (EvFinit path) (λ log, kh_finit log path));
    match r with
    | inl _ => mret tt
    | inr e =>
        if errors_Is e ENOSYS then _ ← read_file path; call (EvInit path) (λ log, kh_init log path)
        else lift (Err e)
    end.

Fixpoint load_dependencies (name : string) (deps : list module) : Host mod_event unit :=
  match deps with
  | [] => mret tt
  | dep :: deps =>
      r ← try (loadModule (m_name dep) (m_path dep));
      match r with
      | inl _ => load_dependencies name deps
      | inr _ => lift (Err (Errorf ("couldn't load dependency module " +:+ m_name dep +:+ " for " +:+ name)))
      end
  end.
Definition loadModuleWithDependencies (name path : string) : Host mod_event unit :=
  r ← try (getModuleDependencies name);
  match r with
  | inr _ => lift (Err (Errorf ("couldn't load list of module " +:+ name +:+ " dependencies")))
  | inl deps => _ ← load_dependencies name deps; loadModule name path
  end.

Definition tryToLoadModule (moduleName : string) : Host mod_event bool :=
  enabled ← isModuleEnabled moduleName;
  if (enabled : bool) then mret true
  else
    match getModulePath kh_root kh_tree moduleName with
    | EmptyString => mret false
    | modulePath =>
        r ← try (loadModuleWithDependencies moduleName modulePath);
        match r with
        | inl _ => mret true
        | inr e => lift (Err (Errorf ("couldn't load " +:+ moduleName +:+ " module, error: " +:+ error_text e)))
        end
    end.

Definition tunModuleIsLoaded : Host mod_event bool :=
  s ← try (call (EvStat "/dev/net/tun") (λ log, kh_stat log "/dev/net/tun"));
  match s with
  | inl _ => mret true
  | inr _ => r ← try (tryToLoadModule "tun");
             mret (match r with inl b => b | inr _ => false end)
  end.

(** The kernel looks at the kind of a link before its MTU. *)
Definition canCreateFakeWireGuardInterface : Host mod_event bool :=
  r ← try (call EvLinkAdd kh_link_add);
  mret (match r with inl _ => false | inr e => errors_Is e EINVAL end).

Definition WireGuardModuleIsLoaded : Host mod_event bool :=
  if bool_decide (kh_getenv envDisableWireGuardKernel = "true") then mret false
  else
    fake ← canCreateFakeWireGuardInterface;
    if (fake : bool) then mret true
    else r ← try (tryToLoadModule "wireguard");
         mret (match r with inl b => b | inr _ => false end).
End loading.

(** ** The name of a module file *)

Definition before_dot (s : string) : string :=
  match cut period (bytes_of_string s) with Some (l, _) => string_of_bytes l | None => s end.

(** What is before the first period of the last element is what is before its
    last one, cut again. *)
Lemma before_dot_strip l e : before_dot (string_of_bytes (l ++ period :: e)) =
  before_dot (string_of_bytes l).
Proof.
  unfold before_dot. rewrite !bytes_of_string_of_bytes.
  destruct (cut period l) as [[a b]|] eqn:Hl.
  - apply cut_Some in Hl as [-> Ha]. rewrite <-app_assoc. cbn [app]. by rewrite cut_app.
  - apply cut_None in Hl. by rewrite cut_app.
Qed.

Lemma strip_exts_before_dot fuel s :
  cut_last slash s = None → length s ≤ fuel → strip_exts fuel (string_of_bytes s) = before_dot (string_of_bytes s).
Proof.
  revert s. induction fuel as [|fuel IH]; intros s Hs Hf.
  { destruct s; [done|cbn in Hf; lia]. }
  cbn [strip_exts]. unfold filepath_Ext. rewrite bytes_of_string_of_bytes, Hs.
  destruct (cut_last period s) as [[l e]|] eqn:Hc.
  - apply cut_last_Some in Hc as [-> He]. cbn [String.string_of_list_ascii].
    change (String period (string_of_bytes e)) with (string_of_bytes (period :: e)).
    rewrite string_of_bytes_app, strings_TrimSuffix_app, IH.
    + rewrite <-string_of_bytes_app. symmetry. apply before_dot_strip.
    + apply cut_last_None. apply cut_last_None in Hs. set_solver.
    + rewrite length_app in Hf. cbn [length] in Hf. lia.
  - unfold before_dot. rewrite bytes_of_string_of_bytes.
    apply cut_last_None in Hc. destruct (cut period s) as [[]|] eqn:Hp; [|done].
    apply cut_Some in Hp as [-> _]. set_solver.
Qed.

(** The loop that cuts extensions ends at the first period. *)
Lemma pathToName_first_dot s : pathToName s = cleanName (before_dot (filepath_Base s)).
Proof.
  unfold pathToName. f_equal. destruct (decide (filepath_Base s = "/")) as [->|Hne]; [done|].
  rewrite <-(string_of_bytes_of_string (filepath_Base s)). rewrite strip_exts_before_dot; [done| |].
  - apply cut_last_None. by apply filepath_Base_no_slash.
  - by rewrite string_length_bytes, bytes_of_string_of_bytes.
Qed.

(** ** The walk *)

Section fsnode_induction.
Variable P : fsnode → Prop.
Hypothesis P_Regular : P Regular.
Hypothesis P_Special : P Special.
Hypothesis P_Directory : ∀ es, Forall (λ e, P e.2) es → P (Directory es).

Fixpoint fsnode_nested_ind (node : fsnode) : P node :=
  match node with
  | Regular => P_Regular
  | Special => P_Special
  | Directory es => P_Directory es
      ((fix go (es : list (string * fsnode)) : Forall (λ e, P e.2) es :=
          match es with
          | [] => List.Forall_nil _
          | e :: es => List.Forall_cons _ _ _ (fsnode_nested_ind e.2) (go es)
          end) es)
  end.
End fsnode_induction.

(** The regular files under a path, in the order of the walk. *)
Fixpoint regular_files (path : string) (node : fsnode) : list string :=
  match node with
  | Regular => [path]
  | Special => []
  | Directory es =>
      (fix go (es : list (string * fsnode)) : list string :=
         match es with
         | [] => []
         | (n, e) :: es => regular_files (filepath_Join path n) e ++ go es
         end) es
  end.

Definition named (name path : string) : Prop := cleanName (before_dot (filepath_Base path)) = name.
Global Instance named_dec name path : Decision (named name path).
Proof. unfold named. apply _. Defined.

(** What a walk over some files does to the callback's state. *)
Definition found_in (name : string) (files : list string) (s : walk_state) : walk_state :=
  if s.2 then s
  else match filter (named name) files with
       | [] => s
       | p :: _ => (p, true)
       end.

Lemma found_in_app name fs fs' s : found_in name (fs ++ fs') s = found_in name fs' (found_in name fs s).
Proof.
  unfold found_in. destruct s as [f []]; [done|]. cbn [snd]. rewrite list.filter_app.
  destruct (filter (named name) fs); done.
Qed.
Lemma found_in_skip name fs f : found_in name fs (f, true) = (f, true).
Proof. done. Qed.

Lemma walkDir_found name node : ∀ path s,
  (walkDir name path node s).1 = found_in name (regular_files path node) s ∧
  ((walkDir name path node s).2 = true → s.2 = true).
Proof.
  induction node as [| |es IH] using fsnode_nested_ind; intros path [f skip].
  - cbn [walkDir visit regular_files]. destruct skip; [done|]. rewrite pathToName_first_dot.
    unfold found_in. cbn [snd]. rewrite filter_cons. destruct (decide (named name path)) as [Hn|Hn]; unfold named in Hn.
    + by rewrite bool_decide_true.
    + by rewrite bool_decide_false.
  - cbn [walkDir visit regular_files]. by destruct skip.
  - cbn [walkDir visit]. destruct skip; [done|]. cbn [fst snd]. split; [|done].
    cbn [regular_files]. generalize (f, false) as s. induction IH as [|[n e] es He Hes IHes]; intros s.
    + unfold found_in. by destruct s as [? []].
    + rewrite found_in_app. cbn [snd] in He. destruct (He (filepath_Join path n) s) as [H1 H2].
      destruct (walkDir name (filepath_Join path n) e s) as [s' skip']. cbn [fst snd] in H1, H2. subst s'.
      destruct skip'; [|apply IHes]. destruct s as [g b]. cbn [snd] in H2. by rewrite H2, !found_in_skip.
Qed.

(** [getModulePath] gives the first regular file below the root, in the order of
    the walk, whose name up to its first period is the module's. *)
Lemma getModulePath_first root node name :
  getModulePath root (Some node) name =
  default EmptyString (head (filter (named name) (regular_files root node))).
Proof.
  unfold getModulePath. rewrite (proj1 (walkDir_found _ _ _ _)). unfold found_in. cbn [snd].
  by destruct (filter _ _).
Qed.

(** ** The module table *)

Record proc_module := mkProc {
  pm_name : string; pm_size : string; pm_refs : string; pm_users : string; pm_state : string; pm_addr : string
}.
Definition proc_line (m : proc_module) : string :=
  strings_Join [pm_name m; pm_size m; pm_refs m; pm_users m; pm_state m; pm_addr m] " ".
Definition proc_wf (m : proc_module) : Prop :=
  Forall (λ w, is_word w = true) [pm_name m; pm_size m; pm_refs m; pm_users m; pm_state m; pm_addr m] ∧
  is_line (proc_line m).
Definition proc_status (m : proc_module) : status :=
  if bool_decide (pm_refs m = "0") then
    if bool_decide (pm_state m = "Live") then live
    else if bool_decide (pm_state m = "Loading") then loading
    else if bool_decide (pm_state m = "Unloading") then unloading
    else unloaded
  else inuse.

Lemma line_status_proc name m : proc_wf m →
  line_status name (proc_line m) = Ok (if decide (pm_name m = name) then Some (proc_status m) else None).
Proof.
  intros [Hw _]. unfold line_status, proc_line. rewrite strings_Fields_Join by done.
  cbn [lookup list_lookup or_panic mbind res_bind]. unfold proc_status.
  destruct (decide (pm_name m = name)); [rewrite bool_decide_true by done|by rewrite bool_decide_false by done].
  cbn [negb]. by destruct (bool_decide (pm_refs m = "0")).
Qed.

Lemma first_line_map {A B} (f : string → res (option A)) (g : B → option A) (print : B → string) bs :
  (∀ b, b ∈ bs → f (print b) = Ok (g b)) →
  first_line f (map print bs) = Ok (head (omap g bs)).
Proof.
  induction bs as [|b bs IH]; intros Hf; [done|]. cbn [map first_line]. rewrite Hf by left.
  cbn [omap list_omap]. destruct (g b); [done|]. apply IH. intros b' Hb'. apply Hf. by right.
Qed.

Lemma read_status_proc name ms : Forall proc_wf ms →
  read_status name (text_of (map proc_line ms)) =
  Ok (default unloaded (head (omap (λ m, if decide (pm_name m = name) then Some (proc_status m) else None) ms))).
Proof.
  intros Hms. unfold read_status. rewrite scan_for_text_of.
  - erewrite first_line_map; [reflexivity|]. intros m Hm. apply line_status_proc.
    rewrite list.Forall_forall in Hms. auto.
  - apply Forall_fmap. eapply List.Forall_impl; [|exact Hms]. by intros m [_ Hl].
Qed.

Lemma elem_of_head_omap {A B} (f : A → option B) l b :
  head (omap f l) = Some b → ∃ a, a ∈ l ∧ f a = Some b.
Proof.
  induction l as [|a l IH]; [done|]. cbn [omap list_omap]. destruct (f a) as [b'|] eqn:Hf.
  - intros [= ->]. exists a. split; [left|done].
  - intros (x&Hx&Hb)%IH. exists x. split; [by right|done].
Qed.

(** The status of the module of a name, when names are unique. *)
Lemma proc_lookup name m ms : NoDup (pm_name <$> ms) → m ∈ ms → pm_name m = name →
  head (omap (λ m, if decide (pm_name m = name) then Some (proc_status m) else None) ms) = Some (proc_status m).
Proof.
  intros Hnd Hm <-. induction ms as [|m' ms IH]; [by apply not_elem_of_nil in Hm|].
  cbn [fmap list_fmap] in Hnd. apply list.NoDup_cons in Hnd as [Hn Hnd]. cbn [omap list_omap].
  apply elem_of_cons in Hm as [->|Hm]; [by rewrite decide_True|].
  rewrite decide_False; [by apply IH|]. intros He. apply Hn. rewrite He. by apply list_elem_of_fmap_2.
Qed.

Lemma proc_enabled name ms : NoDup (pm_name <$> ms) →
  at_least_loading (default unloaded (head (omap (λ m, if decide (pm_name m = name) then Some (proc_status m) else None) ms))) = true ↔
  ∃ m, m ∈ ms ∧ pm_name m = name ∧ at_least_loading (proc_status m) = true.
Proof.
  intros Hnd. split.
  - destruct (head _) as [st|] eqn:Hh; [|done]. cbn [default]. intros Hst.
    apply elem_of_head_omap in Hh as (m&Hm&Hs). destruct (decide (pm_name m = name)); [|done].
    injection Hs as <-. by exists m.
  - intros (m&Hm&Hn&Hs). by rewrite (proc_lookup name m ms).
Qed.

Lemma at_least_loading_proc m :
  at_least_loading (proc_status m) = true ↔ pm_refs m ≠ "0" ∨ pm_state m = "Live" ∨ pm_state m = "Loading".
Proof.
  unfold proc_status. destruct (decide (pm_refs m = "0")) as [->|Hr].
  - rewrite bool_decide_true by done.
    destruct (decide (pm_state m = "Live")) as [->|Hl]; [rewrite bool_decide_true by done; naive_solver|].
    rewrite bool_decide_false by done.
    destruct (decide (pm_state m = "Loading")) as [->|Hg]; [rewrite bool_decide_true by done; naive_solver|].
    rewrite bool_decide_false by done. destruct (bool_decide (_ = "Unloading")); naive_solver.
  - rewrite bool_decide_false by done. naive_solver.
Qed.

Lemma read_builtin_lines name bs : Forall is_line bs →
  read_builtin name (text_of bs) = Ok (bool_decide (Exists (named name) bs)).
Proof.
  intros Hbs. unfold read_builtin. rewrite scan_for_text_of by done.
  assert (first_line (line_builtin name) bs = Ok (if bool_decide (Exists (named name) bs) then Some tt else None)) as ->.
  { clear Hbs. induction bs as [|l bs IH]; [done|]. cbn [first_line]. unfold line_builtin at 1. rewrite pathToName_first_dot.
    destruct (decide (named name l)) as [Hn|Hn].
    - rewrite bool_decide_true by exact Hn. by rewrite bool_decide_true by by left.
    - rewrite bool_decide_false by exact Hn. rewrite IH. f_equal.
      rewrite (bool_decide_ext (Exists (named name) (l :: bs)) (Exists (named name) bs)); [done|].
      rewrite Exists_cons. naive_solver. }
  cbn [fmap res_fmap]. f_equal. by destruct (bool_decide (Exists _ _)).
Qed.

(** A module is enabled exactly when a line of [modules.builtin] names it (by
    the file name up to its first period, dashes as underscores), or it is in
    [/proc/modules] and in use, live or loading: a module that is being unloaded
    but still has references counts. Reading either table, or [modules.dep],
    panics at an empty line before the module's. *)
Lemma isModuleEnabled_iff {K : KernelHost} log name bs ms :
  let builtin := filepath_Join kh_root "/modules.builtin" in
  kh_read log builtin = Ok (text_of bs) → Forall is_line bs →
  kh_read (log ++ [EvRead builtin]) "/proc/modules" = Ok (text_of (map proc_line ms)) →
  Forall proc_wf ms → NoDup (pm_name <$> ms) →
  (∃ b, (isModuleEnabled name log).1 = Ok b ∧
    (b = true ↔ (∃ l, l ∈ bs ∧ cleanName (before_dot (filepath_Base l)) = name) ∨
                ∃ m, m ∈ ms ∧ pm_name m = name ∧
                     (pm_refs m ≠ "0" ∨ pm_state m = "Live" ∨ pm_state m = "Loading"))) ∧
  ∀ ls, Forall is_line ls →
    read_status name (text_of (EmptyString :: ls)) = Panic ∧
    read_deps kh_root name (text_of (EmptyString :: ls)) = Panic.
Proof.
  intros builtin Hb Hbs Hp Hms Hnd. split.
  - unfold isModuleEnabled, isBuiltinModule, moduleStatus, read_file, call, lift, try, mbind, ST_bind.
    fold builtin. rewrite Hb. rewrite read_builtin_lines by done. rewrite Hp, read_status_proc by done.
    eexists. split; [reflexivity|]. rewrite orb_true_iff, bool_decide_eq_true, proc_enabled by done.
    rewrite list.Exists_exists. setoid_rewrite at_least_loading_proc. done.
  - intros ls Hls. assert (Forall is_line (EmptyString :: ls)) as Hls'.
    { constructor; [|done]. done. }
    unfold read_status, read_deps. by rewrite !scan_for_text_of.
Qed.

Definition ex_proc : proc_module := mkProc "udp_tunnel" "28672" "1" "wireguard," "Unloading" "0x0".
Definition ex_host : KernelHost := {|
  kh_root := "/lib/modules/6.1"; kh_tree := None; kh_getenv _ := EmptyString;
  kh_read log p := Ok (if bool_decide (p = "/proc/modules") then text_of [proc_line ex_proc]
                       else text_of ["kernel/net/ipv4/udp-tunnel.ko.xz"]);
  kh_open _ _ := Ok tt; kh_stat _ _ := Ok tt; kh_link_add _ := Ok tt; kh_finit _ _ := Ok tt; kh_init _ _ := Ok tt
|}.

Lemma isModuleEnabled_iff_witness :
  (isModuleEnabled (K := ex_host) "udp_tunnel" []).1 = Ok true.
Proof.
  destruct (isModuleEnabled_iff (K := ex_host) [] "udp_tunnel" ["kernel/net/ipv4/udp-tunnel.ko.xz"] [ex_proc]) as [(b&Hb&Hi) _].
  - reflexivity.
  - repeat constructor.
  - reflexivity.
  - repeat constructor.
  - apply (bool_decide_unpack _). vm_compute. exact I.
  - rewrite Hb. f_equal. apply Hi. left. exists "kernel/net/ipv4/udp-tunnel.ko.xz".
    split; [left|reflexivity].
Defined.

(** ** Loading a module after its dependencies *)

(** One line of [modules.dep]: a module file and those it depends on. *)
Definition dep_line (t : string * list string) : string := strings_Join ((t.1 +:+ ":") :: t.2) " ".
Definition dep_wf (t : string * list string) : Prop :=
  is_word (t.1 +:+ ":") = true ∧ Forall (λ w, is_word w = true) t.2 ∧ is_line (dep_line t).

Lemma read_deps_lines root name ts : Forall dep_wf ts →
  read_deps root name (text_of (map dep_line ts)) =
  match head (filter (λ t, named name t.1) ts) with
  | Some (f, ds) => Ok (deps_modules root name (f :: ds))
  | None => Err ErrModuleNotFound
  end.
Proof.
  intros Hts. unfold read_deps. rewrite scan_for_text_of.
  2: { apply Forall_fmap. eapply List.Forall_impl; [|exact Hts]. by intros t (_&_&Hl). }
  rewrite (first_line_map _ (λ t, if decide (named name t.1) then Some ((t.1 +:+ ":") :: t.2) else None)).
  - clear Hts. induction ts as [|[f ds] ts IH]; [done|]. cbn [omap list_omap]. rewrite filter_cons. cbn [fst snd].
    destruct (decide (named name f)) as [Hn|Hn]; [|apply IH]. cbn [mbind res_bind head]. by rewrite strings_TrimSuffix_app.
  - intros t Ht. rewrite list.Forall_forall in Hts. destruct (Hts t Ht) as (Hw&Hws&_).
    unfold line_deps, dep_line. rewrite strings_Fields_Join by by constructor.
    cbn [lookup list_lookup or_panic mbind res_bind]. rewrite strings_TrimSuffix_app, pathToName_first_dot.
    destruct (decide (named name t.1)) as [Hn|Hn]; [by rewrite bool_decide_true|by rewrite bool_decide_false].
Qed.

(** The kernel's documented behaviour: [finit_module] and [init_module] may refuse
    a module for any reason, and then change nothing; one they take has what it
    needs loaded, was not loaded itself (that is [EEXIST]), and then is.
    [/proc/modules], when it can be read, shows what is loaded. [needs] are the
    modules whose symbols a file uses, [kname] the name it is known by. *)
Definition takes (loaded : list mod_event → gset string) (needs : string → gset string) (kname : string → string)
    (log : list mod_event) (p : string) (ev : mod_event) (r : res unit) : Prop :=
  match r with
  | Ok _ => needs p ⊆ loaded log ∧ kname p ∉ loaded log ∧ loaded (log ++ [ev]) = {[kname p]} ∪ loaded log
  | Err _ => loaded (log ++ [ev]) = loaded log
  | Panic => False
  end.
Class KernelSpec (K : KernelHost) (loaded : list mod_event → gset string)
    (needs : string → gset string) (kname : string → string) := {
  ks_shown : ∀ log name text, kh_read log "/proc/modules" = Ok text →
    ∃ st, read_status name text = Ok st ∧ at_least_loading st = bool_decide (name ∈ loaded log);
  ks_returns : ∀ log p, kh_read log p ≠ Panic ∧ kh_open log p ≠ Panic;
  ks_finit : ∀ log p, takes loaded needs kname log p (EvFinit p) (kh_finit log p);
  ks_init : ∀ log p, takes loaded needs kname log p (EvInit p) (kh_init log p);
  ks_other : ∀ log p, loaded (log ++ [EvRead p]) = loaded log ∧ loaded (log ++ [EvOpen p]) = loaded log
}.

(** Nothing is refused but for what is missing: the files can be read, and a
    module that is not loaded and has what it needs is taken. *)
Definition unhindered (K : KernelHost) (loaded : list mod_event → gset string)
    (needs : string → gset string) (kname : string → string) : Prop :=
  ∀ log p, is_ok (kh_read log p) = true ∧ kh_open log p = Ok tt ∧
    (needs p ⊆ loaded log → kname p ∉ loaded log → kh_finit log p = Ok tt).

Section order.
Context {K : KernelHost} {loaded : list mod_event → gset string} {needs : string → gset string}
  {kname : string → string} {KS : KernelSpec K loaded needs kname}.

(** Each module is there already, or finds what it needs when its turn comes. *)
Fixpoint in_order (have : gset string) (ms : list module) : Prop :=
  match ms with
  | [] => True
  | m :: ms => (m_name m ∈ have ∨ needs (m_path m) ⊆ have) ∧ in_order ({[m_name m]} ∪ have) ms
  end.

(** Opening, [finit_module] and, where there is none, [init_module]. *)
Lemma give_to_kernel path log : kname path ∉ loaded log →
  let '(r, log') := (_ ← call (EvOpen path) (λ log, kh_open log path);
    r ← try (call (EvFinit path) (λ log, kh_finit log path));
    match r with
    | inl _ => mret tt
    | inr e => if errors_Is e ENOSYS then _ ← read_file path; call (EvInit path) (λ log, kh_init log path)
               else lift (Err e)
    end) log in
  match r with
  | Ok _ => needs path ⊆ loaded log ∧ loaded log' = {[kname path]} ∪ loaded log
  | Err _ => loaded log' = loaded log ∧ (unhindered K loaded needs kname → ¬ needs path ⊆ loaded log)
  | Panic => False
  end.
Proof.
  intros Hin. unfold read_file, call, lift, try, mret, ST_ret, mbind, ST_bind.
  pose proof (ks_other log path) as [_ Ho]. pose proof (proj2 (ks_returns log path)) as Hopen.
  set (log2 := log ++ [EvOpen path]) in *.
  assert (unhindered K loaded needs kname → kh_open log path = Ok tt ∧ (needs path ⊆ loaded log → kh_finit log2 path = Ok tt)) as Hun.
  { intros Hu. split; [apply Hu|]. intros Hn. apply Hu; by rewrite Ho. }
  destruct (kh_open log path) as [[]|e|]; [|split; [done|]; intros Hu; by destruct (Hun Hu)|done].
  pose proof (ks_finit log2 path) as Hf. unfold takes in Hf. rewrite Ho in Hf.
  set (log3 := log2 ++ [EvFinit path]) in *.
  destruct (kh_finit log2 path) as [[]|e|]; [by destruct Hf as (?&_&?)| |done]. cbn iota beta.
  assert (unhindered K loaded needs kname → ¬ needs path ⊆ loaded log) as Hno.
  { intros Hu Hn. destruct (Hun Hu) as [_ Hk]. by specialize (Hk Hn). }
  destruct (errors_Is e ENOSYS); [|done]. pose proof (ks_other log3 path) as [Hr _].
  pose proof (proj1 (ks_returns log3 path)) as Hread. set (log4 := log3 ++ [EvRead path]) in *.
  destruct (kh_read log3 path); [|split; [congruence|done]|done].
  pose proof (ks_init log4 path) as Hi. unfold takes in Hi. rewrite Hr, Hf in Hi.
  destruct (kh_init log4 path) as [[]|e'|]; [by destruct Hi as (?&_&?)|done|done].
Qed.

Lemma loadModule_spec name path log : kname path = name →
  let '(r, log') := loadModule name path log in
  match r with
  | Ok _ => (name ∈ loaded log ∨ needs path ⊆ loaded log) ∧ loaded log' = {[name]} ∪ loaded log
  | Err _ => loaded log' = loaded log ∧
      (unhindered K loaded needs kname → ¬ (name ∈ loaded log ∨ needs path ⊆ loaded log))
  | Panic => False
  end.
Proof.
  intros Hk. unfold loadModule, moduleStatus. unfold mbind at 1, ST_bind at 1. unfold mbind at 1, ST_bind at 1.
  unfold read_file at 1, call at 1, lift at 1.
  pose proof (ks_other log "/proc/modules") as [Hr _]. pose proof (ks_shown log name) as Hs.
  pose proof (proj1 (ks_returns log "/proc/modules")) as Hp.
  assert (unhindered K loaded needs kname → is_ok (kh_read log "/proc/modules") = true) as Hu by (intros Hu; apply Hu).
  destruct (kh_read log "/proc/modules") as [text|e|]; [|split; [done|]; intros H; by specialize (Hu H)|done].
  destruct (Hs text eq_refl) as (st&->&->). set (log1 := log ++ [EvRead "/proc/modules"]) in *.
  destruct (decide (name ∈ loaded log)) as [Hin|Hin].
  - rewrite bool_decide_true by done. split; [by left|]. rewrite Hr. set_solver.
  - rewrite bool_decide_false by done. pose proof (give_to_kernel path log1) as Hg. rewrite Hr, Hk in Hg. specialize (Hg Hin).
    destruct ((call (EvOpen path) _ ≫= _) log1) as [[[]|e|] log'].
    + destruct Hg as [Hn Hl]. auto.
    + destruct Hg as [Hl Hn]. split; [done|]. intros H. specialize (Hn H). tauto.
    + done.
Qed.

Lemma load_dependencies_spec name deps log : Forall (λ m, kname (m_path m) = m_name m) deps →
  let '(r, log') := load_dependencies name deps log in
  match r with
  | Ok _ => in_order (loaded log) deps ∧ loaded log' = list_to_set (m_name <$> deps) ∪ loaded log
  | Err _ => ∃ before m after, deps = before ++ m :: after ∧ in_order (loaded log) before ∧
      loaded log' = list_to_set (m_name <$> before) ∪ loaded log ∧
      (unhindered K loaded needs kname → ¬ (m_name m ∈ loaded log' ∨ needs (m_path m) ⊆ loaded log'))
  | Panic => False
  end.
Proof.
  intros Hk. revert log. induction Hk as [|[n p] deps Hn _ IH]; intros log.
  - cbn. split; [done|set_solver].
  - cbn [load_dependencies m_name m_path in_order]. unfold mbind, ST_bind, try. cbn [m_name m_path] in Hn.
    pose proof (loadModule_spec n p log Hn) as Hl. destruct (loadModule n p log) as [[[]|e|] log1]; [| |done].
    + destruct Hl as [Hd Hl]. specialize (IH log1). rewrite Hl in IH.
      assert (∀ A : gset string, A ∪ ({[n]} ∪ loaded log) = ({[n]} ∪ A) ∪ loaded log) as Hset by (clear; set_solver).
      destruct (load_dependencies name deps log1) as [[[]|e|] log2]; [| |done].
      * destruct IH as [Ho ->]. split; [done|]. apply Hset.
      * destruct IH as (bs&m&as'&->&Ho&He&Hu). exists (mkModule n p :: bs), m, as'. split; [done|].
        split; [done|]. split; [|done]. rewrite He. apply Hset.
    + destruct Hl as [Hl Hu]. exists [], (mkModule n p), deps. split; [done|]. split; [done|].
      rewrite Hl. split; [cbn; set_solver|done].
Qed.
End order.

Lemma in_order_app {needs} have ms ms' :
  in_order (needs := needs) have (ms ++ ms') ↔
  in_order (needs := needs) have ms ∧ in_order (needs := needs) (list_to_set (m_name <$> ms) ∪ have) ms'.
Proof.
  revert have. induction ms as [|x ms IH]; intros have; cbn [app in_order fmap list_fmap list_to_set].
  - rewrite (left_id_L ∅ (∪)). tauto.
  - rewrite IH. assert (list_to_set (m_name <$> ms) ∪ ({[m_name x]} ∪ have) =@{gset string}
      {[m_name x]} ∪ list_to_set (m_name <$> ms) ∪ have) as -> by set_solver. tauto.
Qed.

(** C30. The dependencies of a module are loaded one by one in the order
    [modules.dep] lists them, then the module. On success each was there or found
    what it needs loaded when its turn came, and all are loaded. An error stops at
    some module, when exactly those before it are loaded; and if the kernel
    refuses nothing but what lacks something, the module was not loaded then and
    did not find what it needs, so that loading succeeds exactly when the order
    lets each find what it needs: a list that names a module before one it
    needs, as depmod writes them, fails at that module unless it was loaded
    already. *)
Theorem loads_in_listed_order {K : KernelHost} loaded needs kname (KS : KernelSpec K loaded needs kname) log name path ts f ds :
  kh_read log (filepath_Join kh_root "/modules.dep") = Ok (text_of (map dep_line ts)) → Forall dep_wf ts →
  head (filter (λ t, named name t.1) ts) = Some (f, ds) →
  let ms := deps_modules kh_root name (f :: ds) ++ [mkModule name path] in
  Forall (λ m, kname (m_path m) = m_name m) ms →
  let '(r, log') := loadModuleWithDependencies name path log in
  match r with
  | Ok _ => in_order (needs := needs) (loaded log) ms ∧ loaded log' = list_to_set (m_name <$> ms) ∪ loaded log
  | Err _ => ∃ before m after, ms = before ++ m :: after ∧ in_order (needs := needs) (loaded log) before ∧
      loaded log' = list_to_set (m_name <$> before) ∪ loaded log ∧
      (unhindered K loaded needs kname → m_name m ∉ loaded log' ∧ ¬ needs (m_path m) ⊆ loaded log')
  | Panic => False
  end ∧
  (unhindered K loaded needs kname → r = Ok tt ↔ in_order (needs := needs) (loaded log) ms).
Proof.
  intros Hr Hts Hh ms Hk. unfold ms in Hk. apply list.Forall_app in Hk as [Hk Hk']. inversion_clear Hk' as [|? ? Hn _].
  cbn [m_name m_path] in Hn. set (deps := deps_modules kh_root name (f :: ds)) in *.
  pose proof (ks_other log (filepath_Join kh_root "/modules.dep")) as [Hl _].
  pose proof (load_dependencies_spec name deps (log ++ [EvRead (filepath_Join kh_root "/modules.dep")]) Hk) as Hd.
  rewrite Hl in Hd.
  assert (let '(r, log') := loadModuleWithDependencies name path log in
    match r with
    | Ok _ => in_order (needs := needs) (loaded log) ms ∧ loaded log' = list_to_set (m_name <$> ms) ∪ loaded log
    | Err _ => ∃ before m after, ms = before ++ m :: after ∧ in_order (needs := needs) (loaded log) before ∧
        loaded log' = list_to_set (m_name <$> before) ∪ loaded log ∧
        (unhindered K loaded needs kname → m_name m ∉ loaded log' ∧ ¬ needs (m_path m) ⊆ loaded log')
    | Panic => False
    end) as Hmain.
  { unfold loadModuleWithDependencies, getModuleDependencies, read_file, call, try, lift, mbind, ST_bind.
    rewrite Hr, read_deps_lines, Hh by done. fold deps. cbn iota beta.
    destruct (load_dependencies name deps _) as [[[]|e|] log2]; [| |done].
    - destruct Hd as [Ho Hl2]. pose proof (loadModule_spec name path log2 Hn) as Hf. rewrite Hl2 in Hf.
      destruct (loadModule name path log2) as [[[]|e|] log3]; [| |done].
      + destruct Hf as [Hd ->]. unfold ms. rewrite in_order_app, fmap_app, list_to_set_app_L. split; [done|].
        cbn [fmap list_fmap m_name list_to_set]. rewrite (right_id_L ∅ (∪)), (assoc_L (∪)), (comm_L (∪) {[name]}). done.
      + destruct Hf as [Hl3 Hu]. exists deps, (mkModule name path), []. split; [done|]. split; [done|]. split; [done|].
        intros H. specialize (Hu H). rewrite Hl3. tauto.
    - destruct Hd as (bs&m&as'&He&Ho&Hl2&Hu). exists bs, m, (as' ++ [mkModule name path]). split.
      { unfold ms. by rewrite He, <-app_assoc. }
      split; [done|]. split; [done|]. intros H. specialize (Hu H). tauto. }
  destruct (loadModuleWithDependencies name path log) as [r log']. split; [exact Hmain|]. intros Hu.
  destruct r as [[]|e|]; [|..|done]; [tauto|]. split; [done|]. intros Ho. exfalso.
  destruct Hmain as (bs&m&as'&He&_&Hl'&Hno). destruct (Hno Hu) as [H1 H2].
  rewrite He in Ho. apply in_order_app in Ho as [_ Ho]. rewrite <-Hl' in Ho. cbn [in_order] in Ho. tauto.
Qed.

(** [wg] needs [ip6] and [udp]; [ip6], listed first, needs [udp] too. *)
Definition ex_names : list string := ["udp"; "ip6"; "wg"].
Definition ex_needs (path : string) : gset string :=
  if decide (pathToName path ∈ ex_names)
  then if bool_decide (pathToName path = "ip6") then {["udp"]} else ∅
  else {["absent"]}.
Definition ex_insmod (have : gset string) (e : mod_event) : gset string :=
  match e with
  | EvFinit p => if decide (ex_needs p ⊆ have) then {[pathToName p]} ∪ have else have
  (* no module is given to [init_module], which refuses it *)
  | _ => have
  end.
Definition ex_loaded (log : list mod_event) : gset string := foldl ex_insmod ∅ log.
Definition ex_row (n : string) : proc_module := mkProc n "1" "0" "-" "Live" "0x0".
Definition ex_table (have : gset string) : list proc_module := map ex_row (filter (λ n, n ∈ have) ex_names).
Definition ex_kernel : KernelHost := {|
  kh_root := "/m"; kh_tree := None; kh_getenv _ := EmptyString;
  kh_read log p := Ok (if bool_decide (p = "/proc/modules") then text_of (map proc_line (ex_table (ex_loaded log)))
                       else text_of (map dep_line [("wg.ko", ["ip6.ko"; "udp.ko"])]));
  kh_open _ _ := Ok tt; kh_stat _ _ := Ok tt; kh_link_add _ := Ok tt;
  kh_finit log p :=
    if bool_decide (pathToName p ∈ ex_loaded log) then Err (Errorf "file exists")
    else if decide (ex_needs p ⊆ ex_loaded log) then Ok tt else Err (Errorf "unknown symbol");
  kh_init _ _ := Err (Errorf "operation not permitted")
|}.

Lemma ex_loaded_snoc log e : ex_loaded (log ++ [e]) = ex_insmod (ex_loaded log) e.
Proof. unfold ex_loaded. by rewrite foldl_app. Qed.

Lemma ex_loaded_names log n : n ∈ ex_loaded log → n ∈ ex_names.
Proof.
  revert n. induction log as [|e log IH] using rev_ind; intros n; [intros Hn; by apply not_elem_of_empty in Hn|].
  rewrite ex_loaded_snoc. unfold ex_insmod. destruct e as [| | | |p|]; try apply IH.
  destruct (decide (ex_needs p ⊆ ex_loaded log)) as [Hs|]; [|apply IH].
  intros [Hn|Hn]%elem_of_union; [|auto]. apply elem_of_singleton in Hn as ->.
  destruct (decide (pathToName p ∈ ex_names)) as [|Ha]; [done|exfalso]. unfold ex_needs in Hs.
  rewrite decide_False in Hs by done. specialize (Hs "absent" ltac:(by apply elem_of_singleton)).
  apply IH in Hs. revert Hs. apply (bool_decide_unpack _). vm_compute. exact I.
Qed.

Lemma ex_kernel_spec : KernelSpec ex_kernel ex_loaded ex_needs pathToName.
Proof.
  split.
  - intros log name text [= <-]. eexists.
    assert (∀ P : string → Prop, (∀ n, n ∈ ex_names → P n) → ∀ l, l ⊆ ex_names → Forall P l) as Hall.
    { intros P HP l Hl. apply list.Forall_forall. auto. }
    assert (Forall proc_wf (ex_table (ex_loaded log))) as Hwf.
    { apply Forall_fmap, Hall; [|intros n [_ Hn]%list_elem_of_filter; done].
      intros n Hn. unfold ex_names in Hn. rewrite !elem_of_cons in Hn.
      destruct Hn as [->|[->|[->|Hn]]]; [repeat constructor..|by apply not_elem_of_nil in Hn]. }
    assert (pm_name <$> ex_table (ex_loaded log) = filter (λ n, n ∈ ex_loaded log) ex_names) as Hnames.
    { unfold ex_table. change (map ex_row) with (fmap (M := list) ex_row). rewrite <-list_fmap_compose. apply list_fmap_id. }
    split; [apply (read_status_proc name _ Hwf)|]. apply eq_true_iff_eq.
    rewrite bool_decide_eq_true, proc_enabled.
    + split.
      * intros (m&Hm&<-&_). apply (list_elem_of_fmap_2 pm_name) in Hm. rewrite Hnames in Hm.
        by apply list_elem_of_filter in Hm as [? _].
      * intros Hn. exists (ex_row name). split; [|done]. apply list_elem_of_fmap_2, list_elem_of_filter.
        split; [done|]. by apply (ex_loaded_names log).
    + rewrite Hnames. apply list.NoDup_filter. apply (bool_decide_unpack _). vm_compute. exact I.
  - done.
  - intros log p. unfold takes. cbn [ex_kernel kh_finit]. rewrite ex_loaded_snoc. cbn [ex_insmod].
    case_bool_decide as Hin; destruct (decide (ex_needs p ⊆ ex_loaded log)); [set_solver|done..].
  - intros log p. unfold takes. cbn [ex_kernel kh_init]. by rewrite ex_loaded_snoc.
  - intros log p. by rewrite !ex_loaded_snoc.
Qed.

Lemma ex_kernel_unhindered : unhindered ex_kernel ex_loaded ex_needs pathToName.
Proof.
  intros log p. split; [done|]. split; [done|]. intros Hn Hp. cbn [ex_kernel kh_finit].
  by rewrite bool_decide_false, decide_True.
Qed.

Lemma loads_in_listed_order_witness :
  ∃ e, (loadModuleWithDependencies (K := ex_kernel) "wg" "/m/wg.ko" []).1 = Err e.
Proof.
  pose proof (loads_in_listed_order (K := ex_kernel) ex_loaded ex_needs pathToName ex_kernel_spec [] "wg" "/m/wg.ko"
    [("wg.ko", ["ip6.ko"; "udp.ko"])] "wg.ko" ["ip6.ko"; "udp.ko"] eq_refl ltac:(repeat constructor) eq_refl) as Hl.
  destruct (loadModuleWithDependencies (K := ex_kernel) "wg" "/m/wg.ko" []) as [r log'].
  destruct Hl as [Hr Hi]; [repeat constructor|]. specialize (Hi ex_kernel_unhindered).
  destruct r as [[]|e|]; [exfalso|by exists e|done].
  destruct (proj1 Hi eq_refl) as [Hfirst _]. revert Hfirst. apply (bool_decide_unpack _). vm_compute. exact I.
Defined.
