(* ===== verification/Freebsd.v ===== *)
(** * [iface/freebsd/], [iface/tun_link_freebsd.go]: links through ifconfig

    An interface is created, renamed, configured and destroyed by running
    [ifconfig] and reading what it prints. The log holds the command lines; a
    command answers with its output and perhaps an error. *)
From Stdlib Require Import Ascii.
From S2P Require Import Prelude Host GoStrings GoNet GoText GoCIDR.

Definition ErrDoesNotExist : error := Sentinel "does not exist".
Definition ErrNameDoesNotMatch : error := Sentinel "name does not match".

(** ** Reading the output of ifconfig *)

Record iface := mkIface { if_Name : string; if_MTU : Z; if_Group : string; if_IPAddrs : list string }.

Definition parseError (output : string) : option error :=
  if strings_Contains output "does not exist" then Some ErrDoesNotExist else None.

(** What the loop over the lines has found: name, MTU, group and addresses. *)
Record ifconfig_state := mkIfState { is_name : string; is_mtu : string; is_group : string; is_ips : list string }.

(** [for i, part := range parts { if part == "mtu" { mtuIndex = i; break } }] *)
Fixpoint index_of (x : string) (l : list string) : option nat :=
  match l with
  | [] => None
  | y :: l => if decide (y = x) then Some 0 else Datatypes.S <$> index_of x l
  end.

Definition failed_line (line : string) : error := Errorf ("failed to parse line: " +:+ line).

Definition flags_line (line : string) (s : ifconfig_state) : res ifconfig_state :=
  if strings_Contains line ": flags" then
    let parts := strings_Fields line in
    _ ← check (4 <=? length parts) (failed_line line);
    p0 ← or_panic (parts !! 0);
    let name := strings_TrimSuffix p0 ":" in
    if strings_Contains line "mtu" then
      mtu ← or_panic (parts !! (default 0 (index_of "mtu" parts) + 1));
      Ok (mkIfState name mtu (is_group s) (is_ips s))
    else Ok (mkIfState name (is_mtu s) (is_group s) (is_ips s))
  else Ok s.
Definition word_after (what line : string) (set : string → ifconfig_state → ifconfig_state)
    (s : ifconfig_state) : res ifconfig_state :=
  if strings_Contains line what then
    let parts := strings_Fields line in
    _ ← check (2 <=? length parts) (failed_line line);
    p ← or_panic (parts !! 1);
    Ok (set p s)
  else Ok s.
Definition ifconfig_line (line : string) (s : ifconfig_state) : res ifconfig_state :=
  s ← flags_line line s;
  s ← word_after "groups:" line (λ g s, mkIfState (is_name s) (is_mtu s) g (is_ips s)) s;
  word_after "inet " line (λ ip s, mkIfState (is_name s) (is_mtu s) (is_group s) (is_ips s ++ [ip])) s.
Fixpoint ifconfig_lines (ls : list string) (s : ifconfig_state) : res ifconfig_state :=
  match ls with
  | [] => Ok s
  | l :: ls => s ← ifconfig_line l s; ifconfig_lines ls s
  end.

(** An error of the scanner ends the loop and is not looked at. *)
Definition parseIfconfigOutput (output : string) : res iface :=
  s ← ifconfig_lines (bufio_Lines output).1 (mkIfState EmptyString EmptyString EmptyString []);
  _ ← check (negb (bool_decide (is_name s = EmptyString))) (Errorf "interface name not found in ifconfig output");
  mtuInt ← wrap "failed to parse MTU: " (strconv_Atoi (is_mtu s));
  Ok (mkIface (is_name s) mtuInt (is_group s) (is_ips s)).

Definition parseIFName (output : string) : res string :=
  match strings_Split output newline with
  | [] | EmptyString :: _ => Err (Errorf "no output returned")
  | line :: _ =>
      let fields := strings_Fields line in
      _ ← check (length fields <=? 1) (Errorf "invalid output");
      or_panic (fields !! 0)
  end.

Definition ex_output : string := text_of [
  "utun7: flags=8043<UP,BROADCAST,RUNNING,MULTICAST> metric 0 mtu 1420";
  "	options=80000<LINKSTATE>"; "	inet 10.1.0.1 netmask 0xffff0000"; "	inet6 fe80::1%utun7 prefixlen 64";
  "	groups: wg"; "	inet 10.2.0.1 netmask 0xff000000"].
Example parse_ex_output : parseIfconfigOutput ex_output = Ok (mkIface "utun7" 1420 "wg" ["10.1.0.1"; "10.2.0.1"]).
Proof. vm_compute. reflexivity. Qed.
Example parse_mtu_last : parseIfconfigOutput (text_of ["wg0: flags=8080 metric mtu"]) = Panic.
Proof. vm_compute. reflexivity. Qed.
Example parse_name_blank : parseIFName (text_of [" "]) = Panic.
Proof. vm_compute. reflexivity. Qed.

(** ** Links *)

Definition wgIFGroup : string := "wg".
Record Link := mkLink { l_name : string }.
Definition NewLink (name : string) : Link := mkLink name.

(** What a command prints, and its error. *)
Class Exec := { exec : list (list string) → list string → string * option error }.

Section link.
Context {X : Exec}.

Definition run (argv : list string) : Host (list string) (string * option error) :=
  call argv (λ log, Ok (exec log argv)).
(** [if err := cmd.Run(); err != nil { return fmt.Errorf(...) }] *)
Definition run_or (what : string) (argv : list string) : Host (list string) string :=
  '(out, err) ← run argv;
  match err with
  | None => mret out
  | Some e => lift (Err (Wrapf (what +:+ ": ") e EmptyString))
  end.

Definition LinkByName (name : string) : Host (list string) Link :=
  '(out, err) ← run ["ifconfig"; name];
  match err with
  | Some e => match parseError out with
              | Some pErr => lift (Err pErr)
              | None => lift (Err (Wrapf "command run: " e EmptyString))
              end
  | None =>
      i ← wrap_call "parse ifconfig output: " (lift (parseIfconfigOutput out));
      if negb (bool_decide (if_Name i = name)) then lift (Err ErrNameDoesNotMatch)
      else mret (mkLink (if_Name i))
  end.

Definition isExist (l : Link) : Host (list string) bool :=
  r ← try (LinkByName (l_name l));
  match r with
  | inl _ => mret true
  | inr e => if errors_Is e ErrDoesNotExist then mret false
             else lift (Err (Wrapf "link by name: " e EmptyString))
  end.

Definition create (groupName : string) : Host (list string) string :=
  out ← run_or ("create " +:+ groupName +:+ " interface") ["ifconfig"; groupName; "create"];
  wrap_call "parse interface name: " (lift (parseIFName out)).
Definition rename (oldName newName : string) : Host (list string) string :=
  out ← run_or ("change name " +:+ oldName +:+ " -> " +:+ newName) ["ifconfig"; oldName; "name"; newName];
  wrap_call "parse new name: " (lift (parseIFName out)).
Definition del (name : string) : Host (list string) unit :=
  _ ← run_or ("destroy " +:+ name +:+ " interface") ["ifconfig"; name; "destroy"]; mret tt.
Definition setMTU (l : Link) (mtu : Z) : Host (list string) unit :=
  _ ← run_or "set interface mtu" ["ifconfig"; l_name l; "mtu"; strconv_Itoa mtu]; mret tt.
Definition setAddr (l : Link) (ip netmask : string) : Host (list string) unit :=
  _ ← run_or "set interface addr" ["ifconfig"; l_name l; "inet"; ip; "netmask"; netmask]; mret tt.
Definition up (name : string) : Host (list string) unit :=
  _ ← run_or ("up " +:+ name +:+ " interface") ["ifconfig"; name; "up"]; mret tt.
Definition down (name : string) : Host (list string) unit :=
  _ ← run_or ("down " +:+ name +:+ " interface") ["ifconfig"; name; "down"]; mret tt.

Definition Del (l : Link) := del (l_name l).
Definition SetMTU (l : Link) (mtu : Z) := setMTU l mtu.
Definition AssignAddr (l : Link) (ip netmask : string) := setAddr l ip netmask.
Definition Up (l : Link) := up (l_name l).
Definition Down (l : Link) := down (l_name l).

(** [parsedName, err = l.rename(parsedName, l.name)]: on an error [parsedName]
    is empty from here on. *)
Definition Add (l : Link) : Host (list string) unit :=
  parsedName ← wrap_call "create link: " (create wgIFGroup);
  if bool_decide (parsedName = l_name l) then mret tt
  else
    r ← try (rename parsedName (l_name l));
    match r with
    | inl _ => mret tt
    | inr err =>
        let parsedName := EmptyString in
        d ← try (del parsedName);
        match d with
        | inr errDel => lift (Err (Wrapf "del on rename link: " err (": " +:+ error_text errDel)))
        | inl _ => lift (Err (Wrapf "rename link: " err EmptyString))
        end
    end.

Definition Recreate (l : Link) : Host (list string) unit :=
  ok ← wrap_call "is exist: " (isExist l);
  _ ← (if (ok : bool) then wrap_call "del: " (del (l_name l)) else mret tt);
  Add l.

(** ** [wgLink] *)

(** [mask.String()] *)
Definition IPMask_String (m : list Ascii.ascii) : string :=
  match m with [] => "<nil>" | _ => hex_EncodeToString m end.

Definition wgLink_Close (name : string) := Del (NewLink name).
Definition wgLink_recreate (name : string) := wrap_call "recreate: " (Recreate (NewLink name)).
Definition wgLink_setMTU (name : string) (mtu : Z) := wrap_call "set mtu: " (SetMTU (NewLink name) mtu).
Definition wgLink_up (name : string) := wrap_call "up: " (Up (NewLink name)).
Definition wgLink_assignAddr (name : string) (address : WGAddress) : Host (list string) unit :=
  link ← wrap_call "link by name: " (LinkByName name);
  let ip := IP_String (wga_IP address) in
  let mask := "0x" +:+ IPMask_String (net_Mask (wga_Network address)) in
  _ ← wrap_call "assign addr: " (AssignAddr link ip mask);
  wrap_call "up: " (Up link).
End link.

(** ** Creating a link *)

Lemma strings_Fields_word n : is_word n = true → strings_Fields n = [n].
Proof. intros Hn. apply (strings_Fields_Join [n]). by constructor. Qed.

Lemma parseIFName_word n : is_word n = true → parseIFName (n +:+ String newline EmptyString) = Ok n.
Proof.
  intros Hn. pose proof Hn as [Hs He]%andb_true_iff. unfold parseIFName.
  rewrite strings_Split_app by (by apply no_space_char_in). rewrite strings_Fields_word by done.
  apply negb_true_iff, bool_decide_eq_false in He. by destruct n.
Qed.

(** What ifconfig's manual says: [ifs] are the interfaces there are. *)
Class IfconfigSpec (X : Exec) (ifs : list (list string) → gset string) := {
  fs_show : ∀ log n, let cmd := ["ifconfig"; n] in
    ifs (log ++ [cmd]) = ifs log ∧
    match (exec log cmd).2 with
    | None => n ∈ ifs log ∧ ∃ i, parseIfconfigOutput (exec log cmd).1 = Ok i ∧ if_Name i = n
    | Some _ => strings_Contains (exec log cmd).1 "does not exist" = true ↔ n ∉ ifs log
    end;
  fs_create : ∀ log, let cmd := ["ifconfig"; wgIFGroup; "create"] in
    match (exec log cmd).2 with
    | None => ∃ n, is_word n = true ∧ n ∉ ifs log ∧ (exec log cmd).1 = n +:+ String newline EmptyString ∧
                   ifs (log ++ [cmd]) = {[n]} ∪ ifs log
    | Some _ => ifs (log ++ [cmd]) = ifs log
    end;
  fs_rename : ∀ log a b, let cmd := ["ifconfig"; a; "name"; b] in
    match (exec log cmd).2 with
    | None => a ∈ ifs log ∧ b ∉ ifs log ∧ (exec log cmd).1 = b +:+ String newline EmptyString ∧
              ifs (log ++ [cmd]) = {[b]} ∪ ifs log ∖ {[a]}
    | Some _ => ifs (log ++ [cmd]) = ifs log
    end;
  fs_destroy : ∀ log a, let cmd := ["ifconfig"; a; "destroy"] in
    match (exec log cmd).2 with
    | None => a ∈ ifs log ∧ ifs (log ++ [cmd]) = ifs log ∖ {[a]}
    | Some _ => ifs (log ++ [cmd]) = ifs log
    end;
  fs_errors : ∀ log cmd e, (exec log cmd).2 = Some e → errors_Is e ErrDoesNotExist = false;
  fs_named : ∀ log, EmptyString ∉ ifs log
}.

Section create.
Context {X : Exec} {ifs : list (list string) → gset string} {FS : IfconfigSpec X ifs}.

Ltac host := unfold wrap_call, lift, try, mret, ST_ret, mbind, ST_bind, call in *.

(** Whether a command fails. *)
Definition refused (log : list (list string)) (cmd : list string) : bool := bool_decide (is_Some (exec log cmd).2).
Lemma refused_eq log cmd : refused log cmd = match (exec log cmd).2 with Some _ => true | None => false end.
Proof.
  unfold refused. destruct (exec log cmd).2 as [e|]; [apply bool_decide_true; by eexists|].
  apply bool_decide_false. by intros [].
Qed.

Lemma isExist_spec name log : let cmd := ["ifconfig"; name] in
  let '(r, log') := isExist (NewLink name) log in
  log' = log ++ [cmd] ∧
  if refused log cmd && negb (strings_Contains (exec log cmd).1 "does not exist") then ∃ e, r = Err e
  else r = Ok (bool_decide (name ∈ ifs log)).
Proof.
  cbv zeta. rewrite refused_eq. unfold isExist, LinkByName, run. host. cbn [l_name NewLink].
  pose proof (fs_show log name) as Hs. cbv zeta in Hs. destruct Hs as [_ Hs].
  pose proof (fs_errors log ["ifconfig"; name]) as Hx. destruct (exec log ["ifconfig"; name]) as [out [e|]]; cbn [fst snd] in *.
  - unfold parseError. destruct (strings_Contains out "does not exist"); cbn [negb andb].
    + change (errors_Is ErrDoesNotExist ErrDoesNotExist) with true. split; [done|].
      rewrite bool_decide_false; [done|]. by apply Hs.
    + cbn [errors_Is]. rewrite (Hx e) by done. split; [done|]. by eexists.
  - destruct Hs as (Hin&i&->&Hn). cbn [andb]. rewrite Hn, bool_decide_true by done. cbn [negb].
    split; [done|]. by rewrite bool_decide_true.
Qed.

Lemma del_spec name log : let cmd := ["ifconfig"; name; "destroy"] in
  let '(r, log') := del name log in
  log' = log ++ [cmd] ∧ if refused log cmd then ∃ e, r = Err e else r = Ok tt.
Proof.
  cbv zeta. rewrite refused_eq. unfold del, run_or, run. host.
  destruct (exec log _) as [out [e|]]; cbn [snd]; (split; [done|]); [by eexists|done].
Qed.

(** What a destroyed or renamed interface leaves. *)
Lemma destroy_ifs name log : let cmd := ["ifconfig"; name; "destroy"] in
  ifs (log ++ [cmd]) = if refused log cmd then ifs log else ifs log ∖ {[name]}.
Proof.
  cbv zeta. rewrite refused_eq. pose proof (fs_destroy log name) as Hd. cbv zeta in Hd.
  destruct (exec log _).2; [done|by destruct Hd].
Qed.
Lemma destroy_nothing log : refused log ["ifconfig"; EmptyString; "destroy"] = true.
Proof.
  rewrite refused_eq. pose proof (fs_destroy log EmptyString) as Hd. cbv zeta in Hd.
  destruct (exec log _).2; [done|]. destruct Hd as [Hd _]. by apply fs_named in Hd.
Qed.

(** The interface is there under its name, or what was created stays behind
    under another. *)
Lemma Add_spec name log : is_word name = true →
  let create := ["ifconfig"; wgIFGroup; "create"] in
  let '(r, log') := Add (NewLink name) log in
  if refused log create then (∃ e, r = Err e) ∧ log' = log ++ [create] ∧ ifs log' = ifs log
  else ∃ n, n ∉ ifs log ∧ (exec log create).1 = n +:+ String newline EmptyString ∧
    let log1 := log ++ [create] in
    let rename := ["ifconfig"; n; "name"; name] in
    if decide (n = name) then r = Ok tt ∧ log' = log1 ∧ ifs log' = {[name]} ∪ ifs log
    else if refused log1 rename then (∃ e, r = Err e) ∧
      log' = log1 ++ [rename; ["ifconfig"; EmptyString; "destroy"]] ∧ ifs log' = {[n]} ∪ ifs log
    else r = Ok tt ∧ log' = log1 ++ [rename] ∧ ifs log' = {[name]} ∪ ifs log.
Proof.
  intros Hw. cbv zeta. rewrite refused_eq. unfold Add, create, run_or, run. host. cbn [l_name NewLink].
  pose proof (fs_create log) as Hc. cbv zeta in Hc.
  destruct (exec log _) as [out [e|]]; cbn [fst snd] in *; [split; [by eexists|done]|]. destruct Hc as (n&Hn&Hfresh&->&Hl).
  rewrite parseIFName_word by done. set (log1 := log ++ _) in *. clearbody log1. cbn iota beta.
  destruct (decide (n = name)) as [->|Hne].
  { rewrite bool_decide_true by done. exists name. by rewrite decide_True. }
  rewrite bool_decide_false by done. unfold rename, run_or, run. host.
  pose proof (fs_rename log1 n name) as Hr. cbv zeta in Hr. pose proof (refused_eq log1 ["ifconfig"; n; "name"; name]) as Href.
  destruct (exec log1 _) as [out [e|]]; cbn [fst snd] in *.
  - pose proof (del_spec EmptyString (log1 ++ [["ifconfig"; n; "name"; name]])) as Hd. cbv zeta in Hd.
    pose proof (destroy_ifs EmptyString (log1 ++ [["ifconfig"; n; "name"; name]])) as Hi. cbv zeta in Hi.
    rewrite destroy_nothing in Hd, Hi. destruct (del EmptyString _) as [r log2]. destruct Hd as [-> [e' ->]].
    cbn iota beta. exists n. rewrite decide_False, Href by done. do 2 (split; [done|]).
    split; [by eexists|]. rewrite Hi, Hr, Hl, <-app_assoc. done.
  - destruct Hr as (_&Hnn&->&Hr). rewrite parseIFName_word by done. cbn iota beta. exists n.
    rewrite decide_False, Href by done. do 4 (split; [done|]). rewrite Hr, Hl.
    assert (({[n]} ∪ ifs log) ∖ {[n]} = ifs log) as -> by set_solver. done.
Qed.

(** C31. [Recreate], command by command. It asks for the interface; if the answer
    is an error that does not say the interface does not exist, it fails. An
    interface that exists is destroyed first; if that fails, [Recreate] fails and
    everything is as before. Then one of the group is created and, when the
    kernel gave it another name, renamed. [Recreate] succeeds exactly when these
    commands do, and then the interface of that name exists and beside it exactly
    the others there were. When renaming fails, what was created stays behind
    under the name the kernel gave it, and the old interface is gone, because
    the command that should remove it destroys the interface with the empty
    name. *)
Theorem Recreate_spec name log : is_word name = true →
  let show := ["ifconfig"; name] in
  let destroy := ["ifconfig"; name; "destroy"] in
  let create := ["ifconfig"; wgIFGroup; "create"] in
  let there := bool_decide (name ∈ ifs log) in
  let log1 := log ++ [show] in
  let log2 := if there then log1 ++ [destroy] else log1 in
  let '(r, log') := Recreate (NewLink name) log in
  if refused log show && negb (strings_Contains (exec log show).1 "does not exist") then
    (∃ e, r = Err e) ∧ log' = log1 ∧ ifs log' = ifs log
  else if there && refused log1 destroy then (∃ e, r = Err e) ∧ log' = log2 ∧ ifs log' = ifs log
  else if refused log2 create then (∃ e, r = Err e) ∧ log' = log2 ++ [create] ∧ ifs log' = ifs log ∖ {[name]}
  else ∃ n, n ∉ ifs log ∖ {[name]} ∧ (exec log2 create).1 = n +:+ String newline EmptyString ∧
    let log3 := log2 ++ [create] in
    let rename := ["ifconfig"; n; "name"; name] in
    if decide (n = name) then r = Ok tt ∧ log' = log3 ∧ ifs log' = {[name]} ∪ ifs log
    else if refused log3 rename then (∃ e, r = Err e) ∧
      log' = log3 ++ [rename; ["ifconfig"; EmptyString; "destroy"]] ∧ ifs log' = {[n]} ∪ ifs log ∖ {[name]}
    else r = Ok tt ∧ log' = log3 ++ [rename] ∧ ifs log' = {[name]} ∪ ifs log.
Proof.
  intros Hw. cbv zeta. pose proof (isExist_spec name log) as Hx. cbv zeta in Hx.
  pose proof (fs_show log name) as [Hshow _]. cbv zeta in Hshow.
  unfold Recreate, wrap_call, mbind, ST_bind. cbn [l_name NewLink].
  destruct (isExist (NewLink name) log) as [r1 log1]. destruct Hx as [-> Hx]. cbn iota beta.
  destruct (refused log _ && _); [destruct Hx as [e ->]; split; [by eexists|done]|]. subst r1.
  set (log1 := log ++ [["ifconfig"; name]]) in *. clearbody log1. cbn iota beta.
  assert ({[name]} ∪ ifs log = {[name]} ∪ ifs log ∖ {[name]}) as Hsame.
  { apply leibniz_equiv. intros x. rewrite !elem_of_union, elem_of_difference. destruct (decide (x = name)); set_solver. }
  assert (∀ log2, ifs log2 = ifs log ∖ {[name]} → ∀ r log', Add (NewLink name) log2 = (r, log') →
    if refused log2 ["ifconfig"; wgIFGroup; "create"] then
      (∃ e, r = Err e) ∧ log' = log2 ++ [["ifconfig"; wgIFGroup; "create"]] ∧ ifs log' = ifs log ∖ {[name]}
    else ∃ n, n ∉ ifs log ∖ {[name]} ∧
      (exec log2 ["ifconfig"; wgIFGroup; "create"]).1 = n +:+ String newline EmptyString ∧
      if decide (n = name) then r = Ok tt ∧ log' = log2 ++ [["ifconfig"; wgIFGroup; "create"]] ∧ ifs log' = {[name]} ∪ ifs log
      else if refused (log2 ++ [["ifconfig"; wgIFGroup; "create"]]) ["ifconfig"; n; "name"; name] then (∃ e, r = Err e) ∧
        log' = (log2 ++ [["ifconfig"; wgIFGroup; "create"]]) ++ [["ifconfig"; n; "name"; name]; ["ifconfig"; EmptyString; "destroy"]] ∧
        ifs log' = {[n]} ∪ ifs log ∖ {[name]}
      else r = Ok tt ∧ log' = (log2 ++ [["ifconfig"; wgIFGroup; "create"]]) ++ [["ifconfig"; n; "name"; name]] ∧
        ifs log' = {[name]} ∪ ifs log) as Hadd.
  { intros log2 Hl r log' Ha. pose proof (Add_spec name log2 Hw) as Hs. cbv zeta in Hs. rewrite Ha, Hl in Hs. by rewrite Hsame. }
  destruct (decide (name ∈ ifs log)) as [Hin|Hin].
  - rewrite bool_decide_true by done. cbn [andb]. pose proof (del_spec name log1) as Hd. cbv zeta in Hd.
    pose proof (destroy_ifs name log1) as Hi. cbv zeta in Hi. rewrite Hshow in Hi.
    destruct (del name log1) as [r2 log2]. destruct Hd as [-> Hd].
    destruct (refused log1 _); [destruct Hd as [e ->]; split; [by eexists|done]|]. subst r2. cbn iota beta.
    destruct (Add _ _) as [r log'] eqn:Ha. exact (Hadd _ Hi r log' Ha).
  - rewrite bool_decide_false by done. cbn [andb]. unfold mret, ST_ret. cbn iota beta.
    destruct (Add _ log1) as [r log'] eqn:Ha. apply (Hadd log1); [rewrite Hshow; clear -Hin; set_solver|done].
Qed.
End create.

(** A machine on which renaming fails. *)
Definition ex_ifs (log : list (list string)) : gset string :=
  if bool_decide (["ifconfig"; "wg"; "create"] ∈ log) then {["wg0"]} else ∅.
Definition ex_exec : Exec := {| exec log cmd :=
  let failed := (EmptyString, Some (Errorf "exit status 1")) in
  if bool_decide (cmd = ["ifconfig"; "wg"; "create"]) then
    if bool_decide (ex_ifs log = ∅) then ("wg0" +:+ String newline EmptyString, None) else failed
  else match cmd with
       | [_; n] => if bool_decide (n ∈ ex_ifs log) then (text_of ["wg0: flags=8080<NOARP> metric 0 mtu 1420"], None)
                   else ("ifconfig: interface does not exist", Some (Errorf "exit status 1"))
       | _ => failed
       end |}.

Lemma ex_ifs_snoc log cmd : cmd ≠ ["ifconfig"; "wg"; "create"] → ex_ifs (log ++ [cmd]) = ex_ifs log.
Proof.
  intros Hc. unfold ex_ifs. f_equal. erewrite bool_decide_ext; [done|]. rewrite elem_of_app, list_elem_of_singleton. naive_solver.
Qed.

Lemma ex_ifs_elem log n : n ∈ ex_ifs log → n = "wg0".
Proof. unfold ex_ifs. destruct (bool_decide _); set_solver. Qed.

Lemma ex_ifconfig : IfconfigSpec ex_exec ex_ifs.
Proof.
  split.
  - intros log n cmd. split; [by apply ex_ifs_snoc|]. unfold cmd. cbn [exec ex_exec]. rewrite (bool_decide_false (_ = _)) by done.
    destruct (decide (n ∈ ex_ifs log)) as [Hn|Hn].
    + rewrite bool_decide_true by done. cbn [fst snd]. split; [done|]. apply ex_ifs_elem in Hn as ->.
      exists (mkIface "wg0" 1420 EmptyString []). split; [by vm_compute|done].
    + rewrite bool_decide_false by done. cbn [fst snd]. split; [done|]. by intros _.
  - intros log cmd. unfold cmd. cbn [exec ex_exec]. rewrite (bool_decide_true (_ = _)) by done. cbv zeta.
    destruct (decide (ex_ifs log = ∅)) as [He|He].
    + rewrite bool_decide_true by done. exists "wg0". rewrite He. repeat split; [set_solver|].
      unfold ex_ifs. rewrite bool_decide_true; [set_solver|]. apply elem_of_app. right. by apply list_elem_of_singleton.
    + rewrite bool_decide_false by done. cbn [snd]. unfold ex_ifs in *.
      destruct (decide (["ifconfig"; "wg"; "create"] ∈ log)) as [Hin|Hin].
      * rewrite !bool_decide_true; [done|done|]. apply elem_of_app. by left.
      * by rewrite bool_decide_false in He.
  - intros log a b cmd. unfold cmd. cbn [exec ex_exec]. rewrite bool_decide_false by done. by apply ex_ifs_snoc.
  - intros log a cmd. unfold cmd. cbn [exec ex_exec]. rewrite bool_decide_false by done. by apply ex_ifs_snoc.
  - intros log cmd e. cbn [exec ex_exec]. repeat case_match; intros [= <-]; done.
  - intros log He. by apply ex_ifs_elem in He.
Qed.

Lemma Recreate_spec_witness :
  let '(r, log') := Recreate (X := ex_exec) (NewLink "utun7") [] in
  is_ok r = false ∧ ∃ n, n ≠ "utun7" ∧ n ∈ ex_ifs log'.
Proof.
  pose proof (Recreate_spec (X := ex_exec) (ifs := ex_ifs) (FS := ex_ifconfig) "utun7" [] eq_refl) as Hr.
  cbv zeta in Hr. destruct (Recreate (X := ex_exec) (NewLink "utun7") []) as [r log'] eqn:He.
  vm_compute in He. injection He as <- <-. split; [done|]. destruct Hr as (n&_&Hn&Hr).
  apply (f_equal (λ s, strings_TrimSuffix s (String newline EmptyString))) in Hn.
  destruct (decide (n = "utun7")) as [->|Hne]; [by destruct Hr|].
  exists n. split; [exact Hne|]. destruct (refused _ _); [|by destruct Hr]. destruct Hr as (_&_&->).
  apply elem_of_union_l, elem_of_singleton. reflexivity.
Defined.
