(* ===== verification/DeviceWrapper.v ===== *)
(** * [iface/device_wrapper.go]: packet filtering on a tunnel device

    [Read] takes dropped packets out of the caller's slices in place, so the
    arrays behind them are part of the model: a slice is a length over an array,
    the buffers are numbered and their contents are in a heap. *)
From Stdlib Require Import Ascii.
From S2P Require Import Prelude.

(** [PacketFilter]: what it says about a packet. *)
Record PacketFilter := mkPF {
  DropOutgoing : list Ascii.ascii → bool;
  DropIncoming : list Ascii.ascii → bool
}.

Definition heap : Type := nat → list Ascii.ascii.

(** [buf[lo:hi]], [buf[lo:]] *)
Definition slice_of (buf : list Ascii.ascii) (lo hi : Z) : res (list Ascii.ascii) :=
  if bool_decide (0 ≤ lo ≤ hi ∧ hi ≤ Z.of_nat (length buf))%Z
  then Ok (take (Z.to_nat (hi - lo)) (drop (Z.to_nat lo) buf)) else Panic.

(** [s = append(s[:i], s[i+1:]...)] for a slice of length [len] over an array:
    what follows moves down by one, and the array keeps its last element. *)
Definition remove_at {A} (i len : nat) (arr : list A) : list A :=
  take i arr ++ drop (Datatypes.S i) (take len arr) ++ drop (len - 1) arr.

(** The tunnel device under the wrapper. *)
Class TunDevice := {
  dev_Read : heap → list nat → list Z → Z → res (nat * heap * list Z);
  dev_Write : list (list Ascii.ascii) → Z → Z * option error
}.

(** [DeviceWrapper]: the device it embeds, and the filter, which [nil] is none. *)
Record DeviceWrapper (Device : Type) := mkWrapper { dw_Device : Device; dw_filter : option PacketFilter }.
Global Arguments mkWrapper {Device} dw_Device dw_filter.
Global Arguments dw_Device {Device} d.
Global Arguments dw_filter {Device} d.
Definition newDeviceWrapper {Device : Type} (device : Device) : DeviceWrapper Device := mkWrapper device None.
Definition SetFilter {Device : Type} (filter : option PacketFilter) (d : DeviceWrapper Device) : DeviceWrapper Device :=
  mkWrapper (dw_Device d) filter.

(** What [Read] and [Write] do with the filter of the moment. *)
Section wrapper.
Context {D : TunDevice} (filter : option PacketFilter).

(** The loop of [Read]: [todo] is [n - i]. *)
Fixpoint read_loop (f : PacketFilter) (h : heap) (offset : Z) (todo i n len : nat) (bufs : list nat) (sizes : list Z) :
    res (nat * list nat * list Z) :=
  match todo with
  | O => Ok (n, bufs, sizes)
  | Datatypes.S todo =>
      b ← or_panic (take len bufs !! i);
      s ← or_panic (take len sizes !! i);
      packet ← slice_of (h b) offset (offset + s);
      if DropOutgoing f packet
      then read_loop f h offset todo i (n - 1) (len - 1) (remove_at i len bufs) (remove_at i len sizes)
      else read_loop f h offset todo (Datatypes.S i) n len bufs sizes
  end.

(** [Read(bufs, sizes, offset)] with slices over whole arrays: the count, the
    heap and the caller's arrays. *)
Definition Read (h : heap) (bufs : list nat) (sizes : list Z) (offset : Z) :
    res (nat * heap * list nat * list Z) :=
  '(n, h, sizes) ← dev_Read h bufs sizes offset;
  match filter with
  | None => Ok (n, h, bufs, sizes)
  | Some f => '(n, bufs, sizes) ← read_loop f h offset n 0 n (length bufs) bufs sizes; Ok (n, h, bufs, sizes)
  end.

Fixpoint write_loop (f : PacketFilter) (offset : Z) (bufs : list (list Ascii.ascii)) :
    res (list (list Ascii.ascii) * Z) :=
  match bufs with
  | [] => Ok ([], 0%Z)
  | buf :: bufs =>
      packet ← slice_of buf offset (Z.of_nat (length buf));
      '(kept, dropped) ← write_loop f offset bufs;
      Ok (if negb (DropIncoming f packet) then (buf :: kept, (dropped + 1)%Z) else (kept, dropped))
  end.
(** [Write(bufs, offset)]: the count comes with the device's error, if any. *)
Definition Write (bufs : list (list Ascii.ascii)) (offset : Z) : res (Z * option error) :=
  match filter with
  | None => Ok (dev_Write bufs offset)
  | Some f =>
      '(filteredBufs, dropped) ← write_loop f offset bufs;
      let '(n, err) := dev_Write filteredBufs offset in
      Ok (n + dropped, err)%Z
  end.
End wrapper.

(** ** What a read leaves in the caller's arrays *)

Lemma remove_at_app {A} (kept : list A) x rest tail junk :
  let arr := kept ++ (x :: rest) ++ tail ++ junk in
  remove_at (length kept) (length (kept ++ (x :: rest) ++ tail)) arr =
  kept ++ rest ++ tail ++ drop (length kept + length rest + length tail) arr.
Proof.
  intros arr. unfold remove_at, arr at 1. rewrite take_app_length. f_equal.
  assert (drop (Datatypes.S (length kept)) (take (length (kept ++ (x :: rest) ++ tail)) arr) = rest ++ tail) as ->.
  { unfold arr. rewrite !(app_assoc kept), !(app_assoc (kept ++ x :: rest)), take_app_length, <-app_assoc.
    change (x :: rest) with ([x] ++ rest). rewrite <-(app_assoc [x]), (app_assoc kept).
    replace (Datatypes.S (length kept)) with (length (kept ++ [x])) by (rewrite length_app; cbn [length]; lia).
    by rewrite drop_app_length. }
  rewrite <-app_assoc. do 3 f_equal. rewrite !length_app. cbn [length]. lia.
Qed.

(** The array keeps what was the last element of the slice. *)
Lemma drop_last_element {A} (kept rest tail junk : list A) x z : list.last tail = Some z →
  drop (length kept + length rest + length tail) (kept ++ (x :: rest) ++ tail ++ junk) = z :: junk.
Proof.
  intros [t ->]%last_Some. rewrite length_app. cbn [length].
  replace (kept ++ (x :: rest) ++ (t ++ [z]) ++ junk) with ((kept ++ x :: rest ++ t) ++ z :: junk)
    by (rewrite <-!app_assoc; cbn [app]; by rewrite <-!app_assoc).
  rewrite drop_app_length'; [done|]. rewrite !length_app. cbn [length]. rewrite length_app. lia.
Qed.

Section reading.
Context (f : PacketFilter) (h : heap) (offset : Z).

(** The packet of a slot. *)
Definition packet_of (bs : nat * Z) : list Ascii.ascii :=
  take (Z.to_nat bs.2) (drop (Z.to_nat offset) (h bs.1)).
Definition slot_ok (bs : nat * Z) : Prop :=
  (0 ≤ offset ∧ 0 ≤ bs.2 ∧ offset + bs.2 ≤ Z.of_nat (length (h bs.1)))%Z.
Definition kept_slots (slots : list (nat * Z)) : list (nat * Z) :=
  filter (λ bs, DropOutgoing f (packet_of bs) = false) slots.

Lemma slice_of_slot bs : slot_ok bs → slice_of (h bs.1) offset (offset + bs.2) = Ok (packet_of bs).
Proof.
  intros (?&?&?). unfold slice_of. rewrite bool_decide_true by lia.
  unfold packet_of. do 3 f_equal. lia.
Qed.

Lemma read_loop_spec slots : Forall slot_ok slots → ∀ keptb kepts tailb tails junkb junks,
  length keptb = length kepts → length tailb = length tails →
  ∃ jb js,
    read_loop f h offset (length slots) (length keptb) (length keptb + length slots)
      (length (keptb ++ (slots.*1) ++ tailb)) (keptb ++ slots.*1 ++ tailb ++ junkb) (kepts ++ slots.*2 ++ tails ++ junks) =
    Ok (length keptb + length (kept_slots slots),
        keptb ++ (kept_slots slots).*1 ++ tailb ++ jb, kepts ++ (kept_slots slots).*2 ++ tails ++ js) ∧
    ∀ z, list.last tailb = Some z → jb = replicate (length slots - length (kept_slots slots)) z ++ junkb.
Proof.
  induction 1 as [|[b s] slots Hok Hslots IH]; intros keptb kepts tailb tails junkb junks Hk Ht.
  { cbn [kept_slots fmap list_fmap app read_loop length]. rewrite !Nat.add_0_r. eexists _, _. split; [done|]. by intros z _. }
  cbn [length fmap list_fmap fst snd read_loop].
  assert (∀ A (k : list A) x r t j, length k = length keptb → length (k ++ (x :: r) ++ t) = length (keptb ++ (b :: slots.*1) ++ tailb) →
    take (length (keptb ++ (b :: slots.*1) ++ tailb)) (k ++ (x :: r) ++ t ++ j) !! length keptb = Some x) as Hlk.
  { intros A k x r t j Hl Hlen. rewrite lookup_take, decide_True by (rewrite !length_app; cbn [length]; lia).
    rewrite lookup_app_r by lia. by rewrite Hl, Nat.sub_diag. }
  assert (length (kepts ++ (s :: slots.*2) ++ tails) = length (keptb ++ (b :: slots.*1) ++ tailb)) as Hlen.
  { rewrite !length_app. cbn [length]. rewrite !length_fmap. lia. }
  rewrite (Hlk _ keptb b) by done. rewrite (Hlk _ kepts s) by done. cbn [or_panic mbind res_bind].
  pose proof (slice_of_slot (b, s) Hok) as Hsl. cbn [fst snd] in Hsl. rewrite Hsl. cbn [mbind res_bind]. unfold kept_slots at 1 2 3 4. rewrite !filter_cons. cbn [fst snd].
  destruct (DropOutgoing f (packet_of (b, s))) eqn:Hd; cbn [decide bool_eq_dec].
  - replace (length keptb + Datatypes.S (length slots) - 1) with (length keptb + length slots) by lia.
    pose proof (remove_at_app keptb b (slots.*1) tailb junkb) as Hrb. cbv zeta in Hrb. rewrite Hrb.
    pose proof (remove_at_app kepts s (slots.*2) tails junks) as Hrs. cbv zeta in Hrs. rewrite Hlen in Hrs.
    rewrite <-Hk in Hrs. rewrite Hrs. clear Hrb Hrs.
    replace (length (keptb ++ (b :: slots.*1) ++ tailb) - 1) with (length (keptb ++ slots.*1 ++ tailb))
      by (rewrite !length_app; cbn [length]; lia).
    edestruct (IH keptb kepts tailb tails) as (jb&js&->&Hj); [done..|].
    rewrite decide_False by done. eexists _, _. split; [done|]. intros z Hz.
    rewrite (Hj z Hz), drop_last_element with (z := z) by done.
    pose proof (length_filter (λ bs, DropOutgoing f (packet_of bs) = false) slots) as Hle.
    fold (kept_slots slots) in *. replace (Datatypes.S (length slots) - length (kept_slots slots))
      with (Datatypes.S (length slots - length (kept_slots slots))) by lia.
    change (z :: junkb) with ([z] ++ junkb). by rewrite app_assoc, <-replicate_S_end.
  - rewrite decide_True by done.
    destruct (IH (keptb ++ [b]) (kepts ++ [s]) tailb tails junkb junks) as (jb&js&Hr&Hj);
      [by rewrite !length_app, Hk|done|].
    cbn [length fmap list_fmap fst snd]. rewrite !length_app, <-!app_assoc in Hr. cbn [length app] in Hr |- *.
    fold (kept_slots slots).
    replace (Datatypes.S (length keptb)) with (length keptb + 1) by lia.
    replace (length keptb + Datatypes.S (length slots)) with (length keptb + 1 + length slots) by lia.
    replace (length (keptb ++ b :: slots.*1 ++ tailb)) with (length keptb + 1 + (length (slots.*1) + length tailb))
      by (rewrite length_app; cbn [length]; rewrite length_app; lia).
    rewrite Hr. eexists _, _. split; [|exact Hj]. do 3 f_equal. lia.
Qed.
End reading.

Lemma write_loop_spec f offset bufs : Forall (λ b : list Ascii.ascii, 0 ≤ offset ≤ Z.of_nat (length b))%Z bufs →
  let kept := filter (λ b, DropIncoming f (drop (Z.to_nat offset) b) = false) bufs in
  write_loop f offset bufs = Ok (kept, Z.of_nat (length kept)).
Proof.
  induction 1 as [|b bufs Hb _ IH]; [done|]. cbv zeta in IH |- *. cbn [write_loop].
  assert (slice_of b offset (Z.of_nat (length b)) = Ok (drop (Z.to_nat offset) b)) as ->.
  { unfold slice_of. rewrite bool_decide_true by lia. rewrite take_ge; [done|]. rewrite length_drop. lia. }
  cbn [mbind res_bind]. rewrite IH. cbn [mbind res_bind]. rewrite filter_cons.
  destruct (DropIncoming f (drop (Z.to_nat offset) b)); cbn [negb].
  - by rewrite decide_False.
  - rewrite decide_True by done. cbn [length]. do 2 f_equal. lia.
Qed.

(** C32. A filtered read hands over exactly the packets the filter does not drop,
    in order, with their sizes, in the first slots of the caller's arrays. But
    the arrays are shifted for good: the slots behind the batch come next, and
    when there are any, every dropped packet leaves one more copy of the last
    slot, so that two slots share a buffer. A filtered write passes on exactly the
    packets that are not dropped and hands back the device's error, if any, but
    adds to the device's count the number it passed on, not the number it
    dropped. *)
Theorem wrapper_filters {D : TunDevice} f h bufs sizes offset slots h' sizes' rest rests :
  dev_Read h bufs sizes offset = Ok (length slots, h', sizes') →
  bufs = slots.*1 ++ rest → sizes' = slots.*2 ++ rests → length rests = length rest →
  Forall (slot_ok h' offset) slots →
  let kept := kept_slots f h' offset slots in
  (∃ n bufs' sizes'',
    Read (Some f) h bufs sizes offset = Ok (n, h', bufs', sizes'') ∧
    n = length kept ∧ take n bufs' = kept.*1 ∧ take n sizes'' = kept.*2 ∧
    ∀ z, list.last rest = Some z →
      bufs' = kept.*1 ++ rest ++ replicate (length slots - length kept) z ∧
      (length kept < length slots → ¬ NoDup bufs')) ∧
  ∀ packets, Forall (λ b : list Ascii.ascii, 0 ≤ offset ≤ Z.of_nat (length b))%Z packets →
    let passed := filter (λ b, DropIncoming f (drop (Z.to_nat offset) b) = false) packets in
    let '(n, err) := dev_Write passed offset in
    Write (Some f) packets offset = Ok (n + Z.of_nat (length passed), err)%Z.
Proof.
  intros Hd -> -> Hl Hok kept. split.
  2: { intros packets Hp passed. unfold Write. rewrite write_loop_spec by done. fold passed. cbn [mbind res_bind].
       by destruct (dev_Write passed offset) as [n err]. }
  unfold Read. rewrite Hd. cbn [mbind res_bind].
  destruct (read_loop_spec f h' offset slots Hok [] [] rest rests [] []) as (jb&js&Hr&Hj); [done..|].
  cbn [app length Nat.add] in Hr. rewrite !app_nil_r in Hr. rewrite Hr. cbn [mbind res_bind].
  eexists _, _, _. split; [done|]. fold kept. split; [done|].
  assert (∀ A (l l' : list A), length kept = length l → take (length kept) (l ++ l') = l) as Ht.
  { intros A l l' ->. apply take_app_length. }
  split; [apply Ht; by rewrite length_fmap|]. split; [apply Ht; by rewrite length_fmap|].
  intros z Hz. pose proof (Hj z Hz) as ->. fold kept. rewrite app_nil_r. split; [done|].
  intros Hlt Hnd. apply list.NoDup_app in Hnd as (_&_&Hnd). apply list.NoDup_app in Hnd as (_&Hnd&_).
  apply last_Some in Hz as [t ->]. apply (Hnd z); [set_solver|].
  destruct (length slots - length kept) as [|k] eqn:Hk; [lia|]. cbn [replicate]. left.
Qed.

(** Two packets read into a batch of three; the first is dropped. *)
Definition ex_dev : TunDevice := {|
  dev_Read h bufs sizes offset := Ok (2, λ b, replicate 8 (if decide (b = 0) then "d"%char else "k"%char), [4; 6; 0]%Z);
  dev_Write packets _ := (Z.of_nat (length packets), None)
|}.
Definition ex_filter : PacketFilter := mkPF (λ p, bool_decide (head p = Some "d"%char)) (λ p, bool_decide (head p = Some "d"%char)).

Lemma wrapper_filters_witness :
  (∃ bufs', (∃ n h' sizes', Read (D := ex_dev) (Some ex_filter) (λ _, []) [0; 1; 2] [0; 0; 0]%Z 0 = Ok (n, h', bufs', sizes') ∧ n = 1) ∧
    bufs' = [1; 2; 2] ∧ ¬ NoDup bufs') ∧
  Write (D := ex_dev) (Some ex_filter) [["k"%char]; ["d"%char]] 0 = Ok (2%Z, None).
Proof.
  destruct (wrapper_filters (D := ex_dev) ex_filter (λ _, []) [0; 1; 2] [0; 0; 0]%Z 0 [(0, 4%Z); (1, 6%Z)]
    (λ b, replicate 8 (if decide (b = 0) then "d"%char else "k"%char)) [4; 6; 0]%Z [2] [0%Z] eq_refl eq_refl eq_refl eq_refl)
    as [(n&bufs'&sizes'&Hr&Hn&_&_&Hb) Hw].
  - repeat constructor; vm_compute; discriminate.
  - destruct (Hb 2 eq_refl) as [Hb1 Hb2]. split.
    + exists bufs'. split; [|split].
      * exists n, (λ b, replicate 8 (if decide (b = 0) then "d"%char else "k"%char)), sizes'. split; [exact Hr|exact Hn].
      * rewrite Hb1. reflexivity.
      * apply Hb2. apply (bool_decide_unpack _). vm_compute. exact I.
    + apply (Hw [["k"%char]; ["d"%char]]). repeat constructor; vm_compute; discriminate.
Defined.
