(* ===== verification/Servers.v ===== *)
(** * [iface/netstack/proxy.go], [dialer.go], [iface/uapi.go]: what the client serves

    The SOCKS5 proxy in front of the network stack, whose accept loop runs in a
    goroutine while others call [Close], as a step relation; and the socket by
    which tools configure a userspace device. Listeners and connections are the
    host's: [Accept] returns a connection of an open listener or an error, and of
    a closed listener only an error. *)
From S2P Require Import Prelude Host GoStrings.

(** ** The SOCKS5 proxy *)

(** [NSDialer]: the network stack's dialer, the context being ignored. *)
Definition NSDialer_Dial {C} (net_Dial : string → string → res C) (network addr : string) : res C :=
  net_Dial network addr.

(** The loop of [ListenAndServe], and a [Close] after its test for a listener. *)
Inductive serve_pc := S_start | S_accepting | S_done (r : res unit).
Inductive proxy_close_pc := PC_closing | PC_done (r : res unit).

(** [Proxy]: a listener, once there is one, is open or not; [px_serving] are the
    connections given to a goroutine each. *)
Record Proxy := mkProxy {
  px_listener : option bool;
  px_closed : bool;
  px_loop : serve_pc;
  px_closers : gmap nat proxy_close_pc;
  px_serving : list nat
}.
Definition NewSocks5 : Proxy := mkProxy None false S_start ∅ [].

Definition err_closed : error := Sentinel "use of closed network connection".

(** An error of [Accept] ends the loop; it is not one after [Close]. *)
Definition accept_failed (closed : bool) (e : error) : res unit := if closed then Ok tt else Err e.

Inductive proxy_step : Proxy → Proxy → Prop :=
| pr_listen p : px_loop p = S_start →
    proxy_step p (mkProxy (Some true) (px_closed p) S_accepting (px_closers p) (px_serving p))
| pr_no_listen p e : px_loop p = S_start →
    proxy_step p (mkProxy (px_listener p) (px_closed p) (S_done (Err e)) (px_closers p) (px_serving p))
| pr_accept p c : px_loop p = S_accepting → px_listener p = Some true →
    proxy_step p (mkProxy (px_listener p) (px_closed p) (px_loop p) (px_closers p) (px_serving p ++ [c]))
| pr_accept_error p e : px_loop p = S_accepting →
    proxy_step p (mkProxy (px_listener p) (px_closed p) (S_done (accept_failed (px_closed p) e)) (px_closers p) (px_serving p))
| pr_close p t : px_closers p !! t = None →
    proxy_step p (match px_listener p with
                  | None => mkProxy None (px_closed p) (px_loop p) (<[t := PC_done (Ok tt)]> (px_closers p)) (px_serving p)
                  | Some o => mkProxy (Some o) true (px_loop p) (<[t := PC_closing]> (px_closers p)) (px_serving p)
                  end)
| pr_close_listener p t o : px_closers p !! t = Some PC_closing → px_listener p = Some o →
    proxy_step p (mkProxy (Some false) (px_closed p) (px_loop p)
      (<[t := PC_done (if o : bool then Ok tt else Err err_closed)]> (px_closers p)) (px_serving p)).

(** The flag is set before the listener is closed; the loop that ended quietly
    was told to; who has closed has closed it, or came before it was there. *)
Record proxy_inv (p : Proxy) : Prop := {
  pi_start : px_loop p = S_start → px_listener p = None;
  pi_closed : px_listener p = Some false → px_closed p = true;
  pi_closing : ∀ t, px_closers p !! t = Some PC_closing → px_closed p = true ∧ is_Some (px_listener p);
  pi_quiet : px_loop p = S_done (Ok tt) → px_closed p = true;
  pi_flag : px_closed p = true → is_Some (px_listener p)
}.

Lemma proxy_inv_step p p' : proxy_inv p → proxy_step p p' → proxy_inv p'.
Proof.
  intros [Hs Hc Hcl Hq Hf] Hstep. destruct Hstep as [p Hl|p e Hl|p c Hl Ho|p e Hl|p t Ht|p t o Ht Ho].
  - split; cbn; try done. intros t Ht. by destruct (Hcl t Ht).
  - split; cbn; [done|done|done|done|done].
  - split; cbn; done.
  - split; cbn; [done|done|done| |done]. intros [= Hr]. revert Hr. unfold accept_failed. by destruct (px_closed p).
  - destruct (px_listener p) as [o|] eqn:Hlis; split; cbn; try done.
    intros u. rewrite lookup_insert. case_decide; [done|apply Hcl].
  - destruct (Hcl t Ht) as [Hc1 _]. split; cbn; try done.
    + intros Hl. specialize (Hs Hl). congruence.
Qed.
Lemma proxy_inv_start : proxy_inv NewSocks5.
Proof. split; cbn; try done. Qed.

(** A closed listener stays closed, and nothing more is served. *)
Definition shut (p0 p : Proxy) : Prop :=
  proxy_inv p ∧ px_listener p = Some false ∧ px_serving p = px_serving p0 ∧
  (px_loop p = px_loop p0 ∨ px_loop p = S_done (Ok tt)).

Lemma shut_step p0 p p' : shut p0 p → proxy_step p p' → shut p0 p'.
Proof.
  intros (Hi&Hl&Hs&Hloop) Hstep. split; [by eapply proxy_inv_step|]. pose proof (pi_closed p Hi Hl) as Hc.
  pose proof (pi_start p Hi) as Hstart.
  destruct Hstep as [p Hp|p e Hp|p c Hp Ho|p e Hp|p t Ht|p t o Ht Ho]; cbn.
  - specialize (Hstart Hp). congruence.
  - specialize (Hstart Hp). congruence.
  - congruence.
  - rewrite Hc. auto.
  - rewrite Hl. cbn. auto.
  - auto.
Qed.

(** [ListenAndServe] returns nil only when [Close] was called on a proxy that
    listened. Once a [Close] has closed the listener no connection is served
    any more, whatever goroutines do, and the loop can end at once, and only
    with nil. But a [Close] that comes before the goroutine has made the
    listener, as [NetStackTun.Create] does not wait for it, returns nil and is
    forgotten: the proxy then listens and serves as if it had never been
    called. *)
Lemma close_ends_serving p :
  rtc proxy_step NewSocks5 p →
  (px_loop p = S_done (Ok tt) → px_closed p = true ∧ is_Some (px_listener p)) ∧
  (px_listener p = Some false →
    (∀ p', rtc proxy_step p p' → px_serving p' = px_serving p ∧
       (px_loop p' = px_loop p ∨ px_loop p' = S_done (Ok tt))) ∧
    (px_loop p = S_accepting → ∃ p', proxy_step p p' ∧ px_loop p' = S_done (Ok tt))) ∧
  (px_loop p = S_start → ∀ t c, px_closers p !! t = None →
    ∃ p', rtc proxy_step p p' ∧ px_closers p' !! t = Some (PC_done (Ok tt)) ∧
      px_loop p' = S_accepting ∧ px_listener p' = Some true ∧ px_closed p' = false ∧ c ∈ px_serving p').
Proof.
  intros Hr. assert (proxy_inv p) as Hi by (apply (rtc_invariant proxy_step proxy_inv proxy_inv_step _ _ Hr), proxy_inv_start).
  split; [|split].
  - intros Hq. pose proof (pi_quiet p Hi Hq). split; [done|by apply pi_flag].
  - intros Hl. split.
    + intros p' Hr'. destruct (rtc_invariant proxy_step (shut p) (shut_step p) _ _ Hr') as (_&_&?&?); [|done].
      split; [done|]. split; [done|]. auto.
    + intros Ha. eexists. split; [apply (pr_accept_error p err_closed Ha)|]. cbn. by rewrite (pi_closed p Hi Hl).
  - intros Hs t c Ht. pose proof (pi_start p Hi Hs) as Hl.
    assert (px_closed p = false) as Hc.
    { destruct (px_closed p) eqn:Hc; [|done]. destruct (pi_flag p Hi Hc). congruence. }
    eexists. split; [|split_and!].
    + eapply rtc_l; [apply (pr_close p t Ht)|]. rewrite Hl. eapply rtc_l; [by apply pr_listen|]. cbn.
      apply rtc_once, (pr_accept _ c); done.
    + cbn. apply lookup_insert_eq.
    + done.
    + done.
    + done.
    + cbn. set_solver.
Qed.

(** A [Close] before the goroutine runs, and a connection after it. *)
Lemma close_ends_serving_witness :
  rtc proxy_step NewSocks5 NewSocks5 ∧
  ∃ p, rtc proxy_step NewSocks5 p ∧ px_closers p !! 0 = Some (PC_done (Ok tt)) ∧ 7 ∈ px_serving p.
Proof.
  split; [apply rtc_refl|].
  destruct (close_ends_serving NewSocks5 (rtc_refl _ _)) as (_&_&Hl).
  destruct (Hl eq_refl 0 7 eq_refl) as (p&Hr&Hc&_&_&_&Hin). exists p. split; [exact Hr|]. split; [exact Hc|exact Hin].
Defined.

(** ** The UAPI socket of a userspace device *)

Inductive uapi_event :=
| EvUAPIOpen (deviceName : string)
| EvUAPIListen (deviceName : string) (file : option nat)
| EvListenerClose (l : nat)
| EvStat (path : string)
| EvRemove (path : string).

Class UapiHost := {
  uh_GOOS : string;
  uh_UAPIOpen : list uapi_event → string → res nat;
  uh_UAPIListen : list uapi_event → string → option nat → res nat;
  uh_Close : list uapi_event → nat → res unit;
  uh_Stat : list uapi_event → string → res unit;
  uh_Remove : list uapi_event → string → res unit
}.

Section uapi.
Context {U : UapiHost}.

(** [openUAPI(deviceName)]: Windows has a pipe and no socket to open first. *)
Definition openUAPI_windows (deviceName : string) : Host uapi_event nat :=
  call (EvUAPIListen deviceName None) (λ log, uh_UAPIListen log deviceName None).
Definition openUAPI (deviceName : string) : Host uapi_event nat :=
  if bool_decide (uh_GOOS = "windows") then openUAPI_windows deviceName
  else
    uapiSock ← call (EvUAPIOpen deviceName) (λ log, uh_UAPIOpen log deviceName);
    call (EvUAPIListen deviceName (Some uapiSock)) (λ log, uh_UAPIListen log deviceName (Some uapiSock)).

(** [startUAPI()]: without a listener the device works all the same. *)
Definition startUAPI (deviceName : string) : Host uapi_event (option nat) :=
  r ← try (openUAPI deviceName);
  mret (match r with inl l => Some l | inr _ => None end).

(** Its goroutine: each connection is handled by another, the first error of
    [Accept] ends it. *)
Fixpoint uapi_handled (accepts : list (nat + error)) : list nat :=
  match accepts with
  | inl uapiConn :: accepts => uapiConn :: uapi_handled accepts
  | _ => []
  end.

(** [close()]: on Linux the socket's file is removed. *)
Definition sockPath (deviceName : string) : string := "/var/run/wireguard/" +:+ deviceName +:+ ".sock".
Definition close_listener (uapiListener : option nat) : Host uapi_event unit :=
  match uapiListener with
  | Some l => _ ← try (call (EvListenerClose l) (λ log, uh_Close log l)); mret tt
  | None => mret tt
  end.
Definition uapi_close (uapiListener : option nat) (deviceName : string) : Host uapi_event unit :=
  _ ← close_listener uapiListener;
  if bool_decide (uh_GOOS = "linux") then
    r ← try (call (EvStat (sockPath deviceName)) (λ log, uh_Stat log (sockPath deviceName)));
    match r with
    | inl _ => _ ← try (call (EvRemove (sockPath deviceName)) (λ log, uh_Remove log (sockPath deviceName))); mret tt
    | inr _ => mret tt
    end
  else mret tt.

(** Closing never fails, and closes exactly the listener there is. *)
Definition closed_events (l : option nat) : list uapi_event :=
  match l with Some l => [EvListenerClose l] | None => [] end.
Lemma close_listener_log l log : (∀ log l, uh_Close log l ≠ Panic) →
  close_listener l log = (Ok tt, log ++ closed_events l).
Proof.
  intros Hc. destruct l as [l|]; cbn; [|by rewrite app_nil_r]. unfold try, call, mret, ST_ret, mbind, ST_bind.
  pose proof (Hc log l). by destruct (uh_Close log l).
Qed.
Lemma uapi_close_log l deviceName log :
  (∀ log l, uh_Close log l ≠ Panic) → (∀ log p, uh_Stat log p ≠ Panic) → (∀ log p, uh_Remove log p ≠ Panic) →
  uapi_close l deviceName log = (Ok tt, log ++ closed_events l ++
    if decide (uh_GOOS = "linux") then
      EvStat (sockPath deviceName) ::
        (if is_ok (uh_Stat (log ++ closed_events l) (sockPath deviceName)) then [EvRemove (sockPath deviceName)] else [])
    else []).
Proof.
  intros Hc Hs Hr. unfold uapi_close, mbind, ST_bind at 1. rewrite close_listener_log by done.
  destruct (decide (uh_GOOS = "linux")) as [Hl|Hl];
    [rewrite bool_decide_true by done|by rewrite bool_decide_false, !app_nil_r by done].
  unfold try, call, mret, ST_ret, ST_bind. pose proof (Hs (log ++ closed_events l) (sockPath deviceName)).
  destruct (uh_Stat (log ++ closed_events l) (sockPath deviceName)) as [[]|e|]; [| |done]; cbn [is_ok];
    [|by rewrite <-app_assoc].
  match goal with |- context [uh_Remove ?x ?y] => pose proof (Hr x y); destruct (uh_Remove x y) end; [..|done];
    by rewrite <-!app_assoc.
Qed.
End uapi.
