(* ===== verification/Tun.v ===== *)
(** * [iface/tun_*.go], [iface/netstack/], [iface/iface*.go]: tunnel devices

    A WireGuard interface over one of three tunnel devices: the kernel's, a
    wireguard-go device on a tun interface, or one on a network stack in the
    process. What each opens and closes is tracked as the set of resources the
    host holds for it. Any call on the host may fail, as the oracle [fault]
    says; what a closing call does is up to [close_fault]. *)
From Stdlib Require Import Ascii.
From S2P Require Import Prelude Host GoStrings GoNet GoCIDR NetEnv KernelModules DeviceWrapper.

(** ** What the host holds *)

Inductive resource :=
| RTun            (** a tun interface, which is a link too *)
| RNetTun         (** a device of the network stack in the process *)
| RDevice         (** a wireguard-go device and its routines *)
| RBind           (** the sockets of its bind *)
| RUapiSock       (** a socket for them that was opened and never listened on *)
| RUapi           (** the listener for configuration requests *)
| RRawSocket      (** the shared raw socket *)
| RMux            (** the UDP mux *)
| RReader         (** the goroutine of [ReadFromConn] *)
| RProxy          (** the listener of the SOCKS5 proxy *)
| RFd.            (** the descriptor of a tun interface, not yet made a device *)

Global Instance resource_eq_dec : EqDecision resource.
Proof. solve_decision. Defined.
Definition resource_code (r : resource) : nat :=
  match r with RTun => 0 | RNetTun => 1 | RDevice => 2 | RBind => 3 | RUapi => 4
             | RRawSocket => 5 | RMux => 6 | RReader => 7 | RProxy => 8 | RFd => 9 | RUapiSock => 10 end.
Definition resource_decode (n : nat) : option resource :=
  [RTun; RNetTun; RDevice; RBind; RUapi; RRawSocket; RMux; RReader; RProxy; RFd; RUapiSock] !! n.
Global Program Instance resource_countable : Countable resource :=
  inj_countable resource_code resource_decode _.
Next Obligation. by intros []. Qed.

(** The link of the interface's name, if there is one. *)
Record link := mkLinkState { ln_addrs : list string; ln_mtu : Z; ln_up : bool }.
Definition fresh_link (mtu : Z) : link := mkLinkState [] mtu false.

Record host := mkHost { hs_link : option link; hs_held : gset resource; hs_calls : nat }.
Definition set_link (l : option link) (h : host) : host := mkHost l (hs_held h) (hs_calls h).
Definition hold (rs : gset resource) (h : host) : host := mkHost (hs_link h) (rs ∪ hs_held h) (hs_calls h).
Definition release (rs : gset resource) (h : host) : host := mkHost (hs_link h) (hs_held h ∖ rs) (hs_calls h).

Class TunEnv := {
  fault : nat → option error;
  close_fault : nat → option error;
  has_ipv4 : bool;                          (** the bind can listen on IPv4 *)
  auto_addrs : nat → list string;           (** what the kernel adds to a link by itself *)
  ParseAddr : string → res string           (** [netlink.ParseAddr] *)
}.

(** A call that the oracle may make fail, and then does nothing. *)
Definition faulty {A} (oracle : nat → option error) (f : host → res A * host) : ST host A := λ h,
  let h' := mkHost (hs_link h) (hs_held h) (Datatypes.S (hs_calls h)) in
  match oracle (hs_calls h) with
  | Some e => (Err e, h')
  | None => f h'
  end.

Section host.
Context {T : TunEnv}.
Definition sys {A} (f : host → res A * host) : ST host A := faulty fault f.
Definition acquire (rs : gset resource) : ST host unit := sys (λ h, (Ok tt, hold rs h)).
Definition close_call (f : host → res unit * host) : ST host unit := faulty close_fault f.
Definition nothing : ST host unit := sys (λ h, (Ok tt, h)).
End host.

(** ** Links *)

Class WgLink := {
  link_recreate : ST host unit;
  link_Close : ST host unit;
  link_setMTU : Z → ST host unit;
  link_up : ST host unit;
  link_assignAddr : WGAddress → ST host unit
}.

(** [iface/tun_link_linux.go], over netlink. *)
Definition LinkNotFoundError : error := Sentinel "Link not found".
Definition EEXIST : error := Sentinel "file exists".
Definition os_IsExist (e : error) : bool := errors_Is e EEXIST.

Section linux.
Context {T : TunEnv}.

Definition netlink_LinkByName : ST host unit :=
  sys (λ h, match hs_link h with Some _ => (Ok tt, h) | None => (Err LinkNotFoundError, h) end).
Definition LinkDel (oracle : nat → option error) : ST host unit :=
  faulty oracle (λ h, match hs_link h with
                      | Some _ => (Ok tt, set_link None h)
                      | None => (Err LinkNotFoundError, h)
                      end).
Definition LinkAdd : ST host unit :=
  sys (λ h, match hs_link h with
            | Some _ => (Err EEXIST, h)
            | None => (Ok tt, set_link (Some (fresh_link 0)) h)
            end).
(** A call that changes the link. *)
Definition on_link {A} (f : link → res (A * link)) : ST host A :=
  sys (λ h, match hs_link h with
            | None => (Err LinkNotFoundError, h)
            | Some l => match f l with
                        | Ok (a, l) => (Ok a, set_link (Some l) h)
                        | Err e => (Err e, h)
                        | Panic => (Panic, h)
                        end
            end).
Definition AddrList : ST host (list string) := on_link (λ l, Ok (ln_addrs l, l)).
Definition AddrDel (a : string) : ST host unit :=
  on_link (λ l, Ok (tt, mkLinkState (filter (λ x, x ≠ a) (ln_addrs l)) (ln_mtu l) (ln_up l))).
Definition AddrAdd (a : string) : ST host unit :=
  on_link (λ l, if bool_decide (a ∈ ln_addrs l) then Err EEXIST
                else Ok (tt, mkLinkState (ln_addrs l ++ [a]) (ln_mtu l) (ln_up l))).
(** The kernel gives a link that is up addresses of its own, such as a link-local
    one, when it is brought up and when its MTU changes. *)
Definition with_auto (autos : list string) (l : link) : link :=
  if ln_up l then mkLinkState (ln_addrs l ++ filter (λ a, a ∉ ln_addrs l) autos) (ln_mtu l) true else l.
Definition LinkSetUp : ST host unit := λ h,
  on_link (λ l, Ok (tt, with_auto (auto_addrs (hs_calls h)) (mkLinkState (ln_addrs l) (ln_mtu l) true))) h.
Definition LinkSetMTU (mtu : Z) : ST host unit := λ h,
  on_link (λ l, Ok (tt, with_auto (auto_addrs (hs_calls h)) (mkLinkState (ln_addrs l) mtu (ln_up l)))) h.

(** [if os.IsExist(err) { log } else if err != nil { return ... }] *)
Definition unless_exists (pre : string) (m : ST host unit) : ST host unit :=
  r ← try m;
  match r with
  | inl _ => mret tt
  | inr e => if os_IsExist e then mret tt else lift (Err (Wrapf pre e EmptyString))
  end.

Definition linux_recreate : ST host unit :=
  found ← try netlink_LinkByName;
  _ ← match found with
      | inl _ => LinkDel fault
      | inr e => if errors_Is e LinkNotFoundError then mret tt else lift (Err (Wrapf "link by name: " e EmptyString))
      end;
  unless_exists "link add: " LinkAdd.

Fixpoint del_addrs (l : list string) : ST host unit :=
  match l with
  | [] => mret tt
  | a :: l => _ ← wrap_call "del addr: " (AddrDel a); del_addrs l
  end.
Definition linux_assignAddr (address : WGAddress) : ST host unit :=
  l ← wrap_call "list addr: " AddrList;
  _ ← del_addrs l;
  addr ← wrap_call "parse addr: " (lift (ParseAddr (WGAddress_String address)));
  _ ← unless_exists "add addr: " (AddrAdd addr);
  wrap_call "link setup: " LinkSetUp.

#[global] Instance linux_link : WgLink := {|
  link_recreate := linux_recreate;
  link_Close := LinkDel close_fault;
  link_setMTU mtu := wrap_call "link set mtu: " (LinkSetMTU mtu);
  link_up := wrap_call "link setup: " LinkSetUp;
  link_assignAddr := linux_assignAddr
|}.
End linux.

(** ** wireguard-go *)

Section wireguard.
Context {T : TunEnv}.

(** [tun.CreateTUN(name, mtu)]: not over a link of that name. *)
Definition CreateTUN (mtu : Z) : ST host unit :=
  sys (λ h, match hs_link h with
            | Some _ => (Err (Errorf "device or resource busy"), h)
            | None => (Ok tt, hold {[RTun]} (set_link (Some (fresh_link mtu)) h))
            end).
Definition NewDevice : ST host unit := modify (hold {[RDevice]}).
(** [device.Up()] opens the bind, which makes the mux over its IPv4 socket. *)
Definition device_Up : ST host unit :=
  sys (λ h, (Ok tt, hold (if has_ipv4 then {[RBind; RMux]} else {[RBind]}) h)).
(** [device.Close()] closes the bind and the tunnel device under it. *)
Definition device_Close : ST host unit :=
  modify (λ h, release {[RDevice; RBind; RTun; RNetTun]}
    (if bool_decide (RTun ∈ hs_held h) then set_link None h else h)).
(** [iceBind.GetICEMux()] *)
Definition GetICEMux_call : ST host unit := λ h,
  (if bool_decide (RMux ∈ hs_held h) then Ok tt else Err (Errorf "ICEBind has not been initialized yet"), h).
(** [udpMux.Close()] closes its socket as well, the error of which it drops. The
    reader ends: the context is done, and a read of the socket returns, however
    closing it went. *)
Definition mux_Close : ST host unit :=
  _ ← modify (release {[RMux; RReader]});
  _ ← try (close_call (λ h, (Ok tt, release {[RRawSocket]} h)));
  mret tt.

(** [openUAPI(deviceName)]: the socket is opened, and then listened on, which
    makes it the listener's; when that fails nothing closes it. On Windows there
    is only the listening. *)
Definition UAPIOpen : ST host unit := nothing.
Definition UAPIListen : ST host unit := acquire {[RUapi]}.
Definition openUAPI : ST host unit :=
  _ ← UAPIOpen;
  undo_on_error (modify (hold {[RUapiSock]})) UAPIListen.
Definition windows_openUAPI : ST host unit := UAPIListen.

(** [newWGUSPConfigurer] and its [startUAPI]: an error of the listener is only
    logged, and the configurer has none. What is returned is whether it has
    one, which [close] closes. *)
Definition newWGUSPConfigurer (openUAPI : ST host unit) : ST host bool :=
  l ← try openUAPI; mret (match l with inl _ => true | inr _ => false end).
Definition configurer_close (listener : bool) : ST host unit :=
  if listener then _ ← try (close_call (λ h, (Ok tt, release {[RUapi]} h))); mret tt else mret tt.
(** [configureInterface(key, port)] *)
Definition configure_call (key : string) (port : Z) : ST host unit := nothing.
End wireguard.

(** Steps of a device work on its fields and on the host. *)
Definition on_host {D A} (m : ST host A) : ST (D * host) A := λ '(d, h), let '(r, h) := m h in (r, (d, h)).
Definition fields {D} : ST (D * host) D := gets fst.
Definition set_fields {D} (f : D → D) : ST (D * host) unit := modify (λ '(d, h), (f d, h)).

(** ** The three devices *)

Section devices.
Context {T : TunEnv} {L : WgLink} {Filter : Type}.

(** The fields all three have. *)
Record params := mkParams {
  p_name : string; p_address : WGAddress; p_port : Z; p_key : string; p_mtu : Z; p_filter : option Filter
}.
Definition set_address (a : WGAddress) (p : params) : params :=
  mkParams (p_name p) a (p_port p) (p_key p) (p_mtu p) (p_filter p).

(** [tunKernelDevice] *)
Record tunKernelDevice := mkKernel { k_params : params; k_link : bool; k_udpMux : bool }.
Definition newTunDevice (name : string) (address : WGAddress) (wgPort : Z) (key : string) (mtu : Z) : tunKernelDevice :=
  mkKernel (mkParams name address wgPort key mtu None) false false.

(** [t.link.assignAddr(t.address)]: there must be a link. *)
Definition k_assignAddr : ST (tunKernelDevice * host) unit :=
  d ← fields;
  if k_link d then on_host (link_assignAddr (p_address (k_params d))) else lift Panic.
Definition k_Create : ST (tunKernelDevice * host) unit :=
  _ ← wrap_call "recreate: " (on_host link_recreate);
  _ ← set_fields (λ d, mkKernel (k_params d) true (k_udpMux d));
  _ ← wrap_call "assign addr: " k_assignAddr;
  d ← fields;
  _ ← wrap_call "set mtu: " (on_host (link_setMTU (p_mtu (k_params d))));
  on_host (configure_call (p_key (k_params d)) (p_port (k_params d))).
Definition k_Up : ST (tunKernelDevice * host) unit :=
  d ← fields;
  if k_udpMux d then mret tt
  else if negb (k_link d) then lift (Err (Errorf "device is not ready yet"))
  else
    _ ← on_host link_up;
    _ ← on_host (acquire {[RRawSocket]});
    _ ← on_host (modify (hold {[RMux; RReader]}));
    set_fields (λ d, mkKernel (k_params d) (k_link d) true).
Definition k_UpdateAddr (address : WGAddress) : ST (tunKernelDevice * host) unit :=
  _ ← set_fields (λ d, mkKernel (set_address address (k_params d)) (k_link d) (k_udpMux d));
  k_assignAddr.
(** The last error is returned. *)
Definition k_Close : ST (tunKernelDevice * host) unit :=
  d ← fields;
  if negb (k_link d) then mret tt
  else
    closErr ← try (on_host link_Close);
    closErr ← (if k_udpMux d then
                 _ ← on_host mux_Close;
                 r ← try (on_host (close_call (λ h, (Ok tt, release {[RRawSocket]} h))));
                 mret (match r with inl _ => closErr | inr e => inr e end)
               else mret closErr);
    untry closErr.

(** [tunUSPDevice]: a wireguard-go device on a tun interface. *)
Record tunUSPDevice := mkUSP {
  u_params : params; u_device : bool; u_wrapper : bool; u_udpMux : bool;
  u_configurer : option bool           (** and whether it has a listener *)
}.
Definition newTunUSPDevice (name : string) (address : WGAddress) (port : Z) (key : string) (mtu : Z)
    (filterFn : option Filter) : tunUSPDevice :=
  mkUSP (mkParams name address port key mtu filterFn) false false false None.

Definition u_assignAddr : ST (tunUSPDevice * host) unit :=
  d ← fields; on_host (link_assignAddr (p_address (u_params d))).
Definition u_Create : ST (tunUSPDevice * host) unit :=
  d ← fields;
  _ ← on_host (CreateTUN (p_mtu (u_params d)));
  _ ← set_fields (λ d, mkUSP (u_params d) (u_device d) true (u_udpMux d) (u_configurer d));
  _ ← on_host NewDevice;
  _ ← set_fields (λ d, mkUSP (u_params d) true (u_wrapper d) (u_udpMux d) (u_configurer d));
  _ ← undo_on_error (on_host device_Close) u_assignAddr;
  l ← on_host (newWGUSPConfigurer openUAPI);
  _ ← set_fields (λ d, mkUSP (u_params d) (u_device d) (u_wrapper d) (u_udpMux d) (Some l));
  undo_on_error (_ ← on_host device_Close; on_host (configurer_close l))
    (on_host (configure_call (p_key (u_params d)) (p_port (u_params d)))).

(** [Up] and [Close] of the userspace devices are the same: the fields they look
    at are given by [dev], [mux] and [cfg]. *)
Definition usp_Up {D} (dev : D → bool) (set_mux : D → D) : ST (D * host) unit :=
  d ← fields;
  if negb (dev d) then lift (Err (Errorf "device is not ready yet"))
  else
    _ ← on_host device_Up;
    _ ← on_host GetICEMux_call;
    set_fields set_mux.
Definition usp_Close {D} (cfg : D → option bool) (dev mux : D → bool) : ST (D * host) unit :=
  d ← fields;
  _ ← (match cfg d with Some l => on_host (configurer_close l) | None => mret tt end);
  _ ← (if dev d then on_host device_Close else mret tt);
  if mux d then on_host mux_Close else mret tt.

Definition u_Up : ST (tunUSPDevice * host) unit :=
  usp_Up u_device (λ d, mkUSP (u_params d) (u_device d) (u_wrapper d) true (u_configurer d)).
Definition u_UpdateAddr (address : WGAddress) : ST (tunUSPDevice * host) unit :=
  _ ← set_fields (λ d, mkUSP (set_address address (u_params d)) (u_device d) (u_wrapper d) (u_udpMux d) (u_configurer d));
  u_assignAddr.
Definition u_Close : ST (tunUSPDevice * host) unit := usp_Close u_configurer u_device u_udpMux.

(** [NetStackTun]: the stack and the SOCKS5 proxy, whose making does not fail and
    whose goroutine only logs an error of its listener. [MustParseAddr] panics
    when the text is no address. *)
Record NetStackTun := mkNsTun { ns_listen : string; ns_address : string; ns_proxy : bool; ns_tundev : bool }.
Definition ns_Create (address : string) : ST host unit :=
  _ ← match netip_ParseAddr (bytes_of_string address) with Some _ => mret tt | None => lift Panic end;
  _ ← acquire {[RNetTun]};
  _ ← try (acquire {[RProxy]}); mret tt.
Definition Proxy_Close : ST host unit := λ h,
  if bool_decide (RProxy ∈ hs_held h) then close_call (λ h, (Ok tt, release {[RProxy]} h)) h else (Ok tt, h).
(** [NetStackTun.Close()], which nothing calls. *)
Definition ns_Close (t : NetStackTun) : ST host unit :=
  pErr ← (if ns_proxy t then try Proxy_Close else mret (inl tt));
  dErr ← (if ns_tundev t then try (close_call (λ h, (Ok tt, release {[RNetTun]} h))) else mret (inl tt));
  match dErr, pErr with
  | inr e, _ | _, inr e => lift (Err e)
  | _, _ => mret tt
  end.

(** [tunNetstackDevice] *)
Record tunNetstackDevice := mkNetstack {
  n_params : params; n_listenAddress : string;
  n_device : bool; n_wrapper : bool; n_nsTun : option NetStackTun; n_udpMux : bool;
  n_configurer : option bool
}.
Definition newTunNetstackDevice (name : string) (address : WGAddress) (wgPort : Z) (key : string) (mtu : Z)
    (listenAddress : string) (filterFn : option Filter) : tunNetstackDevice :=
  mkNetstack (mkParams name address wgPort key mtu filterFn) listenAddress false false None false None.

Definition n_set_tun (t : NetStackTun) (w : bool) (d : tunNetstackDevice) : tunNetstackDevice :=
  mkNetstack (n_params d) (n_listenAddress d) (n_device d) w (Some t) (n_udpMux d) (n_configurer d).
Definition n_Create : ST (tunNetstackDevice * host) unit :=
  d ← fields;
  let address := IP_String (wga_IP (p_address (n_params d))) in
  _ ← set_fields (n_set_tun (mkNsTun (n_listenAddress d) address false false) (n_wrapper d));
  _ ← on_host (ns_Create address);
  _ ← set_fields (n_set_tun (mkNsTun (n_listenAddress d) address true true) true);
  _ ← on_host NewDevice;
  _ ← set_fields (λ d, mkNetstack (n_params d) (n_listenAddress d) true (n_wrapper d) (n_nsTun d) (n_udpMux d) (n_configurer d));
  l ← on_host (newWGUSPConfigurer openUAPI);
  _ ← set_fields (λ d, mkNetstack (n_params d) (n_listenAddress d) (n_device d) (n_wrapper d) (n_nsTun d) (n_udpMux d) (Some l));
  undo_on_error (_ ← try (on_host (close_call (λ h, (Ok tt, release {[RNetTun]} h)))); mret tt)
    (on_host (configure_call (p_key (n_params d)) (p_port (n_params d)))).
Definition n_Up : ST (tunNetstackDevice * host) unit :=
  usp_Up n_device (λ d, mkNetstack (n_params d) (n_listenAddress d) (n_device d) (n_wrapper d) (n_nsTun d) true (n_configurer d)).
(** The address of a network stack stays what it was. *)
Definition n_UpdateAddr (address : WGAddress) : ST (tunNetstackDevice * host) unit := mret tt.
Definition n_Close : ST (tunNetstackDevice * host) unit := usp_Close n_configurer n_device n_udpMux.

(** ** [WGIface] *)

(** [wgTunDevice] *)
Inductive wgTunDevice :=
| Kernel (d : tunKernelDevice)
| USP (d : tunUSPDevice)
| Netstack (d : tunNetstackDevice).

(** A step of the device inside. *)
Definition focus {D A} (inj : D → wgTunDevice) (d : D) (m : ST (D * host) A) (h : host) : res A * (wgTunDevice * host) :=
  let '(r, (d, h)) := m (d, h) in (r, (inj d, h)).
Definition dispatch {A} (k : ST (tunKernelDevice * host) A) (u : ST (tunUSPDevice * host) A)
    (n : ST (tunNetstackDevice * host) A) : ST (wgTunDevice * host) A := λ '(t, h),
  match t with
  | Kernel d => focus Kernel d k h
  | USP d => focus USP d u h
  | Netstack d => focus Netstack d n h
  end.
Definition tun_Create := dispatch k_Create u_Create n_Create.
Definition tun_Up := dispatch k_Up u_Up n_Up.
Definition tun_UpdateAddr (a : WGAddress) := dispatch (k_UpdateAddr a) (u_UpdateAddr a) (n_UpdateAddr a).
Definition tun_Close := dispatch k_Close u_Close n_Close.
Definition tun_params (t : wgTunDevice) : params :=
  match t with Kernel d => k_params d | USP d => u_params d | Netstack d => n_params d end.

(** What the devices tell of themselves: the kernel's has no wrapper. *)
Definition k_DeviceName (d : tunKernelDevice) : string := p_name (k_params d).
Definition u_DeviceName (d : tunUSPDevice) : string := p_name (u_params d).
Definition n_DeviceName (d : tunNetstackDevice) : string := p_name (n_params d).
Definition k_WgAddress (d : tunKernelDevice) : WGAddress := p_address (k_params d).
Definition u_WgAddress (d : tunUSPDevice) : WGAddress := p_address (u_params d).
Definition n_WgAddress (d : tunNetstackDevice) : WGAddress := p_address (n_params d).
Definition k_Wrapper (d : tunKernelDevice) : bool := false.
Definition DeviceName (t : wgTunDevice) : string :=
  match t with Kernel d => k_DeviceName d | USP d => u_DeviceName d | Netstack d => n_DeviceName d end.
Definition WgAddress (t : wgTunDevice) : WGAddress :=
  match t with Kernel d => k_WgAddress d | USP d => u_WgAddress d | Netstack d => n_WgAddress d end.
(** Whether [Wrapper()] is not nil. *)
Definition Wrapper (t : wgTunDevice) : bool :=
  match t with Kernel d => k_Wrapper d | USP d => u_wrapper d | Netstack d => n_wrapper d end.

Record WGIface := mkWGIface {
  w_tun : wgTunDevice; w_userspaceBind : bool; w_configurer : bool; w_filter : option PacketFilter
}.
Definition IsUserspaceBind (w : WGIface) : bool := w_userspaceBind w.
Definition Name (w : WGIface) : string := DeviceName (w_tun w).
Definition Address (w : WGIface) : WGAddress := WgAddress (w_tun w).
Definition GetFilter (w : WGIface) : option PacketFilter := w_filter w.
Definition GetDevice (w : WGIface) : bool := Wrapper (w_tun w).
(** [ToInterface()]: an interface the system does not have is only a name. *)
Definition ToInterface {I} (net_InterfaceByName : string → option I) (named : string → I) (w : WGIface) : I :=
  default (named (Name w)) (net_InterfaceByName (Name w)).
Definition on_tun {A} (m : ST (wgTunDevice * host) A) : ST (WGIface * host) A := λ '(w, h),
  let '(r, (t, h)) := m (w_tun w, h) in
  (r, (mkWGIface t (w_userspaceBind w) (w_configurer w) (w_filter w), h)).

Definition iface_Create : ST (WGIface * host) unit :=
  _ ← on_tun tun_Create;
  set_fields (λ w, mkWGIface (w_tun w) (w_userspaceBind w) true (w_filter w)).
Definition iface_Up : ST (WGIface * host) unit := on_tun tun_Up.
Definition iface_Close : ST (WGIface * host) unit := on_tun tun_Close.
Definition iface_UpdateAddr (newAddr : string) : ST (WGIface * host) unit :=
  addr ← lift (parseWGAddress newAddr);
  on_tun (tun_UpdateAddr addr).
(** [UpdatePeer], [RemovePeer], [AddAllowedIP] and [RemoveAllowedIP] call the
    configurer, which is nil before [Create]. *)
Definition with_configurer (op : ST host unit) : ST (WGIface * host) unit :=
  w ← fields;
  if w_configurer w then on_host op else lift Panic.
Definition iface_SetFilter (f : PacketFilter) : ST (WGIface * host) unit :=
  w ← fields;
  if negb (Wrapper (w_tun w)) then lift (Err (Errorf "userspace packet filtering not handled on this device"))
  else set_fields (λ w, mkWGIface (w_tun w) (w_userspaceBind w) (w_configurer w) (Some f)).

(** [NewWGIFace]: only the network stack is given the filter. Linux and FreeBSD
    share it, each with its own tests for the modules. *)
Definition make_WGIface {K : KernelHost} (WireGuardModuleIsLoaded tunModuleIsLoaded : Host mod_event bool)
    (iFaceName address : string) (wgPort : Z) (wgPrivKey : string) (mtu : Z)
    (filterFn : option Filter) : Host mod_event WGIface :=
  wgAddress ← lift (parseWGAddress address);
  if netstack_IsEnabled kh_getenv then
    mret (mkWGIface (Netstack (newTunNetstackDevice iFaceName wgAddress wgPort wgPrivKey mtu (ListenAddr kh_getenv) filterFn))
            true false None)
  else
    loaded ← WireGuardModuleIsLoaded;
    if (loaded : bool) then
      mret (mkWGIface (Kernel (newTunDevice iFaceName wgAddress wgPort wgPrivKey mtu)) false false None)
    else
      tunLoaded ← tunModuleIsLoaded;
      if negb tunLoaded then lift (Err (Errorf "couldn't check or load tun module"))
      else mret (mkWGIface (USP (newTunUSPDevice iFaceName wgAddress wgPort wgPrivKey mtu None)) true false None).
Definition NewWGIFace {K : KernelHost} := make_WGIface WireGuardModuleIsLoaded tunModuleIsLoaded.
(** [module_freebsd.go] *)
Definition freebsd_WireGuardModuleIsLoaded : Host mod_event bool := mret false.
Definition freebsd_tunModuleIsLoaded : Host mod_event bool := mret true.
Definition freebsd_NewWGIFace {K : KernelHost} := make_WGIface freebsd_WireGuardModuleIsLoaded freebsd_tunModuleIsLoaded.
Definition CreateOnAndroid : res unit :=
  Err (Errorf "CreateOnAndroid function has not implemented on linux platform").
End devices.

(** ** What links promise *)

(** A step that leaves the resources and the existence of the link alone. *)
Definition keeps {A} (m : ST host A) : Prop := ∀ h,
  hs_held (m h).2 = hs_held h ∧ (hs_link (m h).2 = None ↔ hs_link h = None) ∧ (m h).1 ≠ Panic.

Class WgLinkSpec {T : TunEnv} (L : WgLink) := {
  wl_recreate : ∀ h, hs_held (link_recreate h).2 = hs_held h ∧
    match (link_recreate h).1 with
    | Ok _ => True
    | Err _ => hs_link (link_recreate h).2 = None ∨ hs_link (link_recreate h).2 = hs_link h
    | Panic => False
    end;
  wl_Close : ∀ h, hs_held (link_Close h).2 = hs_held h ∧ (link_Close h).1 ≠ Panic ∧
    (hs_link (link_Close h).2 = None ∨ ∃ n e, close_fault n = Some e);
  wl_setMTU : ∀ mtu, keeps (link_setMTU mtu);
  wl_up : keeps link_up;
  wl_assignAddr : ∀ a, keeps (link_assignAddr a)
}.

Lemma keeps_lift {A} (r : res A) : r ≠ Panic → keeps (lift r).
Proof. by intros Hr h. Qed.
Lemma keeps_bind {A B} (m : ST host A) (f : A → ST host B) : keeps m → (∀ a, keeps (f a)) → keeps (m ≫= f).
Proof.
  intros Hm Hf h. unfold mbind, ST_bind. destruct (Hm h) as (Hh&Hl&Hp).
  destruct (m h) as [[a|e|] h1]; cbn [fst snd] in *; [|done|done].
  destruct (Hf a h1) as (Hh1&Hl1&Hp1). split; [congruence|]. split; [tauto|done].
Qed.
Lemma keeps_try {A} (m : ST host A) : keeps m → keeps (try m).
Proof.
  intros Hm h. unfold try. destruct (Hm h) as (Hh&Hl&Hp). by destruct (m h) as [[a|e|] h1].
Qed.
Lemma keeps_wrap_call {A} pre (m : ST host A) : keeps m → keeps (wrap_call pre m).
Proof.
  intros Hm h. unfold wrap_call. destruct (Hm h) as (Hh&Hl&Hp). by destruct (m h) as [[a|e|] h1].
Qed.

Section linux_spec.
Context {T : TunEnv}.
Hypothesis PA : ∀ s, ParseAddr s ≠ Panic.

Lemma keeps_on_link {A} (f : link → res (A * link)) : (∀ l, f l ≠ Panic) → keeps (on_link f).
Proof.
  intros Hf h. unfold on_link, sys, faulty. destruct (fault (hs_calls h)); [done|]. cbn [hs_link].
  destruct (hs_link h) as [l|] eqn:Hl; [|done]. pose proof (Hf l). by destruct (f l) as [[a l']|e|].
Qed.
Lemma keeps_unless_exists pre m : keeps m → keeps (unless_exists pre m).
Proof.
  intros Hm. unfold unless_exists. apply keeps_bind; [by apply keeps_try|]. intros [?|e]; [by apply keeps_lift|].
  destruct (os_IsExist e); by apply keeps_lift.
Qed.

Lemma keeps_del_addrs l : keeps (del_addrs l).
Proof.
  induction l as [|a l IH]; cbn [del_addrs]; [by apply keeps_lift|].
  apply keeps_bind; [|done]. apply keeps_wrap_call. by apply keeps_on_link.
Qed.

Lemma keeps_linux_assignAddr a : keeps (linux_assignAddr a).
Proof.
  unfold linux_assignAddr. apply keeps_bind; [apply keeps_wrap_call; by apply keeps_on_link|]. intros l.
  apply keeps_bind; [apply keeps_del_addrs|]. intros _.
  apply keeps_bind; [apply keeps_wrap_call; by apply keeps_lift|]. intros addr.
  apply keeps_bind; [apply keeps_unless_exists; apply keeps_on_link; intros x; by case_match|]. intros _.
  apply keeps_wrap_call. intros h. by apply keeps_on_link.
Qed.

Lemma linux_link_spec : WgLinkSpec linux_link.
Proof using PA.
  split.
  - intros h. cbn [link_recreate linux_link]. unfold linux_recreate, unless_exists, netlink_LinkByName, LinkDel, LinkAdd, sys, faulty,
      try, lift, mret, ST_ret, mbind, ST_bind.
    destruct h as [l held n]. cbn [hs_link hs_held hs_calls].
    destruct (fault n) as [e|].
    + destruct (errors_Is e LinkNotFoundError); [|split; [done|by right]].
      cbn [hs_link hs_held hs_calls]. destruct (fault _) as [e'|]; [destruct (os_IsExist e'); (split; [done|]); [done|by right]|].
      destruct l; by split.
    + destruct l as [l|].
      * cbn [hs_link hs_held hs_calls]. destruct (fault (Datatypes.S n)); [split; [done|by right]|].
        cbn [hs_link hs_held hs_calls set_link]. destruct (fault _) as [e'|]; [destruct (os_IsExist e'); (split; [done|]); [done|by left]|].
        by split.
      * change (errors_Is LinkNotFoundError LinkNotFoundError) with true. cbn [hs_link hs_held hs_calls].
        destruct (fault _) as [e'|]; [destruct (os_IsExist e'); (split; [done|]); [done|by left]|]. by split.
  - intros h. cbn [link_Close linux_link]. unfold LinkDel, faulty. destruct (close_fault (hs_calls h)) as [e|] eqn:Hc.
    + split; [done|]. split; [done|]. right. by eexists _, e.
    + cbn [hs_link]. destruct (hs_link h) eqn:Hl; (split; [done|]; split; [done|]; by left).
  - intros mtu. cbn [link_setMTU linux_link]. apply keeps_wrap_call. intros h. by apply keeps_on_link.
  - cbn [link_up linux_link]. apply keeps_wrap_call. intros h. by apply keeps_on_link.
  - intros a. apply keeps_linux_assignAddr.
Qed.
End linux_spec.

(** ** The kernel device *)

#[export] Hint Resolve preserves_lift preserves_ret preserves_gets preserves_bind preserves_try preserves_wrap_call
  preserves_undo : punch.

Lemma preserves_on_host {D A} (I : D * host → Prop) (m : ST host A) :
  (∀ d h, I (d, h) → I (d, (m h).2) ∧ (m h).1 ≠ Panic) → preserves I (on_host m).
Proof. intros Hm [d h] Hi. unfold on_host. specialize (Hm d h Hi). by destruct (m h) as [r h']. Qed.

(** One step at a time. *)
Section run.
Context {D : Type}.
Implicit Types (d : D) (h : host).

Lemma run_fields {A} (f : D → ST (D * host) A) d h : (fields ≫= f) (d, h) = f d (d, h).
Proof. done. Qed.
Lemma run_set_fields {A} (g : D → D) (m : unit → ST (D * host) A) d h : (set_fields g ≫= m) (d, h) = m tt (g d, h).
Proof. done. Qed.
Lemma run_on_host {A B} (m : ST host A) (f : A → ST (D * host) B) d h :
  (on_host m ≫= f) (d, h) = match m h with
                            | (Ok a, h) => f a (d, h)
                            | (Err e, h) => (Err e, (d, h))
                            | (Panic, h) => (Panic, (d, h))
                            end.
Proof. unfold mbind, ST_bind, on_host. by destruct (m h) as [[]]. Qed.
Lemma run_on_host_last {A} (m : ST host A) d h : on_host m (d, h) = let '(r, h) := m h in (r, (d, h)).
Proof. done. Qed.
Lemma run_bind {A B} (m : ST (D * host) A) (f : A → ST (D * host) B) s :
  (m ≫= f) s = match m s with (Ok a, s) => f a s | (Err e, s) => (Err e, s) | (Panic, s) => (Panic, s) end.
Proof. done. Qed.
Lemma run_try {A B} (m : ST host A) (f : A + error → ST (D * host) B) d h :
  (try (on_host m) ≫= f) (d, h) = match m h with
                                  | (Ok a, h) => f (inl a) (d, h)
                                  | (Err e, h) => f (inr e) (d, h)
                                  | (Panic, h) => (Panic, (d, h))
                                  end.
Proof. unfold mbind, ST_bind, try, on_host. by destruct (m h) as [[]]. Qed.
Lemma run_on_host_try {A} (m : ST host A) d h :
  (_ ← try (on_host m); mret tt : ST (D * host) unit) (d, h) = let '(r, h) := (_ ← try m; mret tt : ST host unit) h in (r, (d, h)).
Proof. unfold mbind, ST_bind, try, on_host. by destruct (m h) as [[]]. Qed.
(** Undoing on the host, in the middle and at the end. *)
Lemma run_undo {A B} undo (m : ST (D * host) A) (f : A → ST (D * host) B) d h :
  (undo_on_error (on_host undo) m ≫= f) (d, h) = match m (d, h) with
    | (Ok a, s) => f a s
    | (Err e, (d, h)) => match undo h with
                         | (Panic, h) => (Panic, (d, h))
                         | (_, h) => (Err e, (d, h))
                         end
    | (Panic, s) => (Panic, s)
    end.
Proof.
  unfold mbind, ST_bind, undo_on_error, on_host. destruct (m (d, h)) as [[a|e|] [d' h']]; [done| |done].
  by destruct (undo h') as [[]].
Qed.
Lemma run_undo_host {A} (u1 u2 : ST host unit) (m : ST host A) d h :
  undo_on_error (_ ← on_host u1; on_host u2) (on_host m) (d, h) =
  let '(r, h) := undo_on_error (_ ← u1; u2) m h in (r, (d, h)).
Proof.
  unfold undo_on_error, on_host, mbind, ST_bind. destruct (m h) as [[a|e|] h1]; [done| |done].
  destruct (u1 h1) as [[?|e'|] h2]; [|done..]. by destruct (u2 h2) as [[]].
Qed.
End run.

(** ** What may stay open after [Close] *)

Section stay.
Context {T : TunEnv}.
Definition call_fails : Prop := ∃ n e, fault n = Some e.
Definition closing_fails : Prop := ∃ n e, close_fault n = Some e.

(** A socket nothing listened on, only if a call failed; what a closing call
    closes, only if one failed; the proxy over a network stack. *)
Definition may_stay (netstack : bool) (r : resource) : Prop :=
  match r with
  | RUapiSock => call_fails
  | RUapi | RRawSocket | RFd => closing_fails
  | RProxy => netstack = true
  | _ => False
  end.
Definition tidy (netstack : bool) (h : host) : Prop :=
  (∀ r, r ∈ hs_held h → may_stay netstack r) ∧ (hs_link h = None ∨ closing_fails).

(** When nothing fails, that is nothing but the proxy. *)
Lemma tidy_nothing_fails netstack h : tidy netstack h → ¬ call_fails → ¬ closing_fails →
  hs_held h ⊆ (if netstack then {[RProxy]} else ∅) ∧ hs_link h = None.
Proof.
  intros [Hh Hl] Hc Hcl. split; [|by destruct Hl]. intros r Hr. specialize (Hh r Hr).
  destruct r; cbn [may_stay] in Hh; try done. subst netstack. by apply elem_of_singleton.
Qed.
Lemma tidy_empty netstack h : hs_held h = ∅ → hs_link h = None → tidy netstack h.
Proof. intros Hh Hl. split; [|by left]. rewrite Hh. intros r Hr. by apply not_elem_of_empty in Hr. Qed.

(** What the closing calls leave of what there was. *)
Lemma close_release_spec rs h :
  let x := close_call (λ h, (Ok tt, release rs h)) h in
  x.1 ≠ Panic ∧ hs_link x.2 = hs_link h ∧
  (∀ r, r ∈ hs_held x.2 → r ∈ hs_held h ∧ (r ∈ rs → closing_fails)) ∧
  (∀ r, r ∈ hs_held h → r ∉ rs → r ∈ hs_held x.2).
Proof.
  unfold close_call, faulty. destruct (close_fault (hs_calls h)) as [e|] eqn:Hc; cbn [fst snd release hs_held hs_link].
  - split; [done|]. split; [done|]. split; [|done]. intros r Hr. split; [done|]. intros _. by eexists _, e.
  - split; [done|]. split; [done|]. split; [|set_solver]. intros r [Hr Hn]%elem_of_difference. done.
Qed.
Lemma try_close_release_spec rs h :
  let x := (_ ← try (close_call (λ h, (Ok tt, release rs h))); mret tt : ST host unit) h in
  x.1 = Ok tt ∧ hs_link x.2 = hs_link h ∧
  (∀ r, r ∈ hs_held x.2 → r ∈ hs_held h ∧ (r ∈ rs → closing_fails)) ∧
  (∀ r, r ∈ hs_held h → r ∉ rs → r ∈ hs_held x.2).
Proof.
  pose proof (close_release_spec rs h) as Hc. unfold try, mret, ST_ret, mbind, ST_bind.
  destruct (close_call _ h) as [[u|e|] h']; cbn [fst snd] in *; [| |by destruct Hc]; (split; [done|]; apply Hc).
Qed.
Lemma mux_Close_spec h :
  let x := mux_Close h in
  x.1 = Ok tt ∧ hs_link x.2 = hs_link h ∧
  (∀ r, r ∈ hs_held x.2 → r ∈ hs_held h ∧ r ≠ RMux ∧ r ≠ RReader ∧ (r = RRawSocket → closing_fails)) ∧
  (∀ r, r ∈ hs_held h → r ∉@{gset resource} {[RMux; RReader; RRawSocket]} → r ∈ hs_held x.2).
Proof.
  destruct (try_close_release_spec {[RRawSocket]} (release {[RMux; RReader]} h)) as (H1&H2&H3&H4).
  change (mux_Close h) with ((_ ← try (close_call (λ h, (Ok tt, release {[RRawSocket]} h))); mret tt : ST host unit) (release {[RMux; RReader]} h)).
  split; [done|]. split; [done|]. split.
  - intros r Hr. apply H3 in Hr as [Hr Hc]. cbn [release hs_held] in Hr. split; [set_solver|]. split; [set_solver|].
    split; [set_solver|]. intros ->. apply Hc. set_solver.
  - intros r Hr Hn. apply H4; [cbn [release hs_held]|]; set_solver.
Qed.
Lemma configurer_close_spec l h :
  let x := configurer_close l h in
  x.1 = Ok tt ∧ hs_link x.2 = hs_link h ∧
  (∀ r, r ∈ hs_held x.2 → r ∈ hs_held h ∧ (r = RUapi → l = true → closing_fails)) ∧
  (∀ r, r ∈ hs_held h → r ≠ RUapi → r ∈ hs_held x.2).
Proof.
  unfold configurer_close. destruct l; [|done]. destruct (try_close_release_spec {[RUapi]} h) as (H1&H2&H3&H4).
  split; [done|]. split; [done|]. split.
  - intros r Hr. apply H3 in Hr as [Hr Hc]. split; [done|]. intros -> _. apply Hc. set_solver.
  - intros r Hr Hn. apply H4; [done|]. set_solver.
Qed.
End stay.

Section kernel.
Context {T : TunEnv} {L : WgLink} {LS : WgLinkSpec L} {Filter : Type}.

(** What a kernel device may hold, which has a mux when it is [up], and that the
    link is its own. *)
Definition kernel_owned (up : bool) (r : resource) : Prop :=
  match r with
  | RRawSocket => up = true ∨ closing_fails
  | RMux | RReader => up = true
  | _ => may_stay false r
  end.
Definition kernel_inv (s : tunKernelDevice (Filter := Filter) * host) : Prop :=
  (∀ r, r ∈ hs_held s.2 → kernel_owned (k_udpMux s.1) r) ∧ (k_udpMux s.1 = true → k_link s.1 = true) ∧
  (k_link s.1 = false → hs_link s.2 = None ∨ closing_fails).
Definition kernel_ready (s : tunKernelDevice (Filter := Filter) * host) : Prop :=
  kernel_inv s ∧ k_link s.1 = true.

Lemma kernel_keeps {A} (m : ST host A) : keeps m → preserves kernel_ready (on_host m).
Proof.
  intros Hm. apply preserves_on_host. intros d h ((Hh&Hu&Hl)&Hk). destruct (Hm h) as (Hh'&Hl'&Hp).
  cbn [fst snd] in *. split; [|done]. split; [|done].
  split; [cbn [fst snd]; by rewrite Hh'|]. split; [done|]. cbn [fst snd]. tauto.
Qed.

Lemma keeps_configure key port : keeps (configure_call key port).
Proof. intros h. unfold configure_call, nothing, sys, faulty. by destruct (fault _). Qed.

Lemma kernel_assignAddr : preserves kernel_ready k_assignAddr.
Proof.
  intros [d h] Hr. unfold k_assignAddr, fields, gets, mbind, ST_bind. cbn [fst].
  pose proof (proj2 Hr) as Hk. cbn [fst] in Hk. rewrite Hk. by apply kernel_keeps; [apply wl_assignAddr|].
Qed.

Lemma kernel_Create s : kernel_inv s →
  (k_Create s).1 ≠ Panic ∧ kernel_inv (k_Create s).2 ∧ (is_ok (k_Create s).1 = true → kernel_ready (k_Create s).2).
Proof.
  destruct s as [d h]. intros (Hh&Hu&Hl). cbn [fst snd] in *.
  set (rest := (_ ← wrap_call "assign addr: " k_assignAddr; d ← fields;
    _ ← wrap_call "set mtu: " (on_host (link_setMTU (p_mtu (k_params d))));
    on_host (configure_call (p_key (k_params d)) (p_port (k_params d)))) : ST (tunKernelDevice (Filter := Filter) * host) unit).
  assert (preserves kernel_ready rest) as Hrest.
  { apply preserves_bind; [apply preserves_wrap_call, kernel_assignAddr|]. intros _.
    apply preserves_bind; [apply preserves_gets|]. intros d'.
    apply preserves_bind; [apply preserves_wrap_call, kernel_keeps, wl_setMTU|]. intros _.
    apply kernel_keeps, keeps_configure. }
  assert (k_Create (d, h) = match wrap_call "recreate: " link_recreate h with
    | (Ok _, h) => rest (mkKernel (k_params d) true (k_udpMux d), h)
    | (Err e, h) => (Err e, (d, h))
    | (Panic, h) => (Panic, (d, h))
    end) as ->.
  { unfold k_Create, mbind, ST_bind at 1, wrap_call at 1, on_host at 1, wrap_call. by destruct (link_recreate h) as [[]]. }
  unfold wrap_call. destruct (wl_recreate h) as [Hh' Hr].
  destruct (link_recreate h) as [[[]|e|] h']; cbn [fst snd] in *; [| |done].
  - destruct (Hrest (mkKernel (k_params d) true (k_udpMux d), h')) as [Hi Hp].
    { split; [|done]. split; [cbn; by rewrite Hh'|done]. }
    destruct Hi as [Hi1 Hi2]. split; [done|]. split; [done|]. intros _. by split.
  - split; [done|]. split; [|done]. split; [cbn; by rewrite Hh'|]. split; [done|]. cbn. intros Hk. specialize (Hl Hk).
    destruct Hr as [Hr|Hr]; rewrite Hr; [by left|done].
Qed.

Lemma kernel_Up : preserves kernel_ready k_Up.
Proof.
  intros [d h] Hr. unfold k_Up, fields, gets, mbind, ST_bind. cbn [fst].
  pose proof (proj2 Hr) as Hk. cbn [fst] in Hk. destruct (k_udpMux d) eqn:Hd; [done|]. rewrite Hk. cbn [negb].
  destruct (kernel_keeps link_up wl_up (d, h) Hr) as [Hi Hp].
  unfold on_host in *. destruct (link_up h) as [[?|e|] h1]; cbn [fst snd] in *; [|done|done].
  unfold acquire, sys, faulty. destruct (fault (hs_calls h1)); [split; [|done]|].
  - destruct Hi as ((Hh&_&Hl)&_). split; [|done]. split; [exact Hh|]. split; done.
  - cbn. destruct Hi as ((Hh&Hu&Hl)&_). cbn [fst snd] in *. rewrite Hd in Hh. split; [|done]. split; [|done].
    split; [|by rewrite Hk]. cbn [fst snd k_udpMux hs_held]. intros r Hx.
    destruct (decide (r ∈ hs_held h1)) as [Hr1|Hr1]; [specialize (Hh r Hr1); destruct r; cbn [kernel_owned] in *; auto|].
    assert (r = RMux ∨ r = RReader ∨ r = RRawSocket) as [->|[->| ->]] by set_solver; cbn; auto.
Qed.

Lemma kernel_UpdateAddr a : preserves kernel_ready (k_UpdateAddr a).
Proof.
  apply preserves_bind; [|intros _; apply kernel_assignAddr].
  apply preserves_modify. by intros [d h] Hr.
Qed.

Lemma kernel_Close s : kernel_inv s → (k_Close s).1 ≠ Panic ∧ tidy false (k_Close s).2.2.
Proof.
  destruct s as [d h]. intros (Hh&Hu&Hl). cbn [fst snd] in *.
  assert (∀ (h2 : host) (r : unit + error), (∀ r, r ∈ hs_held h2 → kernel_owned false r) → hs_link h2 = None ∨ closing_fails →
    (untry r (d, h2)).1 ≠ Panic ∧ tidy false (untry r (d, h2)).2.2) as Hend.
  { intros h2 r Hh2 Hl2. split; [by destruct r|]. split; [|done]. intros x Hx. specialize (Hh2 x Hx).
    destruct x; cbn [kernel_owned may_stay] in *; naive_solver. }
  unfold k_Close. rewrite run_fields. destruct (k_link d) eqn:Hk; cbn [negb].
  2: { destruct (k_udpMux d); [by specialize (Hu eq_refl)|]. by apply (Hend h (inl tt)); auto. }
  rewrite run_try. destruct (wl_Close h) as (Hh1&Hp1&Hl1).
  destruct (link_Close h) as [r1 h1]. cbn [fst snd] in *. rewrite <-Hh1 in Hh.
  destruct (k_udpMux d); [|by destruct r1; [apply (Hend h1 (inl _))|apply (Hend h1 (inr _))|]].
  destruct (mux_Close_spec h1) as (Hr2&Hl2&Hh2&_). destruct (close_release_spec {[RRawSocket]} (mux_Close h1).2) as (Hp3&Hl3&Hh3&_).
  assert (∀ c : unit + error, let x := (closErr ← (_ ← on_host mux_Close; r ← try (on_host (close_call (λ h, (Ok tt, release {[RRawSocket]} h))));
      mret (match r with inl _ => c | inr e => inr e end)); untry closErr : ST (tunKernelDevice (Filter := Filter) * host) unit) (d, h1) in
    x.1 ≠ Panic ∧ tidy false x.2.2) as Hmux.
  { intros c. cbv zeta. rewrite run_bind, run_on_host. destruct (mux_Close h1) as [r2 h2]. cbn [fst snd] in *. subst r2.
    rewrite run_try. destruct (close_call _ h2) as [r3 h3]. cbn [fst snd] in *.
    assert (∀ x, x ∈ hs_held h3 → kernel_owned false x) as Hh4.
    { intros x Hx. apply Hh3 in Hx as [Hx Hc]. apply Hh2 in Hx as (Hx&H1&H2&Hc2). specialize (Hh x Hx).
      destruct x; cbn [kernel_owned] in *; auto. }
    rewrite <-Hl2, <-Hl3 in Hl1. destruct r3 as [u|e|]; [by apply Hend..|done]. }
  destruct r1; [apply Hmux..|done].
Qed.
End kernel.

(** ** The wireguard-go devices *)

Section wireguard_go.
Context {T : TunEnv} (ns : bool).

(** A resource is held only when the field that will release it is set, or else
    is one that may stay. *)
Definition owned (dev mux : bool) (cfg : option bool) (r : resource) : Prop :=
  match r with
  | RTun | RNetTun | RDevice | RBind => dev = true
  | RMux => mux = true
  | RUapi => cfg = Some true ∨ closing_fails
  | _ => may_stay ns r
  end.
Definition go_inv (dev mux : bool) (cfg : option bool) (px : bool) (h : host) : Prop :=
  (∀ r, r ∈ hs_held h → owned dev mux cfg r) ∧ (px = true → RProxy ∈ hs_held h) ∧
  (RTun ∉ hs_held h → hs_link h = None ∨ closing_fails).

Lemma go_inv_keeps {A} (m : ST host A) dev mux cfg px h :
  keeps m → go_inv dev mux cfg px h → go_inv dev mux cfg px (m h).2.
Proof.
  intros Hm (Ho&Hp&Hl). destruct (Hm h) as (Hh&Hl'&_). unfold go_inv. rewrite Hh. split; [done|]. split; [done|]. tauto.
Qed.
Lemma go_inv_weaken dev dev' mux mux' cfg cfg' px h :
  go_inv dev mux cfg px h → (dev = true → dev' = true) → (mux = true → mux' = true) → (cfg = Some true → cfg' = Some true) →
  go_inv dev' mux' cfg' px h.
Proof. intros (Ho&Hi) Hd Hm Hc. split; [|done]. intros r Hr. specialize (Ho r Hr). destruct r; cbn in *; naive_solver. Qed.

(** A step that gives things up, the tun interface and the proxy excepted. *)
Lemma go_inv_shrink dev mux cfg dev' mux' cfg' px h h' :
  go_inv dev mux cfg px h → hs_link h' = hs_link h →
  (∀ r, r ∈ hs_held h' → r ∈ hs_held h ∧ (owned dev mux cfg r → owned dev' mux' cfg' r)) →
  (∀ r, r ∈ hs_held h → r = RTun ∨ r = RProxy → r ∈ hs_held h') → go_inv dev' mux' cfg' px h'.
Proof.
  intros (Ho&Hp&Hl) Hlink Hh Hk. split; [|split].
  - intros r Hr. destruct (Hh r Hr) as [Hr' Hi]. auto.
  - intros Hpx. apply Hk; auto.
  - rewrite Hlink. intros Hn. apply Hl. intros Hr. apply Hn, Hk; auto.
Qed.

Lemma go_inv_configure dev mux cfg px h key port :
  go_inv dev mux cfg px h → go_inv dev mux cfg px (configure_call key port h).2 ∧ (configure_call key port h).1 ≠ Panic.
Proof. intros Hi. unfold configure_call, nothing, sys, faulty. by destruct (fault (hs_calls h)). Qed.

Lemma go_inv_device_Close dev mux cfg px h :
  go_inv dev mux cfg px h → go_inv false mux cfg px (device_Close h).2.
Proof.
  intros (Ho&Hp&Hl). unfold device_Close, modify. cbn [snd]. unfold go_inv. cbn [release hs_held hs_link].
  assert (hs_held (if bool_decide (RTun ∈ hs_held h) then set_link None h else h) = hs_held h) as -> by by case_match.
  split; [|split].
  - intros r [Hr Hn]%elem_of_difference. specialize (Ho r Hr). destruct r; try done; exfalso; apply Hn; set_solver.
  - intros Hpx. specialize (Hp Hpx). set_solver.
  - intros _. destruct (decide (RTun ∈ hs_held h)) as [Hr|Hr].
    + rewrite bool_decide_true by done. by left.
    + rewrite bool_decide_false by done. auto.
Qed.

Lemma usp_Up_spec {D} (dev mux : D → bool) (cfg : D → option bool) (set_mux : D → D) px d h :
  (∀ d, dev (set_mux d) = dev d ∧ mux (set_mux d) = true ∧ cfg (set_mux d) = cfg d) →
  go_inv (dev d) (mux d) (cfg d) px h →
  let '(r, (d', h')) := usp_Up dev set_mux (d, h) in
  r ≠ Panic ∧ go_inv (dev d') (mux d') (cfg d') px h'.
Proof.
  intros Hset Hi. unfold usp_Up, fields, gets, mbind, ST_bind, on_host, set_fields, modify. cbn [fst].
  destruct (dev d) eqn:Hd; cbn [negb]; [|by rewrite <-Hd in Hi].
  unfold device_Up, sys, faulty. destruct (fault (hs_calls h)); [by rewrite Hd|].
  unfold GetICEMux_call. set (new := if has_ipv4 then _ else _).
  assert (∀ b, (RMux ∈ new ∪ hs_held h → b = true) → go_inv true b (cfg d) px (hold new h)) as Hnew.
  { intros b Hb. destruct Hi as (Ho&Hp&Hl). unfold go_inv. cbn [hold hs_held hs_link].
    assert (∀ r, r ∈ new → r = RBind ∨ r = RMux) as Hn by (unfold new; destruct has_ipv4; set_solver).
    split; [|split].
    - intros r Hr. destruct (decide (r = RMux)) as [->|Hne]; [by apply Hb|].
      apply elem_of_union in Hr as [Hr|Hr]; [destruct (Hn r Hr); by subst|].
      specialize (Ho r Hr). by destruct r.
    - intros Hpx. specialize (Hp Hpx). set_solver.
    - intros Hr. apply Hl. set_solver. }
  cbn [hold hs_held hs_link hs_calls]. destruct (decide (RMux ∈ new ∪ hs_held h)) as [Hm|Hm].
  - rewrite bool_decide_true by done. destruct (Hset d) as (->&->&->). split; [done|]. rewrite Hd. by apply Hnew.
  - rewrite bool_decide_false by done. split; [done|]. rewrite Hd. apply Hnew. intros Hr. done.
Qed.
Lemma go_inv_hold dev mux cfg dev' cfg' px h rs :
  go_inv dev mux cfg px h →
  (∀ r, r ∈ rs → owned dev' mux cfg' r ∧ r ≠ RTun) → (dev = true → dev' = true) → (cfg = Some true → cfg' = Some true) →
  go_inv dev' mux cfg' px (hold rs h).
Proof.
  intros Hi Hrs Hd Hc. apply (go_inv_weaken _ dev' _ mux _ cfg') in Hi; [|done..]. destruct Hi as (Ho&Hp&Hl).
  unfold go_inv. cbn [hold hs_held hs_link]. split; [|split].
  - intros r [Hr|Hr]%elem_of_union; [by apply Hrs|auto].
  - intros Hpx. specialize (Hp Hpx). set_solver.
  - intros Hr. apply Hl. set_solver.
Qed.

Lemma go_inv_NewDevice dev mux cfg px h : go_inv dev mux cfg px h → go_inv true mux cfg px (NewDevice h).2.
Proof. intros Hi. apply (go_inv_hold dev _ cfg); [done| |done..]. intros r ->%elem_of_singleton. done. Qed.

(** Opening the listener: it is there, or at most its socket is left. *)
Definition opens_uapi (open : ST host unit) : Prop := ∀ dev mux px h, go_inv dev mux None px h →
  (open h).1 ≠ Panic ∧ go_inv dev mux (Some (is_ok (open h).1)) px (open h).2.
Lemma opens_UAPIListen : opens_uapi UAPIListen.
Proof.
  intros dev mux px h Hi. unfold UAPIListen, acquire, sys, faulty. destruct (fault (hs_calls h)); (split; [done|]); cbn [fst snd is_ok].
  - by apply (go_inv_weaken dev dev mux mux None).
  - apply (go_inv_hold dev _ None); [done| |done..]. intros r ->%elem_of_singleton. split; [by left|done].
Qed.
Lemma opens_openUAPI : opens_uapi openUAPI.
Proof.
  intros dev mux px h Hi. unfold openUAPI, UAPIOpen, nothing, sys, faulty, mbind, ST_bind.
  destruct (fault (hs_calls h)); [split; [done|]; by apply (go_inv_weaken dev dev mux mux None)|].
  set (h1 := mkHost _ _ _). assert (go_inv dev mux None px h1) as Hi1 by done. clearbody h1. clear h Hi.
  destruct (opens_UAPIListen _ _ _ _ Hi1) as [Hp Hi2]. unfold undo_on_error, modify.
  assert (∀ e, (UAPIListen h1).1 = Err e → call_fails) as Hf.
  { intros e. unfold UAPIListen, acquire, sys, faulty. destruct (fault (hs_calls h1)) as [e'|] eqn:Hf; [|done]. intros _. by exists (hs_calls h1), e'. }
  destruct (UAPIListen h1) as [[[]|e|] h2]; cbn [fst snd is_ok] in *; [done| |done]. split; [done|].
  apply (go_inv_hold dev _ (Some false)); [done| |done..]. intros r ->%elem_of_singleton. split; [by eapply Hf|done].
Qed.
Lemma go_inv_uapi open dev mux px h : opens_uapi open → go_inv dev mux None px h →
  let '(r, h') := newWGUSPConfigurer open h in ∃ l, r = Ok l ∧ go_inv dev mux (Some l) px h'.
Proof.
  intros Hopen Hi. destruct (Hopen _ _ _ _ Hi) as [Hp Hi']. unfold newWGUSPConfigurer, try, mret, ST_ret, mbind, ST_bind.
  destruct (open h) as [[[]|e|] h']; cbn [fst snd is_ok] in *; [by exists true|by exists false|done].
Qed.
Lemma go_inv_CreateTUN mux cfg px mtu h : go_inv false mux cfg px h →
  go_inv (is_ok (CreateTUN mtu h).1) mux cfg px (CreateTUN mtu h).2 ∧ (CreateTUN mtu h).1 ≠ Panic.
Proof.
  intros Hi. unfold CreateTUN, sys, faulty. destruct (fault (hs_calls h)); [done|]. cbn [hs_link].
  destruct (hs_link h) as [l|] eqn:Hl0; [rewrite <-Hl0; done|]. split; [|done]. cbn [fst snd is_ok]. destruct Hi as (Ho&Hp&Hl).
  unfold go_inv. cbn [hold set_link hs_held hs_link]. split; [|split].
  - intros r [->%elem_of_singleton|Hr]%elem_of_union; [done|]. specialize (Ho r Hr). by destruct r.
  - intros Hpx. specialize (Hp Hpx). set_solver.
  - intros Hr. exfalso. set_solver.
Qed.

Lemma go_inv_configurer_close dev mux l px h :
  go_inv dev mux (Some l) px h → go_inv dev mux None px (configurer_close l h).2 ∧ (configurer_close l h).1 = Ok tt.
Proof.
  intros Hi. destruct (configurer_close_spec l h) as (Hr&Hl&Hh&Hk). split; [|done].
  apply (go_inv_shrink dev mux (Some l) _ _ _ px h); [done|done| |intros r Hx [-> | ->]; by apply Hk].
  intros r Hr'. destruct (Hh r Hr') as [Hr1 Hc]. split; [done|]. destruct r; cbn [owned]; try done. intros [[= ->]|?]; auto.
Qed.
Lemma go_inv_mux_Close dev mux cfg px h :
  go_inv dev mux cfg px h → go_inv dev false cfg px (mux_Close h).2.
Proof.
  intros Hi. destruct (mux_Close_spec h) as (Hr&Hl&Hh&Hk).
  apply (go_inv_shrink dev mux cfg _ _ _ px h); [done|done| |intros r Hx [-> | ->]; (apply Hk; [done|set_solver])].
  intros r Hr'. destruct (Hh r Hr') as (Hr1&Hn&_). split; [done|]. by destruct r.
Qed.

(** Nothing but what may stay is left. *)
Lemma go_inv_closed px h : go_inv false false None px h → tidy ns h ∧ (px = true → RProxy ∈ hs_held h).
Proof.
  intros (Ho&Hp&Hl). split; [|done]. split.
  - intros r Hr. specialize (Ho r Hr). destruct r; try done. by destruct Ho.
  - apply Hl. intros Hr. by specialize (Ho RTun Hr).
Qed.
Lemma tidy_go_inv h : tidy ns h → go_inv false false None false h.
Proof. intros [Hh Hl]. split; [|done]. intros r Hr. specialize (Hh r Hr). destruct r; cbn in *; auto; done. Qed.

Lemma usp_Close_run {D} (dev mux : D → bool) (cfg : D → option bool) d h :
  usp_Close cfg dev mux (d, h) =
  let h := match cfg d with Some l => (configurer_close l h).2 | None => h end in
  let h := if dev d then (device_Close h).2 else h in
  let h := if mux d then (mux_Close h).2 else h in
  (Ok tt, (d, h)).
Proof.
  assert (∀ h, mux_Close h = (Ok tt, (mux_Close h).2)) as Hm.
  { intros h0. destruct (mux_Close_spec h0) as (Hr&_). destruct (mux_Close h0) as [r h1]. cbn [fst snd] in *. by subst r. }
  assert (∀ l h, configurer_close l h = (Ok tt, (configurer_close l h).2)) as Hc.
  { intros l h0. destruct (configurer_close_spec l h0) as (Hr&_). destruct (configurer_close l h0) as [r h1]. cbn [fst snd] in *. by subst r. }
  unfold usp_Close. rewrite run_fields, run_bind. cbv zeta.
  assert ((match cfg d with Some l => on_host (configurer_close l) | None => mret tt end : ST (D * host) unit) (d, h) =
    (Ok tt, (d, match cfg d with Some l => (configurer_close l h).2 | None => h end))) as ->.
  { destruct (cfg d) as [l|]; [rewrite run_on_host_last, Hc; done|done]. }
  set (h1 := match cfg d with Some _ => _ | None => _ end). clearbody h1. rewrite run_bind.
  assert ((if dev d then on_host device_Close else mret tt : ST (D * host) unit) (d, h1) =
    (Ok tt, (d, if dev d then (device_Close h1).2 else h1))) as -> by by destruct (dev d).
  set (h2 := if dev d then _ else _). clearbody h2.
  destruct (mux d); [rewrite run_on_host_last, Hm|]; done.
Qed.

Lemma usp_Close_spec {D} (dev mux : D → bool) (cfg : D → option bool) px d h :
  go_inv (dev d) (mux d) (cfg d) px h →
  let '(r, (_, h')) := usp_Close cfg dev mux (d, h) in
  r = Ok tt ∧ go_inv false false None px h'.
Proof.
  intros Hi. rewrite usp_Close_run. cbv zeta. split; [done|].
  assert (go_inv (dev d) (mux d) None px (match cfg d with Some l => (configurer_close l h).2 | None => h end)) as H1.
  { destruct (cfg d); [by apply go_inv_configurer_close|done]. }
  set (h1 := match cfg d with Some _ => _ | None => _ end) in *. clearbody h1.
  assert (go_inv false (mux d) None px (if dev d then (device_Close h1).2 else h1)) as H2.
  { destruct (dev d); [by apply (go_inv_device_Close true)|done]. }
  set (h2 := if dev d then _ else _) in *. clearbody h2.
  destruct (mux d); [by apply (go_inv_mux_Close _ true)|done].
Qed.

End wireguard_go.

Section userspace.
Context {T : TunEnv} {L : WgLink} {LS : WgLinkSpec L} {Filter : Type}.

(** [configureInterface], and closing everything when it fails. *)
Lemma go_inv_configure_or_close ns mux l px h key port : go_inv ns true mux (Some l) px h →
  let '(r, h') := undo_on_error (_ ← device_Close; configurer_close l) (configure_call key port) h in
  r ≠ Panic ∧ go_inv ns true mux (Some l) px h'.
Proof.
  intros Hi. unfold undo_on_error, mbind, ST_bind. destruct (go_inv_configure _ _ _ _ _ _ key port Hi) as [Hi' Hp].
  destruct (configure_call key port h) as [[?|e|] h1]; cbn [fst snd] in *; [done| |done].
  pose proof (go_inv_device_Close _ _ _ _ _ _ Hi') as Hi2.
  destruct (device_Close h1) as [r h2] eqn:Hd. injection Hd as <- <-.
  destruct (go_inv_configurer_close _ _ _ _ _ _ Hi2) as [Hi3 Hr].
  destruct (configurer_close l _) as [r h3]. cbn [fst snd] in *. subst r. split; [done|].
  by apply (go_inv_weaken _ false true mux mux None (Some l)).
Qed.

Definition usp_inv (s : tunUSPDevice (Filter := Filter) * host) : Prop :=
  go_inv false (u_device s.1) (u_udpMux s.1) (u_configurer s.1) false s.2.

Lemma u_Create_spec d h : u_device d = false → u_udpMux d = false → u_configurer d = None →
  go_inv false false false None false h →
  let '(r, s) := u_Create (d, h) in r ≠ Panic ∧ usp_inv s.
Proof.
  intros Hd Hm Hc Hi. destruct d as [p dev w mux cfg]. cbn [u_device u_udpMux u_configurer] in *. subst.
  unfold u_Create. rewrite run_fields, run_on_host. cbn [u_params].
  destruct (go_inv_CreateTUN _ _ _ _ (p_mtu p) h Hi) as [Hi1 Hp1].
  destruct (CreateTUN (p_mtu p) h) as [[?|e|] h1]; cbn [fst snd is_ok] in *; [|done|done].
  rewrite run_set_fields, run_on_host. pose proof (go_inv_NewDevice _ _ _ _ _ _ Hi1) as Hi2.
  destruct (NewDevice h1) as [r h2] eqn:Hn. injection Hn as <- <-.
  rewrite run_set_fields. cbn [u_params u_device u_wrapper u_udpMux u_configurer snd] in *. set (h2 := hold _ h1) in *. clearbody h2.
  rewrite run_undo. unfold u_assignAddr. rewrite run_fields, run_on_host_last. cbn [u_params].
  pose proof (go_inv_keeps _ _ _ _ _ _ h2 (wl_assignAddr (p_address p)) Hi2) as Hi3.
  destruct (wl_assignAddr (p_address p) h2) as (_&_&Hp3).
  destruct (link_assignAddr (p_address p) h2) as [[?|e|] h3]; cbn [fst snd] in *; [| |done].
  2: { pose proof (go_inv_device_Close _ _ _ _ _ _ Hi3) as Hi4. destruct (device_Close h3) as [r h4] eqn:Hdc.
       injection Hdc as <- <-. split; [done|]. by apply (go_inv_weaken _ false true false false None). }
  rewrite run_on_host. pose proof (go_inv_uapi _ _ _ _ _ _ (opens_openUAPI _) Hi3) as Hu.
  destruct (newWGUSPConfigurer _ h3) as [r h4]. destruct Hu as (l&->&Hi4).
  rewrite run_set_fields. cbn [u_params u_device u_wrapper u_udpMux u_configurer].
  rewrite run_undo_host. pose proof (go_inv_configure_or_close _ _ _ _ _ (p_key p) (p_port p) Hi4) as Hend.
  by destruct (undo_on_error _ _ h4) as [r h5].
Qed.

Lemma u_Up_spec : preserves usp_inv u_Up.
Proof.
  intros [d h] Hi. unfold u_Up.
  pose proof (usp_Up_spec false u_device u_udpMux u_configurer
    (λ d, mkUSP (u_params d) (u_device d) (u_wrapper d) true (u_configurer d)) false d h (λ _, conj eq_refl (conj eq_refl eq_refl)) Hi) as Hu.
  destruct (usp_Up _ _ (d, h)) as [r [d' h']]. by destruct Hu.
Qed.
Lemma u_UpdateAddr_spec a : preserves usp_inv (u_UpdateAddr a).
Proof.
  intros [d h] Hi. unfold u_UpdateAddr, u_assignAddr. rewrite run_set_fields, run_fields, run_on_host_last. cbn [u_params set_address p_address].
  pose proof (go_inv_keeps _ _ _ _ _ _ h (wl_assignAddr a) Hi) as Hi'.
  destruct (wl_assignAddr a h) as (_&_&Hp). by destruct (link_assignAddr a h).
Qed.

(** What a device on the network stack holds; [px] is whether the proxy listens. *)
Definition netstack_inv (px : bool) (s : tunNetstackDevice (Filter := Filter) * host) : Prop :=
  go_inv true (n_device s.1) (n_udpMux s.1) (n_configurer s.1) px s.2.

Lemma ns_Create_spec address h : netip_ParseAddr (bytes_of_string address) ≠ None → go_inv true false false None false h →
  let '(r, h') := ns_Create address h in
  match r with
  | Ok _ => ∃ px, go_inv true true false None px h' ∧ (¬ call_fails → px = true)
  | Err _ => go_inv true false false None false h' ∧ call_fails
  | Panic => False
  end.
Proof.
  intros Ha Hi. unfold ns_Create, acquire, sys, faulty, try, mret, ST_ret, mbind, ST_bind.
  destruct (netip_ParseAddr _); [|done]. destruct (fault (hs_calls h)) as [e|] eqn:Hf; [split; [done|by eexists _, e]|].
  cbn [hold hs_held hs_link hs_calls].
  assert (∀ h, go_inv true false false None false h → go_inv true true false None false (hold {[RNetTun]} h)) as Hnt.
  { intros h0 Hi0. apply (go_inv_hold true false _ None); [done| |done..]. intros r ->%elem_of_singleton. done. }
  destruct (fault (Datatypes.S (hs_calls h))) as [e|] eqn:Hf2.
  - exists false. split; [by apply (Hnt (mkHost (hs_link h) (hs_held h) _))|]. intros []. by eexists _, e.
  - exists true. split; [|done]. destruct (Hnt (mkHost (hs_link h) (hs_held h) (Datatypes.S (Datatypes.S (hs_calls h)))) Hi) as (Ho&_&Hl).
    split; [|split].
    + intros r [->%elem_of_singleton|Hr]%elem_of_union; [done|by apply Ho].
    + intros _. cbn [hold hs_held]. set_solver.
    + intros Hr. apply Hl. cbn [hold hs_held] in *. set_solver.
Qed.

Lemma n_Create_spec d h : n_device d = false → n_udpMux d = false → n_configurer d = None →
  netip_ParseAddr (bytes_of_string (IP_String (wga_IP (p_address (n_params d))))) ≠ None →
  go_inv true false false None false h →
  ∃ px, let '(r, s) := n_Create (d, h) in
    r ≠ Panic ∧ netstack_inv px s ∧ (¬ call_fails → px = true).
Proof.
  intros Hd Hm Hc Ha Hi. destruct d as [p la dev w nst mux cfg]. cbn [n_device n_udpMux n_configurer n_params] in *. subst dev mux cfg.
  unfold n_Create. rewrite run_fields. cbn zeta. rewrite run_set_fields, run_on_host. cbn [n_params].
  pose proof (ns_Create_spec _ h Ha Hi) as Hns. destruct (ns_Create _ h) as [[[]|e|] h2]; [| |done].
  2: { exists false. destruct Hns as [Hi2 Hf]. split; [done|]. split; [done|]. by intros []. }
  destruct Hns as (px&Hi2&Hpx). exists px.
  rewrite run_set_fields, run_on_host. pose proof (go_inv_NewDevice _ _ _ _ _ _ Hi2) as Hi3.
  destruct (NewDevice h2) as [r h3] eqn:Hn. injection Hn as <- <-. cbn [snd] in Hi3. set (h3 := hold {[RDevice]} h2) in *. clearbody h3.
  rewrite run_set_fields, run_on_host. pose proof (go_inv_uapi _ _ _ _ _ _ (opens_openUAPI _) Hi3) as Hu.
  destruct (newWGUSPConfigurer _ h3) as [r h4]. destruct Hu as (l&->&Hi4). rewrite run_set_fields.
  cbn [n_set_tun n_params n_listenAddress n_device n_wrapper n_nsTun n_udpMux n_configurer].
  unfold undo_on_error. rewrite run_on_host_last. destruct (go_inv_configure _ _ _ _ _ _ (p_key p) (p_port p) Hi4) as [Hi5 Hp5].
  destruct (configure_call (p_key p) (p_port p) h4) as [[?|e|] h5]; cbn [fst snd] in *; [done| |done].
  rewrite run_on_host_try. destruct (try_close_release_spec {[RNetTun]} h5) as (Hr6&Hl6&Hh6&Hk6).
  destruct ((_ ← try _; mret tt : ST host unit) h5) as [r6 h6]. cbn [fst snd] in *. subst r6. split; [done|]. split; [|done].
  unfold netstack_inv. cbn [snd fst n_device n_udpMux n_configurer].
  apply (go_inv_shrink true true false (Some l) _ _ _ px h5); [done|done| |].
  - intros r Hr. by destruct (Hh6 r Hr).
  - intros r Hr [->| ->]; (apply Hk6; [done|set_solver]).
Qed.

Lemma n_Up_spec px : preserves (netstack_inv px) n_Up.
Proof.
  intros [d h] Hi. unfold n_Up.
  pose proof (usp_Up_spec true n_device n_udpMux n_configurer
    (λ d, mkNetstack (n_params d) (n_listenAddress d) (n_device d) (n_wrapper d) (n_nsTun d) true (n_configurer d)) px d h
    (λ _, conj eq_refl (conj eq_refl eq_refl)) Hi) as Hu.
  destruct (usp_Up _ _ (d, h)) as [r [d' h']]. by destruct Hu.
Qed.

(** Closing the stack would release what its [Create] opened. *)
Lemma ns_Close_releases t h : ¬ closing_fails → ns_proxy t = true → ns_tundev t = true →
  hs_held (ns_Close t h).2 = hs_held h ∖ {[RProxy; RNetTun]}.
Proof.
  intros Hcl Hp Ht. assert (∀ n, close_fault n = None) as closes.
  { intros n. destruct (close_fault n) as [e|] eqn:Hn; [|done]. destruct Hcl. by exists n, e. }
  unfold ns_Close, Proxy_Close, close_call, faulty, try, lift, mret, ST_ret, mbind, ST_bind. rewrite Hp, Ht.
  destruct (decide (RProxy ∈ hs_held h)) as [Hr|Hr].
  - rewrite bool_decide_true by done. rewrite !closes. cbn [snd release hs_held]. set_solver.
  - rewrite bool_decide_false by done. rewrite !closes. cbn [snd release hs_held]. set_solver.
Qed.

(** ** A session: create, use, close *)

Lemma parseWGAddress_no_panic a : parseWGAddress a ≠ Panic.
Proof.
  unfold parseWGAddress, net_ParseCIDR. generalize (cut "/"%char (bytes_of_string a)). intros o.
  match goal with |- context [or_err _ ?x] => destruct x as [[]|] end; done.
Qed.

Inductive session_op := SUp | SUpdateAddr (newAddr : string) | SSetFilter (f : PacketFilter).
Definition run_op (o : session_op) : ST (WGIface (Filter := Filter) * host) unit :=
  match o with SUp => iface_Up | SUpdateAddr a => iface_UpdateAddr a | SSetFilter f => iface_SetFilter f end.
Fixpoint run_ops (os : list session_op) : ST (WGIface (Filter := Filter) * host) unit :=
  match os with [] => mret tt | o :: os => _ ← try (run_op o); run_ops os end.
(** What the engine does: it closes the interface when creating it fails too. *)
Definition session (os : list session_op) : ST (WGIface (Filter := Filter) * host) unit :=
  c ← try iface_Create;
  _ ← match c with inl _ => run_ops os | inr _ => mret tt end;
  iface_Close.

(** An interface as [NewWGIFace] makes it, with a parsed address. *)
Definition unused (w : WGIface (Filter := Filter)) : Prop :=
  (∃ address, parseWGAddress address = Ok (WgAddress (w_tun w))) ∧
  match w_tun w with
  | Kernel d => k_link d = false ∧ k_udpMux d = false
  | USP d => u_device d = false ∧ u_udpMux d = false ∧ u_configurer d = None
  | Netstack d => n_device d = false ∧ n_udpMux d = false ∧ n_configurer d = None
  end.
Definition is_netstack (t : wgTunDevice (Filter := Filter)) : bool := match t with Netstack _ => true | _ => false end.

(** The invariant of each device; [ready] when [Create] succeeded. *)
Definition tun_inv (ready px : bool) (s : wgTunDevice (Filter := Filter) * host) : Prop :=
  match s.1 with
  | Kernel d => px = false ∧ kernel_inv (d, s.2) ∧ (ready = true → k_link d = true)
  | USP d => px = false ∧ usp_inv (d, s.2)
  | Netstack d => netstack_inv px (d, s.2)
  end.
Definition iface_inv (ready px : bool) (s : WGIface (Filter := Filter) * host) : Prop := tun_inv ready px (w_tun s.1, s.2).

Lemma preserves_on_tun {A} ready px (m : ST (wgTunDevice * host) A) :
  preserves (tun_inv ready px) m → preserves (iface_inv ready px) (on_tun m).
Proof.
  intros Hm [w h] Hi. unfold on_tun. destruct (Hm (w_tun w, h) Hi) as [Hi' Hp].
  by destruct (m (w_tun w, h)) as [r [t h']].
Qed.
Lemma preserves_dispatch {A} px k u n :
  preserves kernel_ready k → preserves usp_inv u → preserves (netstack_inv px) n →
  preserves (A := A) (tun_inv true px) (dispatch k u n).
Proof.
  intros Hk Hu Hn [t h]. unfold tun_inv, dispatch, focus. cbn [fst snd]. destruct t as [d|d|d].
  - intros (->&Hi&Hr). destruct (Hk (d, h) (conj Hi (Hr eq_refl))) as [[Hi' Hr'] Hp].
    by destruct (k (d, h)) as [r [d' h']].
  - intros (->&Hi). destruct (Hu (d, h) Hi) as [Hi' Hp]. by destruct (u (d, h)) as [r [d' h']].
  - intros Hi. destruct (Hn (d, h) Hi) as [Hi' Hp]. by destruct (n (d, h)) as [r [d' h']].
Qed.

Lemma run_op_inv px o : preserves (iface_inv true px) (run_op o).
Proof.
  destruct o as [|a|f]; cbn [run_op].
  - apply preserves_on_tun, preserves_dispatch; [apply kernel_Up|apply u_Up_spec|apply n_Up_spec].
  - unfold iface_UpdateAddr. apply preserves_bind.
    + apply preserves_lift. apply parseWGAddress_no_panic.
    + intros addr. apply preserves_on_tun, preserves_dispatch;
        [apply kernel_UpdateAddr|apply u_UpdateAddr_spec|apply preserves_ret].
  - intros [w h] Hi. unfold iface_SetFilter. rewrite run_fields. by destruct (Wrapper (w_tun w)).
Qed.
Lemma tun_Create_inv w h : unused w → tidy (is_netstack (w_tun w)) h →
  ∃ px, let '(r, s) := tun_Create (w_tun w, h) in
    r ≠ Panic ∧ tun_inv (is_ok r) px s ∧ is_netstack s.1 = is_netstack (w_tun w) ∧
    (is_netstack (w_tun w) = true → ¬ call_fails → px = true).
Proof.
  intros [[address Ha] Hw] Ht. unfold tun_Create, dispatch, focus in *. destruct (w_tun w) as [d|d|d]; cbn [is_netstack] in *.
  - exists false. destruct Hw as [Hk Hu]. destruct Ht as [Hh Hl]. destruct (kernel_Create (d, h)) as (Hp&Hi&Hr).
    { split; [|cbn; split; [by rewrite Hu|done]]. cbn [fst snd]. rewrite Hu. intros r Hr. specialize (Hh r Hr). destruct r; cbn in *; auto. }
    destruct (k_Create (d, h)) as [r [d' h']]. cbn [fst snd] in *. split; [done|]. split; [|done].
    split; [done|]. split; [done|]. intros Hok. by destruct (Hr Hok).
  - exists false. destruct Hw as (Hd&Hm&Hc). pose proof (u_Create_spec d h Hd Hm Hc (tidy_go_inv _ _ Ht)) as Hu.
    destruct (u_Create (d, h)) as [r [d' h']]. by destruct Hu as [Hp Hi].
  - destruct Hw as (Hd&Hm&Hc). destruct (n_Create_spec d h Hd Hm Hc) as [px Hn]; [|by apply tidy_go_inv|].
    { cbn [WgAddress n_WgAddress] in Ha. unfold IP_String. rewrite bytes_of_string_of_bytes.
      rewrite netip_ParseAddr_IP by (right; by eapply parseWGAddress_length). done. }
    exists px. destruct (n_Create (d, h)) as [r [d' h']]. destruct Hn as (?&?&?). split_and!; [done..|]. by intros _.
Qed.

Lemma tun_Close_spec ready px t h : tun_inv ready px (t, h) →
  let '(r, (t', h')) := tun_Close (t, h) in
  r ≠ Panic ∧ tidy (is_netstack t) h' ∧ (px = true → RProxy ∈ hs_held h').
Proof.
  unfold tun_inv, tun_Close, dispatch, focus. cbn [fst snd]. destruct t as [d|d|d]; cbn [is_netstack].
  - intros (->&Hi&_). destruct (kernel_Close (d, h) Hi) as (Hp&Ht).
    by destruct (k_Close (d, h)) as [r [d' h']].
  - intros (->&Hi). pose proof (usp_Close_spec false u_device u_udpMux u_configurer false d h Hi) as Hc.
    unfold u_Close. destruct (usp_Close _ _ _ (d, h)) as [r [d' h']]. destruct Hc as (->&Hc). by destruct (go_inv_closed _ _ _ Hc).
  - intros Hi. pose proof (usp_Close_spec true n_device n_udpMux n_configurer px d h Hi) as Hc.
    unfold n_Close. destruct (usp_Close _ _ _ (d, h)) as [r [d' h']]. destruct Hc as (->&Hc). by destruct (go_inv_closed _ _ _ Hc).
Qed.

(** [UpdateAddr], [Up] and [SetFilter] keep the kind of the device. *)
Lemma is_netstack_dispatch {A} k u n t h :
  is_netstack (dispatch (A := A) k u n (t, h)).2.1 = is_netstack t.
Proof.
  unfold dispatch, focus. destruct t as [d|d|d]; [destruct (k (d, h)) as [r []]|destruct (u (d, h)) as [r []]|destruct (n (d, h)) as [r []]]; done.
Qed.
Lemma is_netstack_run_op o w h : is_netstack (w_tun (run_op o (w, h)).2.1) = is_netstack (w_tun w).
Proof.
  destruct o as [|a|f]; cbn [run_op].
  - unfold iface_Up, on_tun. pose proof (is_netstack_dispatch k_Up u_Up n_Up (w_tun w) h) as Hd.
    unfold tun_Up. destruct (dispatch _ _ _ _) as [r [t h']]. done.
  - unfold iface_UpdateAddr, lift, on_tun, mbind, ST_bind. destruct (parseWGAddress a) as [addr|e|]; [|done|done].
    pose proof (is_netstack_dispatch (k_UpdateAddr addr) (u_UpdateAddr addr) (n_UpdateAddr addr) (w_tun w) h) as Hd.
    unfold tun_UpdateAddr. destruct (dispatch _ _ _ _) as [r [t h']]. done.
  - unfold iface_SetFilter. rewrite run_fields. by destruct (Wrapper (w_tun w)).
Qed.

(** An interface between its calls; [ns] tells the network stack. *)
Definition live (ns ready px : bool) (s : WGIface (Filter := Filter) * host) : Prop :=
  iface_inv ready px s ∧ is_netstack (w_tun s.1) = ns.

Lemma live_weaken ns ready px s : live ns true px s → live ns ready px s.
Proof.
  destruct s as [w h]. intros [Hi Hn]. split; [|done]. unfold iface_inv, tun_inv in *. cbn [fst snd] in *.
  destruct (w_tun w); naive_solver.
Qed.
Lemma iface_Create_run (w : WGIface (Filter := Filter)) h :
  iface_Create (w, h) = let '(r, (t, h)) := tun_Create (w_tun w, h) in
    (r, (mkWGIface t (w_userspaceBind w) (is_ok r || w_configurer w) (w_filter w), h)).
Proof.
  unfold iface_Create, on_tun, set_fields, modify, mbind, ST_bind. by destruct (tun_Create (w_tun w, h)) as [[[]|e|] [t h1]].
Qed.
Lemma iface_Create_live w h : unused w → tidy (is_netstack (w_tun w)) h →
  ∃ px, let '(r, s) := iface_Create (w, h) in
    r ≠ Panic ∧ live (is_netstack (w_tun w)) (is_ok r) px s ∧
    (is_netstack (w_tun w) = true → ¬ call_fails → px = true).
Proof.
  intros Hw Ht. destruct (tun_Create_inv w h Hw Ht) as [px Hc]. exists px. rewrite iface_Create_run.
  destruct (tun_Create (w_tun w, h)) as [r [t h1]]. destruct Hc as (?&?&?&?). done.
Qed.
Lemma run_op_live ns px o : preserves (live ns true px) (run_op o).
Proof.
  intros [w h] [Hi Hn]. destruct (run_op_inv px o (w, h) Hi) as [Hi' Hp].
  split; [|done]. split; [done|]. by rewrite is_netstack_run_op.
Qed.
Lemma run_ops_live ns px os : preserves (live ns true px) (run_ops os).
Proof.
  induction os as [|o os IH]; [apply preserves_ret|]. cbn [run_ops].
  apply preserves_bind; [apply preserves_try, run_op_live|done].
Qed.
Lemma iface_Close_live ns ready px s : live ns ready px s →
  let '(r, (_, h)) := iface_Close s in
  r ≠ Panic ∧ tidy ns h ∧ (px = true → RProxy ∈ hs_held h).
Proof.
  destruct s as [w h]. intros [Hi <-]. unfold iface_Close, on_tun. unfold iface_inv in Hi. cbn [fst snd] in *.
  pose proof (tun_Close_spec ready px (w_tun w) h Hi) as Hc. by destruct (tun_Close (w_tun w, h)) as [r [t h2]].
Qed.
End userspace.

Lemma run_ops_not_err {T : TunEnv} {L : WgLink} {Filter : Type} os (s : WGIface (Filter := Filter) * host) e :
  (run_ops os s).1 ≠ Err e.
Proof.
  revert s. induction os as [|o os IH]; intros s; [done|]. cbn [run_ops]. unfold mbind, ST_bind, try.
  by destruct (run_op o s) as [[?|?|] s'].
Qed.

(** C22. Whatever calls fail, closing ones too, and whatever the interface is used
    for in between, a session of an interface with a parsed address does not
    panic, also when [Create] failed half way. On a host that was tidy it leaves
    at most these: the socket for configuration requests, only if a call can
    fail, because nothing closes it when listening on it fails; their listener,
    the raw socket, a descriptor and the link, only if a closing call can fail;
    and over the network stack the listener of the SOCKS5 proxy. So when no call
    fails it leaves no link and nothing held over the kernel's device and over a
    tun interface, and over the network stack exactly the proxy's listener, which
    stays because [Close] never closes the stack. *)
Theorem session_releases {T : TunEnv} {L : WgLink} {LS : WgLinkSpec L} {Filter : Type} os (w : WGIface (Filter := Filter)) h :
  let netstack := is_netstack (w_tun w) in
  unused w → tidy netstack h →
  let '(r, (_, h')) := session os (w, h) in
  r ≠ Panic ∧ tidy netstack h' ∧
  (¬ call_fails → ¬ closing_fails → hs_link h' = None ∧ hs_held h' = (if netstack then {[RProxy]} else ∅)).
Proof.
  intros netstack Hw Ht. destruct (iface_Create_live w h Hw Ht) as [px Hcr]. fold netstack in Hcr.
  assert (∀ ready s, (netstack = true → ¬ call_fails → px = true) → live netstack ready px s →
    let '(r, (_, h')) := iface_Close (Filter := Filter) s in
    r ≠ Panic ∧ tidy netstack h' ∧
    (¬ call_fails → ¬ closing_fails → hs_link h' = None ∧ hs_held h' = (if netstack then {[RProxy]} else ∅))) as Hend.
  { intros ready s Hpx Hs. pose proof (iface_Close_live _ _ _ _ Hs) as Hcl.
    destruct (iface_Close s) as [r [w' h']]. destruct Hcl as (?&Ht'&Hh'). split; [done|]. split; [done|].
    intros Hc Hcl. destruct (tidy_nothing_fails _ _ Ht' Hc Hcl) as [Hsub ?]. split; [done|].
    destruct netstack; [|set_solver]. specialize (Hh' (Hpx eq_refl Hc)). set_solver. }
  unfold session, mbind, ST_bind, try. destruct (iface_Create (w, h)) as [[[]|e|] s]; destruct Hcr as (Hp&Hi&Hpx); [| |done].
  - pose proof (run_ops_not_err os s) as He. destruct (run_ops_live _ px os s Hi) as [Hi2 Hp2].
    destruct (run_ops os s) as [[?|e|] s2]; [by eapply Hend|by destruct (He e)|done].
  - by eapply Hend.
Qed.

(** A host on which nothing fails, and a configured address. *)
Definition ex_env : TunEnv := {| fault _ := None; close_fault _ := None; has_ipv4 := true; auto_addrs _ := [];
  ParseAddr s := Ok s |}.
(** One on which the requests' socket cannot be listened on, and a tun interface
    that comes up has a link-local address. *)
Definition ex_env_uapi : TunEnv := {|
  fault n := if bool_decide (n = 5) then Some (Errorf "address already in use") else None; close_fault _ := None;
  has_ipv4 := true; auto_addrs _ := ["fe80::1/64"]; ParseAddr s := Ok s |}.
Lemma ex_ParseAddr s : @ParseAddr ex_env s ≠ Panic.
Proof. done. Qed.
Lemma ex_ParseAddr_uapi s : @ParseAddr ex_env_uapi s ≠ Panic.
Proof. done. Qed.
Definition ex_address : WGAddress := mkWGAddress (v4InV6Prefix ++ map byte_of_Z [10; 0; 0; 1]%Z)
  (mkIPNet (map byte_of_Z [10; 0; 0; 0]%Z) (map byte_of_Z [255; 0; 0; 0]%Z)).
Lemma ex_address_parsed : parseWGAddress "10.0.0.1/8" = Ok ex_address.
Proof. vm_compute. reflexivity. Qed.
Definition ex_iface (t : wgTunDevice (Filter := unit)) : WGIface := mkWGIface t true false None.

(** Over the network stack the proxy stays when nothing fails; over a tun interface
    the socket does when listening fails. *)
Lemma session_releases_witness :
  let netstack := ex_iface (Netstack (newTunNetstackDevice "wt0" ex_address 51822 "key" 1280 "0.0.0.0:1080" None)) in
  let usp := ex_iface (USP (newTunUSPDevice "wt0" ex_address 51822 "key" 1280 None)) in
  hs_held (session (T := ex_env) (L := linux_link (T := ex_env)) [SUp] (netstack, mkHost None ∅ 0)).2.2 = {[RProxy]} ∧
  let h' := (session (T := ex_env_uapi) (L := linux_link (T := ex_env_uapi)) [SUp] (usp, mkHost None ∅ 0)).2.2 in
  tidy (T := ex_env_uapi) false h' ∧ hs_held h' = {[RUapiSock]}.
Proof.
  intros netstack usp. split.
  - pose proof (session_releases (T := ex_env) (LS := linux_link_spec (T := ex_env) ex_ParseAddr) [SUp] netstack (mkHost None ∅ 0)
      ltac:(split; [exists "10.0.0.1/8"; exact ex_address_parsed|repeat split; reflexivity]) (tidy_empty (T := ex_env) true (mkHost None ∅ 0) eq_refl eq_refl)) as Hs.
    destruct (session _ _) as [r [w' h']]. destruct Hs as (_&_&Hs). cbn [snd]. apply Hs; intros (n&e&Hn); discriminate Hn.
  - pose proof (session_releases (T := ex_env_uapi) (LS := linux_link_spec (T := ex_env_uapi) ex_ParseAddr_uapi) [SUp] usp (mkHost None ∅ 0)
      ltac:(split; [exists "10.0.0.1/8"; exact ex_address_parsed|repeat split; reflexivity]) (tidy_empty (T := ex_env_uapi) false (mkHost None ∅ 0) eq_refl eq_refl)) as Hs.
    split; [|apply (bool_decide_unpack _); vm_compute; exact I].
    destruct (session (T := ex_env_uapi) _ _) as [r [w' h']]. exact (proj1 (proj2 Hs)).
Defined.

(** An interface made by [NewWGIFace] is unused, has the name and the parsed
    address, and is over the network stack exactly when the environment asks for
    it, else over the kernel's device only when that is not disabled; the filter
    given for the peers' addresses reaches only the network stack. *)
Lemma NewWGIFace_chooses {K : KernelHost} {Filter : Type} iFaceName address wgPort key mtu (filterFn : option Filter) log w :
  (NewWGIFace iFaceName address wgPort key mtu filterFn log).1 = Ok w →
  unused w ∧ w_configurer w = false ∧
  DeviceName (w_tun w) = iFaceName ∧ parseWGAddress address = Ok (WgAddress (w_tun w)) ∧
  w_userspaceBind w = (match w_tun w with Kernel _ => false | _ => true end) ∧
  is_netstack (w_tun w) = netstack_IsEnabled kh_getenv ∧
  p_filter (tun_params (w_tun w)) = (if is_netstack (w_tun w) then filterFn else None) ∧
  (kh_getenv envDisableWireGuardKernel = "true" → w_userspaceBind w = true).
Proof.
  unfold NewWGIFace, make_WGIface, lift, mret, ST_ret, mbind, ST_bind. destruct (parseWGAddress address) as [a|e|] eqn:Ha; [|done|done].
  destruct (netstack_IsEnabled kh_getenv) eqn:Hns; [intros [= <-]; (repeat split; [by exists address|..]; done)|].
  destruct (WireGuardModuleIsLoaded log) as [[loaded|e|] log1] eqn:Hwg; [|done|done].
  destruct loaded.
  - intros [= <-]. repeat split; [by exists address|]. intros Hdis. exfalso. revert Hwg. unfold WireGuardModuleIsLoaded.
    rewrite bool_decide_true by done. by intros [= ?].
  - destruct (tunModuleIsLoaded log1) as [[tun|e|] log2]; [|done|done]. destruct tun; [|done].
    intros [= <-]. repeat split; by exists address.
Qed.

(** On FreeBSD WireGuard always runs in the process: an interface is made whenever
    the address parses, without a look at the system. *)
Lemma freebsd_in_process {K : KernelHost} {Filter : Type} iFaceName address wgPort key mtu (filterFn : option Filter) log :
  let '(r, log') := freebsd_NewWGIFace iFaceName address wgPort key mtu filterFn log in
  log' = log ∧ (is_ok r = is_ok (parseWGAddress address)) ∧
  (∀ w, r = Ok w → w_userspaceBind w = true ∧ (∀ d, w_tun w ≠ Kernel d)).
Proof.
  unfold freebsd_NewWGIFace, make_WGIface, lift, mret, ST_ret, mbind, ST_bind.
  destruct (parseWGAddress address) as [a|e|]; [|done|done].
  destruct (netstack_IsEnabled kh_getenv); (split; [done|]); (split; [done|]); by intros w [= <-].
Qed.

Definition ex_modules : KernelHost := {|
  kh_root := "/lib/modules/6.1"; kh_tree := None; kh_getenv k := if bool_decide (k = envDisableWireGuardKernel) then "true" else EmptyString;
  kh_read _ _ := Err (Errorf "no such file"); kh_open _ _ := Ok tt; kh_stat _ _ := Ok tt; kh_link_add _ := Ok tt;
  kh_finit _ _ := Ok tt; kh_init _ _ := Ok tt
|}.
Lemma NewWGIFace_chooses_witness :
  ∃ w, (NewWGIFace (K := ex_modules) "wt0" "10.0.0.1/8" 51822 "key" 1280 (Some tt) []).1 = Ok w ∧
    w_userspaceBind w = true ∧ p_filter (tun_params (w_tun w)) = None.
Proof.
  destruct (NewWGIFace (K := ex_modules) "wt0" "10.0.0.1/8" 51822 "key" 1280 (Some tt) []) as [[w|e|] log'] eqn:He;
    [|exfalso; revert He; vm_compute; discriminate..].
  exists w. split; [reflexivity|].
  destruct (NewWGIFace_chooses (K := ex_modules) "wt0" "10.0.0.1/8" 51822 "key" 1280 (Some tt) [] w (f_equal fst He))
    as (_&_&_&_&_&Hn&Hf&Hb). split; [apply Hb; reflexivity|]. rewrite Hf, Hn. reflexivity.
Defined.
