(* ===== verification/TunLink.v ===== *)
(** * What a created interface looks like on Linux

    [iface/tun_link_linux.go] under the devices of [Tun]: the address, the MTU
    and the state of the link after [Create] and [UpdateAddr], whatever link of
    that name there was before. *)
From Stdlib Require Import Ascii.
From S2P Require Import Prelude Host GoStrings GoNet GoCIDR Tun.

Section link.
Context {T : TunEnv}.
(** A failing call does not fail with [EEXIST], which the code takes for a
    success. *)
Definition no_exist : Prop := ∀ n e, fault n = Some e → os_IsExist e = false.

(** The success of a call, by the operator. *)
Lemma bind_Ok {S A B} (m : ST S A) (f : A → ST S B) s b s' :
  (m ≫= f) s = (Ok b, s') → ∃ a s1, m s = (Ok a, s1) ∧ f a s1 = (Ok b, s').
Proof. unfold mbind, ST_bind. destruct (m s) as [[a|e|] s1]; [eauto|done|done]. Qed.
Lemma wrap_call_Ok {S A} pre (m : ST S A) s a s' : wrap_call pre m s = (Ok a, s') → m s = (Ok a, s').
Proof. unfold wrap_call. destruct (m s) as [[?|e|] s1]; congruence. Qed.
Lemma undo_Ok {S A} undo (m : ST S A) s a s' : undo_on_error undo m s = (Ok a, s') → m s = (Ok a, s').
Proof. unfold undo_on_error. destruct (m s) as [[?|e|] s1]; [congruence| |done]. by destruct (undo s1) as [[]]. Qed.

Lemma on_link_Ok {A} (f : link → res (A * link)) h a h' : on_link f h = (Ok a, h') →
  ∃ l l', hs_link h = Some l ∧ f l = Ok (a, l') ∧ hs_link h' = Some l'.
Proof.
  unfold on_link, sys, faulty. destruct (fault (hs_calls h)); [done|]. cbn [hs_link].
  destruct (hs_link h) as [l|]; [|done]. destruct (f l) as [[x l']|e|] eqn:Hf; [|done|done].
  intros [= -> <-]. exists l, l'. by rewrite Hf.
Qed.

Lemma del_addrs_Ok l h h' l0 : del_addrs l h = (Ok tt, h') → hs_link h = Some l0 →
  hs_link h' = Some (mkLinkState (filter (λ x, x ∉ l) (ln_addrs l0)) (ln_mtu l0) (ln_up l0)).
Proof.
  revert h l0. induction l as [|a l IH]; intros h l0; cbn [del_addrs].
  - intros [= <-] ->. f_equal. rewrite filter_keeps; [by destruct l0|]. intros x _. apply not_elem_of_nil.
  - intros (u&h1&Hd%wrap_call_Ok&Hr)%bind_Ok Hl0. apply on_link_Ok in Hd as (l1&l2&Hl1&[= Hl2]&Hh1).
    rewrite Hl0 in Hl1. injection Hl1 as <-. rewrite (IH _ _ Hr Hh1). subst l2. cbn [ln_addrs ln_mtu ln_up]. do 2 f_equal.
    rewrite list_filter_filter. apply list_filter_iff. intros x. set_solver.
Qed.

Lemma unless_exists_Ok pre (f : link → res (unit * link)) h h' : no_exist →
  unless_exists pre (on_link f) h = (Ok tt, h') →
  on_link f h = (Ok tt, h') ∨ ∃ l e, hs_link h = Some l ∧ f l = Err e ∧ os_IsExist e = true ∧ hs_link h' = Some l.
Proof.
  intros Hn. unfold unless_exists. intros (r&h1&Ht&Hr)%bind_Ok. unfold try in Ht.
  destruct (on_link f h) as [[u|e|] h2] eqn:Ho; [| |done]; injection Ht as <- <-.
  - destruct u. unfold mret, ST_ret in Hr. left. congruence.
  - destruct (os_IsExist e) eqn:He; [|done]. unfold mret, ST_ret in Hr. injection Hr as <-. right.
    revert Ho. unfold on_link, sys, faulty. destruct (fault (hs_calls h)) as [e'|] eqn:Hf.
    { intros [= -> <-]. rewrite (Hn _ _ Hf) in He. done. }
    cbn [hs_link]. destruct (hs_link h) as [l|]; [|intros [= <- <-]; by vm_compute in He].
    destruct (f l) as [[x l']|e'|] eqn:Hfl; [done| |done]. intros [= -> <-]. by exists l, e.
Qed.

(** Bringing a link up and setting its MTU only add addresses of the kernel's. *)
Definition by_kernel (autos : list string) : Prop := ∀ a, a ∈ autos → ∃ n, a ∈ auto_addrs n.
Lemma with_auto_addrs n l :
  ∃ more, with_auto (auto_addrs n) l = mkLinkState (ln_addrs l ++ more) (ln_mtu l) (ln_up l) ∧ by_kernel more.
Proof.
  unfold with_auto. destruct l as [addrs mtu []]; cbn [ln_up ln_addrs ln_mtu].
  - eexists. split; [done|]. intros a [_ Ha]%list_elem_of_filter. by exists n.
  - exists []. rewrite app_nil_r. split; [done|]. intros a Ha. by apply not_elem_of_nil in Ha.
Qed.
Lemma by_kernel_app l1 l2 : by_kernel l1 → by_kernel l2 → by_kernel (l1 ++ l2).
Proof. intros H1 H2 a [Ha|Ha]%elem_of_app; auto. Qed.

(** Afterwards the link has the one address, and what the kernel has added to it,
    and is up. *)
Lemma linux_assignAddr_Ok address h h' : no_exist → linux_assignAddr address h = (Ok tt, h') →
  ∃ l addr more, hs_link h = Some l ∧ ParseAddr (WGAddress_String address) = Ok addr ∧ by_kernel more ∧
    hs_link h' = Some (mkLinkState (addr :: more) (ln_mtu l) true).
Proof.
  intros Hn. unfold linux_assignAddr. intros (as_&h1&Hl%wrap_call_Ok&Hr)%bind_Ok.
  apply on_link_Ok in Hl as (l&l'&Hl&[= <- <-]&Hh1).
  apply bind_Ok in Hr as ([]&h2&Hd&Hr). pose proof (del_addrs_Ok _ _ _ _ Hd Hh1) as Hh2.
  rewrite filter_drops in Hh2 by (intros x Hx Hn2; done).
  apply bind_Ok in Hr as (addr&h3&Hp%wrap_call_Ok&Hr). unfold lift in Hp. injection Hp as Hp <-.
  apply bind_Ok in Hr as ([]&h4&Ha&Hr). apply unless_exists_Ok in Ha; [|done].
  apply wrap_call_Ok in Hr. unfold LinkSetUp in Hr. apply on_link_Ok in Hr as (l4&l5&Hl4&[= <-]&Hh').
  destruct (with_auto_addrs (hs_calls h4) (mkLinkState (ln_addrs l4) (ln_mtu l4) true)) as (more&Hw&Hm). rewrite Hw in Hh'.
  cbn [ln_addrs ln_mtu ln_up] in Hh'. exists l, addr, more. split; [done|]. split; [done|]. split; [done|]. rewrite Hh'.
  destruct Ha as [Ha|(l3&e&Hl3&He&_)].
  - apply on_link_Ok in Ha as (l3&l6&Hl3&Hadd&Hh4). rewrite Hh2 in Hl3. injection Hl3 as <-. cbn [ln_addrs] in Hadd.
    rewrite bool_decide_false in Hadd by set_solver. injection Hadd as <-. rewrite Hl4 in Hh4. by injection Hh4 as ->.
  - rewrite Hh2 in Hl3. injection Hl3 as <-. cbn [ln_addrs] in He. by rewrite bool_decide_false in He by set_solver.
Qed.

(** ** The devices *)

Context {Filter : Type}.

Lemma on_host_Ok {D A} (m : ST host A) (d : D) h a s : on_host m (d, h) = (Ok a, s) → ∃ h', m h = (Ok a, h') ∧ s = (d, h').
Proof. unfold on_host. destruct (m h) as [r h']. intros [= -> <-]. eauto. Qed.
Lemma keeps_link {A} (m : ST host A) h a h' :
  (∀ h, hs_link (m h).2 = hs_link h) → m h = (Ok a, h') → hs_link h' = hs_link h.
Proof. intros Hm Hr. specialize (Hm h). by rewrite Hr in Hm. Qed.
Lemma configure_call_link key port h : hs_link (configure_call key port h).2 = hs_link h.
Proof. unfold configure_call, nothing, sys, faulty. by destruct (fault (hs_calls h)). Qed.
Lemma newWGUSPConfigurer_link h : hs_link (newWGUSPConfigurer openUAPI h).2 = hs_link h.
Proof.
  unfold newWGUSPConfigurer, openUAPI, UAPIOpen, UAPIListen, nothing, acquire, sys, faulty, undo_on_error, modify, try, mret, ST_ret, mbind, ST_bind.
  destruct (fault (hs_calls h)); [done|]. cbn [hs_link hs_held hs_calls]. by destruct (fault _).
Qed.

(** The link [Create] makes for a device with address [a]: it is up, with that
    address, and besides only what the kernel adds to a link by itself. *)
Definition configured (a : WGAddress) (mtu : Z) (h : host) : Prop :=
  ∃ addr more, ParseAddr (WGAddress_String a) = Ok addr ∧ by_kernel more ∧
    hs_link h = Some (mkLinkState (addr :: more) mtu true).

Lemma k_Create_Ok (d : tunKernelDevice (Filter := Filter)) h s : no_exist → k_Create (d, h) = (Ok tt, s) →
  configured (p_address (k_params d)) (p_mtu (k_params d)) s.2 ∧ k_params s.1 = k_params d ∧ k_link s.1 = true.
Proof.
  intros Hn. unfold k_Create. intros ([]&s1&(h1&_&->)%wrap_call_Ok%on_host_Ok&H1)%bind_Ok. rewrite run_set_fields in H1.
  apply bind_Ok in H1 as ([]&s2&Ha%wrap_call_Ok&H2). unfold k_assignAddr in Ha. rewrite run_fields in Ha. cbn [k_link k_params] in Ha.
  apply on_host_Ok in Ha as (h2&(l&addr&more&_&Hp&Hk&Hl2)%linux_assignAddr_Ok&->); [|done].
  rewrite run_fields in H2. apply bind_Ok in H2 as ([]&s3&(h3&Hm%wrap_call_Ok&->)%wrap_call_Ok%on_host_Ok&H3).
  unfold LinkSetMTU in Hm. apply on_link_Ok in Hm as (l3&l4&Hl3&[= <-]&Hh3). rewrite Hl2 in Hl3. injection Hl3 as <-.
  destruct (with_auto_addrs (hs_calls h2) (mkLinkState (addr :: more) (p_mtu (k_params d)) true)) as (more2&Hw&Hk2).
  apply on_host_Ok in H3 as (h4&Hc&->). cbn [fst snd k_params k_link ln_addrs ln_mtu ln_up] in *. rewrite Hw in Hh3. split; [|done].
  exists addr, (more ++ more2). split; [done|]. split; [by apply by_kernel_app|]. rewrite app_comm_cons, <-Hh3. eapply (keeps_link _ _ _ _ (configure_call_link _ _) Hc).
Qed.

Lemma u_Create_Ok (d : tunUSPDevice (Filter := Filter)) h s : no_exist → u_Create (d, h) = (Ok tt, s) →
  configured (p_address (u_params d)) (p_mtu (u_params d)) s.2 ∧ u_params s.1 = u_params d.
Proof.
  intros Hn. unfold u_Create. rewrite run_fields. intros ([]&s1&(h1&Hc&->)%on_host_Ok&H1)%bind_Ok.
  assert (hs_link h1 = Some (fresh_link (p_mtu (u_params d)))) as Hl1.
  { revert Hc. unfold CreateTUN, sys, faulty. destruct (fault (hs_calls h)); [done|]. cbn [hs_link].
    destruct (hs_link h); [done|]. by intros [= <-]. }
  rewrite run_set_fields in H1. apply bind_Ok in H1 as ([]&s2&(h2&[= <-]&->)%on_host_Ok&H2). rewrite run_set_fields in H2.
  apply bind_Ok in H2 as ([]&s3&Ha%undo_Ok&H3). unfold u_assignAddr in Ha. rewrite run_fields in Ha. cbn [u_params] in Ha.
  apply on_host_Ok in Ha as (h3&(l&addr&more&Hl&Hp&Hk&Hl3)%linux_assignAddr_Ok&->); [|done].
  cbn [hold hs_link] in Hl. rewrite Hl1 in Hl. injection Hl as <-.
  apply bind_Ok in H3 as (ls&s4&(h4&Hu&->)%on_host_Ok&H4). rewrite run_set_fields in H4.
  apply undo_Ok, on_host_Ok in H4 as (h5&Hcf&->). cbn [fst snd u_params fresh_link ln_mtu] in *. split; [|done].
  exists addr, more. split; [done|]. split; [done|]. rewrite <-Hl3.
  rewrite (keeps_link _ _ _ _ (configure_call_link _ _) Hcf). exact (keeps_link _ _ _ _ newWGUSPConfigurer_link Hu).
Qed.

Lemma tun_UpdateAddr_Ok a (t : wgTunDevice (Filter := Filter)) h t' h' l : no_exist → is_netstack t = false →
  hs_link h = Some l → tun_UpdateAddr a (t, h) = (Ok tt, (t', h')) → configured a (ln_mtu l) h' ∧ WgAddress t' = a.
Proof.
  intros Hn Ht Hl. unfold tun_UpdateAddr, dispatch, focus. destruct t as [d|d|d]; [| |done].
  - destruct (k_UpdateAddr a (d, h)) as [r [d1 h1]] eqn:Hk. intros [= -> <- <-]. unfold k_UpdateAddr in Hk.
    rewrite run_set_fields in Hk. unfold k_assignAddr in Hk. rewrite run_fields in Hk. cbn [k_link k_params set_address p_address] in Hk.
    destruct (k_link d); [|done]. apply on_host_Ok in Hk as (h2&(l2&addr&more&Hl2&Hp&Hm&Hh)%linux_assignAddr_Ok&[= -> ->]); [|done].
    rewrite Hl in Hl2. injection Hl2 as <-. split; [by exists addr, more|done].
  - destruct (u_UpdateAddr a (d, h)) as [r [d1 h1]] eqn:Hk. intros [= -> <- <-]. unfold u_UpdateAddr in Hk.
    rewrite run_set_fields in Hk. unfold u_assignAddr in Hk. rewrite run_fields in Hk. cbn [u_params set_address p_address] in Hk.
    apply on_host_Ok in Hk as (h2&(l2&addr&more&Hl2&Hp&Hm&Hh)%linux_assignAddr_Ok&[= -> ->]); [|done].
    rewrite Hl in Hl2. injection Hl2 as <-. split; [by exists addr, more|done].
Qed.

(** C23. When [Create] succeeds on Linux, over the kernel's device and over a tun
    interface alike, the link of the interface's name is up, with the configured
    MTU and the configured address, and besides only addresses the kernel itself
    adds to a link that is up, whatever link and addresses there were before. A
    successful [UpdateAddr] then leaves the new
    address in that place, on a link that is up with the same MTU. This is said
    of a host whose failing calls do not fail with [EEXIST], which the code
    takes for success. *)
Theorem create_configures_link (t : wgTunDevice (Filter := Filter)) h t' h' : no_exist → is_netstack t = false →
  tun_Create (t, h) = (Ok tt, (t', h')) →
  configured (WgAddress t) (p_mtu (tun_params t)) h' ∧ tun_params t' = tun_params t ∧
  ∀ a t2 h2, tun_UpdateAddr a (t', h') = (Ok tt, (t2, h2)) → configured a (p_mtu (tun_params t)) h2 ∧ WgAddress t2 = a.
Proof.
  intros Hn Ht Hc. assert (configured (WgAddress t) (p_mtu (tun_params t)) h' ∧ tun_params t' = tun_params t ∧ is_netstack t' = false)
    as ((addr&more&Hp&Hm&Hl)&Hpar&Ht').
  { revert Hc. unfold tun_Create, dispatch, focus, WgAddress. destruct t as [d|d|d]; [| |done].
    - destruct (k_Create (d, h)) as [r [d1 h1]] eqn:Hk. intros [= -> <- <-]. apply k_Create_Ok in Hk as (?&?&_); done.
    - destruct (u_Create (d, h)) as [r [d1 h1]] eqn:Hk. intros [= -> <- <-]. apply u_Create_Ok in Hk as (?&?); done. }
  split; [by exists addr, more|]. split; [done|]. intros a t2 h2 Hu. by apply (tun_UpdateAddr_Ok a _ _ _ _ _ Hn Ht' Hl) in Hu.
Qed.
End link.

(** A link left behind by another program is replaced, or its addresses are. *)
Definition ex_stale : host := mkHost (Some (mkLinkState ["192.168.1.1/24"; "172.16.0.9/16"] 9000 false)) ∅ 0.
Lemma create_configures_link_witness :
  let t := Kernel (newTunDevice (Filter := unit) "wt0" ex_address 51822 "key" 1280) in
  configured (T := ex_env) ex_address 1280 (tun_Create (T := ex_env) (L := linux_link (T := ex_env)) (t, ex_stale)).2.2.
Proof.
  intros t. destruct (tun_Create (T := ex_env) (L := linux_link (T := ex_env)) (t, ex_stale)) as [r [t' h']] eqn:Hc.
  assert (r = Ok tt) as -> by (apply (f_equal fst) in Hc; vm_compute in Hc; symmetry; exact Hc).
  exact (proj1 (create_configures_link (T := ex_env) t ex_stale t' h' ltac:(discriminate) eq_refl Hc)).
Defined.
