(* ===== verification/Platforms.v ===== *)
(** * [iface/tun_{darwin,windows,android,ios}.go], [iface_*.go]: the other platforms

    On these platforms the interface is a wireguard-go device on a tun interface
    that the system makes by name, or that an app hands over as a descriptor.
    The host is that of [Tun]; a mobile interface has no link. *)
From Stdlib Require Import Ascii.
From S2P Require Import Prelude Host GoStrings GoNet GoCIDR NetEnv DeviceWrapper Tun.

Section platforms.
Context {T : TunEnv} {Filter : Type}.

(** [tunDevice] of all four, [wgTunDevice] on Android. *)
Record tunDevice := mkTunDevice {
  o_params : params (Filter := Filter); o_device : bool; o_wrapper : bool; o_udpMux : bool;
  o_configurer : option bool           (** and whether it has a listener *)
}.
Definition newTunDevice (name : string) (address : WGAddress) (port : Z) (key : string) (mtu : Z)
    (filterFn : option Filter) : tunDevice :=
  mkTunDevice (mkParams name address port key mtu filterFn) false false false None.

Definition set_device (b : bool) (d : tunDevice) := mkTunDevice (o_params d) b (o_wrapper d) (o_udpMux d) (o_configurer d).
Definition set_wrapper (d : tunDevice) := mkTunDevice (o_params d) (o_device d) true (o_udpMux d) (o_configurer d).
Definition set_mux (d : tunDevice) := mkTunDevice (o_params d) (o_device d) (o_wrapper d) true (o_configurer d).
Definition set_configurer (l : bool) (d : tunDevice) := mkTunDevice (o_params d) (o_device d) (o_wrapper d) (o_udpMux d) (Some l).
Definition set_params (f : params → params) (d : tunDevice) :=
  mkTunDevice (f (o_params d)) (o_device d) (o_wrapper d) (o_udpMux d) (o_configurer d).

(** [exec.Command(args).CombinedOutput()]; a call of the Windows API. *)
Definition exec_Command (args : list string) : ST host unit := nothing.
Definition api_call (what : string) : ST host unit := nothing.
(** [fmt.Errorf("pre%s", err)] *)
Definition errorf_call (pre : string) (m : ST host unit) : ST host unit := λ h,
  match m h with
  | (Err e, h) => (Err (Errorf (pre +:+ error_text e)), h)
  | r => r
  end.

(** The addresses the platforms assign. Windows asks the tun device, which must
    have been made; [MustParsePrefix] panics when the address's own text is no
    prefix. *)
Definition darwin_assignAddr (p : params (Filter := Filter)) : ST host unit :=
  let ip := IP_String (wga_IP (p_address p)) in
  _ ← exec_Command ["ifconfig"; p_name p; "inet"; ip; ip];
  _ ← try (exec_Command ["ifconfig"; p_name p; "inet6"; "fe80::/64"]);
  exec_Command ["route"; "add"; "-net"; IPNet_String (wga_Network (p_address p)); "-interface"; p_name p].
Definition windows_assignAddr (p : params (Filter := Filter)) : ST host unit :=
  let text := WGAddress_String (p_address p) in
  match netip_ParsePrefix text with
  | Some _ => api_call ("SetIPAddresses " +:+ text)
  | None => lift Panic
  end.

(** What [Create] does once there is a tun device: the wireguard-go device, the
    interface's settings, the configurer with the platform's listener. *)
Definition attach (openUAPI : ST host unit) (settings : params → ST host unit) : ST (tunDevice * host) unit :=
  _ ← set_fields set_wrapper;
  _ ← on_host NewDevice;
  _ ← set_fields (set_device true);
  d ← fields;
  _ ← undo_on_error (on_host device_Close) (on_host (settings (o_params d)));
  l ← on_host (newWGUSPConfigurer openUAPI);
  _ ← set_fields (set_configurer l);
  undo_on_error (_ ← on_host device_Close; on_host (configurer_close l))
    (on_host (configure_call (p_key (o_params d)) (p_port (o_params d)))).

Definition darwin_Create : ST (tunDevice * host) unit :=
  d ← fields;
  _ ← on_host (CreateTUN (p_mtu (o_params d)));
  attach openUAPI darwin_assignAddr.

Definition windows_settings (p : params (Filter := Filter)) : ST host unit :=
  _ ← errorf_call "got error when getting ip interface " (api_call "IPInterface");
  _ ← errorf_call "got error when getting setting the interface mtu: " (api_call "Set");
  windows_assignAddr p.
Definition windows_Create : ST (tunDevice * host) unit :=
  d ← fields;
  _ ← on_host (CreateTUN (p_mtu (o_params d)));
  attach windows_openUAPI windows_settings.

(** A tun device over a descriptor, which is closed when there is none. *)
Definition close_fd : ST host unit := _ ← try (close_call (λ h, (Ok tt, release {[RFd]} h))); mret tt.
Definition tun_from_fd : ST host unit := undo_on_error close_fd (sys (λ h, (Ok tt, hold {[RTun]} (release {[RFd]} h)))).

(** Android: the app configures the interface and gives its descriptor; its name
    is known then. *)
Definition routesToString (routes : list string) : string := strings_Join routes ";".
Definition searchDomainsToString (searchDomains : list string) : string := strings_Join searchDomains ";".
Class TunAdapter := { ad_allows : string → Z → string → string → string → option error; ad_name : string }.
Definition ConfigureInterface {AD : TunAdapter} (address : string) (mtu : Z) (dns domains routes : string) : ST host unit :=
  match ad_allows address mtu dns domains routes with
  | Some e => lift (Err e)
  | None => acquire {[RFd]}
  end.
Definition android_Create {AD : TunAdapter} (routes : list string) (dns : string) (searchDomains : list string) :
    ST (tunDevice * host) unit :=
  d ← fields;
  _ ← on_host (ConfigureInterface (WGAddress_String (p_address (o_params d))) (p_mtu (o_params d)) dns
                 (searchDomainsToString searchDomains) (routesToString routes));
  _ ← on_host tun_from_fd;
  _ ← set_fields (set_params (λ p, mkParams ad_name (p_address p) (p_port p) (p_key p) (p_mtu p) (p_filter p)));
  attach openUAPI (λ _, mret tt).

(** iOS: the descriptor the app has is duplicated. *)
Definition ios_Create : ST (tunDevice * host) unit :=
  _ ← on_host (acquire {[RFd]});
  _ ← on_host (undo_on_error close_fd nothing);
  _ ← on_host tun_from_fd;
  attach openUAPI (λ _, mret tt).

(** [Up()], of a device that is not checked to be there. *)
Definition o_Up : ST (tunDevice * host) unit :=
  d ← fields;
  if negb (o_device d) then lift Panic
  else
    _ ← on_host device_Up;
    _ ← on_host GetICEMux_call;
    set_fields set_mux.

(** [Close()] forgets the device. *)
Definition o_Close : ST (tunDevice * host) unit :=
  d ← fields;
  _ ← (match o_configurer d with Some l => on_host (configurer_close l) | None => mret tt end);
  _ ← (if o_device d then _ ← on_host device_Close; set_fields (set_device false) else mret tt);
  if o_udpMux d then on_host mux_Close else mret tt.

(** ** Each platform's methods *)

Definition tunDevice_WgAddress (d : tunDevice) : WGAddress := p_address (o_params d).
Definition tunDevice_DeviceName (d : tunDevice) : string := p_name (o_params d).

(** macOS *)
Definition darwin_newTunDevice := newTunDevice.
Definition darwin_Up := o_Up.
Definition darwin_UpdateAddr (address : WGAddress) : ST (tunDevice * host) unit :=
  _ ← set_fields (set_params (set_address address)); d ← fields; on_host (darwin_assignAddr (o_params d)).
Definition darwin_Close := o_Close.
Definition darwin_WgAddress := tunDevice_WgAddress.
Definition darwin_DeviceName := tunDevice_DeviceName.
Definition darwin_Wrapper := o_wrapper.

(** Windows: without a tun device, which is made when the wrapper is, assigning
    an address panics. *)
Definition windows_newTunDevice := newTunDevice.
Definition windows_Up := o_Up.
Definition windows_UpdateAddr (address : WGAddress) : ST (tunDevice * host) unit :=
  _ ← set_fields (set_params (set_address address));
  d ← fields;
  if o_wrapper d then on_host (windows_assignAddr (o_params d)) else lift Panic.
Definition windows_Close := o_Close.
Definition windows_WgAddress := tunDevice_WgAddress.
Definition windows_DeviceName := tunDevice_DeviceName.
Definition windows_Wrapper := o_wrapper.

(** Android: the name is the app's, the address is never updated. *)
Definition android_newTunDevice (address : WGAddress) (port : Z) (key : string) (mtu : Z) (filterFn : option Filter) : tunDevice :=
  newTunDevice EmptyString address port key mtu filterFn.
Definition android_Up := o_Up.
Definition android_UpdateAddr (addr : WGAddress) : ST (tunDevice * host) unit := mret tt.
Definition android_Close := o_Close.
Definition android_Device := o_device.
Definition android_DeviceName := tunDevice_DeviceName.
Definition android_WgAddress := tunDevice_WgAddress.
Definition android_Wrapper := o_wrapper.

(** iOS: the app's tun interface has its MTU. *)
Definition ios_newTunDevice (name : string) (address : WGAddress) (port : Z) (key : string) (filterFn : option Filter) : tunDevice :=
  newTunDevice name address port key 0 filterFn.
Definition ios_Up := o_Up.
Definition ios_UpdateAddr (addr : WGAddress) : ST (tunDevice * host) unit := mret tt.
Definition ios_Close := o_Close.
Definition ios_Device := o_device.
Definition ios_DeviceName := tunDevice_DeviceName.
Definition ios_WgAddress := tunDevice_WgAddress.
Definition ios_Wrapper := o_wrapper.

Inductive platform :=
| Darwin
| Windows
| Android (routes : list string) (dns : string) (searchDomains : list string)
| IOS.

(** The methods of [wgTunDevice], by platform. *)
Definition o_Create {AD : TunAdapter} (p : platform) : ST (tunDevice * host) unit :=
  match p with
  | Darwin => darwin_Create
  | Windows => windows_Create
  | Android routes dns searchDomains => android_Create routes dns searchDomains
  | IOS => ios_Create
  end.
Definition platform_Up (p : platform) : ST (tunDevice * host) unit :=
  match p with Darwin => darwin_Up | Windows => windows_Up | Android _ _ _ => android_Up | IOS => ios_Up end.
Definition o_UpdateAddr (p : platform) (address : WGAddress) : ST (tunDevice * host) unit :=
  match p with
  | Darwin => darwin_UpdateAddr address
  | Windows => windows_UpdateAddr address
  | Android _ _ _ => android_UpdateAddr address
  | IOS => ios_UpdateAddr address
  end.
Definition platform_Close (p : platform) : ST (tunDevice * host) unit :=
  match p with Darwin => darwin_Close | Windows => windows_Close | Android _ _ _ => android_Close | IOS => ios_Close end.
Lemma platform_Up_eq p : platform_Up p = o_Up.
Proof. by destruct p. Qed.
Lemma platform_Close_eq p : platform_Close p = o_Close.
Proof. by destruct p. Qed.

(** [NewWGIFace] and [Create], the interface that is made: on a mobile the
    arguments of the app are looked at. *)
Definition desktop_NewWGIFace (getenv : string → string) (iFaceName address : string) (wgPort : Z) (wgPrivKey : string)
    (mtu : Z) (filterFn : option Filter) : res (tunDevice + tunNetstackDevice (Filter := Filter)) :=
  wgAddress ← parseWGAddress address;
  if netstack_IsEnabled getenv
  then Ok (inr (newTunNetstackDevice iFaceName wgAddress wgPort wgPrivKey mtu (ListenAddr getenv) filterFn))
  else Ok (inl (newTunDevice iFaceName wgAddress wgPort wgPrivKey mtu filterFn)).
Definition darwin_NewWGIFace := desktop_NewWGIFace.
Definition android_NewWGIFace (iFaceName address : string) (wgPort : Z) (wgPrivKey : string) (mtu : Z)
    (args : option TunAdapter) (filterFn : option Filter) : res (tunDevice * TunAdapter) :=
  wgAddress ← parseWGAddress address;
  match args with
  | Some tunAdapter => Ok (android_newTunDevice wgAddress wgPort wgPrivKey mtu filterFn, tunAdapter)
  | None => Panic
  end.
Definition ios_NewWGIFace (iFaceName address : string) (wgPort : Z) (wgPrivKey : string) (mtu : Z)
    (args : option Z) (filterFn : option Filter) : res (tunDevice * Z) :=
  wgAddress ← parseWGAddress address;
  match args with
  | Some tunFd => Ok (ios_newTunDevice iFaceName wgAddress wgPort wgPrivKey filterFn, tunFd)
  | None => Panic
  end.

(** [WGIface.Create] is for the other platforms, [CreateOnAndroid] for Android. *)
Definition iface_Create_on {AD : TunAdapter} (p : platform) : ST (tunDevice * host) unit :=
  match p with
  | Android _ _ _ => lift (Err (Errorf "this function has not implemented on this platform"))
  | _ => o_Create p
  end.

(** [CreateOnAndroid(routes, dns, searchDomains)] *)
Definition android_CreateOnAndroid {AD : TunAdapter} := android_Create.
Definition darwin_CreateOnAndroid : ST (tunDevice * host) unit :=
  lift (Err (Errorf "this function has not implemented on this platform")).
Definition windows_CreateOnAndroid : ST (tunDevice * host) unit :=
  lift (Err (Errorf "this function has not implemented on non mobile")).
Definition ios_CreateOnAndroid : ST (tunDevice * host) unit :=
  lift (Err (Errorf "this function has not implemented on this platform")).

(** [GetInterfaceGUIDString()], on Windows. *)
Definition getInterfaceGUIDString (guid : res string) (d : tunDevice) : res string :=
  if o_wrapper d then guid else Err (Errorf "interface has not been initialized yet").
Definition GetInterfaceGUIDString (guid : res string) (t : tunDevice + tunNetstackDevice (Filter := Filter)) : res string :=
  match t with inl d => getInterfaceGUIDString guid d | inr _ => Panic end.
End platforms.

(** ** A session on each *)

(** On Windows an address whose text is no prefix cannot be assigned. *)
Definition bad_address (p : platform) (a : WGAddress) : bool :=
  match p with Windows => bool_decide (netip_ParsePrefix (WGAddress_String a) = None) | _ => false end.

Section sessions.
Context {T : TunEnv} {AD : TunAdapter} {Filter : Type}.

Definition o_inv (s : tunDevice (Filter := Filter) * host) : Prop :=
  go_inv false (o_device s.1) (o_udpMux s.1) (o_configurer s.1) false s.2.
Definition fresh (d : tunDevice (Filter := Filter)) : Prop :=
  o_device d = false ∧ o_udpMux d = false ∧ o_configurer d = None.

(** A step that leaves what is held alone, and panics or fails when it is not
    [safe]: when no call fails, it panics. *)
Definition settles (safe : bool) (m : ST host unit) : Prop := ∀ h,
  hs_held (m h).2 = hs_held h ∧ (hs_link (m h).2 = None ↔ hs_link h = None) ∧
  if safe then (m h).1 ≠ Panic else is_ok (m h).1 = false ∧ (¬ call_fails → (m h).1 = Panic).

Lemma keeps_nothing : keeps nothing.
Proof. intros h. unfold nothing, sys, faulty. by destruct (fault (hs_calls h)). Qed.
Lemma settles_darwin p : settles true (darwin_assignAddr (Filter := Filter) p).
Proof.
  unfold darwin_assignAddr. apply keeps_bind; [apply keeps_nothing|]. intros _.
  apply keeps_bind; [apply keeps_try, keeps_nothing|]. intros _. apply keeps_nothing.
Qed.
Lemma settles_windows p :
  settles (negb (bad_address Windows (p_address p))) (windows_assignAddr (Filter := Filter) p).
Proof.
  unfold windows_assignAddr, bad_address. destruct (netip_ParsePrefix _) as [x|]; [|by intros h].
  rewrite bool_decide_false by done. apply keeps_nothing.
Qed.
Lemma settles_after safe pre what m : settles safe m → settles safe (_ ← errorf_call pre (api_call what); m).
Proof.
  intros Hm h. unfold errorf_call, api_call, nothing, sys, faulty, mbind, ST_bind. destruct (fault (hs_calls h)) as [e|] eqn:Hf.
  - split; [done|]. split; [done|]. destruct safe; [done|]. split; [done|]. intros []. by eexists _, e.
  - exact (Hm (mkHost (hs_link h) (hs_held h) (S (hs_calls h)))).
Qed.
Lemma settles_windows_settings p :
  settles (negb (bad_address Windows (p_address p))) (windows_settings (Filter := Filter) p).
Proof. apply settles_after, settles_after, settles_windows. Qed.

Lemma go_inv_settles safe m dev mux cfg px h : settles safe m → go_inv false dev mux cfg px h → go_inv false dev mux cfg px (m h).2.
Proof.
  intros Hm (Ho&Hp&Hl). destruct (Hm h) as (Hh&Hl'&_). unfold go_inv. rewrite Hh. split; [done|]. split; [done|]. tauto.
Qed.

(** A device is attached to the tun interface, or everything is closed. *)
Lemma attach_spec open settings safe (d : tunDevice (Filter := Filter)) h :
  opens_uapi false open → settles safe (settings (o_params d)) → o_udpMux d = false → o_configurer d = None →
  go_inv false true false None false h →
  let '(r, s) := attach open settings (d, h) in
  (if safe then r ≠ Panic else is_ok r = false ∧ (¬ call_fails → r = Panic)) ∧
  (r ≠ Panic → o_inv s) ∧ (is_ok r = true → o_device s.1 = true ∧ o_wrapper s.1 = true).
Proof.
  intros Hop Hk Hm Hc Hi. destruct d as [p dev w mux cfg]. cbn [o_udpMux o_configurer o_params] in *. subst.
  unfold attach. rewrite run_set_fields, run_on_host.
  pose proof (go_inv_NewDevice _ _ _ _ _ _ Hi) as Hi2.
  destruct (NewDevice h) as [r h2] eqn:Hn. injection Hn as <- <-. cbn [snd] in Hi2. set (h2 := hold _ h) in *. clearbody h2.
  rewrite run_set_fields, run_fields, run_undo, run_on_host_last.
  cbn [set_device set_wrapper o_params o_device o_wrapper o_udpMux o_configurer].
  pose proof (go_inv_settles _ _ _ _ _ _ h2 Hk Hi2) as Hi3. destruct (Hk h2) as (_&_&Hp3).
  destruct (settings p h2) as [[?|e|] h3]; cbn [fst snd is_ok] in *.
  2: { pose proof (go_inv_device_Close _ _ _ _ _ _ Hi3) as Hi4. destruct (device_Close h3) as [r h4] eqn:Hdc.
       injection Hdc as <- <-. destruct safe; [split; [done|]|split; [by split; [|intros Hf; by destruct (proj2 Hp3 Hf)]|]];
       (split; [|done]; intros _; by apply (go_inv_weaken _ false true false false None)). }
  2: { destruct safe; [done|]. done. }
  destruct safe; [|by destruct Hp3].
  rewrite run_on_host. pose proof (go_inv_uapi _ _ _ _ _ _ Hop Hi3) as Hu.
  destruct (newWGUSPConfigurer open h3) as [r h4]. destruct Hu as (l&->&Hi4). rewrite run_set_fields.
  rewrite run_undo_host. pose proof (go_inv_configure_or_close _ _ _ _ _ (p_key p) (p_port p) Hi4) as Hend.
  destruct (undo_on_error _ _ h4) as [r h5]. destruct Hend. done.
Qed.

(** Descriptors: held until they are a device, or closed. *)
Definition with_fd (h h1 : host) : Prop := hs_held h1 = {[RFd]} ∪ hs_held h ∧ hs_link h1 = hs_link h.
Lemma go_inv_close_fd h h1 : go_inv false false false None false h → with_fd h h1 →
  go_inv false false false None false (close_fd h1).2 ∧ (close_fd h1).1 = Ok tt.
Proof.
  intros (Ho&_&Hl) [Hh1 Hl1]. unfold close_fd. destruct (try_close_release_spec {[RFd]} h1) as (Hr&Hl2&Hh2&Hk2).
  split; [|done]. split; [|split]; [|done|].
  - intros r Hr2. apply Hh2 in Hr2 as [Hr2 Hc]. rewrite Hh1 in Hr2. destruct (decide (r = RFd)) as [->|Hne]; [apply Hc; set_solver|].
    apply Ho. set_solver.
  - rewrite Hl2, Hl1. intros _. apply Hl. intros Hr'. by specialize (Ho _ Hr').
Qed.
Lemma with_fd_acquire h :
  match acquire {[RFd]} h with
  | (Ok _, h1) => with_fd h h1
  | (Err _, h1) => hs_held h1 = hs_held h ∧ hs_link h1 = hs_link h
  | (Panic, _) => False
  end.
Proof. unfold acquire, sys, faulty. by destruct (fault (hs_calls h)). Qed.
Lemma go_inv_same h h1 : hs_held h1 = hs_held h → hs_link h1 = hs_link h →
  go_inv false false false None false h → go_inv false false false None false h1.
Proof. unfold go_inv. by intros -> ->. Qed.

Lemma tun_from_fd_spec h h1 : go_inv false false false None false h → with_fd h h1 →
  go_inv false (is_ok (tun_from_fd h1).1) false None false (tun_from_fd h1).2 ∧ (tun_from_fd h1).1 ≠ Panic.
Proof.
  intros Hi Hfd. unfold tun_from_fd, undo_on_error, sys, faulty. destruct (fault (hs_calls h1)) as [e|].
  - set (h2 := mkHost _ _ _). assert (with_fd h h2) as Hfd2 by done.
    destruct (go_inv_close_fd h h2 Hi Hfd2) as [Hi2 Hr]. destruct (close_fd h2) as [r h3]. cbn [fst snd] in *. by subst r.
  - cbn [fst snd is_ok]. split; [|done]. destruct Hfd as [Hh1 Hl1], Hi as (Ho&_&Hl).
    unfold go_inv. cbn [hold release hs_held hs_link]. rewrite Hh1. split; [|split]; [|done|].
    + intros r [->%elem_of_singleton|[Hr Hn]%elem_of_difference]%elem_of_union; [done|].
      assert (r ∈ hs_held h) as Hr' by set_solver. specialize (Ho _ Hr'). by destruct r.
    + intros Hn. exfalso. set_solver.
Qed.

(** Every platform's [Create]: what is held is the device's, and a success has
    one; only a bad address panics. *)
Lemma o_Create_spec p d h : fresh d → tidy false h →
  let '(r, s) := o_Create p (d, h) in
  (if bad_address p (p_address (o_params d)) then is_ok r = false ∧ (¬ call_fails → hs_link h = None → r = Panic) else r ≠ Panic) ∧
  (r ≠ Panic → o_inv s) ∧ (is_ok r = true → o_device s.1 = true ∧ o_wrapper s.1 = true).
Proof.
  intros (Hd&Hm&Hc) Hi%tidy_go_inv.
  assert (∀ h', go_inv false false false None false h' → o_inv (d, h')) as Hsame.
  { intros h' Hi'. unfold o_inv. cbn [fst snd]. by rewrite Hd, Hm, Hc. }
  destruct p as [| |routes dns domains|]; cbn [o_Create].
  - unfold darwin_Create. rewrite run_fields, run_on_host. destruct (go_inv_CreateTUN _ _ _ _ (p_mtu (o_params d)) h Hi) as [Hi1 Hp1].
    destruct (CreateTUN _ h) as [[?|e|] h1]; cbn [fst snd is_ok bad_address] in *; [|by split; [|split; [intros _; apply Hsame|]]|done].
    exact (attach_spec openUAPI darwin_assignAddr true d h1 (opens_openUAPI _) (settles_darwin _) Hm Hc Hi1).
  - unfold windows_Create. rewrite run_fields, run_on_host. destruct (go_inv_CreateTUN _ _ _ _ (p_mtu (o_params d)) h Hi) as [Hi1 Hp1].
    destruct (CreateTUN _ h) as [[?|e|] h1] eqn:Htun; cbn [fst snd is_ok] in *; [| |done].
    + pose proof (attach_spec windows_openUAPI windows_settings _ d h1 (opens_UAPIListen _) (settles_windows_settings _) Hm Hc Hi1) as Ha.
      destruct (attach _ _ _) as [r s]. destruct (bad_address Windows _); cbn [negb] in *; [|done].
      destruct Ha as ([H1 H2]&H3). split; [|done]. split; [done|]. intros Hf _. by apply H2.
    + split; [|by split; [intros _; apply Hsame|]]. destruct (bad_address _ _); [|done]. split; [done|]. intros Hf Hl. exfalso.
      revert Htun. unfold CreateTUN, sys, faulty. destruct (fault (hs_calls h)) as [e'|] eqn:Hfe; [destruct Hf; by eexists _, e'|].
      cbn [hs_link]. by rewrite Hl.
  - unfold android_Create. rewrite run_fields, run_on_host. unfold ConfigureInterface. cbn [bad_address].
    destruct (ad_allows _ _ _ _ _) as [e|]; [unfold lift; by split; [|split; [intros _; apply Hsame|]]|].
    pose proof (with_fd_acquire h) as Ha. destruct (acquire {[RFd]} h) as [[?|e|] h1]; [|destruct Ha as [? ?]|done].
    2: { split; [done|]. split; [|done]. intros _. apply Hsame. by apply (go_inv_same h). }
    rewrite run_on_host. destruct (tun_from_fd_spec h h1 Hi Ha) as [Hi2 Hp2].
    destruct (tun_from_fd h1) as [[?|e|] h2]; cbn [fst snd is_ok] in *; [|by split; [|split; [intros _; apply Hsame|]]|done].
    rewrite run_set_fields. apply (attach_spec _ _ true); [apply opens_openUAPI|by intros ?|done..].
  - unfold ios_Create. rewrite run_on_host. cbn [bad_address].
    pose proof (with_fd_acquire h) as Ha. destruct (acquire {[RFd]} h) as [[?|e|] h1]; [|destruct Ha as [? ?]|done].
    2: { split; [done|]. split; [|done]. intros _. apply Hsame. by apply (go_inv_same h). }
    rewrite run_on_host. unfold undo_on_error at 1. destruct (keeps_nothing h1) as (Hh2&Hl2&Hp2).
    assert (with_fd h (nothing h1).2) as Hfd2.
    { unfold nothing, sys, faulty. by destruct (fault (hs_calls h1)). }
    destruct (nothing h1) as [[?|e|] h2]; cbn [fst snd] in *; [| |done].
    2: { destruct (go_inv_close_fd h h2 Hi Hfd2) as [Hi3 Hr]. destruct (close_fd h2) as [r h3]. cbn [fst snd] in *. subst r.
         split; [done|]. split; [intros _; by apply Hsame|done]. }
    rewrite run_on_host. destruct (tun_from_fd_spec h h2 Hi Hfd2) as [Hi3 Hp3].
    destruct (tun_from_fd h2) as [[?|e|] h3]; cbn [fst snd is_ok] in *; [|by split; [|split; [intros _; apply Hsame|]]|done].
    apply (attach_spec _ _ true); [apply opens_openUAPI|by intros ?|done..].
Qed.

(** ** Using the device *)

Inductive o_op := OUp | OUpdateAddr (address : WGAddress) | OClose.
Definition o_run (p : platform) (o : o_op) : ST (tunDevice (Filter := Filter) * host) unit :=
  match o with OUp => platform_Up p | OUpdateAddr a => o_UpdateAddr p a | OClose => platform_Close p end.
Fixpoint o_runs (p : platform) (os : list o_op) : ST (tunDevice (Filter := Filter) * host) unit :=
  match os with [] => mret tt | o :: os => _ ← try (o_run p o); o_runs p os end.
(** A session ends with [Close], after a [Create] that failed too. *)
Definition o_session (p : platform) (os : list o_op) : ST (tunDevice (Filter := Filter) * host) unit :=
  c ← try (o_Create p);
  _ ← match c with inl _ => o_runs p os | inr _ => mret tt end;
  platform_Close p.

(** Whether the operations bring the device up after closing it, or set a bad
    address. *)
Fixpoint misuses (p : platform) (dev : bool) (os : list o_op) : bool :=
  match os with
  | [] => false
  | OUp :: os => negb dev || misuses p dev os
  | OUpdateAddr a :: os => bad_address p a || misuses p dev os
  | OClose :: os => misuses p false os
  end.

Lemma o_Close_run (d : tunDevice (Filter := Filter)) h :
  o_Close (d, h) = let '(_, (_, h')) := usp_Close o_configurer o_device o_udpMux (d, h) in
    (Ok tt, (set_device false d, h')).
Proof.
  rewrite usp_Close_run. cbv zeta.
  assert (∀ h, mux_Close h = (Ok tt, (mux_Close h).2)) as Hm.
  { intros h0. destruct (mux_Close_spec h0) as (Hr&_). destruct (mux_Close h0) as [r h1]. cbn [fst snd] in *. by subst r. }
  unfold o_Close. rewrite run_fields, run_bind.
  assert ((match o_configurer d with Some l => on_host (configurer_close l) | None => mret tt end : ST (tunDevice (Filter := Filter) * host) unit) (d, h) =
    (Ok tt, (d, match o_configurer d with Some l => (configurer_close l h).2 | None => h end))) as ->.
  { destruct (o_configurer d) as [l|]; [rewrite run_on_host_last|done]. destruct (configurer_close_spec l h) as (Hr&_).
    destruct (configurer_close l h) as [r h1]. cbn [fst snd] in *. by subst r. }
  set (h1 := match o_configurer d with Some _ => _ | None => _ end). clearbody h1. rewrite run_bind.
  assert ((if o_device d then _ ← on_host device_Close; set_fields (set_device false) else mret tt : ST (tunDevice (Filter := Filter) * host) unit) (d, h1) =
    (Ok tt, (set_device false d, if o_device d then (device_Close h1).2 else h1))) as ->.
  { destruct d as [q [] w mux cfg]; done. }
  set (h2 := if o_device d then _ else _). clearbody h2.
  destruct (o_udpMux d); [rewrite run_on_host_last, Hm|]; done.
Qed.
Lemma o_Close_spec (d : tunDevice (Filter := Filter)) h : o_inv (d, h) →
  let '(r, s) := o_Close (d, h) in
  r = Ok tt ∧ s.1 = set_device false d ∧ go_inv false false false None false s.2.
Proof.
  intros Hi. rewrite o_Close_run. pose proof (usp_Close_spec false o_device o_udpMux o_configurer false d h Hi) as Hc.
  destruct (usp_Close _ _ _ (d, h)) as [r [d' h']]. by destruct Hc as (_&?).
Qed.

Lemma o_Up_spec (d : tunDevice (Filter := Filter)) h : o_inv (d, h) →
  let '(r, s) := o_Up (d, h) in
  o_inv s ∧ o_device s.1 = o_device d ∧ o_wrapper s.1 = o_wrapper d ∧ (r = Panic ↔ o_device d = false).
Proof.
  intros Hi. pose proof (usp_Up_spec false o_device o_udpMux o_configurer set_mux false d h (λ _, conj eq_refl (conj eq_refl eq_refl)) Hi) as Hu.
  unfold o_Up, usp_Up in *. rewrite run_fields in *. destruct (o_device d) eqn:Hd; cbn [negb] in *; [|by unfold lift].
  rewrite !run_on_host in *. destruct (device_Up h) as [[?|e|] h1]; [|by destruct Hu|by destruct Hu].
  rewrite run_on_host in *. destruct (GetICEMux_call h1) as [[?|e|] h2]; [|by destruct Hu|by destruct Hu].
  unfold set_fields, modify in *. by destruct Hu.
Qed.

Lemma o_UpdateAddr_spec p a (d : tunDevice (Filter := Filter)) h : o_inv (d, h) → o_wrapper d = true →
  let '(r, s) := o_UpdateAddr p a (d, h) in
  o_inv s ∧ o_device s.1 = o_device d ∧ o_wrapper s.1 = o_wrapper d ∧ (r = Panic ↔ bad_address p a = true).
Proof.
  intros Hi Hw. destruct p; cbn [o_UpdateAddr]; [unfold darwin_UpdateAddr|unfold windows_UpdateAddr|by split|by split].
  - rewrite run_set_fields, run_fields, run_on_host_last. cbn [set_params o_params].
    pose proof (settles_darwin (set_address a (o_params d))) as Hs. pose proof (go_inv_settles _ _ _ _ _ _ h Hs Hi) as Hi'.
    destruct (Hs h) as (_&_&Hp). destruct (darwin_assignAddr _ h) as [r h1]. cbn [fst snd] in *. done.
  - rewrite run_set_fields, run_fields. cbn [set_params o_wrapper]. rewrite Hw, run_on_host_last.
    pose proof (settles_windows (set_address a (o_params d))) as Hs. pose proof (go_inv_settles _ _ _ _ _ _ h Hs Hi) as Hi'.
    destruct (Hs h) as (_&_&Hp). cbn [set_address p_address set_params o_params] in *.
    assert ((windows_assignAddr (set_address a (o_params d)) h).1 = Panic ↔ bad_address Windows a = true) as Hb.
    { destruct (bad_address Windows a) eqn:Hbad; cbn [negb] in Hp; [|by split].
      split; [done|]. intros _. unfold windows_assignAddr. cbn [bad_address] in Hbad. apply bool_decide_eq_true in Hbad.
      cbn [p_address set_address]. by rewrite Hbad. }
    destruct (windows_assignAddr _ h) as [r h1]. done.
Qed.

Lemma o_runs_spec p os (d : tunDevice (Filter := Filter)) h : o_inv (d, h) → o_wrapper d = true →
  let '(r, s) := o_runs p os (d, h) in
  (r = Panic ↔ misuses p (o_device d) os = true) ∧ (r ≠ Panic → r = Ok tt ∧ o_inv s).
Proof.
  revert d h. induction os as [|o os IH]; intros d h Hi Hw; [by split|].
  cbn [o_runs]. unfold mbind, ST_bind, try. destruct o as [|a|]; cbn [o_run misuses];
    rewrite ?platform_Up_eq, ?platform_Close_eq.
  - pose proof (o_Up_spec d h Hi) as Hu. destruct (o_Up (d, h)) as [r [d1 h1]]. destruct Hu as (Hi1&Hd1&Hw1&Hp).
    cbn [fst] in *. specialize (IH d1 h1 Hi1 ltac:(congruence)). rewrite Hd1 in IH.
    destruct r as [u|e|]; cbn zeta beta iota.
    + destruct (o_device d); [exact IH|]. by discriminate (proj2 Hp eq_refl).
    + destruct (o_device d); [exact IH|]. by discriminate (proj2 Hp eq_refl).
    + rewrite (proj1 Hp eq_refl). by split.
  - pose proof (o_UpdateAddr_spec p a d h Hi Hw) as Hu. destruct (o_UpdateAddr p a (d, h)) as [r [d1 h1]].
    destruct Hu as (Hi1&Hd1&Hw1&Hp). cbn [fst] in *. specialize (IH d1 h1 Hi1 ltac:(congruence)). rewrite Hd1 in IH.
    destruct (bad_address p a).
    + rewrite (proj2 Hp eq_refl). by split.
    + destruct r; [exact IH|exact IH|]. by discriminate (proj1 Hp eq_refl).
  - pose proof (o_Close_spec d h Hi) as Hc. destruct (o_Close (d, h)) as [r [d1 h1]]. destruct Hc as (->&Hd1&Hg).
    cbn [fst snd] in *. subst d1. apply (IH (set_device false d) h1); [|done].
    unfold o_inv. cbn [fst snd set_device o_device o_udpMux o_configurer]. by apply (go_inv_weaken _ false _ false _ None).
Qed.
End sessions.

(** C35. On macOS, Windows, Android and iOS alike, whatever calls fail, closing ones
    too, a session that starts on a tidy host and does not panic ends without an
    error, also when [Create] failed half way, and leaves a tidy host: the socket
    for configuration requests only if a call can fail, their listener and a
    descriptor only if a closing call can, and nothing at all, no link either,
    when none fails. It panics exactly when [Create] does, or when [Create]
    succeeded and then [Up] is called after a [Close], which has forgotten the
    device, or, on Windows, an address is set whose text is no prefix, such as
    the one of [::ffff:1.2.3.4/120]. [Create] panics only on Windows with such an
    address, with which it never succeeds, and does when no call fails and the
    interface was not there. *)
Theorem platform_session_releases {T : TunEnv} {AD : TunAdapter} {Filter : Type} p os (d : tunDevice (Filter := Filter)) h :
  fresh d → tidy false h →
  let bad := bad_address p (tunDevice_WgAddress d) in
  let '(c, _) := o_Create p (d, h) in
  let '(r, (_, h')) := o_session p os (d, h) in
  (r = Panic ↔ c = Panic ∨ is_ok c = true ∧ misuses p true os = true) ∧
  (if bad then is_ok c = false ∧ (¬ call_fails → hs_link h = None → c = Panic) else c ≠ Panic) ∧
  (r ≠ Panic → r = Ok tt ∧ tidy false h' ∧ (¬ call_fails → ¬ closing_fails → hs_link h' = None ∧ hs_held h' = ∅)).
Proof.
  intros Hf Ht bad. pose proof (o_Create_spec p d h Hf Ht) as Hcr. unfold o_session, mbind, ST_bind, try. rewrite platform_Close_eq.
  assert (∀ h', go_inv false false false None false h' →
    tidy false h' ∧ (¬ call_fails → ¬ closing_fails → hs_link h' = None ∧ hs_held h' = ∅)) as Hend.
  { intros h' [Ht' _]%go_inv_closed. split; [done|]. intros Hc Hcl. destruct (tidy_nothing_fails _ _ Ht' Hc Hcl) as [Hs ?].
    split; [done|]. set_solver. }
  change (p_address (o_params d)) with (tunDevice_WgAddress d) in Hcr. fold bad in Hcr.
  destruct (o_Create p (d, h)) as [[u|e|] [d1 h1]]; destruct Hcr as (Hp&Hi1&Hok); cbn [fst is_ok] in *.
  - destruct (Hok eq_refl) as [Hd1 Hw1]. pose proof (o_runs_spec p os d1 h1 (Hi1 ltac:(done)) Hw1) as Hr. rewrite Hd1 in Hr.
    destruct (o_runs p os (d1, h1)) as [r [d2 h2]]. destruct Hr as [Hpan Hinv].
    destruct r as [u2|e|]; [|by destruct Hinv|].
    + pose proof (o_Close_spec d2 h2 (proj2 (Hinv ltac:(done)))) as Hcl. destruct (o_Close (d2, h2)) as [r [d3 h3]].
      destruct Hcl as (->&_&Hg). split; [|split; [done|intros _; split; [done|by apply Hend]]].
      split; [done|]. intros [?|[_ Hup]]; [done|]. by apply Hpan in Hup.
    + split; [|by split]. split; [|done]. intros _. right. split; [done|]. by apply Hpan.
  - unfold mret, ST_ret. pose proof (o_Close_spec d1 h1 (Hi1 ltac:(done))) as Hcl. destruct (o_Close (d1, h1)) as [r [d3 h3]].
    destruct Hcl as (->&_&Hg). split; [|split; [done|intros _; split; [done|by apply Hend]]]. split; [done|]. by intros [?|[? _]].
  - split; [|by split]. split; [by left|done].
Qed.

(** The engine gives no arguments of an app: on a mobile that is a panic. *)
Lemma mobile_needs_args {Filter : Type} name address port key mtu (f : option Filter) a :
  parseWGAddress address = Ok a →
  android_NewWGIFace name address port key mtu None f = Panic ∧ ios_NewWGIFace name address port key mtu None f = Panic.
Proof. intros Ha. unfold android_NewWGIFace, ios_NewWGIFace. by rewrite Ha. Qed.

(** ** Sessions on an iPhone, and on Windows with an address in IPv6 notation *)

#[local] Instance ex_adapter : TunAdapter := {| ad_allows _ _ _ _ _ := None; ad_name := "tun0" |}.
Definition ex_device : tunDevice (Filter := unit) := newTunDevice EmptyString ex_address 51822 "key" 1280 None.
Definition ex_mapped : WGAddress :=
  match parseWGAddress "::ffff:1.2.3.4/120" with Ok a => a | _ => ex_address end.
Definition ex_mapped_device : tunDevice (Filter := unit) := newTunDevice "wt0" ex_mapped 51822 "key" 1280 None.

Lemma platform_session_releases_witness :
  hs_held (o_session (T := ex_env) IOS [OUp] (ex_device, mkHost None ∅ 0)).2.2 = ∅ ∧
  (o_session (T := ex_env) IOS [OUp; OClose; OUp] (ex_device, mkHost None ∅ 0)).1 = Panic ∧
  (o_session (T := ex_env) Windows [] (ex_mapped_device, mkHost None ∅ 0)).1 = Panic.
Proof.
  assert (¬ call_fails (T := ex_env) ∧ ¬ closing_fails (T := ex_env)) as [Hn Hcl] by (split; intros (n&e&Hx); discriminate Hx).
  assert (tidy (T := ex_env) false (mkHost None ∅ 0)) as Ht by (apply tidy_empty; reflexivity).
  split; [|split].
  - pose proof (platform_session_releases (T := ex_env) IOS [OUp] ex_device (mkHost None ∅ 0) ltac:(repeat split; reflexivity) Ht) as Hs.
    assert (∃ s, o_Create (T := ex_env) IOS (ex_device, mkHost None ∅ 0) = (Ok tt, s)) as [s Hc] by (eexists; vm_compute; reflexivity).
    rewrite Hc in Hs. destruct (o_session _ _ _) as [r [d h]]. destruct Hs as (Hp&_&Hs). cbn [snd]. apply Hs; [|done..].
    intros [?|[_ Hu]]%Hp; [done|discriminate Hu].
  - pose proof (platform_session_releases (T := ex_env) IOS [OUp; OClose; OUp] ex_device (mkHost None ∅ 0) ltac:(repeat split; reflexivity) Ht) as Hs.
    assert (∃ s, o_Create (T := ex_env) IOS (ex_device, mkHost None ∅ 0) = (Ok tt, s)) as [s Hc] by (eexists; vm_compute; reflexivity).
    rewrite Hc in Hs. destruct (o_session _ _ _) as [r [d h]]. destruct Hs as (Hp&_). cbn [fst]. apply Hp. right. split; reflexivity.
  - pose proof (platform_session_releases (T := ex_env) Windows [] ex_mapped_device (mkHost None ∅ 0) ltac:(repeat split; reflexivity) Ht) as Hs.
    assert (bad_address Windows (tunDevice_WgAddress ex_mapped_device) = true) as Hb by (vm_compute; reflexivity).
    rewrite Hb in Hs. destruct (o_Create _ _) as [c s]. destruct (o_session _ _ _) as [r [d h]]. destruct Hs as (Hp&[_ Hc]&_).
    cbn [fst]. apply Hp. left. by apply Hc.
Defined.
