(* ===== verification/GoJson.v ===== *)
(** * What the sources use of [encoding/json]

    Values, and how [Unmarshal] fills structs from them: keys matched without
    regard to case, unknown keys skipped, [null] leaving a field as it is, the
    last of duplicate keys winning, a value of the wrong type being an error.
    How values are written as text is in GoJsonText.v. *)
From Stdlib Require Import Ascii.
From S2P Require Import Prelude GoStrings.

Inductive json :=
| JNull
| JBool (b : bool)
| JNum (z : Z)
| JFrac (text : string)
| JStr (s : string)
| JArr (l : list json)
| JObj (kvs : list (string * json)).

(** ASCII letters in lower case, for key comparison. *)
Definition lower (c : Ascii.ascii) : Ascii.ascii :=
  let z := Z_of_byte c in if (65 <=? z)%Z && (z <=? 90)%Z then byte_of_Z (z + 32) else c.
Fixpoint to_lower (s : string) : string :=
  match s with EmptyString => EmptyString | String c s' => String (lower c) (to_lower s') end.
Definition key_is (name k : string) : bool := bool_decide (to_lower name = to_lower k).

Definition type_error (what : string) : error :=
  Errorf ("json: cannot unmarshal " +:+ what).

(** Decoding into a field that holds [old]. *)
Definition dec_string (old : string) (v : json) : res string :=
  match v with JNull => Ok old | JStr s => Ok s | _ => Err (type_error "into string") end.
Definition dec_int (old : Z) (v : json) : res Z :=
  match v with
  | JNull => Ok old
  | JNum z => if decide (int64_min ≤ z ≤ int64_max)%Z then Ok z else Err (type_error "number into int")
  | _ => Err (type_error "into int")
  end.

(** Decoding into a struct: [set k v a] stores one key; the first error is
    kept and the remaining keys are still stored. *)
Definition dec_fields {A} (set : string → json → A → res A) (kvs : list (string * json)) (a : A) :
    A * option error :=
  foldl (λ '(a, e) '(k, v),
    match set k v a with
    | Ok a' => (a', e)
    | Err e' => (a, match e with None => Some e' | _ => e end)
    | Panic => (a, e)
    end) (a, None) kvs.

Definition dec_struct_partial {A} (set : string → json → A → res A) (a : A) (v : json) :
    A * option error :=
  match v with
  | JNull => (a, None)
  | JObj kvs => dec_fields set kvs a
  | _ => (a, Some (type_error "into struct"))
  end.

Definition dec_struct {A} (set : string → json → A → res A) (a : A) (v : json) : res A :=
  match dec_struct_partial set a v with (a, None) => Ok a | (_, Some e) => Err e end.

(** Decoding into a nil slice: every element is appended, with what could be
    decoded of it; the first error is kept. *)
Definition dec_slice {A} (dec : json → A * option error) (v : json) : list A * option error :=
  match v with
  | JNull => ([], None)
  | JArr l =>
      foldl (λ '(r, e) v, let '(a, e') := dec v in (r ++ [a], match e with None => e' | _ => e end))
        ([], None) l
  | _ => ([], Some (type_error "into slice"))
  end.

(** ** [interface{}]: an object becomes a map, written with sorted keys.
    Numbers are kept: the bodies read through a map are read for strings. *)
Fixpoint map_insert {A} (k : string) (v : A) (m : list (string * A)) : list (string * A) :=
  match m with
  | [] => [(k, v)]
  | (k', v') :: m' =>
      match String.compare k k' with
      | Lt => (k, v) :: m
      | Eq => (k, v) :: m'
      | Gt => (k', v') :: map_insert k v m'
      end
  end.

Fixpoint as_interface (v : json) : json :=
  match v with
  | JArr l => JArr (map as_interface l)
  | JObj kvs => JObj (foldl (λ m '(k, v), map_insert k v m) [] (map (λ '(k, v), (k, as_interface v)) kvs))
  | _ => v
  end.

Lemma dec_slice_map {A B} (dec : json → B * option error) (enc : A → json) (f : A → B) l :
  Forall (λ a, dec (enc a) = (f a, None)) l → dec_slice dec (JArr (map enc l)) = (map f l, None).
Proof.
  intros Hl. unfold dec_slice. set (g := λ '(r, e) v, let '(a, e') := dec v in _).
  assert (∀ r, foldl g (r, None) (map enc l) = (r ++ map f l, None)) as H; [|apply H].
  induction Hl as [|a l Ha _ IH]; intros r; cbn [map foldl]; [by rewrite app_nil_r|].
  unfold g at 2. by rewrite Ha, IH, <-app_assoc.
Qed.

(** One key stored. *)
Lemma dec_fields_Ok {A} (set : string → json → A → res A) k v kvs a a' :
  set k v a = Ok a' → dec_fields set ((k, v) :: kvs) a = dec_fields set kvs a'.
Proof. unfold dec_fields. cbn [foldl]. by intros ->. Qed.

(** A property the stored fields keep. *)
Lemma dec_struct_inv {A} (P : A → Prop) (set : string → json → A → res A) a v a' :
  (∀ k v a a', P a → set k v a = Ok a' → P a') → P a → dec_struct set a v = Ok a' → P a'.
Proof.
  intros Hset Ha. unfold dec_struct. destruct v as [| | | | | |kvs]; cbn [dec_struct_partial]; try done; [by intros [= <-]|].
  unfold dec_fields. set (g := λ '(a, e) '(k, v), _).
  assert (∀ s, P s.1 → P (foldl g s kvs).1) as Hg.
  { induction kvs as [|[k v] kvs IH]; intros [b e] Hb; [done|]. cbn [foldl]. apply IH. subst g. cbn in *.
    destruct (set k v b) as [b'| |] eqn:Hs; [|done..]. by apply (Hset k v b). }
  specialize (Hg (a, None) Ha). destruct (foldl g (a, None) kvs) as [b [e|]]; [done|]. by intros [= <-].
Qed.

Lemma dec_int_range old v z : (int64_min ≤ old ≤ int64_max)%Z → dec_int old v = Ok z → (int64_min ≤ z ≤ int64_max)%Z.
Proof. intros Ho. destruct v; cbn [dec_int]; try done; [by intros [= <-]|]. case_decide; [|done]. by intros [= <-]. Qed.
