(* ===== verification/GoJsonText.v ===== *)
(** * The text of JSON values, as [encoding/json] writes and reads it

    [json_print] is [Marshal]'s compact output with its HTML escapes;
    [json_parse] is the reader. Non-ASCII bytes are copied as they are: strings
    are taken to be valid UTF-8 without U+2028 and U+2029, which [Marshal]
    would escape. The reader is fuelled by the length of the text: every value
    takes at least one character. *)
From Stdlib Require Import Ascii DecimalString DecimalZ Decimal.
From S2P Require Import Prelude GoStrings GoNet GoText GoJson.

Definition quote : Ascii.ascii := "034"%char.
Definition backslash : Ascii.ascii := "092"%char.

(** ** Writing *)

Definition unicode_escape (c : Ascii.ascii) : list Ascii.ascii :=
  [backslash; "u"; "0"; "0"; hex_digit (Z_of_byte c / 16); hex_digit (Z_of_byte c `mod` 16)]%char.

Definition print_char (c : Ascii.ascii) : list Ascii.ascii :=
  let z := Z_of_byte c in
  if decide (c = quote ∨ c = backslash) then [backslash; c]
  else if (z =? 8)%Z then [backslash; "b"%char]
  else if (z =? 9)%Z then [backslash; "t"%char]
  else if (z =? 10)%Z then [backslash; "n"%char]
  else if (z =? 12)%Z then [backslash; "f"%char]
  else if (z =? 13)%Z then [backslash; "r"%char]
  else if (z <? 32)%Z || (z =? 60)%Z || (z =? 62)%Z || (z =? 38)%Z then unicode_escape c
  else [c].

Definition print_string (s : string) : list Ascii.ascii :=
  quote :: concat (map print_char (bytes_of_string s)) ++ [quote].

(** [a1,a2,...] with [nl] before every element. *)
Definition print_list {A} (nl : list Ascii.ascii) (pr : A → list Ascii.ascii) (l : list A) : list Ascii.ascii :=
  match l with
  | [] => []
  | a :: l => nl ++ pr a ++ concat (map (λ a, ","%char :: nl ++ pr a) l)
  end.

(** The text of a value at depth [d], with [nl d] before every element and
    closing bracket and [sp] after every colon. *)
Section printer.
Variable nl : nat → list Ascii.ascii.
Variable sp : list Ascii.ascii.

Fixpoint print_with (d : nat) (v : json) : list Ascii.ascii :=
  match v with
  | JNull => bytes_of_string "null"
  | JBool b => bytes_of_string (if b then "true" else "false")
  | JNum z => bytes_of_string (strconv_Itoa z)
  | JFrac t => bytes_of_string t
  | JStr s => print_string s
  | JArr [] => bytes_of_string "[]"
  | JArr l => "["%char :: print_list (nl (Datatypes.S d)) (print_with (Datatypes.S d)) l ++ nl d ++ ["]"%char]
  | JObj [] => bytes_of_string "{}"
  | JObj kvs =>
      "{"%char :: print_list (nl (Datatypes.S d))
        (λ '(k, v), print_string k ++ ":"%char :: sp ++ print_with (Datatypes.S d) v) kvs ++ nl d ++ ["}"%char]
  end.
End printer.

(** [json.Marshal] *)
Definition json_print : json → list Ascii.ascii := print_with (λ _, []) [] 0.

(** [json.MarshalIndent(v, prefix, indent)] with no prefix. *)
Definition newline_indent (indent : string) (d : nat) : list Ascii.ascii :=
  "010"%char :: concat (replicate d (bytes_of_string indent)).
Definition json_print_indent (indent : string) : json → list Ascii.ascii :=
  print_with (newline_indent indent) [" "%char] 0.

(** ** Reading *)

Fixpoint skip_ws (s : list Ascii.ascii) : list Ascii.ascii :=
  match s with
  | c :: s' => if existsb (Z.eqb (Z_of_byte c)) [32; 9; 10; 13]%Z then skip_ws s' else s
  | [] => []
  end.

(** UTF-8 of a code point. *)
Definition utf8 (r : Z) : list Ascii.ascii :=
  if (r <? 128)%Z then [byte_of_Z r]
  else if (r <? 2048)%Z then [byte_of_Z (192 + r / 64); byte_of_Z (128 + r `mod` 64)]
  else if (r <? 65536)%Z then
    [byte_of_Z (224 + r / 4096); byte_of_Z (128 + (r / 64) `mod` 64); byte_of_Z (128 + r `mod` 64)]
  else [byte_of_Z (240 + r / 262144); byte_of_Z (128 + (r / 4096) `mod` 64);
        byte_of_Z (128 + (r / 64) `mod` 64); byte_of_Z (128 + r `mod` 64)].

Definition hex4 (a b c d : Ascii.ascii) : option Z :=
  a ← hex_val a; b ← hex_val b; c ← hex_val c; d ← hex_val d;
  Some (((a * 16 + b) * 16 + c) * 16 + d)%Z.

Definition unescape (c : Ascii.ascii) : option Ascii.ascii :=
  if decide (c = quote ∨ c = backslash ∨ c = "/"%char) then Some c
  else if decide (c = "b"%char) then Some (byte_of_Z 8)
  else if decide (c = "f"%char) then Some (byte_of_Z 12)
  else if decide (c = "n"%char) then Some (byte_of_Z 10)
  else if decide (c = "r"%char) then Some (byte_of_Z 13)
  else if decide (c = "t"%char) then Some (byte_of_Z 9)
  else None.

Definition high_surrogate (r : Z) : bool := (55296 <=? r)%Z && (r <? 56320)%Z.
Definition low_surrogate (r : Z) : bool := (56320 <=? r)%Z && (r <? 57344)%Z.

(** The rest of a string after its opening quote; [hi] is a high surrogate
    just read, whose partner may follow. *)
Fixpoint parse_string (hi : option Z) (s : list Ascii.ascii) : option (list Ascii.ascii * list Ascii.ascii) :=
  let flush := match hi with Some _ => utf8 65533 | None => [] end in
  match s with
  | [] => None
  | c :: s1 =>
      if decide (c = quote) then Some (flush, s1)
      else if decide (c = backslash) then
        match s1 with
        | [] => None
        | e :: s2 =>
            if decide (e = "u"%char) then
              match s2 with
              | h1 :: h2 :: h3 :: h4 :: s6 =>
                  r ← hex4 h1 h2 h3 h4;
                  if high_surrogate r then
                    '(t, rest) ← parse_string (Some r) s6; Some (flush ++ t, rest)
                  else if low_surrogate r then
                    '(t, rest) ← parse_string None s6;
                    Some (match hi with
                          | Some h => utf8 (65536 + (h - 55296) * 1024 + (r - 56320))
                          | None => utf8 65533
                          end ++ t, rest)
                  else '(t, rest) ← parse_string None s6; Some (flush ++ utf8 r ++ t, rest)
              | _ => None
              end
            else
              x ← unescape e;
              '(t, rest) ← parse_string None s2; Some (flush ++ x :: t, rest)
        end
      else if (Z_of_byte c <? 32)%Z then None
      else '(t, rest) ← parse_string None s1; Some (flush ++ c :: t, rest)
  end.

(** Numbers: the longest run of number characters, an integer when it is the
    canonical text of one (or [-0]), a fraction when it has the other form. *)
Definition number_char (c : Ascii.ascii) : bool :=
  bool_decide (c ∈ bytes_of_string "0123456789-+.eE").

Definition json_int (tok : string) : option Z :=
  if decide (tok = "-0") then Some 0%Z else
  d ← NilZero.int_of_string tok;
  if decide (strconv_Itoa (Z.of_int d) = tok) then Some (Z.of_int d) else None.

Definition digit_char (c : Ascii.ascii) : bool := bool_decide (c ∈ bytes_of_string "0123456789").

(** [digits], at least one, then [e|E], a sign, and digits, if any. *)
Definition json_exp (s : list Ascii.ascii) : bool :=
  match s with
  | [] => true
  | e :: s =>
      bool_decide (e ∈ bytes_of_string "eE") &&
      let s := match s with c :: s' => if decide (c ∈ bytes_of_string "+-") then s' else s | [] => s end in
      negb (bool_decide (s = [])) && forallb digit_char s
  end.

Definition json_frac (tok : list Ascii.ascii) : bool :=
  let '(int, r) := span (λ c, digit_char c || bool_decide (c = "-"%char)) tok in
  bool_decide (is_Some (json_int (string_of_bytes int))) &&
  match r with
  | c :: r' =>
      if decide (c = "."%char) then
        let '(frac, e) := span digit_char r' in negb (bool_decide (frac = [])) && json_exp e
      else json_exp r
  | [] => false
  end.

Definition parse_number (s : list Ascii.ascii) : option (json * list Ascii.ascii) :=
  let '(tok, rest) := span number_char s in
  match json_int (string_of_bytes tok) with
  | Some z => Some (JNum z, rest)
  | None => if json_frac tok then Some (JFrac (string_of_bytes tok), rest) else None
  end.

Definition literal (p : string) (v : json) (s : list Ascii.ascii) : option (json * list Ascii.ascii) :=
  if decide (take (String.length p) s = bytes_of_string p)
  then Some (v, drop (String.length p) s) else None.

(** A value; the elements of an array after [\[]; the members of an object. *)
Fixpoint parse_value (n : nat) (s : list Ascii.ascii) : option (json * list Ascii.ascii) :=
  match n with
  | O => None
  | Datatypes.S n =>
      match skip_ws s with
      | [] => None
      | c :: s1 =>
          if decide (c = quote) then '(t, r) ← parse_string None s1; Some (JStr (string_of_bytes t), r)
          else if decide (c = "["%char) then
            match skip_ws s1 with
            | [] => None
            | d :: s2 =>
                if decide (d = "]"%char) then Some (JArr [], s2)
                else '(l, r) ← parse_elems n s1; Some (JArr l, r)
            end
          else if decide (c = "{"%char) then
            match skip_ws s1 with
            | [] => None
            | d :: s2 =>
                if decide (d = "}"%char) then Some (JObj [], s2)
                else '(l, r) ← parse_members n s1; Some (JObj l, r)
            end
          else if decide (c = "n"%char) then literal "null" JNull (c :: s1)
          else if decide (c = "t"%char) then literal "true" (JBool true) (c :: s1)
          else if decide (c = "f"%char) then literal "false" (JBool false) (c :: s1)
          else parse_number (c :: s1)
      end
  end
with parse_elems (n : nat) (s : list Ascii.ascii) : option (list json * list Ascii.ascii) :=
  match n with
  | O => None
  | Datatypes.S n =>
      '(v, r) ← parse_value n s;
      match skip_ws r with
      | [] => None
      | c :: r' =>
          if decide (c = "]"%char) then Some ([v], r')
          else if decide (c = ","%char) then '(l, r) ← parse_elems n r'; Some (v :: l, r)
          else None
      end
  end
with parse_members (n : nat) (s : list Ascii.ascii) : option (list (string * json) * list Ascii.ascii) :=
  match n with
  | O => None
  | Datatypes.S n =>
      match skip_ws s with
      | [] => None
      | q :: s1 =>
          if decide (q = quote) then
            '(k, r) ← parse_string None s1;
            match skip_ws r with
            | [] => None
            | c :: r' =>
                if decide (c = ":"%char) then
                  '(v, r) ← parse_value n r';
                  match skip_ws r with
                  | [] => None
                  | c :: r' =>
                      if decide (c = "}"%char) then Some ([(string_of_bytes k, v)], r')
                      else if decide (c = ","%char) then
                        '(l, r) ← parse_members n r'; Some ((string_of_bytes k, v) :: l, r)
                      else None
                  end
                else None
            end
          else None
      end
  end.

Definition err_json : error := Errorf "invalid character in JSON".

(** Twice the length is enough: a value nested in a list costs two calls. *)
Definition json_parse (s : list Ascii.ascii) : res json :=
  match parse_value (2 * length s + 2) s with
  | Some (v, r) => match skip_ws r with [] => Ok v | _ => Err err_json end
  | None => Err err_json
  end.

(** ** Round trip *)

(** Values without fractions: every value the programs send. *)
Fixpoint no_frac (v : json) : Prop :=
  match v with
  | JFrac _ => False
  | JArr l => (fix all l := match l with [] => True | v :: l => no_frac v ∧ all l end) l
  | JObj kvs => (fix all l := match l with [] => True | (_, v) :: l => no_frac v ∧ all l end) kvs
  | _ => True
  end.

Lemma json_nested_ind (P : json → Prop) :
  P JNull → (∀ b, P (JBool b)) → (∀ z, P (JNum z)) → (∀ t, P (JFrac t)) → (∀ s, P (JStr s)) →
  (∀ l, Forall P l → P (JArr l)) → (∀ kvs, Forall (λ kv, P kv.2) kvs → P (JObj kvs)) →
  ∀ v, P v.
Proof.
  intros H1 H2 H3 H4 H5 H6 H7. fix IH 1.
  intros [| b | z | t | s |l|kvs]; [exact H1|apply H2|apply H3|apply H4|apply H5|..].
  - apply H6. induction l; constructor; [apply IH|assumption].
  - apply H7. induction kvs as [|[k v] kvs IHk]; constructor; [apply IH|assumption].
Qed.

Lemma no_frac_arr l : no_frac (JArr l) ↔ Forall no_frac l.
Proof. induction l as [|v l IH]; [done|]. rewrite Forall_cons_iff, <-IH. done. Qed.
Lemma no_frac_obj kvs : no_frac (JObj kvs) ↔ Forall (λ kv, no_frac kv.2) kvs.
Proof. induction kvs as [|[k v] l IH]; [done|]. rewrite Forall_cons_iff, <-IH. done. Qed.

Lemma parse_print_char c s :
  parse_string None (print_char c ++ s) = '(t, rest) ← parse_string None s; Some (c :: t, rest).
Proof. destruct c as [[] [] [] [] [] [] [] []]; reflexivity. Qed.

Lemma parse_print_string l s :
  parse_string None (concat (map print_char l) ++ quote :: s) = Some (l, s).
Proof.
  induction l as [|c l IH]; [done|]. cbn [map concat]. rewrite <-app_assoc, parse_print_char, IH. done.
Qed.

(** What may follow a number. *)
Definition delimited (s : list Ascii.ascii) : bool :=
  match s with c :: _ => negb (number_char c) | [] => true end.

Lemma char_in_bytes c s : char_in c s = true ↔ c ∈ bytes_of_string s.
Proof.
  induction s as [|d s IH]; cbn [char_in String.list_ascii_of_string]; [set_solver|].
  rewrite orb_true_iff, bool_decide_eq_true, elem_of_cons, IH. done.
Qed.

Lemma Itoa_neg0 z : strconv_Itoa z ≠ "-0".
Proof.
  unfold strconv_Itoa. intros H%(f_equal NilZero.int_of_string).
  rewrite NilZero.isi in H by apply Z_to_int_nonnil. injection H as H.
  pose proof (DecimalZ.of_to z) as Hz. rewrite H in Hz. cbn in Hz. by subst.
Qed.

Lemma json_int_Itoa z : json_int (strconv_Itoa z) = Some z.
Proof.
  unfold json_int. rewrite decide_False by apply Itoa_neg0.
  assert (NilZero.int_of_string (strconv_Itoa z) = Some (Z.to_int z)) as ->.
  { apply NilZero.isi; apply Z_to_int_nonnil. }
  cbn [mbind option_bind]. rewrite DecimalZ.of_to. by rewrite decide_True.
Qed.

Lemma parse_number_Itoa z r :
  delimited r = true → parse_number (bytes_of_string (strconv_Itoa z) ++ r) = Some (JNum z, r).
Proof.
  intros Hr. unfold parse_number. rewrite span_app.
  - by rewrite string_of_bytes_of_string, json_int_Itoa.
  - apply forallb_forall. intros c Hc%list_elem_of_In. apply bool_decide_eq_true.
    apply char_in_bytes, strconv_Itoa_chars in Hc. revert Hc. simpl. set_solver.
  - destruct r; [done|]. by apply negb_true_iff.
Qed.

(** White space, which the reader skips before every token. *)
Definition blank (ws : list Ascii.ascii) : Prop := skip_ws ws = [].

Lemma skip_ws_app ws s : blank ws → skip_ws (ws ++ s) = skip_ws s.
Proof.
  unfold blank. induction ws as [|c ws IH]; [done|]. cbn [app skip_ws].
  destruct (existsb _ _); [apply IH|done].
Qed.

Lemma blank_delimited ws c r : blank ws → number_char c = false → delimited (ws ++ c :: r) = true.
Proof.
  intros Hws Hc. destruct ws as [|d ws]; cbn [app delimited]; [by rewrite Hc|].
  unfold blank in Hws. cbn [skip_ws] in Hws. destruct (existsb _ _) eqn:Hd; [|done].
  destruct d as [[] [] [] [] [] [] [] []]; (discriminate Hd || reflexivity).
Qed.

Section reader.
Variable nl : nat → list Ascii.ascii.
Variable sp : list Ascii.ascii.
Hypothesis nl_blank : ∀ d, blank (nl d).
Hypothesis sp_blank : blank sp.
#[local] Abbreviation print := (print_with nl sp).

(** The first character of a value. *)
Lemma skip_ws_print d v r : no_frac v → skip_ws (print d v ++ r) = print d v ++ r ∧
  ∃ c t, print d v = c :: t ∧ c ≠ "]"%char.
Proof.
  destruct v as [|b|z|t|s|[]|[|[]]]; intros Hv;
    try (split; [done|]; eexists _, _; split; [reflexivity|done]); [..|done].
  - destruct b; (split; [done|]; eexists _, _; split; [reflexivity|done]).
  - cbn [print_with].
    assert (∀ c, char_in c (strconv_Itoa z) = true → existsb (Z.eqb (Z_of_byte c)) [32; 9; 10; 13]%Z = false ∧ c ≠ "]"%char) as Hc.
    { intros c Hc%strconv_Itoa_chars. revert c Hc. apply list.Forall_forall.
      apply (bool_decide_unpack _). vm_compute. exact I. }
    pose proof (strconv_Itoa_nonempty z) as Hne. destruct (strconv_Itoa z) as [|c s]; [done|].
    destruct (Hc c) as [Hws Hbr]; [cbn [char_in]; by rewrite bool_decide_true|].
    cbn [String.list_ascii_of_string app]. split; [|eauto]. cbn [skip_ws]. by rewrite Hws.
Qed.

(** The reader reads a value back, whatever blanks precede it and whatever
    follows it. *)
Definition reads_back (v : json) : Prop :=
  no_frac v → ∀ n d ws r, blank ws → length (print d v) ≤ n → delimited r = true →
  parse_value n (ws ++ print d v ++ r) = Some (v, r).

Lemma reads_string s : reads_back (JStr s).
Proof.
  intros _ [|n] d ws r Hws Hn _; [cbn in Hn; lia|]. cbn [print_with]. unfold print_string.
  cbn [app parse_value]. rewrite skip_ws_app by done. rewrite <-app_assoc. cbn [app].
  change (skip_ws (quote :: ?x)) with (quote :: x). cbv beta iota.
  rewrite decide_True by done. rewrite parse_print_string. cbn. by rewrite string_of_bytes_of_string.
Qed.

Lemma print_list_cons {A} ws (pr : A → list Ascii.ascii) a l :
  print_list ws pr (a :: l) = ws ++ pr a ++ match l with [] => [] | _ => ","%char :: print_list ws pr l end.
Proof. destruct l; [done|]. cbn. by rewrite <-(app_assoc ws). Qed.

(** The elements of a non-empty array and its closing bracket. *)
Lemma reads_elems d l v : Forall reads_back (v :: l) → Forall no_frac (v :: l) → ∀ n r,
  length (print_list (nl d) (print d) (v :: l)) < n → ∀ ws, blank ws →
  parse_elems n (print_list (nl d) (print d) (v :: l) ++ ws ++ "]"%char :: r) = Some (v :: l, r).
Proof.
  revert v. induction l as [|w l IH]; intros v [Hv Hl]%Forall_cons_iff [Hfv Hfl]%Forall_cons_iff [|n] r Hn ws Hws;
    [lia| |lia|]; rewrite print_list_cons in Hn |- *; rewrite !length_app in Hn; cbn [parse_elems];
    rewrite <-!app_assoc.
  - rewrite Hv by (apply nl_blank || (by apply blank_delimited) || done || (cbn in Hn; lia)).
    cbn [mbind option_bind app]. by rewrite skip_ws_app.
  - rewrite Hv by (apply nl_blank || done || lia). cbn [mbind option_bind app].
    change (skip_ws (","%char :: ?x)) with (","%char :: x). cbv beta iota.
    rewrite decide_False by done. rewrite decide_True by done.
    rewrite IH by (done || cbn [length] in Hn; lia). done.
Qed.

(** One member and what follows it. *)
Definition print_member (d : nat) (kv : string * json) : list Ascii.ascii :=
  print_string kv.1 ++ ":"%char :: sp ++ print d kv.2.

Lemma print_obj d kv kvs : print d (JObj (kv :: kvs)) =
  "{"%char :: print_list (nl (Datatypes.S d)) (print_member (Datatypes.S d)) (kv :: kvs) ++ nl d ++ ["}"%char].
Proof.
  cbn [print_with]. do 2 f_equal. destruct kv as [k v]. unfold print_list. do 2 f_equal. f_equal.
  apply map_ext. by intros [].
Qed.

Lemma reads_members d l kv : Forall (λ kv, reads_back kv.2) (kv :: l) → Forall (λ kv, no_frac kv.2) (kv :: l) → ∀ n r,
  length (print_list (nl d) (print_member d) (kv :: l)) < n → ∀ ws, blank ws →
  parse_members n (print_list (nl d) (print_member d) (kv :: l) ++ ws ++ "}"%char :: r) = Some (kv :: l, r).
Proof.
  revert kv. induction l as [|kw l IH]; intros [k v] [Hv Hl]%Forall_cons_iff [Hfv Hfl]%Forall_cons_iff [|n] r Hn ws Hws;
    [lia| |lia|]; rewrite print_list_cons in Hn |- *; unfold print_member at 1, print_string;
    unfold print_member at 1 in Hn; rewrite !length_app in Hn; cbn [length fst snd] in Hn, Hv, Hfv |- *;
    cbn [parse_members app]; rewrite <-!app_assoc; cbn [app]; rewrite skip_ws_app by apply nl_blank;
    rewrite <-!app_assoc; cbn [app]; rewrite length_app in Hn.
  all: change (skip_ws (quote :: ?x)) with (quote :: x); cbv beta iota; rewrite decide_True by done;
    rewrite parse_print_string; cbn [mbind option_bind];
    change (skip_ws (":"%char :: ?x)) with (":"%char :: x); cbv beta iota; rewrite decide_True by done;
    rewrite <-?app_assoc.
  - rewrite Hv by ((by apply blank_delimited) || done || lia). cbn [mbind option_bind].
    rewrite app_nil_l, skip_ws_app by done. cbn. by rewrite string_of_bytes_of_string.
  - rewrite Hv by (done || lia). cbn [mbind option_bind app].
    change (skip_ws (","%char :: ?x)) with (","%char :: x). cbv beta iota.
    rewrite decide_False by done. rewrite decide_True by done.
    rewrite IH by (done || cbn [length] in Hn; lia). cbn. by rewrite string_of_bytes_of_string.
Qed.

Lemma reads_number z : reads_back (JNum z).
Proof.
  intros Hf [|n] d ws r Hws Hn Hr; destruct (skip_ws_print d (JNum z) r Hf) as (Hsk&c&t&Hp&_).
  { rewrite Hp in Hn. cbn in Hn. lia. }
  cbn [parse_value]. rewrite skip_ws_app, Hsk by done.
  assert (c ∈ bytes_of_string "-0123456789") as Hc.
  { apply (strconv_Itoa_chars z), char_in_bytes. cbn [print_with] in Hp. rewrite Hp. set_solver. }
  rewrite Hp. cbn [app].
  assert (∀ d, d ∉ bytes_of_string "-0123456789" → c ≠ d) as Hne by (intros e Hd ->; done).
  repeat (rewrite decide_False by (apply Hne; apply (bool_decide_unpack _); vm_compute; exact I)).
  change (c :: t ++ r) with ((c :: t) ++ r). rewrite <-Hp. by apply parse_number_Itoa.
Qed.

Lemma reads_array l : Forall reads_back l → reads_back (JArr l).
Proof.
  intros IH Hf%no_frac_arr [|n] d ws r Hws Hn _; [destruct l; cbn in Hn; lia|].
  cbn [parse_value]. rewrite skip_ws_app by done. destruct l as [|v l]; [done|].
  cbn [print_with] in *. cbn [app]. rewrite <-!app_assoc.
  change (skip_ws ("["%char :: ?x)) with ("["%char :: x). cbv beta iota.
  rewrite decide_False, decide_True by done.
  assert (∃ c s, skip_ws (print_list (nl (Datatypes.S d)) (print (Datatypes.S d)) (v :: l) ++ nl d ++ ["]"%char] ++ r) = c :: s
    ∧ c ≠ "]"%char) as (c&s&->&Hd).
  { rewrite print_list_cons, <-!app_assoc, skip_ws_app by apply nl_blank. apply Forall_cons_iff in Hf as [Hv _].
    match goal with |- context [skip_ws (print ?e v ++ ?x)] =>
      destruct (skip_ws_print e v x Hv) as (->&c&s&->&Hd) end. eauto. }
  rewrite decide_False by done. cbn [length] in Hn. rewrite length_app in Hn.
  cbn [app]. rewrite reads_elems by (done || rewrite length_app in Hn; cbn [length] in Hn; lia). done.
Qed.

Lemma reads_object kvs : Forall (λ kv, reads_back kv.2) kvs → reads_back (JObj kvs).
Proof.
  intros IH Hf%no_frac_obj [|n] d ws r Hws Hn _; [destruct kvs; cbn in Hn; lia|].
  cbn [parse_value]. rewrite skip_ws_app by done. destruct kvs as [|kv l]; [done|].
  rewrite print_obj in *. cbn [app]. rewrite <-!app_assoc.
  change (skip_ws ("{"%char :: ?x)) with ("{"%char :: x). cbv beta iota.
  rewrite !decide_False, decide_True by done.
  assert (∃ s, skip_ws (print_list (nl (Datatypes.S d)) (print_member (Datatypes.S d)) (kv :: l) ++ nl d ++ ["}"%char] ++ r)
    = quote :: s) as (s&->).
  { rewrite print_list_cons, <-!app_assoc, skip_ws_app by apply nl_blank. eexists. reflexivity. }
  rewrite decide_False by done. cbn [length] in Hn. rewrite length_app in Hn.
  cbn [app]. rewrite reads_members by (done || rewrite length_app in Hn; cbn [length] in Hn; lia). done.
Qed.

Lemma json_reads_back v : reads_back v.
Proof.
  induction v as [|b|z|t|s|l IH|kvs IH] using json_nested_ind.
  - intros _ [|n] d ws r Hws Hn _; [cbn in Hn; lia|]. cbn [parse_value].
    rewrite skip_ws_app by done. by rewrite <-(drop_0 r).
  - intros _ [|n] d ws r Hws Hn _; [destruct b; cbn in Hn; lia|]. cbn [parse_value].
    rewrite skip_ws_app by done. destruct b; by rewrite <-(drop_0 r).
  - apply reads_number.
  - intros [].
  - apply reads_string.
  - by apply reads_array.
  - by apply reads_object.
Qed.

Lemma json_parse_print_with d v : no_frac v → json_parse (print d v) = Ok v.
Proof.
  intros Hv. unfold json_parse.
  pose proof (json_reads_back v Hv (2 * length (print d v) + 2) d [] []) as H.
  rewrite app_nil_r in H. cbn [app] in H. rewrite H by (done || lia). done.
Qed.
End reader.

(** Reading what was written gives the value back. *)
Lemma json_parse_print v : no_frac v → json_parse (json_print v) = Ok v.
Proof. by apply json_parse_print_with. Qed.

Lemma newline_indent_blank indent d : blank (bytes_of_string indent) → blank (newline_indent indent d).
Proof.
  intros Hi. unfold newline_indent. change (blank (concat (replicate d (bytes_of_string indent)))).
  induction d as [|d IH]; [done|]. cbn [replicate concat]. unfold blank. by rewrite skip_ws_app.
Qed.

Lemma json_parse_print_indent indent v :
  blank (bytes_of_string indent) → no_frac v → json_parse (json_print_indent indent v) = Ok v.
Proof. intros Hi. apply json_parse_print_with; [|done]. intros d. by apply newline_indent_blank. Qed.
