(* ===== verification/Files.v ===== *)
(** * [util/file.go], [util/common.go], [util/retry.go]

    Files read and written as JSON, with an operating system any of whose calls
    may fail; and the retry loop. A world holds the regular files by path and
    the number of calls made; the oracle [fault] says which calls fail, and
    [partial] how much of a failing write reached the file. *)
From Stdlib Require Import Ascii.
From S2P Require Import Prelude GoStrings GoNet GoText GoJson GoJsonText.

(** ** The operating system *)

Record world := mkWorld { files : gmap string (list Ascii.ascii); calls : nat }.

Definition IO (A : Type) : Type := world → res A * world.

Global Instance IO_ret : MRet IO := λ A a w, (Ok a, w).
Global Instance IO_bind : MBind IO := λ A B f m w,
  match m w with
  | (Ok a, w') => f a w'
  | (Err e, w') => (Err e, w')
  | (Panic, w') => (Panic, w')
  end.

(** A computation that touches no file. *)
Definition pure_res {A} (r : res A) : IO A := λ w, (r, w).

(** The error a call returned, or its value: for code that goes on. *)
Definition attempt {A} (m : IO A) : IO (A + error) := λ w,
  match m w with
  | (Ok a, w') => (Ok (inl a), w')
  | (Err e, w') => (Ok (inr e), w')
  | (Panic, w') => (Panic, w')
  end.

Definition os_ErrNotExist : error := Sentinel "file does not exist".
Definition os_IsNotExist (e : error) : bool := errors_Is e os_ErrNotExist.

Record faults := mkFaults { fault : nat → option error; partial : nat → nat }.
Definition no_faults : faults := mkFaults (λ _, None) (λ _, 0).

Section os.
Variable F : faults.

(** One system call: [ok] is its effect, [bad] what a failing one leaves. *)
Definition syscall {A} (bad : nat → gmap string (list Ascii.ascii) → gmap string (list Ascii.ascii))
    (ok : gmap string (list Ascii.ascii) → res A * gmap string (list Ascii.ascii)) : IO A := λ w,
  match fault F (calls w) with
  | Some e => (Err e, mkWorld (bad (calls w) (files w)) (Datatypes.S (calls w)))
  | None => let '(r, fs) := ok (files w) in (r, mkWorld fs (Datatypes.S (calls w)))
  end.
Definition keep (n : nat) (fs : gmap string (list Ascii.ascii)) := fs.

Definition os_MkdirAll (dir : string) : IO unit := syscall keep (λ fs, (Ok tt, fs)).
Definition os_Stat (path : string) : IO unit :=
  syscall keep (λ fs, (if decide (is_Some (fs !! path)) then Ok tt else Err os_ErrNotExist, fs)).
Definition os_Open (path : string) : IO unit :=
  syscall keep (λ fs, (if decide (is_Some (fs !! path)) then Ok tt else Err os_ErrNotExist, fs)).
(** [os.Create]: the file is empty afterwards. *)
Definition os_Create (path : string) : IO unit := syscall keep (λ fs, (Ok tt, <[path := []]> fs)).
Definition file_Close : IO unit := syscall keep (λ fs, (Ok tt, fs)).
Definition file_Chmod : IO unit := syscall keep (λ fs, (Ok tt, fs)).
Definition file_Sync : IO unit := syscall keep (λ fs, (Ok tt, fs)).
Definition file_Truncate (path : string) : IO unit := syscall keep (λ fs, (Ok tt, <[path := []]> fs)).
(** Writing at the end of what is there; a failing write may have written some. *)
Definition file_Write (path : string) (bs : list Ascii.ascii) : IO unit :=
  syscall (λ n fs, <[path := default [] (fs !! path) ++ take (partial F n) bs]> fs)
    (λ fs, (Ok tt, <[path := default [] (fs !! path) ++ bs]> fs)).
Definition os_WriteFile (path : string) (bs : list Ascii.ascii) : IO unit :=
  syscall (λ n fs, <[path := take (partial F n) bs]> fs) (λ fs, (Ok tt, <[path := bs]> fs)).
Definition io_ReadAll (path : string) : IO (list Ascii.ascii) :=
  syscall keep (λ fs, (Ok (default [] (fs !! path)), fs)).
Definition os_Rename (old new : string) : IO unit :=
  syscall keep (λ fs, (Ok tt, <[new := default [] (fs !! old)]> (delete old fs))).
Definition os_Remove (path : string) : IO unit := syscall keep (λ fs, (Ok tt, delete path fs)).

(** [os.CreateTemp(dir, pre*post)]: an empty file of a name that was free, the
    random part of which is [infix]. *)
Variable infix : gmap string (list Ascii.ascii) → string → string → string.

Definition join_path (dir name : string) : string :=
  if strings_HasPrefix (str_rev dir) "/" then dir +:+ name else dir +:+ "/" +:+ name.
Definition temp_name (fs : gmap string (list Ascii.ascii)) (pre post : string) : string :=
  pre +:+ infix fs pre post +:+ post.
Definition os_CreateTemp (dir pre post : string) : IO string :=
  syscall keep (λ fs, let name := temp_name fs (join_path dir pre) post in
    (Ok name, <[name := []]> fs)).

(** [filepath.Split(file)]: up to and with the last slash, and the rest. *)
Definition filepath_Split (file : string) : string * string :=
  match cut_last "/"%char (bytes_of_string file) with
  | Some (d, f) => (string_of_bytes (d ++ ["/"%char]), string_of_bytes f)
  | None => (EmptyString, file)
  end.

(** ** [util/file.go] *)

(** A file name without a slash is in the current directory. *)
Definition prepareConfigFileDir (file : string) : IO (string * string) :=
  let '(configDir, configFileName) := filepath_Split file in
  match configDir with
  | EmptyString => mret (".", configFileName)
  | _ => os_MkdirAll configDir ≫= λ _, mret (configDir, configFileName)
  end.

(** [WriteJson(file, obj)]: the text goes to a temporary file beside the target,
    which is renamed over it; what is left of the temporary file is removed. *)
Definition WriteJson (file : string) (obj : json) : IO unit :=
  '(configDir, configFileName) ← prepareConfigFileDir file;
  let bs := json_print_indent "    " obj in
  tempFileName ← os_CreateTemp configDir "." configFileName;
  _ ← file_Close;
  r ← attempt (_ ← os_WriteFile tempFileName bs; os_Rename tempFileName file);
  st ← attempt (os_Stat tempFileName);
  _ ← match st with
      | inl _ => attempt (os_Remove tempFileName) ≫= λ _, mret tt
      | inr _ => mret tt
      end;
  match r with inl _ => mret tt | inr e => pure_res (Err e) end.

Definition openOrCreateFile (file : string) : IO unit :=
  s ← attempt (os_Stat file);
  match s with
  | inl _ => os_Open file
  | inr e =>
      if negb (os_IsNotExist e) then pure_res (Err e)
      else
        _ ← os_Create file;
        c ← attempt file_Chmod;
        match c with
        | inl _ => mret tt
        | inr e => attempt file_Close ≫= λ _, pure_res (Err e)
        end
  end.

(** [DirectWriteJson(ctx, file, obj)]: in place. *)
Definition DirectWriteJson (file : string) (obj : json) : IO unit :=
  _ ← prepareConfigFileDir file;
  _ ← openOrCreateFile file;
  let bs := json_print_indent "    " obj in
  r ← attempt (_ ← file_Truncate file; file_Write file bs);
  _ ← attempt file_Close;
  match r with inl _ => mret tt | inr e => pure_res (Err e) end.

(** [ReadJson(file, res)] *)
Definition ReadJson {A} (file : string) (unmarshal : json → res A) : IO A :=
  _ ← os_Open file;
  r ← attempt (io_ReadAll file);
  _ ← attempt file_Close;
  match r with
  | inl bs => pure_res (v ← json_parse bs; unmarshal v)
  | inr e => pure_res (Err e)
  end.

(** [CopyFileContents(src, dst)]: the error of closing the copy is returned
    when there is no other. *)
Definition CopyFileContents (src dst : string) : IO unit :=
  _ ← os_Open src;
  o ← attempt (os_Create dst);
  r ← match o with
      | inr e => mret (inr e)
      | inl _ =>
          r ← attempt (bs ← io_ReadAll src; _ ← file_Write dst bs; file_Sync);
          cErr ← attempt file_Close;
          mret (match r with inl _ => cErr | inr e => inr e end)
      end;
  _ ← attempt file_Close;
  match r with inl _ => mret tt | inr e => pure_res (Err e) end.

Definition FileExists (path : string) : IO bool :=
  r ← attempt (os_Stat path); mret (match r with inl _ => true | inr _ => false end).
End os.

(** ** [util/common.go] *)

Definition SliceDiff (x y : list string) : list string :=
  let mapY := foldl (λ m val, {[val]} ∪ m) (∅ : gset string) y in
  foldl (λ diff val, if decide (val ∈ mapY) then diff else diff ++ [val]) [] x.

Definition ReturnBoolWithDefaultFalse (b : option bool) : bool := match b with Some b => b | None => false end.
Definition ReturnBoolWithDefaultTrue (b : option bool) : bool := match b with Some b => b | None => true end.

(** ** Facts *)

(** The temporary file is free and is not the target. *)
Definition fresh_infix (infix : gmap string (list Ascii.ascii) → string → string → string) : Prop :=
  ∀ fs pre post, fs !! temp_name infix fs pre post = None.

Lemma filepath_Split_app file : let '(d, f) := filepath_Split file in d +:+ f = file.
Proof.
  unfold filepath_Split. destruct (cut_last _ _) as [[d f]|] eqn:Hc; [|done].
  apply cut_last_Some in Hc as [Hc _]. rewrite <-(string_of_bytes_of_string file), Hc.
  rewrite <-(string_of_bytes_of_string (_ +:+ _)), bytes_of_string_app, !bytes_of_string_of_bytes.
  by rewrite <-app_assoc.
Qed.

Section write.
Variable F : faults.
Variable infix : gmap string (list Ascii.ascii) → string → string → string.
Hypothesis fresh : fresh_infix infix.

Lemma join_path_length dir name : String.length name ≤ String.length (join_path dir name) ∧
  String.length dir + String.length name ≤ String.length (join_path dir name).
Proof. unfold join_path. destruct (strings_HasPrefix _ _); rewrite !str_length_app; lia. Qed.

(** What [prepareConfigFileDir] returns is the directory to put a temporary
    file in, and never a name that makes the temporary file the target. *)
Lemma prepareConfigFileDir_spec file w :
  match prepareConfigFileDir F file w with
  | (Ok (d, f), w') => files w' = files w ∧ ∀ fs, temp_name infix fs (join_path d ".") f ≠ file
  | (Err _, w') => files w' = files w ∧ fault F (calls w) ≠ None
  | (Panic, _) => False
  end.
Proof.
  unfold prepareConfigFileDir. pose proof (filepath_Split_app file) as Hs.
  destruct (filepath_Split file) as [d f].
  assert (∀ d' fs, String.length d ≤ String.length d' → temp_name infix fs (join_path d' ".") f ≠ file) as Hne.
  { intros d' fs Hd Ht. apply (f_equal String.length) in Ht. rewrite <-Hs in Ht. unfold temp_name in Ht.
    rewrite !str_length_app in Ht. destruct (join_path_length d' ".") as [_ Hj]. cbn [String.length] in Hj. lia. }
  destruct d as [|c d].
  - cbn. split; [done|]. intros fs. apply Hne. cbn. lia.
  - unfold os_MkdirAll, syscall, mbind, IO_bind, keep. destruct (fault F (calls w)); cbn; split; done || auto.
Qed.

(** The target is replaced as a whole or not at all, and at most the temporary
    file is left behind. *)
Lemma WriteJson_outcomes file obj w :
  match WriteJson F infix file obj w with
  | (Ok _, w') => files w' = <[file := json_print_indent "    " obj]> (files w)
  | (Err _, w') => files w' = files w ∨
      ∃ temp c, temp ≠ file ∧ files w !! temp = None ∧ files w' = <[temp := c]> (files w)
  | (Panic, _) => False
  end.
Proof.
  unfold WriteJson. pose proof (prepareConfigFileDir_spec file w) as Hp.
  unfold mbind at 1, IO_bind at 1. destruct (prepareConfigFileDir F file w) as [[[d f]|e|] w1];
    [|by left; apply Hp|done]. destruct Hp as [Hf Hne]. rewrite <-Hf.
  set (temp := temp_name infix (files w1) (join_path d ".") f).
  assert (temp ≠ file) as Htf by apply Hne.
  assert (files w1 !! temp = None) as Hfree by apply fresh.
  generalize (json_print_indent "    " obj) as bs. intros bs.
  unfold os_CreateTemp, file_Close, os_WriteFile, os_Rename, os_Stat, os_Remove, attempt, pure_res, mbind, IO_bind, syscall, mret, IO_ret, keep.
  cbn [files calls]. fold temp.
  destruct (fault F (calls w1)); [by left|]. cbn [files calls].
  destruct (fault F (Datatypes.S (calls w1))); cbn [files calls]; [right; by eauto|].
  destruct (fault F (Datatypes.S (Datatypes.S (calls w1)))); cbn [files calls].
  - (* the temporary file could not be written *)
    destruct (fault F _); cbn [files calls]; [right; eexists temp, _; rewrite insert_insert_eq; eauto|].
    rewrite decide_True by (rewrite lookup_insert_eq; eauto).
    destruct (fault F _); cbn [files calls]; [right; eexists temp, _; rewrite insert_insert_eq; eauto|].
    left. by rewrite delete_insert_eq, delete_insert_id.
  - destruct (fault F _); cbn [files calls].
    + (* it could not be renamed *)
      destruct (fault F _); cbn [files calls]; [right; eexists temp, _; rewrite insert_insert_eq; eauto|].
      rewrite decide_True by (rewrite lookup_insert_eq; eauto).
      destruct (fault F _); cbn [files calls]; [right; eexists temp, _; rewrite insert_insert_eq; eauto|].
      left. by rewrite delete_insert_eq, delete_insert_id.
    + rewrite insert_insert_eq, delete_insert_id, lookup_insert_eq by done. cbn [default].
      destruct (fault F _); cbn [files calls]; [done|].
      rewrite decide_False; [done|]. rewrite lookup_insert_ne by done. by rewrite Hfree; intros [].
Qed.
End write.

Lemma blank_indent : blank (bytes_of_string "    ").
Proof. done. Qed.

(** With nothing failing a value is written, and read back. *)
Lemma WriteJson_no_faults infix file obj w : fresh_infix infix →
  ∃ w', WriteJson no_faults infix file obj w = (Ok tt, w') ∧
        files w' = <[file := json_print_indent "    " obj]> (files w).
Proof.
  intros Hf. pose proof (WriteJson_outcomes no_faults infix Hf file obj w) as Ho.
  destruct (WriteJson no_faults infix file obj w) as [r w'] eqn:Hr.
  assert (r = Ok tt) as ->; [|eauto].
  revert Hr. unfold WriteJson, prepareConfigFileDir. destruct (filepath_Split file) as [[|c d] f].
  all: unfold os_MkdirAll, os_CreateTemp, file_Close, os_WriteFile, os_Rename, os_Stat, os_Remove, attempt,
    pure_res, mbind, IO_bind, syscall, mret, IO_ret, keep; cbn [no_faults fault files calls].
  all: destruct (decide _); cbn [files calls]; by intros [= <- <-].
Qed.

Lemma ReadJson_eq {A} file (unmarshal : json → res A) w : ∃ w',
  ReadJson no_faults file unmarshal w =
    (match files w !! file with Some bs => v ← json_parse bs; unmarshal v | None => Err os_ErrNotExist end, w') ∧
  files w' = files w.
Proof.
  unfold ReadJson, os_Open, io_ReadAll, file_Close, attempt, pure_res, mbind, IO_bind, syscall, keep.
  cbn [no_faults fault files calls]. destruct (files w !! file) as [bs|] eqn:Hw.
  - rewrite decide_True by eauto. cbn [files calls]. eexists. split; [reflexivity|done].
  - rewrite decide_False by (by intros []). eexists. split; [reflexivity|done].
Qed.

Lemma ReadJson_no_faults {A} file (unmarshal : json → res A) obj w :
  files w !! file = Some (json_print_indent "    " obj) → no_frac obj →
  ∃ w', ReadJson no_faults file unmarshal w = (unmarshal obj, w') ∧ files w' = files w.
Proof.
  intros Hw Hobj. destruct (ReadJson_eq file unmarshal w) as (w'&->&Hf). exists w'.
  rewrite Hw, json_parse_print_indent by done. done.
Qed.

(** A random part longer than every file name. *)
Definition long_infix (fs : gmap string (list Ascii.ascii)) (pre post : string) : string :=
  string_of_bytes (replicate (Datatypes.S (max_list (map (String.length ∘ fst) (map_to_list fs)))) "0"%char).

Lemma length_bytes s : length (bytes_of_string s) = String.length s.
Proof. induction s as [|c s IH]; [done|]. simpl. by rewrite IH. Qed.

Lemma max_list_elem n l : n ∈ l → n ≤ max_list l.
Proof. induction 1; simpl; lia. Qed.

Lemma long_infix_fresh : fresh_infix long_infix.
Proof.
  intros fs pre post. apply eq_None_not_Some. intros [bs Hbs%elem_of_map_to_list].
  assert (String.length (temp_name long_infix fs pre post) ≤
          max_list (map (String.length ∘ fst) (map_to_list fs))) as Hle.
  { apply max_list_elem, list_elem_of_fmap. by exists (temp_name long_infix fs pre post, bs). }
  unfold temp_name in Hle. rewrite !str_length_app in Hle. unfold long_infix in Hle at 1.
  rewrite <-(length_bytes (string_of_bytes _)), bytes_of_string_of_bytes, length_replicate in Hle. lia.
Qed.

(** C28. [WriteJson] replaces a file atomically: whichever system calls fail, the
    target afterwards holds the whole new text and no other file has changed, or
    an error is returned, the target and every other file are untouched, and at
    most one temporary file is left behind. When no call fails it succeeds, and
    [ReadJson] then reads the value back. *)
Theorem WriteJson_atomic F infix file obj w :
  fresh_infix infix →
  match WriteJson F infix file obj w with
  | (Ok _, w') => files w' = <[file := json_print_indent "    " obj]> (files w)
  | (Err _, w') => files w' = files w ∨
      ∃ temp c, temp ≠ file ∧ files w !! temp = None ∧ files w' = <[temp := c]> (files w)
  | (Panic, _) => False
  end ∧
  (no_frac obj → ∀ A (unmarshal : json → res A), ∃ w' w'',
    WriteJson no_faults infix file obj w = (Ok tt, w') ∧
    ReadJson no_faults file unmarshal w' = (unmarshal obj, w'')).
Proof.
  intros Hf. split; [by apply WriteJson_outcomes|]. intros Hobj A unmarshal.
  destruct (WriteJson_no_faults infix file obj w Hf) as (w'&Hw&Hfs).
  destruct (ReadJson_no_faults file unmarshal obj w') as (w''&Hr&_); [by rewrite Hfs, lookup_insert_eq|done|eauto].
Qed.

(** The rename fails. *)
Definition ex_faults : faults :=
  mkFaults (λ n, if bool_decide (n = 4) then Some io_EOF else None) (λ _, 1).
Definition ex_world : world := mkWorld {["d/f" := []]} 0.

Lemma WriteJson_atomic_witness :
  (WriteJson ex_faults long_infix "d/f" JNull ex_world).1 = Err io_EOF ∧
  match WriteJson ex_faults long_infix "d/f" JNull ex_world with
  | (Ok _, w') => files w' = <["d/f" := json_print_indent "    " JNull]> (files ex_world)
  | (Err _, w') => files w' = files ex_world ∨
      ∃ temp c, temp ≠ "d/f" ∧ files ex_world !! temp = None ∧ files w' = <[temp := c]> (files ex_world)
  | (Panic, _) => False
  end.
Proof.
  split; [vm_compute; reflexivity|].
  exact (proj1 (WriteJson_atomic ex_faults long_infix "d/f" JNull ex_world long_infix_fresh)).
Defined.

(** Opening creates the file when it is not there. *)
Lemma openOrCreateFile_outcomes F file w : let '(r, w') := openOrCreateFile F file w in
  r ≠ Panic ∧ (files w' = files w ∨ files w' = <[file := []]> (files w)).
Proof.
  unfold openOrCreateFile, os_Stat, os_Open, os_Create, file_Chmod, file_Close, attempt, pure_res,
    mbind, IO_bind, syscall, mret, IO_ret, keep.
  destruct (fault F (calls w)) as [e|]; [|case_decide]; cbn [files calls negb os_IsNotExist].
  - destruct (negb (os_IsNotExist e)); cbn [files calls]; [split; [done|auto]|].
    destruct (fault F _); cbn [files calls]; [split; [done|auto]|].
    destruct (fault F _); cbn [files calls]; [destruct (fault F _); cbn [files calls]|]; (split; [done|auto]).
  - destruct (fault F _); [split; [done|auto]|]. cbn. case_decide; (split; [done|auto]).
  - change (negb (os_IsNotExist os_ErrNotExist)) with false. cbn [files calls].
    destruct (fault F _); cbn [files calls]; [split; [done|auto]|].
    destruct (fault F _); cbn [files calls]; [destruct (fault F _); cbn [files calls]|]; (split; [done|auto]).
Qed.

(** [DirectWriteJson] is not atomic: a call that fails after the truncation
    leaves a prefix of the text, or nothing. *)
Lemma DirectWriteJson_outcomes F file obj w :
  match DirectWriteJson F file obj w with
  | (Ok _, w') => files w' = <[file := json_print_indent "    " obj]> (files w)
  | (Err _, w') => files w' = files w ∨
      ∃ n, files w' = <[file := take n (json_print_indent "    " obj)]> (files w)
  | (Panic, _) => False
  end.
Proof.
  unfold DirectWriteJson. generalize (json_print_indent "    " obj) as bs. intros bs.
  assert (∀ w1, files w1 = files w ∨ files w1 = <[file := []]> (files w) → match
    (r ← attempt (_ ← file_Truncate F file; file_Write F file bs);
     _ ← attempt (file_Close F); match r with inl _ => mret tt | inr e => pure_res (Err e) end) w1 with
  | (Ok _, w') => files w' = <[file := bs]> (files w)
  | (Err _, w') => files w' = files w ∨ ∃ n, files w' = <[file := take n bs]> (files w)
  | (Panic, _) => False end) as Htail.
  { intros w1 Hw1. assert (∀ x, <[file := x]> (files w1) = <[file := x]> (files w)) as Hins.
    { intros x. destruct Hw1 as [->| ->]; [done|]. apply insert_insert_eq. }
    unfold file_Truncate, file_Write, file_Close, attempt, pure_res, mbind, IO_bind, syscall, mret, IO_ret, keep.
    destruct (fault F (calls w1)); cbn [files calls].
    - destruct (fault F _); cbn [files calls]; (destruct Hw1 as [->| ->]; [by left|right; by exists 0]).
    - rewrite insert_insert_eq, lookup_insert_eq. destruct (fault F _); cbn [files calls];
        destruct (fault F _); cbn [files calls]; rewrite ?insert_insert_eq, Hins; try done; right; by eexists. }
  unfold mbind at 1, IO_bind at 1. unfold prepareConfigFileDir. destruct (filepath_Split file) as [d f].
  assert (∀ w1, files w1 = files w → match
    (_ ← openOrCreateFile F file; r ← attempt (_ ← file_Truncate F file; file_Write F file bs);
     _ ← attempt (file_Close F); match r with inl _ => mret tt | inr e => pure_res (Err e) end) w1 with
  | (Ok _, w') => files w' = <[file := bs]> (files w)
  | (Err _, w') => files w' = files w ∨ ∃ n, files w' = <[file := take n bs]> (files w)
  | (Panic, _) => False end) as Hrest.
  { intros w1 Hw1. pose proof (openOrCreateFile_outcomes F file w1) as Ho. unfold mbind at 1, IO_bind at 1.
    destruct (openOrCreateFile F file w1) as [[[]|e|] w2]; destruct Ho as [Hp Ho]; [..|done]; rewrite Hw1 in Ho.
    - by apply Htail.
    - destruct Ho as [->| ->]; [by left|right; by exists 0]. }
  destruct d as [|c d]; [by apply Hrest|].
  unfold os_MkdirAll, syscall, keep, mbind at 1, IO_bind at 1.
  destruct (fault F (calls w)); [by left|]. by apply Hrest.
Qed.

(** A copy has the contents of its source; a file copied onto itself is lost,
    since the copy truncates it before it is read. *)
Lemma CopyFileContents_no_faults src dst w bs : files w !! src = Some bs →
  ∃ w', CopyFileContents no_faults src dst w = (Ok tt, w') ∧
        files w' = <[dst := if decide (src = dst) then [] else bs]> (files w).
Proof.
  intros Hs. unfold CopyFileContents, os_Open, os_Create, io_ReadAll, file_Write, file_Sync, file_Close, attempt,
    mbind, IO_bind, syscall, mret, IO_ret, keep. cbn [no_faults fault files calls].
  rewrite decide_True by (rewrite Hs; eauto). cbn [files calls]. eexists. split; [reflexivity|]. cbn [files].
  rewrite insert_insert_eq. case_decide as Hd.
  - subst. rewrite lookup_insert_eq. done.
  - rewrite lookup_insert_eq, lookup_insert_ne, Hs by congruence. done.
Qed.

Lemma SliceDiff_filter x y : SliceDiff x y = filter (λ v, v ∉ y) x.
Proof.
  unfold SliceDiff. set (mapY := foldl _ ∅ y).
  assert (∀ v, v ∈ mapY ↔ v ∈ y) as Hm.
  { intros v. unfold mapY. assert (∀ s : gset string, v ∈ foldl (λ m val, {[val]} ∪ m) s y ↔ v ∈ s ∨ v ∈ y) as H;
      [|rewrite H; set_solver]. induction y as [|z y IH]; intros s; cbn [foldl]; [set_solver|].
    rewrite IH. set_solver. }
  assert (∀ d, foldl (λ diff val, if decide (val ∈ mapY) then diff else diff ++ [val]) d x =
    d ++ filter (λ v, v ∉ y) x) as H; [|apply H].
  induction x as [|v x IH]; intros d; cbn [foldl]; [by rewrite app_nil_r|].
  rewrite IH, filter_cons. destruct (decide (v ∈ mapY)) as [Hv|Hv]; rewrite Hm in Hv.
  - rewrite decide_False; [done|]. intros Hn. by apply Hn.
  - rewrite decide_True by done. by rewrite <-app_assoc.
Qed.

(** ** [util/retry.go] *)

(** What an attempt returns: success, an error wrapped in [stop], or another. *)
Inductive attempt_result := Success | StopError (e : error) | PlainError (e : error).

(** A [time.Duration] wraps around in 64 bits. *)
Definition int64_wrap (z : Z) : Z := ((z + 2 ^ 63) `mod` 2 ^ 64 - 2 ^ 63)%Z.

(** [Retry(attempts, sleep, toExec, onError)]: the outcome, how often [toExec]
    ran, and the pauses. [toExec k] is the outcome of run [k], [rand k n] the
    draw below [n] after it, which panics for [n ≤ 0]. *)
Fixpoint Retry_from (n : nat) (attempts sleep : Z) (toExec : nat → attempt_result) (rand : nat → Z → Z) (k : nat) :
    res unit * nat * list Z :=
  match toExec k with
  | Success => (Ok tt, Datatypes.S k, [])
  | StopError e => (Err e, Datatypes.S k, [])
  | PlainError e =>
      let attempts := int64_wrap (attempts - 1) in
      if decide (0 < attempts)%Z then
        if decide (sleep ≤ 0)%Z then (Panic, Datatypes.S k, []) else
        let jitter := rand k sleep in
        let sleep := int64_wrap (sleep + jitter ÷ 2) in
        match n with
        | O => (Err e, Datatypes.S k, [])
        | Datatypes.S n =>
            let '(r, m, pauses) := Retry_from n attempts (int64_wrap (2 * sleep)) toExec rand (Datatypes.S k) in
            (r, m, sleep :: pauses)
        end
      else (Err e, Datatypes.S k, [])
  end.
(** The number of attempts left is fuel enough. *)
Definition Retry (attempts sleep : Z) (toExec : nat → attempt_result) (rand : nat → Z → Z) : res unit * nat * list Z :=
  Retry_from (Z.to_nat attempts) attempts sleep toExec rand 0.

Lemma int64_wrap_id z : (int64_min ≤ z ≤ int64_max)%Z → int64_wrap z = z.
Proof. unfold int64_wrap, int64_min, int64_max. intros Hz. rewrite Z.mod_small; lia. Qed.

(** While no attempt succeeds, every one of the [attempts] is made, each pause
    at least twice the one before, as long as the pauses stay in 64 bits. *)
Lemma Retry_exhausts n attempts sleep toExec rand k e :
  (∀ k, toExec k = PlainError e) → (∀ k n, 0 ≤ rand k n < n)%Z →
  (Z.of_nat n = attempts - 1)%Z → (0 < sleep)%Z → (sleep * 3 ^ attempts ≤ int64_max)%Z → (1 ≤ attempts ≤ int64_max)%Z →
  ∃ pauses, Retry_from n attempts sleep toExec rand k = (Err e, k + Z.to_nat attempts, pauses) ∧
            length pauses = n ∧ Forall (λ p, sleep ≤ p)%Z pauses.
Proof.
  intros Hfail Hrand. revert attempts sleep k. induction n as [|n IH]; intros attempts sleep k Hn Hs Hb Ha;
    cbn [Retry_from]; rewrite Hfail; rewrite int64_wrap_id by (unfold int64_min, int64_max in *; lia).
  - rewrite decide_False by lia. exists []. split; [|split; [done|constructor]].
    replace attempts with 1%Z by lia. f_equal. f_equal. lia.
  - rewrite decide_True, decide_False by lia. pose proof (Hrand k sleep) as Hj.
    assert (0 ≤ rand k sleep ÷ 2 ≤ sleep / 2)%Z as Hq.
    { rewrite Z.quot_div_nonneg by lia. split; [apply Z.div_pos; lia|apply Z.div_le_mono; lia]. }
    assert (2 * (sleep + rand k sleep ÷ 2) ≤ 3 * sleep)%Z as H3.
    { pose proof (Z.mul_div_le sleep 2 ltac:(lia)). lia. }
    assert (3 ^ attempts = 3 * 3 ^ (attempts - 1))%Z as Hpow.
    { rewrite <-Z.pow_succ_r by lia. f_equal. lia. }
    assert (1 ≤ 3 ^ (attempts - 1))%Z as Hpos by (apply (Z.pow_le_mono_r 3 0); lia).
    assert (sleep * 3 ≤ int64_max)%Z as Hmax by nia.
    rewrite (int64_wrap_id (sleep + _)) by (unfold int64_min, int64_max in *; lia).
    rewrite int64_wrap_id by (unfold int64_min, int64_max in *; lia).
    destruct (IH (attempts - 1)%Z (2 * (sleep + rand k sleep ÷ 2))%Z (Datatypes.S k)) as (ps&Hr&Hl&Hps);
      [lia|lia|nia|lia|]. rewrite Hr. exists ((sleep + rand k sleep ÷ 2)%Z :: ps). split; [|split; [by cbn; rewrite Hl|]].
    + f_equal. f_equal. lia.
    + constructor; [lia|]. eapply List.Forall_impl; [|exact Hps]. cbn. lia.
Qed.
