(* ===== verification/GoResolve.v ===== *)
(** * [net.ResolveUDPAddr], and addresses read back from their text

    Literal addresses are resolved here; the names are looked up by the
    parameter [lookup]. *)
From Stdlib Require Import Ascii.
From S2P Require Import Prelude GoStrings GoNet GoText GoCIDR Files.

(** [net.ResolveUDPAddr("udp", address)]: an empty host is no address. *)
Definition net_ResolveUDPAddr (lookup : string → res (list Ascii.ascii)) (address : string) : res UDPAddr :=
  '(host, port) ← net_SplitHostPort address;
  p ← strconv_Atoi port;
  _ ← check (bool_decide (0 ≤ p ≤ 65535)%Z) (Errorf ("address " +:+ port +:+ ": invalid port"));
  match host with
  | EmptyString => Ok (mkUDPAddr [] p EmptyString)
  | _ => match net_ParseIP (bytes_of_string host) with
         | Some ip => Ok (mkUDPAddr ip p EmptyString)
         | None => ip ← lookup host; Ok (mkUDPAddr ip p EmptyString)
         end
  end.

(** ** The characters of printed addresses *)

(** ** Host and port, joined and split *)

Lemma not_open {X} (A B : X) c : c ≠ "["%char → (match c with "["%char => A | _ => B end) = B.
Proof. intros Hc. destruct c as [[] [] [] [] [] [] [] []]; try done. Qed.

Lemma split_join_port host port :
  forallb ip_char (bytes_of_string host) = true →
  (∀ c, c ∈ bytes_of_string port → c ∈ bytes_of_string "-0123456789") →
  net_SplitHostPort (net_JoinHostPort host port) = Ok (host, port).
Proof.
  intros Hh Hp.
  assert (∀ c, c ∉ bytes_of_string "-0123456789" → c ∉ bytes_of_string port) as Hport by (intros c Hc Hin; by apply Hc, Hp).
  assert (colon ∉ bytes_of_string port) as Hcp by (apply Hport; apply (bool_decide_unpack _); vm_compute; exact I).
  assert ("["%char ∉ bytes_of_string port) as Hop by (apply Hport; apply (bool_decide_unpack _); vm_compute; exact I).
  assert ("]"%char ∉ bytes_of_string port) as Hcl by (apply Hport; apply (bool_decide_unpack _); vm_compute; exact I).
  assert ("["%char ∉ bytes_of_string host) as Hoh by by eapply ip_char_absent.
  assert ("]"%char ∉ bytes_of_string host) as Hch by by eapply ip_char_absent.
  unfold net_SplitHostPort, net_JoinHostPort. destruct (char_in colon host) eqn:Hcol.
  - rewrite !bytes_of_string_app. change (bytes_of_string "[") with ["["%char].
    change (bytes_of_string "]:") with ["]"%char; colon]. cbn [app].
    assert ("["%char :: bytes_of_string host ++ "]"%char :: colon :: bytes_of_string port =
      ("["%char :: bytes_of_string host ++ ["]"%char]) ++ colon :: bytes_of_string port) as Heq.
    { cbn [app]. by rewrite <-app_assoc. }
    rewrite Heq at 1. rewrite cut_last_app by done. rewrite cut_app by done.
    rewrite decide_True by done. rewrite bool_decide_false, bool_decide_false.
    + by rewrite !string_of_bytes_of_string.
    + rewrite elem_of_cons. intros [Hx|Hx]; [done|]. by apply Hcl.
    + rewrite elem_of_app, !elem_of_cons. intros [Hx|[Hx|[Hx|Hx]]]; done.
  - rewrite !bytes_of_string_app. change (bytes_of_string ":") with [colon]. cbn [app].
    rewrite cut_last_app by done.
    assert (colon ∉ bytes_of_string host) as Hn.
    { intros Hin%char_in_elem. congruence. }
    destruct (bytes_of_string host) as [|c h] eqn:Hb; cbn [app].
    + change colon with ":"%char. cbv iota. rewrite bool_decide_false by set_solver.
      rewrite bool_decide_false, bool_decide_false; [|set_solver..].
      rewrite <-(string_of_bytes_of_string host), Hb. by rewrite string_of_bytes_of_string.
    + assert (c ≠ "["%char) as Hc by (apply not_elem_of_cons in Hoh as [Hc _]; congruence).
      etransitivity; [apply not_open; exact Hc|]. rewrite !bool_decide_false; [|set_solver..].
      rewrite <-(string_of_bytes_of_string host), Hb. by rewrite !string_of_bytes_of_string.
Qed.

Lemma Itoa_chars_elem z c : c ∈ bytes_of_string (strconv_Itoa z) → c ∈ bytes_of_string "-0123456789".
Proof. intros Hc%char_in_elem. by apply (strconv_Itoa_chars z). Qed.

Lemma string_bytes_inj s t : bytes_of_string s = bytes_of_string t → s = t.
Proof. intros H. by rewrite <-(string_of_bytes_of_string s), H, string_of_bytes_of_string. Qed.

(** An address with a valid port is resolved back from its text, in 16 bytes. *)
Lemma resolve_UDPAddr_String lookup ip port :
  length ip = 4 ∨ length ip = 16 → (0 ≤ port ≤ 65535)%Z →
  ∃ ip', To16 ip = Some ip' ∧
    net_ResolveUDPAddr lookup (UDPAddr_String (mkUDPAddr ip port EmptyString)) = Ok (mkUDPAddr ip' port EmptyString).
Proof.
  intros Hl Hp. pose proof (net_ParseIP_IP_bytes ip Hl) as Hparse.
  assert (∃ ip', To16 ip = Some ip') as [ip' Hip'].
  { unfold To16. destruct Hl as [Hl|Hl]; rewrite Hl; [by eexists|]. rewrite decide_False, decide_True by done. by eexists. }
  exists ip'. split; [done|]. rewrite Hip' in Hparse.
  assert (UDPAddr_String (mkUDPAddr ip port EmptyString) = net_JoinHostPort (IP_String ip) (strconv_Itoa port)) as ->.
  { unfold UDPAddr_String. cbn [ua_IP ua_Port ua_Zone]. by destruct ip; [destruct Hl|]. }
  unfold net_ResolveUDPAddr. unfold IP_String. rewrite split_join_port.
  2: { rewrite bytes_of_string_of_bytes. by apply IP_bytes_ip. }
  2: { intros c. apply Itoa_chars_elem. }
  cbn [mbind res_bind]. rewrite strconv_Atoi_Itoa by (unfold int64_min, int64_max; lia). cbn [mbind res_bind].
  rewrite bool_decide_true by done. cbn [check mbind res_bind].
  destruct (string_of_bytes (IP_bytes ip)) eqn:He.
  - exfalso. apply (IP_bytes_nonempty ip). rewrite <-(bytes_of_string_of_bytes (IP_bytes ip)), He. done.
  - rewrite <-He, bytes_of_string_of_bytes, Hparse. done.
Qed.

(** Without an IP only the port is kept. *)
Lemma resolve_no_ip lookup port : (0 ≤ port ≤ 65535)%Z →
  net_ResolveUDPAddr lookup (UDPAddr_String (mkUDPAddr [] port EmptyString)) = Ok (mkUDPAddr [] port EmptyString).
Proof.
  intros Hp. unfold net_ResolveUDPAddr, UDPAddr_String. cbn [ua_IP ua_Port ua_Zone].
  rewrite split_join_port by (done || apply Itoa_chars_elem). cbn [mbind res_bind].
  rewrite strconv_Atoi_Itoa by (unfold int64_min, int64_max; lia). cbn [mbind res_bind].
  by rewrite bool_decide_true.
Qed.

(** A port out of range is an error. *)
Lemma resolve_bad_port lookup ip port : ip = [] ∨ length ip = 4 ∨ length ip = 16 → ¬ (0 ≤ port ≤ 65535)%Z →
  (int64_min ≤ port ≤ int64_max)%Z →
  ∃ e, net_ResolveUDPAddr lookup (UDPAddr_String (mkUDPAddr ip port EmptyString)) = Err e.
Proof.
  intros Hl Hp Hr. unfold net_ResolveUDPAddr.
  assert (UDPAddr_String (mkUDPAddr ip port EmptyString) =
    net_JoinHostPort (match ip with [] => EmptyString | _ => IP_String ip end) (strconv_Itoa port)) as -> by done.
  rewrite split_join_port; [|destruct Hl as [->|Hl]; [done|]|intros c; apply Itoa_chars_elem].
  2: { destruct ip; [done|]. unfold IP_String. rewrite bytes_of_string_of_bytes. by apply IP_bytes_ip. }
  cbn [mbind res_bind]. rewrite strconv_Atoi_Itoa by done. cbn [mbind res_bind].
  rewrite bool_decide_false by done. by eexists.
Qed.
