(* ===== verification/Config.v ===== *)
(** * [client/internal/config.go]: the client's configuration file

    A configuration is read from a JSON file, filled in with defaults and with
    the caller's input by [apply], and written back when [apply] changed it.
    The WireGuard key generator is the parameter [generateKey]; the system calls
    are those of Files.v. *)
From Stdlib Require Import Ascii.
From S2P Require Import Prelude GoStrings GoNet GoJson GoJsonText Files.

Definition WgInterfaceDefault : string := "wt0".
Definition DefaultWgPort : Z := 51822.

Definition defaultInterfaceBlacklist : list string :=
  [WgInterfaceDefault; "wt"; "utun"; "tun0"; "zt"; "ZeroTier"; "wg"; "ts";
   "Tailscale"; "tailscale"; "docker"; "veth"; "br-"; "lo"].

Record ConfigInput := mkInput {
  in_ManagementURL : string;
  in_AdminURL : string;
  in_ConfigPath : string;
  in_NATExternalIPs : list string;
  in_CustomDNSAddress : list Ascii.ascii;
  in_InterfaceName : option string;
  in_WireguardPort : option Z;
  in_ExtraIFaceBlackList : list string
}.
(** [ConfigInput{ConfigPath: path}] *)
Definition input_path (path : string) : ConfigInput :=
  mkInput EmptyString EmptyString path [] [] None None [].

(** Slices are [None] when nil. *)
Record Config := mkConfig {
  PrivateKey : string;
  PreSharedKey : string;
  WgIface : string;
  WgPort : Z;
  NetworkMonitor : option bool;
  IFaceBlackList : option (list string);
  SSHKey : string;
  NATExternalIPs : option (list string);
  CustomDNSAddress : string;
  DisableAutoConnect : bool;
  DNSRouteInterval : Z
}.
Definition zero_config : Config :=
  mkConfig EmptyString EmptyString EmptyString 0 None None EmptyString None EmptyString false 0.

Global Instance Config_eq_dec : EqDecision Config.
Proof. solve_decision. Defined.

(** ** As JSON *)

Definition enc_strings (l : option (list string)) : json :=
  match l with Some l => JArr (map JStr l) | None => JNull end.
Definition enc_Config (c : Config) : json :=
  JObj [("PrivateKey", JStr (PrivateKey c)); ("PreSharedKey", JStr (PreSharedKey c));
        ("WgIface", JStr (WgIface c)); ("WgPort", JNum (WgPort c));
        ("NetworkMonitor", match NetworkMonitor c with Some b => JBool b | None => JNull end);
        ("IFaceBlackList", enc_strings (IFaceBlackList c)); ("SSHKey", JStr (SSHKey c));
        ("NATExternalIPs", enc_strings (NATExternalIPs c)); ("CustomDNSAddress", JStr (CustomDNSAddress c));
        ("DisableAutoConnect", JBool (DisableAutoConnect c)); ("DNSRouteInterval", JNum (DNSRouteInterval c))].

Definition dec_strings (v : json) : res (option (list string)) :=
  match v with
  | JNull => Ok None
  | _ =>
      match dec_slice (λ v, match dec_string EmptyString v with
                            | Ok s => (s, None) | Err e => (EmptyString, Some e) | Panic => (EmptyString, None) end) v with
      | (l, None) => Ok (Some l)
      | (_, Some e) => Err e
      end
  end.
Definition dec_bool (old : bool) (v : json) : res bool :=
  match v with JNull => Ok old | JBool b => Ok b | _ => Err (type_error "into bool") end.
Definition dec_bool_ptr (v : json) : res (option bool) :=
  match v with JNull => Ok None | JBool b => Ok (Some b) | _ => Err (type_error "into bool") end.

Definition set_Config (k : string) (v : json) (c : Config) : res Config :=
  let '(mkConfig a b w p nm bl ssh nat dns dis iv) := c in
  if key_is "PrivateKey" k then s ← dec_string a v; Ok (mkConfig s b w p nm bl ssh nat dns dis iv)
  else if key_is "PreSharedKey" k then s ← dec_string b v; Ok (mkConfig a s w p nm bl ssh nat dns dis iv)
  else if key_is "WgIface" k then s ← dec_string w v; Ok (mkConfig a b s p nm bl ssh nat dns dis iv)
  else if key_is "WgPort" k then z ← dec_int p v; Ok (mkConfig a b w z nm bl ssh nat dns dis iv)
  else if key_is "NetworkMonitor" k then o ← dec_bool_ptr v; Ok (mkConfig a b w p o bl ssh nat dns dis iv)
  else if key_is "IFaceBlackList" k then l ← dec_strings v; Ok (mkConfig a b w p nm l ssh nat dns dis iv)
  else if key_is "SSHKey" k then s ← dec_string ssh v; Ok (mkConfig a b w p nm bl s nat dns dis iv)
  else if key_is "NATExternalIPs" k then l ← dec_strings v; Ok (mkConfig a b w p nm bl ssh l dns dis iv)
  else if key_is "CustomDNSAddress" k then s ← dec_string dns v; Ok (mkConfig a b w p nm bl ssh nat s dis iv)
  else if key_is "DisableAutoConnect" k then x ← dec_bool dis v; Ok (mkConfig a b w p nm bl ssh nat dns x iv)
  else if key_is "DNSRouteInterval" k then z ← dec_int iv v; Ok (mkConfig a b w p nm bl ssh nat dns dis z)
  else Ok c.
Definition dec_Config : json → res Config := dec_struct set_Config zero_config.

(** ** [apply] *)

Section config.
Variable generateKey : res string.

(** One setting that an input may change and that has a default: the new value
    and whether it changed. *)
Definition apply_setting {A} `{EqDecision A} (input : option A) (zero dflt cur : A) : A * bool :=
  match input with
  | Some v => if decide (v ≠ cur) then (v, true) else if decide (cur = zero) then (dflt, true) else (cur, false)
  | None => if decide (cur = zero) then (dflt, true) else (cur, false)
  end.

(** The blacklist when it is empty, and the entries of the input it lacks. *)
Definition default_blacklist (bl : option (list string)) : option (list string) * bool :=
  match default [] bl with [] => (Some defaultInterfaceBlacklist, true) | _ => (bl, false) end.
Definition extend_blacklist (extra : list string) (bl : option (list string)) : option (list string) * bool :=
  match extra with
  | [] => (bl, false)
  | _ => match SliceDiff extra (default [] bl) with
         | [] => (bl, false)
         | more => (Some (default [] bl ++ more), true)
         end
  end.

Definition apply (config : Config) (input : ConfigInput) : res (Config * bool) :=
  '(key, u1) ← (if decide (PrivateKey config = EmptyString) then k ← generateKey; Ok (k, true)
                else Ok (PrivateKey config, false));
  let '(port, u2) := apply_setting (in_WireguardPort input) 0%Z DefaultWgPort (WgPort config) in
  let '(iface, u3) := apply_setting (in_InterfaceName input) EmptyString WgInterfaceDefault (WgIface config) in
  let '(bl, u4) := default_blacklist (IFaceBlackList config) in
  let '(bl, u5) := extend_blacklist (in_ExtraIFaceBlackList input) bl in
  Ok (mkConfig key (PreSharedKey config) iface port (NetworkMonitor config) bl (SSHKey config)
        (NATExternalIPs config) (CustomDNSAddress config) (DisableAutoConnect config) (DNSRouteInterval config),
      u1 || u2 || u3 || u4 || u5).

(** ** Reading and writing *)

Variable F : faults.
Variable infix : gmap string (list Ascii.ascii) → string → string → string.

Definition WriteOutConfig (path : string) (config : Config) : IO unit :=
  WriteJson F infix path (enc_Config config).

(** Any error but "does not exist" counts as existing. *)
Definition configFileIsExists (path : string) : IO bool :=
  r ← attempt (os_Stat F path);
  mret (match r with inl _ => true | inr e => negb (os_IsNotExist e) end).

Definition createNewConfig (input : ConfigInput) : IO Config :=
  e ← configFileIsExists (in_ConfigPath input);
  if (e : bool) then
    config ← ReadJson F (in_ConfigPath input) dec_Config;
    '(config, _) ← pure_res (apply config input);
    mret config
  else
    '(config, _) ← pure_res (apply zero_config input);
    _ ← WriteJson F infix (in_ConfigPath input) (enc_Config config);
    mret config.

Definition update (input : ConfigInput) : IO Config :=
  config ← ReadJson F (in_ConfigPath input) dec_Config;
  '(config, updated) ← pure_res (apply config input);
  if (updated : bool) then
    _ ← WriteJson F infix (in_ConfigPath input) (enc_Config config); mret config
  else mret config.

Definition ReadConfig (configPath : string) : IO Config :=
  e ← configFileIsExists configPath;
  if (e : bool) then
    config ← ReadJson F configPath dec_Config;
    '(config, changed) ← pure_res (apply config (input_path EmptyString));
    if (changed : bool) then _ ← WriteOutConfig configPath config; mret config else mret config
  else
    cfg ← createNewConfig (input_path configPath);
    _ ← WriteOutConfig configPath cfg;
    mret cfg.

Definition err_not_found : error := Errorf "config file doesn't exist".

Definition UpdateConfig (input : ConfigInput) : IO Config :=
  e ← configFileIsExists (in_ConfigPath input);
  if (e : bool) then update input else pure_res (Err err_not_found).

Definition UpdateOrCreateConfig (input : ConfigInput) : IO Config :=
  e ← configFileIsExists (in_ConfigPath input);
  if (e : bool) then update input
  else
    cfg ← createNewConfig input;
    _ ← WriteOutConfig (in_ConfigPath input) cfg;
    mret cfg.

Definition CreateInMemoryConfig (input : ConfigInput) : IO Config := createNewConfig input.
End config.

(** ** A configuration read back *)

(** Ports and intervals are 64-bit integers. *)
Definition config_ok (c : Config) : Prop :=
  (int64_min ≤ WgPort c ≤ int64_max)%Z ∧ (int64_min ≤ DNSRouteInterval c ≤ int64_max)%Z.

Lemma dec_enc_strings l : dec_strings (enc_strings l) = Ok l.
Proof.
  destruct l as [l|]; [|done]. cbn [enc_strings]. unfold dec_strings.
  rewrite (dec_slice_map _ JStr (λ s, s)); [by rewrite map_id|]. by apply list.Forall_forall.
Qed.

Lemma dec_enc_Config c : config_ok c → dec_Config (enc_Config c) = Ok c.
Proof.
  destruct c as [a b w p nm bl ssh nat dns dis iv]. intros [Hp Hi]. cbn [WgPort DNSRouteInterval] in *.
  unfold dec_Config, dec_struct. cbn [enc_Config dec_struct_partial].
  do 3 (erewrite dec_fields_Ok by reflexivity). erewrite dec_fields_Ok.
  2: { change (set_Config "WgPort" ?v (mkConfig ?a ?b ?w ?p ?nm ?bl ?ssh ?nat ?dns ?dis ?iv)) with
         (z ← dec_int p v; Ok (mkConfig a b w z nm bl ssh nat dns dis iv)).
       cbn [WgPort]. unfold dec_int. by rewrite decide_True. }
  erewrite dec_fields_Ok; [|by destruct nm]. erewrite dec_fields_Ok.
  2: { change (set_Config "IFaceBlackList" ?v (mkConfig ?a ?b ?w ?p ?nm ?bl ?ssh ?nat ?dns ?dis ?iv)) with
         (l ← dec_strings v; Ok (mkConfig a b w p nm l ssh nat dns dis iv)).
       cbn [IFaceBlackList]. by rewrite dec_enc_strings. }
  erewrite dec_fields_Ok by reflexivity. erewrite dec_fields_Ok.
  2: { change (set_Config "NATExternalIPs" ?v (mkConfig ?a ?b ?w ?p ?nm ?bl ?ssh ?nat ?dns ?dis ?iv)) with
         (l ← dec_strings v; Ok (mkConfig a b w p nm bl ssh l dns dis iv)).
       cbn [NATExternalIPs]. by rewrite dec_enc_strings. }
  do 2 (erewrite dec_fields_Ok by reflexivity). erewrite dec_fields_Ok; [reflexivity|].
  change (set_Config "DNSRouteInterval" ?v (mkConfig ?a ?b ?w ?p ?nm ?bl ?ssh ?nat ?dns ?dis ?iv)) with
    (z ← dec_int iv v; Ok (mkConfig a b w p nm bl ssh nat dns dis z)).
  cbn [DNSRouteInterval]. unfold dec_int. by rewrite decide_True.
Qed.

Lemma no_frac_Config c : no_frac (enc_Config c).
Proof.
  assert (∀ l, no_frac (enc_strings l)) as Hs.
  { intros [l|]; [|done]. apply no_frac_arr, Forall_fmap, list.Forall_forall. done. }
  destruct c as [a b w p [] bl ssh nat dns dis iv]; repeat split; apply Hs.
Qed.

Lemma dec_Config_ok v c : dec_Config v = Ok c → config_ok c.
Proof.
  unfold dec_Config. apply dec_struct_inv; [|split; vm_compute; split; discriminate].
  intros k v' [a b w p nm bl ssh nat dns dis iv] c' [Hp Hi]. cbn [WgPort DNSRouteInterval] in *.
  unfold set_Config, config_ok. repeat case_match; try (by intros [= <-]); intros (x&Hx&[= <-])%res_bind_Ok; cbn [WgPort DNSRouteInterval];
    split; first [done|eapply dec_int_range; [|exact Hx]; done].
Qed.

(** ** What [apply] does *)

(** Every default is filled in. *)
Definition settled (c : Config) : Prop :=
  PrivateKey c ≠ EmptyString ∧ WgPort c ≠ 0%Z ∧ WgIface c ≠ EmptyString ∧ default [] (IFaceBlackList c) ≠ [].

Lemma default_Some {A} (d a : A) : default d (Some a) = a.
Proof. done. Qed.

Section apply.
Variable key : string.
Hypothesis key_nonempty : key ≠ EmptyString.
#[local] Abbreviation apply := (apply (Ok key)).

Lemma apply_setting_unchanged {A} `{EqDecision A} (input : option A) zero dflt cur v u :
  dflt ≠ zero → apply_setting input zero dflt cur = (v, u) → (u = false ↔ v = cur).
Proof. unfold apply_setting. intros Hd. repeat case_match; intros [= <- <-]; naive_solver. Qed.

Lemma apply_setting_settles {A} `{EqDecision A} (input : option A) zero dflt cur v u :
  dflt ≠ zero → input ≠ Some zero → apply_setting input zero dflt cur = (v, u) →
  v ≠ zero ∧ apply_setting input zero dflt v = (v, false) ∧
  v = default (if decide (cur = zero) then dflt else cur) input.
Proof.
  unfold apply_setting. intros Hd Hi. destruct input as [i|]; cbn [default from_option].
  - assert (i ≠ zero) by congruence. repeat case_decide; intros [= <- <-]; repeat case_decide; naive_solver.
  - repeat case_decide; intros [= <- <-]; repeat case_decide; naive_solver.
Qed.

(** The blacklist with the entries of an input that it lacks. *)
Definition apply_blacklist (cur : option (list string)) (extra : list string) : option (list string) * bool :=
  let '(bl, u4) := default_blacklist cur in
  let '(bl, u5) := extend_blacklist extra bl in (bl, u4 || u5).

Lemma apply_blacklist_spec cur extra bl u : apply_blacklist cur extra = (bl, u) →
  let cur' := match default [] cur with [] => defaultInterfaceBlacklist | l => l end in
  default [] bl = cur' ++ filter (λ v, v ∉ cur') extra ∧ (u = false ↔ bl = cur).
Proof.
  unfold apply_blacklist, default_blacklist, extend_blacklist. destruct (default [] cur) as [|c0 l] eqn:Hc; cbn zeta.
  - destruct extra as [|x extra].
    + intros [= <- <-]. split; [by rewrite app_nil_r|]. split; [done|]. intros <-. done.
    + rewrite SliceDiff_filter. rewrite default_Some. destruct (filter _ _) as [|m more] eqn:Hf.
      * intros [= <- <-]. split; [by rewrite app_nil_r|]. split; [done|]. intros <-. done.
      * intros [= <- <-]. split; [done|]. split; [done|]. intros <-. done.
  - destruct cur as [cur|]; [|done]. cbn in Hc. subst cur. destruct extra as [|x extra].
    + intros [= <- <-]. split; [by rewrite app_nil_r|done].
    + rewrite SliceDiff_filter. rewrite default_Some. destruct (filter _ _) as [|m more] eqn:Hf.
      * intros [= <- <-]. split; [by rewrite app_nil_r|done].
      * intros [= <- <-]. split; [done|]. split; [done|]. intros [= Hl].
        apply (f_equal length) in Hl. rewrite length_app in Hl. cbn in Hl. lia.
Qed.

Lemma apply_eq c input :
  let '(port, u2) := apply_setting (in_WireguardPort input) 0%Z DefaultWgPort (WgPort c) in
  let '(iface, u3) := apply_setting (in_InterfaceName input) EmptyString WgInterfaceDefault (WgIface c) in
  let '(bl, u4) := apply_blacklist (IFaceBlackList c) (in_ExtraIFaceBlackList input) in
  let k := if decide (PrivateKey c = EmptyString) then key else PrivateKey c in
  apply c input = Ok (mkConfig k (PreSharedKey c) iface port (NetworkMonitor c) bl (SSHKey c)
    (NATExternalIPs c) (CustomDNSAddress c) (DisableAutoConnect c) (DNSRouteInterval c),
    bool_decide (PrivateKey c = EmptyString) || u2 || u3 || u4).
Proof.
  unfold Config.apply, apply_blacklist.
  destruct (apply_setting (in_WireguardPort input) _ _ _) as [port u2].
  destruct (apply_setting (in_InterfaceName input) _ _ _) as [iface u3].
  destruct (decide (PrivateKey c = EmptyString));
    [rewrite bool_decide_true by done|rewrite bool_decide_false by done]; cbn [mbind res_bind];
    destruct (default_blacklist (IFaceBlackList c)) as [bl u4];
    destruct (extend_blacklist (in_ExtraIFaceBlackList input) bl) as [bl' u5]; by rewrite !orb_assoc.
Qed.

(** Extending what was extended adds nothing. *)
Lemma apply_blacklist_idem cur extra bl u : apply_blacklist cur extra = (bl, u) →
  default [] bl ≠ [] ∧ apply_blacklist bl extra = (bl, false).
Proof.
  intros Hb. destruct (apply_blacklist_spec _ _ _ _ Hb) as [He _].
  set (cur' := match default [] cur with [] => defaultInterfaceBlacklist | l => l end) in *.
  assert (cur' ≠ []) as Hne by (subst cur'; by destruct (default [] cur)).
  assert (default [] bl ≠ []) as Hbl by (rewrite He; by destruct cur').
  split; [done|]. unfold apply_blacklist, default_blacklist, extend_blacklist.
  destruct (default [] bl) as [|x l] eqn:Hd; [done|]. cbn zeta. destruct extra as [|y extra]; [done|].
  rewrite SliceDiff_filter, Hd.
  destruct (filter (λ v, v ∉ x :: l) (y :: extra)) as [|z zs] eqn:Hf; [done|]. exfalso.
  assert (z ∈ filter (λ v, v ∉ x :: l) (y :: extra)) as Hz by (rewrite Hf; apply list_elem_of_here).
  apply list_elem_of_filter in Hz as [Hz Hin]. apply Hz. rewrite He, elem_of_app, list_elem_of_filter.
  destruct (decide (z ∈ cur')); auto.
Qed.

(** What [apply] does, for the proofs below. *)
Lemma apply_facts c input :
  ∃ c' u, apply c input = Ok (c', u) ∧ (u = false ↔ c' = c) ∧
    (let cur := match default [] (IFaceBlackList c) with [] => defaultInterfaceBlacklist | l => l end in
     default [] (IFaceBlackList c') = cur ++ filter (λ v, v ∉ cur) (in_ExtraIFaceBlackList input)) ∧
    (in_WireguardPort input ≠ Some 0%Z → in_InterfaceName input ≠ Some EmptyString →
      settled c' ∧ apply c' input = Ok (c', false) ∧
      WgPort c' = default (if decide (WgPort c = 0%Z) then DefaultWgPort else WgPort c) (in_WireguardPort input) ∧
      WgIface c' = default (if decide (WgIface c = EmptyString) then WgInterfaceDefault else WgIface c)
        (in_InterfaceName input)) ∧
    (in_WireguardPort input = Some 0%Z →
      WgPort c' = (if decide (WgPort c = 0%Z) then DefaultWgPort else 0%Z) ∧ u = true).
Proof.
  pose proof (apply_eq c input) as He.
  destruct (apply_setting (in_WireguardPort input) _ _ _) as [port u2] eqn:H2.
  destruct (apply_setting (in_InterfaceName input) _ _ _) as [iface u3] eqn:H3.
  destruct (apply_blacklist _ _) as [bl u4] eqn:H4. cbv zeta in He.
  eexists _, _. split; [exact He|]. cbn [IFaceBlackList WgPort WgIface].
  destruct (apply_blacklist_spec _ _ _ _ H4) as [Hbl Hu4].
  destruct (apply_blacklist_idem _ _ _ _ H4) as [Hne Hidem].
  assert (DefaultWgPort ≠ 0%Z) as Hdp by done. assert (WgInterfaceDefault ≠ EmptyString) as Hdi by done.
  pose proof (apply_setting_unchanged _ _ _ _ _ _ Hdp H2) as Hu2.
  pose proof (apply_setting_unchanged _ _ _ _ _ _ Hdi H3) as Hu3.
  split; [|split; [done|split]].
  - rewrite !orb_false_iff, Hu2, Hu3, Hu4, bool_decide_eq_false. split.
    + intros [[[Hk ->] ->] ->]. rewrite decide_False by done. by destruct c.
    + intros Hc. pose proof (f_equal PrivateKey Hc) as Hk. cbn [PrivateKey] in Hk.
      split; [split; [split|]|]; [|by destruct c; injection Hc..]. case_decide; congruence.
  - intros Hp Hi. destruct (apply_setting_settles _ _ _ _ _ _ Hdp Hp H2) as (Hp0&Hp1&Hp2).
    destruct (apply_setting_settles _ _ _ _ _ _ Hdi Hi H3) as (Hi0&Hi1&Hi2).
    split; [split; [cbn [PrivateKey]; by destruct (decide (PrivateKey c = EmptyString))|done]|]. split; [|done].
    match goal with |- apply ?c' input = _ => pose proof (apply_eq c' input) as He' end.
    cbn [WgPort WgIface IFaceBlackList PrivateKey] in He'. rewrite Hp1, Hi1, Hidem in He'. cbv zeta in He'.
    rewrite He'. cbn [PreSharedKey NetworkMonitor SSHKey NATExternalIPs CustomDNSAddress DisableAutoConnect DNSRouteInterval].
    destruct (decide (PrivateKey c = EmptyString)) as [Hk|Hk]; rewrite decide_False, bool_decide_false by done; done.
  - intros Hp. rewrite Hp in H2. unfold apply_setting in H2. destruct (decide (WgPort c = 0%Z)) as [Hc|Hc].
    + rewrite decide_False in H2 by congruence. injection H2 as <- <-. by rewrite orb_true_r.
    + rewrite decide_True in H2 by congruence. injection H2 as <- <-. by rewrite orb_true_r.
Qed.
(** [apply] fills in every default, takes over the port and the name of the
    input and appends the blacklist entries that are missing, keeping the rest,
    and it reports a change exactly when it made one. Applied again with the
    same input it then changes nothing, unless the input asks for port 0: that
    input makes the port alternate between 0 and the default for ever. *)
Lemma apply_settles c input :
  ∃ c' u, apply c input = Ok (c', u) ∧ (u = false ↔ c' = c) ∧
    (let cur := match default [] (IFaceBlackList c) with [] => defaultInterfaceBlacklist | l => l end in
     default [] (IFaceBlackList c') = cur ++ filter (λ v, v ∉ cur) (in_ExtraIFaceBlackList input)) ∧
    (in_WireguardPort input ≠ Some 0%Z → in_InterfaceName input ≠ Some EmptyString →
      settled c' ∧ apply c' input = Ok (c', false) ∧
      WgPort c' = default (if decide (WgPort c = 0%Z) then DefaultWgPort else WgPort c) (in_WireguardPort input) ∧
      WgIface c' = default (if decide (WgIface c = EmptyString) then WgInterfaceDefault else WgIface c)
        (in_InterfaceName input)) ∧
    (in_WireguardPort input = Some 0%Z →
      WgPort c' = (if decide (WgPort c = 0%Z) then DefaultWgPort else 0%Z) ∧ u = true).
Proof. apply apply_facts. Qed.
End apply.

(** ** The file *)

Definition config_text (c : Config) : list Ascii.ascii := json_print_indent "    " (enc_Config c).

(** The file at [path] holds [c]. *)
Definition saved (path : string) (c : Config) (w : world) : Prop :=
  ∃ bs v, files w !! path = Some bs ∧ json_parse bs = Ok v ∧ dec_Config v = Ok c.

(** The port of an input is an [int]; a proper input does not ask for what
    [apply] takes for "not set". *)
Definition int_input (input : ConfigInput) : Prop :=
  match in_WireguardPort input with Some p => (int64_min ≤ p ≤ int64_max)%Z | None => True end.
Definition proper_input (input : ConfigInput) : Prop :=
  in_WireguardPort input ≠ Some 0%Z ∧ in_InterfaceName input ≠ Some EmptyString ∧ int_input input.

(** The defaults that may still be missing after [apply]. *)
Definition refilled (c : Config) : Config :=
  mkConfig (PrivateKey c) (PreSharedKey c)
    (if decide (WgIface c = EmptyString) then WgInterfaceDefault else WgIface c)
    (if decide (WgPort c = 0%Z) then DefaultWgPort else WgPort c)
    (NetworkMonitor c) (IFaceBlackList c) (SSHKey c) (NATExternalIPs c) (CustomDNSAddress c)
    (DisableAutoConnect c) (DNSRouteInterval c).
Lemma refilled_settled c : settled c → refilled c = c.
Proof. intros (_&Hp&Hi&_). unfold refilled. rewrite !decide_False by done. by destruct c. Qed.

Section persistence.
Variable key : string.
Hypothesis key_nonempty : key ≠ EmptyString.
Variable infix : gmap string (list Ascii.ascii) → string → string → string.
Hypothesis fresh : fresh_infix infix.

Lemma saved_text path c w : config_ok c → files w !! path = Some (config_text c) → saved path c w.
Proof.
  intros Hc Hw. exists (config_text c), (enc_Config c). split; [done|].
  split; [apply json_parse_print_indent; [done|apply no_frac_Config]|by apply dec_enc_Config].
Qed.

Lemma saved_ok path c w : saved path c w → config_ok c.
Proof. intros (bs&v&_&_&Hc). by eapply dec_Config_ok. Qed.

Lemma exists_spec path w : ∃ w', configFileIsExists no_faults path w =
  (Ok (bool_decide (is_Some (files w !! path))), w') ∧ files w' = files w.
Proof.
  unfold configFileIsExists, os_Stat, attempt, mbind, IO_bind, syscall, mret, IO_ret, keep. cbn [no_faults fault files calls].
  destruct (decide (is_Some (files w !! path))) as [H|H]; cbn [files calls];
    exists (mkWorld (files w) (Datatypes.S (calls w))); (split; [|done]).
  - rewrite bool_decide_true by done. reflexivity.
  - rewrite bool_decide_false by done. reflexivity.
Qed.

Lemma Write_config path c w : ∃ w', WriteJson no_faults infix path (enc_Config c) w = (Ok tt, w') ∧
  files w' = <[path := config_text c]> (files w).
Proof. apply WriteJson_no_faults, fresh. Qed.

Lemma apply_keeps_ok c input c' u : int_input input → config_ok c →
  apply (Ok key) c input = Ok (c', u) → config_ok c'.
Proof.
  intros Hr [Hw Hi] Ha. pose proof (apply_eq key c input) as He. rewrite Ha in He.
  destruct (apply_setting (in_WireguardPort input) _ _ _) as [port u2] eqn:H2.
  destruct (apply_setting (in_InterfaceName input) _ _ _), (apply_blacklist _ _). injection He as -> _.
  split; [|done]. cbn [WgPort]. unfold apply_setting in H2. unfold int_input in Hr.
  destruct (in_WireguardPort input); repeat case_decide; injection H2 as <- _; try done; split; vm_compute; discriminate.
Qed.

(** Whatever the input, a key and a blacklist are there afterwards. *)
Lemma apply_key_blacklist c input c' u : apply (Ok key) c input = Ok (c', u) →
  PrivateKey c' ≠ EmptyString ∧ default [] (IFaceBlackList c') ≠ [].
Proof.
  intros Ha. pose proof (apply_eq key c input) as He. rewrite Ha in He.
  destruct (apply_setting (in_WireguardPort input) _ _ _), (apply_setting (in_InterfaceName input) _ _ _).
  destruct (apply_blacklist _ _) as [bl u4] eqn:Hb. injection He as -> _. cbn [PrivateKey IFaceBlackList].
  split; [by case_decide|]. apply (apply_blacklist_idem _ _ _ _ Hb).
Qed.

(** With both, an input that asks for nothing fills in the rest. *)
Lemma apply_refills c path : PrivateKey c ≠ EmptyString → default [] (IFaceBlackList c) ≠ [] →
  ∃ u, apply (Ok key) c (input_path path) = Ok (refilled c, u) ∧ (u = false ↔ refilled c = c).
Proof.
  intros Hk Hb. destruct (apply_facts key key_nonempty c (input_path path)) as (c'&u&Ha&Hu&_).
  pose proof (apply_eq key c (input_path path)) as He. rewrite Ha in He.
  unfold apply_setting, apply_blacklist, default_blacklist, extend_blacklist in He.
  cbn [in_WireguardPort in_InterfaceName in_ExtraIFaceBlackList input_path] in He.
  rewrite (decide_False (P := PrivateKey c = EmptyString)) in He by done. exists u. rewrite Ha.
  assert (c' = refilled c) as <-; [|done]. unfold refilled.
  destruct (default [] (IFaceBlackList c)); [done|].
  by destruct (decide (WgPort c = 0%Z)), (decide (WgIface c = EmptyString)); injection He as -> _.
Qed.

(** [update] succeeds exactly on a file that holds a configuration, and then
    saves what it returns. *)
Lemma update_saved input w c0 : int_input input → saved (in_ConfigPath input) c0 w →
  ∃ c u w', apply (Ok key) c0 input = Ok (c, u) ∧ update (Ok key) no_faults infix input w = (Ok c, w') ∧
    saved (in_ConfigPath input) c w' ∧
    files w' = if u then <[in_ConfigPath input := config_text c]> (files w) else files w.
Proof.
  intros Hin Hs. pose proof (saved_ok _ _ _ Hs) as Hok. destruct Hs as (bs&v&Hw&Hp&Hd).
  destruct (apply_facts key key_nonempty c0 input) as (c&u&Ha&Hu&_). exists c, u.
  destruct (ReadJson_eq (in_ConfigPath input) dec_Config w) as (w1&Hr&Hf1).
  rewrite Hw, Hp in Hr. cbn [mbind res_bind] in Hr. rewrite Hd in Hr.
  unfold update. unfold mbind at 1, IO_bind at 1. rewrite Hr. unfold pure_res, mbind at 1, IO_bind at 1. rewrite Ha.
  pose proof (apply_keeps_ok _ _ _ _ Hin Hok Ha) as Hok'. destruct u.
  - destruct (Write_config (in_ConfigPath input) c w1) as (w2&Hw2&Hf2).
    exists w2. unfold mbind, IO_bind. rewrite Hw2. rewrite Hf1 in Hf2. split; [done|]. split; [done|].
    split; [|done]. apply saved_text; [done|]. rewrite Hf2. apply lookup_insert_eq.
  - exists w1. split; [done|]. split; [done|]. split; [|done].
    assert (c = c0) as -> by by apply Hu. exists bs, v. by rewrite Hf1.
Qed.

(** A proper input leaves nothing out. *)
Lemma apply_proper c0 input c u : proper_input input → apply (Ok key) c0 input = Ok (c, u) → settled c.
Proof.
  intros (Hp0&Hi0&_) Ha. destruct (apply_facts key key_nonempty c0 input) as (c'&u'&Ha'&_&_&Hset&_).
  rewrite Ha in Ha'. injection Ha' as <- <-. by apply Hset.
Qed.

Lemma update_Ok input w c w' : update (Ok key) no_faults infix input w = (Ok c, w') →
  ∃ c0, saved (in_ConfigPath input) c0 w.
Proof.
  unfold update. unfold mbind at 1, IO_bind at 1.
  destruct (ReadJson_eq (in_ConfigPath input) dec_Config w) as (w1&->&_). unfold saved.
  destruct (files w !! in_ConfigPath input) as [bs|]; [|done].
  destruct (json_parse bs) as [v| |] eqn:Hp; [|done..]. cbn [mbind res_bind].
  destruct (dec_Config v) as [c0| |] eqn:Hd; [|done..]. intros _. by exists c0, bs, v.
Qed.

(** Reading a missing file makes it; [createNewConfig] has written it already. *)
Lemma createNewConfig_missing input w : proper_input input → files w !! in_ConfigPath input = None →
  ∃ c u w', apply (Ok key) zero_config input = Ok (c, u) ∧
    createNewConfig (Ok key) no_faults infix input w = (Ok c, w') ∧ settled c ∧ config_ok c ∧
    files w' = <[in_ConfigPath input := config_text c]> (files w).
Proof.
  intros Hin Hw. destruct (apply_facts key key_nonempty zero_config input) as (c&u&Ha&_&_&Hset&_).
  exists c, u. unfold createNewConfig. unfold mbind at 1, IO_bind at 1.
  destruct (exists_spec (in_ConfigPath input) w) as (w1&->&Hf1).
  rewrite Hw, bool_decide_false by (by intros []). unfold pure_res, mbind at 1, IO_bind at 1. rewrite Ha.
  destruct (Write_config (in_ConfigPath input) c w1) as (w2&Hw2&Hf2). rewrite Hf1 in Hf2.
  exists w2. unfold mbind, IO_bind. rewrite Hw2. split; [done|]. split; [done|].
  split; [by apply Hset; apply Hin|]. split; [|done].
  apply (apply_keeps_ok zero_config input _ u); [apply Hin|split; vm_compute; split; discriminate|done].
Qed.

(** A file that holds a configuration is read and filled in, but not written. *)
Lemma createNewConfig_saved input w c0 : saved (in_ConfigPath input) c0 w →
  ∃ c u w', apply (Ok key) c0 input = Ok (c, u) ∧
    createNewConfig (Ok key) no_faults infix input w = (Ok c, w') ∧ files w' = files w.
Proof.
  intros (bs&v&Hw&Hp&Hd). destruct (apply_facts key key_nonempty c0 input) as (c&u&Ha&_).
  exists c, u. unfold createNewConfig. unfold mbind at 1, IO_bind at 1.
  destruct (exists_spec (in_ConfigPath input) w) as (w1&->&Hf1). rewrite bool_decide_true by (rewrite Hw; eauto).
  destruct (ReadJson_eq (in_ConfigPath input) dec_Config w1) as (w2&Hr&Hf2).
  rewrite Hf1, Hw, Hp in Hr. cbn [mbind res_bind] in Hr. rewrite Hd in Hr.
  exists w2. split; [done|]. split; [|congruence].
  unfold mbind at 1, IO_bind at 1. rewrite Hr. unfold pure_res, mbind, IO_bind. by rewrite Ha.
Qed.
(** The key generator is used only for a configuration without a key. *)
Lemma apply_own_key k k' c input : PrivateKey c ≠ EmptyString → apply k c input = apply k' c input.
Proof. intros Hc. unfold Config.apply. by rewrite !decide_False. Qed.

Lemma proper_path path : proper_input (input_path path).
Proof. done. Qed.
Lemma int_path path : int_input (input_path path).
Proof. done. Qed.

(** A file that holds a configuration with a key and a blacklist is read as
    one with the rest filled in, and written only if something was missing. *)
Lemma ReadConfig_refills path c w : PrivateKey c ≠ EmptyString → default [] (IFaceBlackList c) ≠ [] →
  saved path c w →
  ∃ w', ReadConfig (Ok key) no_faults infix path w = (Ok (refilled c), w') ∧ saved path (refilled c) w' ∧
    files w' = if decide (refilled c = c) then files w else <[path := config_text (refilled c)]> (files w).
Proof.
  intros Hk Hb Hs. unfold ReadConfig. unfold mbind at 1, IO_bind at 1.
  destruct (exists_spec path w) as (w1&->&Hf1).
  assert (is_Some (files w !! path)) as Hsome by (destruct Hs as (bs&v&->&_); eauto).
  rewrite bool_decide_true by done.
  assert (saved path c w1) as Hs1 by (unfold saved; by rewrite Hf1).
  destruct (update_saved (input_path path) w1 c (int_path path) Hs1) as (c'&u&w'&Ha&Hup&Hs'&Hf).
  destruct (apply_refills c path Hk Hb) as (u'&Ha'&Hu). rewrite Ha in Ha'. injection Ha' as -> ->.
  exists w'. split; [exact Hup|]. split; [done|]. rewrite Hf, Hf1. cbn [in_ConfigPath input_path].
  destruct u'; case_decide as Hd; try done; exfalso; [|by apply Hd, Hu].
  apply Hu in Hd. done.
Qed.
End persistence.

(** C29. With working system calls, a configuration file that is missing, or that
    holds a configuration, is read as one with every default filled in, and what
    [ReadConfig] returns is what the file then holds: reading it again gives the
    same configuration and writes nothing. Whatever its input, [UpdateConfig]
    saves what it returns; reading that file gives it back, with the default in
    place of a port 0 or an empty interface name, and writes the file only in
    that case, which no input can cause that asks for neither of the two. No
    other file is touched. [CreateInMemoryConfig], too, writes the file when it
    is missing (for an input that asks for neither). *)
Theorem config_is_kept key infix path w :
  key ≠ EmptyString → fresh_infix infix →
  (files w !! path = None ∨ ∃ c0, saved path c0 w) →
  (∃ c w' w'', ReadConfig (Ok key) no_faults infix path w = (Ok c, w') ∧ settled c ∧ saved path c w' ∧
    (∀ p, p ≠ path → files w' !! p = files w !! p) ∧
    ReadConfig (Ok key) no_faults infix path w' = (Ok c, w'') ∧ files w'' = files w') ∧
  (∀ input c0, in_ConfigPath input = path → int_input input → saved path c0 w →
    ∃ c u w' w'', apply (Ok key) c0 input = Ok (c, u) ∧
      UpdateConfig (Ok key) no_faults infix input w = (Ok c, w') ∧ saved path c w' ∧
      (∀ p, p ≠ path → files w' !! p = files w !! p) ∧
      ReadConfig (Ok key) no_faults infix path w' = (Ok (refilled c), w'') ∧ saved path (refilled c) w'' ∧
      (files w'' = if decide (refilled c = c) then files w' else <[path := config_text (refilled c)]> (files w')) ∧
      (proper_input input → refilled c = c)) ∧
  (∀ input, in_ConfigPath input = path → proper_input input → files w !! path = None →
    ∃ c w', CreateInMemoryConfig (Ok key) no_faults infix input w = (Ok c, w') ∧
      files w' = <[path := config_text c]> (files w)).
Proof.
  intros Hk Hf Hw. split; [|split].
  - assert (∃ c w', ReadConfig (Ok key) no_faults infix path w = (Ok c, w') ∧ settled c ∧ saved path c w' ∧
      ∀ p, p ≠ path → files w' !! p = files w !! p) as (c&w'&Hr&Hc&Hs&Hfr).
    { unfold ReadConfig. unfold mbind at 1, IO_bind at 1. destruct (exists_spec path w) as (w1&->&Hf1).
      destruct Hw as [Hw|(c0&Hs)].
      - rewrite bool_decide_false by (rewrite Hw; by intros []).
        destruct (createNewConfig_missing key Hk infix Hf (input_path path) w1 (proper_path path)) as (c&u&w2&_&Hn&Hc&Hok&Hf2);
          [by rewrite Hf1|].
        destruct (Write_config infix Hf path c w2) as (w3&Hw3&Hf3). exists c, w3.
        unfold mbind, IO_bind, WriteOutConfig. rewrite Hn, Hw3. split; [done|]. split; [done|].
        rewrite Hf2, Hf1 in Hf3. cbn [in_ConfigPath input_path] in Hf3. rewrite insert_insert_eq in Hf3.
        split; [apply saved_text; [done|rewrite Hf3; apply lookup_insert_eq]|].
        intros p Hp. rewrite Hf3. by apply lookup_insert_ne.
      - rewrite bool_decide_true by (destruct Hs as (bs&v&->&_); eauto).
        assert (saved path c0 w1) as Hs1 by (unfold saved; by rewrite Hf1).
        destruct (update_saved key Hk infix Hf (input_path path) w1 c0 (int_path path) Hs1) as (c&u&w2&Ha&Hu&Hs2&Hf2).
        exists c, w2. split; [exact Hu|]. split; [by apply (apply_proper key Hk c0 (input_path path) c u)|].
        split; [done|]. rewrite Hf1 in Hf2. intros p Hp.
        rewrite Hf2. destruct u; [|done]. cbn [in_ConfigPath input_path]. by apply lookup_insert_ne. }
    destruct (ReadConfig_refills key Hk infix Hf path c w') as (w''&Hr'&_&Hf'); [apply Hc..|done|].
    rewrite (refilled_settled c Hc) in *. rewrite decide_True in Hf' by done. eauto 10.
  - intros input c0 <- Hin Hs. unfold UpdateConfig. unfold mbind at 1, IO_bind at 1.
    destruct (exists_spec (in_ConfigPath input) w) as (w1&->&Hf1).
    rewrite bool_decide_true by (destruct Hs as (bs&v&->&_); eauto).
    assert (saved (in_ConfigPath input) c0 w1) as Hs1 by (unfold saved; by rewrite Hf1).
    destruct (update_saved key Hk infix Hf input w1 c0 Hin Hs1) as (c&u&w2&Ha&Hu&Hs2&Hf2).
    destruct (apply_key_blacklist key Hk c0 input c u Ha) as [Hck Hcb].
    destruct (ReadConfig_refills key Hk infix Hf _ c w2 Hck Hcb Hs2) as (w''&Hr'&Hs''&Hf').
    exists c, u, w2, w''. split; [done|]. split; [done|]. split; [done|]. split.
    { rewrite Hf1 in Hf2. intros p Hp. rewrite Hf2. destruct u; [|done]. by apply lookup_insert_ne. }
    do 3 (split; [done|]). intros Hproper. by apply refilled_settled, (apply_proper key Hk c0 input c u).
  - intros input <- Hin Hm.
    destruct (createNewConfig_missing key Hk infix Hf input w Hin Hm) as (c&u&w'&_&Hn&_&_&Hf'). eauto.
Qed.

Lemma config_is_kept_witness : ∃ c w' w'',
  ReadConfig (Ok "key") no_faults long_infix "./config.json" (mkWorld ∅ 0) = (Ok c, w') ∧ settled c ∧
  saved "./config.json" c w' ∧ (∀ p, p ≠ "./config.json" → files w' !! p = files (mkWorld ∅ 0) !! p) ∧
  ReadConfig (Ok "key") no_faults long_infix "./config.json" w' = (Ok c, w'') ∧ files w'' = files w'.
Proof.
  refine (proj1 (config_is_kept "key" long_infix "./config.json" (mkWorld ∅ 0) _ long_infix_fresh _)); [done|].
  by left.
Defined.

Lemma apply_settles_witness :
  ∃ c' u, Config.apply (Ok "key") zero_config (mkInput EmptyString EmptyString EmptyString [] [] None (Some 0%Z) []) = Ok (c', u) ∧
    WgPort c' = DefaultWgPort ∧ u = true.
Proof.
  destruct (apply_settles "key" ltac:(done) zero_config (mkInput EmptyString EmptyString EmptyString [] [] None (Some 0%Z) []))
    as (c'&u&Ha&_&_&_&Hz). exists c', u. split; [exact Ha|]. exact (Hz eq_refl).
Defined.
