(* ===== verification/Signal.v ===== *)
(** * [signal/]: the rendezvous server

    Clients log in with a token, a name and a public key; the server records
    them under the address the datagram came from, and tells a client about
    the others of its token. The database is gorm ([PeerDB]); the text of the
    messages is JSON ([JsonText]). *)
From Stdlib Require Import Ascii.
From S2P Require Import Prelude GoStrings GoNet MuxedConn GoJson GoJsonText.

(** ** [signal/store] *)

(** A row of the table. *)
Record Peer := mkPeer {
  peer_ClientID : string;
  peer_IP : string;
  peer_Port : Z;
  peer_WgPubKey : string;
  peer_Token : string;
  peer_AllowedIP : string;
  peer_LastKeepAliveAt : Z
}.

Global Instance Peer_eq_dec : EqDecision Peer.
Proof. solve_decision. Defined.

Record PeerLogin := mkPeerLogin {
  login_IP : string;
  login_Port : Z;
  login_ClientID : string;
  login_WgPubKey : string;
  login_Token : string;
  login_AllowedIP : string
}.

(** [PeerConfig], as told to clients; [LastKeepAliveAt] is never filled in. *)
Record PeerConfig := mkPeerConfig {
  pc_IP : string;
  pc_Port : Z;
  pc_ClientID : string;
  pc_WgPubKey : string;
  pc_Token : string;
  pc_AllowedIP : string;
  pc_LastKeepAliveAt : string
}.

(** The gorm operations on the table: [Where(token).Find], [Where(token).
    Where(client_id).Updates(struct)], [Create], [Where("1 = 1").Delete]. *)
Class PeerDB (D : Type) := {
  db_Find : D → string → list Peer;
  db_Updates : D → string → string → Peer → D;
  db_Create : D → Peer → D;
  db_DeleteAll : D → D
}.

Definition nonzero_string (new old : string) : string :=
  match new with EmptyString => old | _ => new end.

(** gorm updates only the fields of a struct that are not zero. *)
Definition update_nonzero (u p : Peer) : Peer :=
  mkPeer (nonzero_string (peer_ClientID u) (peer_ClientID p))
    (nonzero_string (peer_IP u) (peer_IP p))
    (if (peer_Port u =? 0)%Z then peer_Port p else peer_Port u)
    (nonzero_string (peer_WgPubKey u) (peer_WgPubKey p))
    (nonzero_string (peer_Token u) (peer_Token p))
    (nonzero_string (peer_AllowedIP u) (peer_AllowedIP p))
    (if (peer_LastKeepAliveAt u =? 0)%Z then peer_LastKeepAliveAt p else peer_LastKeepAliveAt u).

(** Its documented behaviour while the database works; a query without an order
    returns the rows in any. *)
Class PeerDBSpec (D : Type) {DB : PeerDB D} := {
  rows : D → list Peer;
  rows_Find : ∀ d t, db_Find d t ≡ₚ filter (λ p, peer_Token p = t) (rows d);
  rows_Updates : ∀ d t c u, rows (db_Updates d t c u) =
    map (λ p, if decide (peer_Token p = t ∧ peer_ClientID p = c) then update_nonzero u p else p) (rows d);
  rows_Create : ∀ d p, rows (db_Create d p) = rows d ++ [p];
  rows_DeleteAll : ∀ d, rows (db_DeleteAll d) = []
}.

Section store.
Context {D : Type} {DB : PeerDB D}.

(** [init]: whatever an earlier run left is deleted. *)
Definition store_init (d : D) : D := db_DeleteAll d.

(** [Register(peerLogin)], at time [now]. *)
Definition Register (now : Z) (peerLogin : PeerLogin) (d : D) : D :=
  let peers := db_Find d (login_Token peerLogin) in
  if existsb (λ p, bool_decide (peer_ClientID p = login_ClientID peerLogin)) peers then
    db_Updates d (login_Token peerLogin) (login_ClientID peerLogin)
      (mkPeer EmptyString (login_IP peerLogin) (login_Port peerLogin) (login_WgPubKey peerLogin)
        EmptyString EmptyString 0)
  else
    db_Create d (mkPeer (login_ClientID peerLogin) (login_IP peerLogin) (login_Port peerLogin)
      (login_WgPubKey peerLogin) (login_Token peerLogin) (login_AllowedIP peerLogin) now).

Definition config_of (p : Peer) : PeerConfig :=
  mkPeerConfig (peer_IP p) (peer_Port p) (peer_ClientID p) (peer_WgPubKey p) (peer_Token p)
    (peer_AllowedIP p) EmptyString.

Definition GetClients (clientId token : string) (d : D) : list PeerConfig :=
  foldl (λ r p, if decide (peer_ClientID p ≠ clientId) then r ++ [config_of p] else r) []
    (db_Find d token).

(** [SqlStore.GetPeers(token)]: the rows found go into a value that is thrown
    away; the slice returned stays empty. *)
Definition GetPeers (token : string) (d : D) : list Peer := [].
End store.

(** ** [signal/server] *)

Definition Login : Z := 1.
Definition KeepAlive : Z := 2.
Definition Query : Z := 3.

Record Message := mkMessage { msg_Type : Z; msg_Token : string; msg_Body : json }.
Record PeerLoginReq := mkLoginReq { lr_ClientID : string; lr_WgPubKey : string; lr_AllowedIP : string }.
Record PeerQueryReq := mkQueryReq { qr_ClientID : string }.
Record RegisterResponse := mkRegResp { rr_IP : string; rr_Port : Z }.

Definition dec_Message : json → res Message :=
  dec_struct (λ k v m,
    if key_is "type" k then t ← dec_int (msg_Type m) v; Ok (mkMessage t (msg_Token m) (msg_Body m))
    else if key_is "token" k then t ← dec_string (msg_Token m) v; Ok (mkMessage (msg_Type m) t (msg_Body m))
    else if key_is "body" k then Ok (mkMessage (msg_Type m) (msg_Token m) v)
    else Ok m) (mkMessage 0 EmptyString JNull).

Definition dec_PeerLoginReq : json → res PeerLoginReq :=
  dec_struct (λ k v m,
    if key_is "clientId" k then s ← dec_string (lr_ClientID m) v; Ok (mkLoginReq s (lr_WgPubKey m) (lr_AllowedIP m))
    else if key_is "wgPubKey" k then s ← dec_string (lr_WgPubKey m) v; Ok (mkLoginReq (lr_ClientID m) s (lr_AllowedIP m))
    else if key_is "allowedIp" k then s ← dec_string (lr_AllowedIP m) v; Ok (mkLoginReq (lr_ClientID m) (lr_WgPubKey m) s)
    else Ok m) (mkLoginReq EmptyString EmptyString EmptyString).

Definition dec_PeerQueryReq : json → res PeerQueryReq :=
  dec_struct (λ k v m,
    if key_is "clientId" k then s ← dec_string (qr_ClientID m) v; Ok (mkQueryReq s) else Ok m)
    (mkQueryReq EmptyString).

Definition enc_RegisterResponse (r : RegisterResponse) : json :=
  JObj [("ip", JStr (rr_IP r)); ("port", JNum (rr_Port r))].
Definition enc_PeerConfig (p : PeerConfig) : json :=
  JObj [("ip", JStr (pc_IP p)); ("port", JNum (pc_Port p)); ("clientId", JStr (pc_ClientID p));
        ("wgPubKey", JStr (pc_WgPubKey p)); ("token", JStr (pc_Token p));
        ("allowedIp", JStr (pc_AllowedIP p)); ("lastKeepAliveAt", JStr (pc_LastKeepAliveAt p))].

Section server.
Context {D : Type} {DB : PeerDB D}.

(** [handleLoginRequest(message, remoteAddr)]; a body of the wrong shape gives
    an empty answer. The body was read into an [interface{}]; it is marshalled
    and read back as the request. *)
Definition handleLoginRequest (now : Z) (message : Message) (remoteAddr : UDPAddr) (d : D) :
    list Ascii.ascii * D :=
  let ip := IP_String (ua_IP remoteAddr) in
  let port := ua_Port remoteAddr in
  match dec_PeerLoginReq (as_interface (msg_Body message)) with
  | Ok req =>
      let d := Register now (mkPeerLogin ip port (lr_ClientID req) (lr_WgPubKey req)
                 (msg_Token message) (lr_AllowedIP req)) d in
      (json_print (enc_RegisterResponse (mkRegResp ip port)), d)
  | _ => ([], d)
  end.

Definition handleQueryRequest (message : Message) (d : D) : list Ascii.ascii :=
  match dec_PeerQueryReq (as_interface (msg_Body message)) with
  | Ok req => json_print (JArr (map enc_PeerConfig (GetClients (qr_ClientID req) (msg_Token message) d)))
  | _ => []
  end.

(** [handleConnection(conn, buffer, remoteAddr)]: the answer sent back, if any,
    and the database. An unknown type is answered with nothing. *)
Definition handleConnection (now : Z) (buffer : list Ascii.ascii) (remoteAddr : UDPAddr) (d : D) :
    option (list Ascii.ascii) * D :=
  match (v ← json_parse buffer; dec_Message v) with
  | Ok message =>
      if (msg_Type message =? Login)%Z then
        let '(r, d) := handleLoginRequest now message remoteAddr d in (Some r, d)
      else if (msg_Type message =? Query)%Z then (Some (handleQueryRequest message d), d)
      else (Some [], d)
  | _ => (None, d)
  end.

(** [Run]: one buffer of 1024 bytes for every read; a goroutine per datagram
    that looks at the buffer when it gets to run. *)
Definition server_buffer : nat := Z.to_nat 1024.

Record server_state := mkServer {
  s_buffer : list Ascii.ascii;
  s_handlers : list (nat * UDPAddr);
  s_db : D;
  s_sent : list (UDPAddr * list Ascii.ascii)
}.

(** [conn.WriteToUDP(responseData, remoteAddr)] *)
Definition reply (out : list (UDPAddr * list Ascii.ascii)) (remoteAddr : UDPAddr)
    (answer : option (list Ascii.ascii)) : list (UDPAddr * list Ascii.ascii) :=
  match answer with Some r => out ++ [(remoteAddr, r)] | None => out end.

Inductive srv_step : server_state → server_state → Prop :=
| srv_read b hs d out datagram remoteAddr :
    let data := take server_buffer datagram in
    srv_step (mkServer b hs d out)
             (mkServer (write_at 0 data b) ((length data, remoteAddr) :: hs) d out)
| srv_handle b hs1 hs2 d out n remoteAddr now answer d' :
    handleConnection now (take n b) remoteAddr d = (answer, d') →
    srv_step (mkServer b (hs1 ++ (n, remoteAddr) :: hs2) d out)
             (mkServer b (hs1 ++ hs2) d' (reply out remoteAddr answer)).
End server.

(** ** The table as a map *)

Definition peer_key (p : Peer) : string * string := (peer_Token p, peer_ClientID p).

Section registrations.
Context {D : Type} {DB : PeerDB D} {DS : PeerDBSpec D}.

(** A run of the store from its initialisation. *)
Definition registrations (d : D) (ls : list (Z * PeerLogin)) : D :=
  foldl (λ d '(now, l), Register now l d) (store_init d) ls.

(** What a login is meant to do to the clients of every token. *)
Definition login_row (now : Z) (l : PeerLogin) (old : option Peer) : Peer :=
  match old with
  | Some p => mkPeer (peer_ClientID p) (nonzero_string (login_IP l) (peer_IP p))
      (if (login_Port l =? 0)%Z then peer_Port p else login_Port l)
      (nonzero_string (login_WgPubKey l) (peer_WgPubKey p)) (peer_Token p) (peer_AllowedIP p)
      (peer_LastKeepAliveAt p)
  | None => mkPeer (login_ClientID l) (login_IP l) (login_Port l) (login_WgPubKey l)
      (login_Token l) (login_AllowedIP l) now
  end.
Definition login_map (m : gmap (string * string) Peer) '(now, l) : gmap (string * string) Peer :=
  let k := (login_Token l, login_ClientID l) in <[k := login_row now l (m !! k)]> m.

(** The rows represent a map from token and client to the one row of it. *)
Definition table_of (d : D) (m : gmap (string * string) Peer) : Prop :=
  NoDup (map peer_key (rows d)) ∧ ∀ k p, m !! k = Some p ↔ p ∈ rows d ∧ peer_key p = k.

Lemma table_of_init d : table_of (store_init d) ∅.
Proof.
  unfold table_of, store_init. rewrite rows_DeleteAll. split; [constructor|].
  intros k p. rewrite lookup_empty. set_solver.
Qed.

Lemma client_known d t c :
  existsb (λ p, bool_decide (peer_ClientID p = c)) (db_Find d t) = true ↔
  ∃ p, p ∈ rows d ∧ peer_key p = (t, c).
Proof.
  rewrite existsb_exists. split.
  - intros (p&Hp%list_elem_of_In&Hc%bool_decide_eq_true). exists p.
    rewrite rows_Find, list_elem_of_filter in Hp. destruct Hp as [<- Hp]. by subst c.
  - intros (p&Hp&[= <- <-]). exists p. rewrite <-list_elem_of_In, rows_Find, list_elem_of_filter.
    by rewrite bool_decide_true.
Qed.

(** gorm leaves the fields the update names as zero. *)
Lemma update_login l p : update_nonzero (mkPeer EmptyString (login_IP l) (login_Port l) (login_WgPubKey l)
  EmptyString EmptyString 0) p = login_row 0 l (Some p).
Proof. by destruct p. Qed.

Lemma map_key_stable (f : Peer → Peer) ps :
  (∀ p, peer_key (f p) = peer_key p) → map peer_key (map f ps) = map peer_key ps.
Proof. intros Hf. rewrite map_map. apply map_ext. done. Qed.

Lemma Register_table d m now l :
  table_of d m → table_of (Register now l d) (login_map m (now, l)).
Proof.
  intros [Hnd Hm]. unfold Register. destruct (existsb _ _) eqn:Hk.
  - apply client_known in Hk as (p0&Hp0&Hk0). set (k := (login_Token l, login_ClientID l)) in *.
    assert (m !! k = Some p0) as Hmk by by apply Hm.
    unfold table_of. rewrite rows_Updates. set (f := λ p, if decide _ then _ else p).
    assert (∀ p, f p = if decide (peer_key p = k) then login_row now l (Some p) else p) as Hf.
    { intros p. subst f. cbv beta. rewrite update_login. unfold peer_key, k.
      repeat case_decide; destruct_and?; try done; [congruence|naive_solver]. }
    assert (∀ p, peer_key (f p) = peer_key p) as Hkey by (intros p; rewrite Hf; by case_decide).
    split; [by rewrite map_key_stable|]. intros k' p. cbn [login_map]. fold k. rewrite Hmk.
    rewrite lookup_insert, list_elem_of_fmap. case_decide as Hkk.
    + subst k'. split.
      * intros [= <-]. split; [|by rewrite <-Hk0]. exists p0. by rewrite Hf, decide_True.
      * intros ((q&->&Hq)&Hkq). rewrite Hkey in Hkq. rewrite Hf, decide_True by done.
        assert (m !! k = Some q) as Hqm by by apply Hm. congruence.
    + rewrite Hm. split.
      * intros [Hp Hpk]. split; [|done]. exists p. rewrite Hf, decide_False by congruence. done.
      * intros ((q&->&Hq)&Hkq). rewrite Hkey in Hkq. rewrite Hf, decide_False by congruence. done.
  - assert (¬ ∃ p, p ∈ rows d ∧ peer_key p = (login_Token l, login_ClientID l)) as Hno.
    { intros Hp%client_known. congruence. }
    unfold table_of. rewrite rows_Create. set (k := (login_Token l, login_ClientID l)) in *. split.
    + rewrite map_app. apply list.NoDup_app. split; [done|]. split; [|apply NoDup_singleton].
      intros k' (p&->&Hp)%list_elem_of_fmap Hpk%list_elem_of_singleton. apply Hno. by exists p.
    + intros k' p. cbn [login_map]. fold k.
      assert (m !! k = None) as ->.
      { apply eq_None_not_Some. intros [p' Hp']. apply Hno. exists p'. by apply Hm. }
      rewrite lookup_insert, elem_of_app, list_elem_of_singleton. case_decide as Hkk.
      * subst k'. split; [intros [= <-]; by split; [right|]|].
        intros [[Hp| ->] Hpk]; [|done]. exfalso. apply Hno. by exists p.
      * rewrite Hm. split; [naive_solver|]. intros [[Hp| ->] Hpk]; [done|]. by destruct Hkk.
Qed.

Lemma registrations_table d ls : table_of (registrations d ls) (foldl login_map ∅ ls).
Proof.
  unfold registrations. generalize (store_init d) (table_of_init d).
  generalize (∅ : gmap (string * string) Peer). induction ls as [|[now l] ls IH]; intros m d' Hd; [done|].
  cbn [foldl]. apply IH. by apply Register_table.
Qed.

Lemma GetClients_filter (d : D) c t :
  GetClients c t d = map config_of (filter (λ p, peer_ClientID p ≠ c) (db_Find d t)).
Proof.
  unfold GetClients.
  assert (∀ ps r, foldl (λ r p, if decide (peer_ClientID p ≠ c) then r ++ [config_of p] else r) r ps =
    r ++ map config_of (filter (λ p, peer_ClientID p ≠ c) ps)) as Hps; [|apply Hps].
  induction ps as [|p ps IH]; intros r; cbn [foldl]; [by rewrite app_nil_r|].
  rewrite IH, filter_cons. case_decide; [|done]. cbn [map]. by rewrite <-app_assoc.
Qed.

Lemma peer_key_token_inj ps t :
  (∀ p, p ∈ ps → peer_Token p = t) → NoDup (map peer_key ps) → NoDup (map peer_ClientID ps).
Proof.
  induction ps as [|p ps IH]; intros Ht; [constructor|]. cbn [map].
  intros [Hp Hps]%list.NoDup_cons. apply list.NoDup_cons. split.
  - intros (q&Hq&Hin)%list_elem_of_fmap. apply Hp, list_elem_of_fmap. exists q. split; [|done].
    unfold peer_key. rewrite Hq, !Ht by set_solver. done.
  - apply IH; [set_solver|done].
Qed.

Lemma db_Find_elem (d : D) t p : p ∈ db_Find d t ↔ peer_Token p = t ∧ p ∈ rows d.
Proof. by rewrite rows_Find, list_elem_of_filter. Qed.

Lemma GetClients_keys (d : D) c t :
  NoDup (map peer_key (rows d)) → NoDup (map pc_ClientID (GetClients c t d)).
Proof.
  intros Hnd. rewrite GetClients_filter, map_map.
  change (NoDup (map peer_ClientID (filter (λ p, peer_ClientID p ≠ c) (db_Find d t)))).
  apply (peer_key_token_inj _ t).
  - by intros p [_ [? _]%db_Find_elem]%list_elem_of_filter.
  - eapply sublist_NoDup; [|apply fmap_sublist, sublist_filter].
    eapply NoDup_Permutation_proper; [apply fmap_Permutation, rows_Find|].
    eapply sublist_NoDup; [apply Hnd|apply fmap_sublist, sublist_filter].
Qed.

(** C15. For every sequence of logins since the server started, a client of a
    token has one row: the first login made it, and every later one has replaced
    its address and public key, where these are not zero, and left its allowed
    IP and keep-alive time as the first login set them. [GetClients] lists every
    other client of the token, each once, and nobody else. *)
Theorem GetClients_lists_others (d : D) (ls : list (Z * PeerLogin)) :
  table_of (registrations d ls) (foldl login_map ∅ ls) ∧
  ∀ clientId token,
    NoDup (map pc_ClientID (GetClients clientId token (registrations d ls))) ∧
    ∀ pc, pc ∈ GetClients clientId token (registrations d ls) ↔
      ∃ c p, c ≠ clientId ∧ foldl login_map ∅ ls !! (token, c) = Some p ∧ pc = config_of p.
Proof.
  pose proof (registrations_table d ls) as [Hnd Hm]. split; [done|]. intros c t.
  split; [by apply GetClients_keys|]. intros pc.
  rewrite GetClients_filter, list_elem_of_fmap. split.
  - intros (p&->&[Hc [Ht Hp]%db_Find_elem]%list_elem_of_filter). exists (peer_ClientID p), p.
    rewrite Hm. unfold peer_key. by rewrite Ht.
  - intros (c'&p&Hc&[Hp [= <- <-]]%Hm&->). exists p.
    by rewrite list_elem_of_filter, db_Find_elem.
Qed.
End registrations.

(** ** Handlers share one buffer *)
Section race.
Context {D : Type} {DB : PeerDB D}.

Lemma take_write_at g b : length g ≤ length b → ∀ n, n ≤ length g → take n (write_at 0 g b) = take n g.
Proof. intros Hg n Hn. unfold write_at. rewrite take_0. cbn [app]. apply take_app_le. lia. Qed.

Lemma length_write_at g b : length g ≤ length b → length (write_at 0 g b) = length b.
Proof. intros Hg. unfold write_at. rewrite !length_app, length_take, length_drop. lia. Qed.

Lemma read_handle (b : list Ascii.ascii) hs1 hs2 n (d : D) out now a :
  let r := handleConnection now (take n b) a d in
  srv_step (mkServer b (hs1 ++ (n, a) :: hs2) d out) (mkServer b (hs1 ++ hs2) r.2 (reply out a r.1)).
Proof. apply srv_handle with now. by destruct (handleConnection _ _ _ _). Qed.

(** Two datagrams arrive. A handler that runs before the next datagram is
    read answers its own; one that runs after acts, for its own sender's
    address, on the bytes of the later datagram, and its own message is never
    looked at: the one buffer every handler was given has been overwritten. *)
Lemma handlers_share_the_buffer (b : list Ascii.ascii) hs (d : D) out now (a1 a2 : UDPAddr)
    (g1 g2 : list Ascii.ascii) :
  length b = server_buffer → length g1 ≤ length g2 ≤ server_buffer →
  let own := handleConnection now g1 a1 d in
  let mixed := handleConnection now (take (length g1) g2) a1 d in
  (∃ b', rtc srv_step (mkServer b hs d out) (mkServer b' hs own.2 (reply out a1 own.1))) ∧
  (∃ b', rtc srv_step (mkServer b hs d out)
           (mkServer b' ((length g2, a2) :: hs) mixed.2 (reply out a1 mixed.1))).
Proof.
  intros Hb [H1 H2] own mixed. set (b1 := write_at 0 (take server_buffer g1) b).
  assert (take server_buffer g1 = g1) as Hg1 by (apply take_ge; lia).
  assert (take server_buffer g2 = g2) as Hg2 by (apply take_ge; lia).
  assert (length b1 = server_buffer) as Hb1 by (unfold b1; rewrite Hg1, length_write_at; lia).
  assert (take (length g1) b1 = g1) as Hown.
  { unfold b1. rewrite Hg1, take_write_at by lia. by apply take_ge. }
  split; eexists; (eapply rtc_l; [apply (srv_read _ _ _ _ g1 a1)|]); cbv zeta; fold b1; rewrite Hg1.
  - eapply rtc_l; [|done]. pose proof (read_handle b1 [] hs (length g1) d out now a1) as H.
    by rewrite Hown in H.
  - eapply rtc_l; [apply (srv_read _ _ _ _ g2 a2)|]. cbv zeta. rewrite Hg2. eapply rtc_l; [|done].
    pose proof (read_handle (write_at 0 g2 b1) [(length g2, a2)] hs (length g1) d out now a1) as H.
    rewrite take_write_at in H by lia. exact H.
Qed.
End race.

(** ** A table in memory *)

Global Instance list_DB : PeerDB (list Peer) := {
  db_Find d t := filter (λ p, peer_Token p = t) d;
  db_Updates d t c u :=
    map (λ p, if decide (peer_Token p = t ∧ peer_ClientID p = c) then update_nonzero u p else p) d;
  db_Create d p := d ++ [p];
  db_DeleteAll _ := []
}.
Global Instance list_DB_spec : PeerDBSpec (list Peer).
Proof. by refine {| rows := λ d : list Peer, d |}. Defined.

Definition ex_login (c : string) : list Ascii.ascii :=
  json_print (JObj [("type", JNum Login); ("token", JStr "t");
    ("body", JObj [("clientId", JStr c); ("wgPubKey", JStr "k"); ("allowedIp", JStr "10.0.0.1")])]).
Definition ex_a1 : UDPAddr := mkUDPAddr ["001"; "002"; "003"; "004"]%char 1 EmptyString.
Definition ex_a2 : UDPAddr := mkUDPAddr ["005"; "006"; "007"; "008"]%char 2 EmptyString.

(** Client B is registered at A's address, and A not at all. *)
Lemma handlers_share_the_buffer_witness :
  (handleConnection 7 (take (length (ex_login "A")) (ex_login "B")) ex_a1 (@nil Peer)).2 =
    [mkPeer "B" "1.2.3.4" 1 "k" "t" "10.0.0.1" 7] ∧
  ∃ b', rtc srv_step (mkServer (replicate server_buffer "000"%char) [] (@nil Peer) [])
    (mkServer b' [(length (ex_login "B"), ex_a2)]
      (handleConnection 7 (take (length (ex_login "A")) (ex_login "B")) ex_a1 (@nil Peer)).2
      (reply [] ex_a1 (handleConnection 7 (take (length (ex_login "A")) (ex_login "B")) ex_a1 (@nil Peer)).1)).
Proof.
  split; [vm_compute; reflexivity|].
  refine (proj2 (handlers_share_the_buffer (replicate server_buffer "000"%char) [] [] [] 7 ex_a1 ex_a2
    (ex_login "A") (ex_login "B") _ _)); [apply length_replicate|].
  split; apply (bool_decide_unpack _); vm_compute; exact I.
Defined.
