(* ===== verification/Exchange.v ===== *)
(** * [client/internal/exchange.go]: the client's side of the rendezvous

    Logging in with the server and asking it for the other peers, one datagram
    each way. The network between the two is [signal_net]; the flags
    [-client], [-signal] and [-token] are arguments. *)
From Stdlib Require Import Ascii.
From S2P Require Import Prelude GoStrings GoNet GoCIDR MuxedConn GoJson GoJsonText Signal.

Record PeerInfo := mkPeerInfo {
  pi_ClientId : string;
  pi_IP : string;
  pi_Port : Z;
  pi_WgPubKey : string;
  pi_AllowedIP : string;
  pi_LastKeepAliveAt : string
}.

Record PeerLoginRes := mkLoginRes { lres_IP : string; lres_Port : Z }.

Definition enc_PeerLoginReq (r : PeerLoginReq) : json :=
  JObj [("clientId", JStr (lr_ClientID r)); ("wgPubKey", JStr (lr_WgPubKey r));
        ("allowedIp", JStr (lr_AllowedIP r))].
Definition enc_PeerQueryReq (r : PeerQueryReq) : json := JObj [("clientId", JStr (qr_ClientID r))].
Definition enc_Message (type : Z) (token : string) (body : json) : json :=
  JObj [("type", JNum type); ("token", JStr token); ("body", body)].

Definition dec_PeerLoginRes : json → res PeerLoginRes :=
  dec_struct (λ k v m,
    if key_is "ip" k then s ← dec_string (lres_IP m) v; Ok (mkLoginRes s (lres_Port m))
    else if key_is "port" k then p ← dec_int (lres_Port m) v; Ok (mkLoginRes (lres_IP m) p)
    else Ok m) (mkLoginRes EmptyString 0).

Definition set_PeerInfo (k : string) (v : json) (m : PeerInfo) : res PeerInfo :=
  let '(mkPeerInfo c ip port key al ka) := m in
  if key_is "clientId" k then s ← dec_string c v; Ok (mkPeerInfo s ip port key al ka)
  else if key_is "ip" k then s ← dec_string ip v; Ok (mkPeerInfo c s port key al ka)
  else if key_is "port" k then p ← dec_int port v; Ok (mkPeerInfo c ip p key al ka)
  else if key_is "wgPubKey" k then s ← dec_string key v; Ok (mkPeerInfo c ip port s al ka)
  else if key_is "allowedIp" k then s ← dec_string al v; Ok (mkPeerInfo c ip port key s ka)
  else if key_is "lastKeepAliveAt" k then s ← dec_string ka v; Ok (mkPeerInfo c ip port key al s)
  else Ok m.
Definition dec_PeerInfos : json → list PeerInfo * option error :=
  dec_slice (dec_struct_partial set_PeerInfo
    (mkPeerInfo EmptyString EmptyString 0 EmptyString EmptyString EmptyString)).

(** [GetSignalServer()]: a flag it cannot read is a panic. *)
Definition GetSignalServer (signalIpAddress : string) : res (string * Z) :=
  match net_SplitHostPort signalIpAddress with
  | Ok (signalHost, signalPort) =>
      match strconv_Atoi signalPort with Ok sPort => Ok (signalHost, sPort) | _ => Panic end
  | _ => Panic
  end.

(** A connected UDP socket: whether it can be made from a local port and an
    address, whether a datagram can be written, and the datagrams that come in
    before the read deadline once it was. *)
Record signal_net := mkSignalNet {
  net_DialUDP : Z → UDPAddr → option error;
  net_Write : list Ascii.ascii → option error;
  net_arrivals : list Ascii.ascii → list (list Ascii.ascii)
}.

Definition buffer_size : nat := Z.to_nat 1024.
Definition err_timeout : error := Errorf "i/o timeout".

(** [fmt.Errorf("pre%v", err)] *)
Definition errorf_v (pre : string) (e : error) : error := Errorf (pre +:+ error_text e).

(** The read loop: on until a datagram leaves room in the buffer; when the
    deadline passes the read fails. *)
Fixpoint read_answer (arrivals : list (list Ascii.ascii)) (result : list Ascii.ascii) : res (list Ascii.ascii) :=
  match arrivals with
  | [] => Err (errorf_v "error reading data: " err_timeout)
  | g :: arrivals =>
      let chunk := take buffer_size g in
      let result := result ++ chunk in
      if decide (length chunk < buffer_size) then Ok result else read_answer arrivals result
  end.

(** Dial, write the message, read the answer. [before] is what runs between
    dialling and marshalling. *)
Definition round_trip {A} (N : signal_net) (signalIpAddress : string) (port : Z)
    (before : res A) (message : A → json) : res (list Ascii.ascii) :=
  '(signalHost, signalPort) ← GetSignalServer signalIpAddress;
  match net_DialUDP N port (mkUDPAddr (default [] (net_ParseIP (bytes_of_string signalHost))) signalPort EmptyString) with
  | Some e => Err (errorf_v "error connecting: " e)
  | None =>
      a ← before;
      let jsonData := json_print (message a) in
      match net_Write N jsonData with
      | Some e => Err (errorf_v "error sending data: " e)
      | None => read_answer (net_arrivals N jsonData) []
      end
  end.

(** [ClientRegister(port, wgPubKey, localIP)] *)
Definition ClientRegister (N : signal_net) (signalIpAddress clientId token : string) (port : Z)
    (wgPubKey localIP : string) : res PeerLoginRes :=
  result ← round_trip N signalIpAddress port (net_ParseCIDR localIP)
    (λ '(ip, _), enc_Message Login token (enc_PeerLoginReq (mkLoginReq clientId wgPubKey (IP_String ip))));
  v ← json_parse result; dec_PeerLoginRes v.

(** [GetRemotePeers(clientId, token)]: the peers decoded and the error. *)
Definition GetRemotePeers (N : signal_net) (signalIpAddress clientId token : string) :
    res (list PeerInfo * option error) :=
  match round_trip N signalIpAddress 0 (Ok tt)
          (λ _, enc_Message Query token (enc_PeerQueryReq (mkQueryReq clientId))) with
  | Panic => Panic
  | Err e => Ok ([], Some e)
  | Ok result =>
      match json_parse result with
      | Ok v => let '(l, e) := dec_PeerInfos v in Ok (l, errorf_v "error unmarshaling JSON: " <$> e)
      | Err e => Ok ([], Some (errorf_v "error unmarshaling JSON: " e))
      | Panic => Panic
      end
  end.

(** The server as the network a client at [a] sees, nothing being lost: it
    reads at most a buffer of the datagram and answers it. *)
Definition server_net {D} {DB : PeerDB D} (now : Z) (a : UDPAddr) (d : D) : signal_net :=
  mkSignalNet (λ _ _, None) (λ _, None)
    (λ g, match (handleConnection now (take server_buffer g) a d).1 with Some r => [r] | None => [] end).

(** ** Both sides together *)

Definition login_text (clientId wgPubKey token allowed : string) : list Ascii.ascii :=
  json_print (enc_Message Login token (enc_PeerLoginReq (mkLoginReq clientId wgPubKey allowed))).
Definition query_text (clientId token : string) : list Ascii.ascii :=
  json_print (enc_Message Query token (enc_PeerQueryReq (mkQueryReq clientId))).
Definition info_of (p : PeerConfig) : PeerInfo :=
  mkPeerInfo (pc_ClientID p) (pc_IP p) (pc_Port p) (pc_WgPubKey p) (pc_AllowedIP p) (pc_LastKeepAliveAt p).
Definition is_int (z : Z) : Prop := (int64_min ≤ z ≤ int64_max)%Z.

Global Instance is_int_dec z : Decision (is_int z).
Proof. unfold is_int. apply _. Defined.

Section rendezvous.
Context {D : Type} {DB : PeerDB D}.

Lemma server_handles_login now clientId wgPubKey token allowed (a : UDPAddr) (d : D) :
  handleConnection now (login_text clientId wgPubKey token allowed) a d =
    (Some (json_print (enc_RegisterResponse (mkRegResp (IP_String (ua_IP a)) (ua_Port a)))),
     Register now (mkPeerLogin (IP_String (ua_IP a)) (ua_Port a) clientId wgPubKey token allowed) d).
Proof.
  unfold handleConnection, login_text. rewrite json_parse_print by by repeat split. done.
Qed.

Lemma server_handles_query now clientId token (a : UDPAddr) (d : D) :
  handleConnection now (query_text clientId token) a d =
    (Some (json_print (JArr (map enc_PeerConfig (GetClients clientId token d)))), d).
Proof.
  unfold handleConnection, query_text. rewrite json_parse_print by by repeat split. done.
Qed.

Lemma no_frac_PeerConfigs l : no_frac (JArr (map enc_PeerConfig l)).
Proof. apply no_frac_arr, Forall_fmap, list.Forall_forall. by repeat split. Qed.

Lemma dec_enc_int old z : is_int z → dec_int old (JNum z) = Ok z.
Proof. intros Hz. unfold dec_int. by rewrite decide_True. Qed.

Lemma dec_enc_PeerConfigs l : Forall (λ p, is_int (pc_Port p)) l →
  dec_PeerInfos (JArr (map enc_PeerConfig l)) = (map info_of l, None).
Proof.
  intros Hl. unfold dec_PeerInfos. apply dec_slice_map. eapply List.Forall_impl; [|exact Hl].
  intros [ip port c key t al ka] Hp. cbn [pc_Port] in Hp. cbn [enc_PeerConfig dec_struct_partial].
  erewrite dec_fields_Ok by reflexivity. erewrite dec_fields_Ok.
  2: { change (set_PeerInfo "port" ?v (mkPeerInfo ?c ?i ?p ?k ?l ?m)) with
         (p' ← dec_int p v; Ok (mkPeerInfo c i p' k l m)).
       cbn [pc_Port]. by rewrite dec_enc_int. }
  by do 5 (erewrite dec_fields_Ok by reflexivity).
Qed.

Lemma dec_enc_RegisterResponse ip port : is_int port →
  dec_PeerLoginRes (enc_RegisterResponse (mkRegResp ip port)) = Ok (mkLoginRes ip port).
Proof.
  intros Hp. unfold dec_PeerLoginRes, dec_struct. cbn [enc_RegisterResponse dec_struct_partial].
  erewrite dec_fields_Ok by reflexivity. erewrite dec_fields_Ok; [reflexivity|].
  cbn beta. change (key_is "ip" "port") with false. change (key_is "port" "port") with true.
  cbv beta iota. cbn [rr_Port]. by rewrite dec_enc_int.
Qed.

(** One answer ends the loop when it leaves room in the buffer; one that fills
    the buffer makes it wait for another. *)
Lemma read_answer_single g :
  read_answer [g] [] = if decide (length g < buffer_size) then Ok g
                       else Err (errorf_v "error reading data: " err_timeout).
Proof.
  cbn [read_answer app]. rewrite length_take. repeat case_decide; try done; try lia.
  rewrite take_ge by lia. done.
Qed.

Lemma round_trip_server {A} now a (d : D) sig host port (before : A) message answer d' :
  GetSignalServer sig = Ok (host, port) →
  length (json_print (message before)) ≤ server_buffer →
  handleConnection now (json_print (message before)) a d = (Some answer, d') →
  ∀ local, round_trip (server_net now a d) sig local (Ok before) message =
    if decide (length answer < buffer_size) then Ok answer
    else Err (errorf_v "error reading data: " err_timeout).
Proof.
  intros Hs Hlen Hans local. unfold round_trip. rewrite Hs. cbn [mbind res_bind server_net net_DialUDP net_Write net_arrivals].
  rewrite take_ge by lia. rewrite Hans. apply read_answer_single.
Qed.

(** C14. A client's login, seen by the server at [a], registers the client
    there with its key and the IP of its tunnel address, and tells it [a]. Its
    later query returns exactly the other clients the server has for the token,
    as long as the answer is shorter than the 1024-byte buffer; a longer answer
    makes the client wait for a second datagram that is never sent, and it gets
    no peers but a timeout. *)
Theorem rendezvous_roundtrip now (a : UDPAddr) (d : D) sig host sport clientId token key localIP ip network port :
  GetSignalServer sig = Ok (host, sport) → net_ParseCIDR localIP = Ok (ip, network) → is_int (ua_Port a) →
  length (login_text clientId key token (IP_String ip)) ≤ server_buffer →
  length (query_text clientId token) ≤ server_buffer →
  length (json_print (enc_RegisterResponse (mkRegResp (IP_String (ua_IP a)) (ua_Port a)))) < buffer_size →
  handleConnection now (login_text clientId key token (IP_String ip)) a d =
    (Some (json_print (enc_RegisterResponse (mkRegResp (IP_String (ua_IP a)) (ua_Port a)))),
     Register now (mkPeerLogin (IP_String (ua_IP a)) (ua_Port a) clientId key token (IP_String ip)) d) ∧
  ClientRegister (server_net now a d) sig clientId token port key localIP =
    Ok (mkLoginRes (IP_String (ua_IP a)) (ua_Port a)) ∧
  let others := GetClients clientId token d in
  Forall (λ p, is_int (pc_Port p)) others →
  GetRemotePeers (server_net now a d) sig clientId token =
    Ok (if decide (length (json_print (JArr (map enc_PeerConfig others))) < buffer_size)
        then (map info_of others, None)
        else ([], Some (errorf_v "error reading data: " err_timeout))).
Proof.
  intros Hs Hc Hp Hlog Hq Hresp. split; [apply server_handles_login|]. split.
  - unfold ClientRegister. rewrite Hc.
    erewrite round_trip_server by (eauto; apply server_handles_login). rewrite decide_True by done.
    cbn [mbind res_bind]. rewrite json_parse_print by by repeat split. by apply dec_enc_RegisterResponse.
  - intros others Ho. unfold GetRemotePeers.
    erewrite round_trip_server by (eauto; apply server_handles_query). fold others. case_decide; [|done].
    rewrite json_parse_print by apply no_frac_PeerConfigs. by rewrite dec_enc_PeerConfigs.
Qed.
End rendezvous.

Lemma rendezvous_roundtrip_witness :
  GetRemotePeers (server_net 7 ex_a1 [mkPeer "B" "5.6.7.8" 2 "k" "t" "10.0.0.2" 3]) "9.9.9.9:51833" "A" "t" =
    Ok ([mkPeerInfo "B" "5.6.7.8" 2 "k" "10.0.0.2" EmptyString], None).
Proof.
  pose proof (rendezvous_roundtrip 7 ex_a1 [mkPeer "B" "5.6.7.8" 2 "k" "t" "10.0.0.2" 3] "9.9.9.9:51833"
    "9.9.9.9" 51833 "A" "t" "ka" "10.0.0.1/24" (v4InV6Prefix ++ ["010"; "000"; "000"; "001"]%char)
    (mkIPNet ["010"; "000"; "000"; "000"]%char ["255"; "255"; "255"; "000"]%char) 51820
    ltac:(vm_compute; reflexivity) ltac:(vm_compute; reflexivity) ltac:(vm_compute; split; discriminate)
    ltac:(apply (bool_decide_unpack _); vm_compute; exact I)
    ltac:(apply (bool_decide_unpack _); vm_compute; exact I)
    ltac:(apply (bool_decide_unpack _); vm_compute; exact I)) as (_&_&H).
  rewrite H; [vm_compute; reflexivity|].
  apply (bool_decide_unpack _). vm_compute. exact I.
Defined.
