(* ===== verification/PeerConn.v ===== *)
(** * [client/internal/peer/]: the connection to one peer

    [Open] configures WireGuard with the address the peer answered with and
    waits; [Close] is meant to end it. The mutex, the unbuffered close channel
    and the context are modelled at the granularity of their operations; the
    WireGuard interface is any [Configurer]. *)
From Stdlib Require Import Ascii.
From S2P Require Import Prelude GoStrings GoNet GoCIDR GoResolve GoJson WgConfigurer.

(** ** [error.go] *)

Inductive peer_error :=
| ConnectionTimeoutError (peer : string) (timeout : string)
| ConnectionClosedError (peer : string)
| ConnectionDisconnectedError (peer : string)
| ConnectionAlreadyClosedError (peer : string)
| OtherError (e : error).

(** [Error()]; a timeout is given as the duration prints. *)
Definition peer_error_text (e : peer_error) : string :=
  match e with
  | ConnectionTimeoutError peer timeout => "connection to peer " +:+ peer +:+ " timed out after " +:+ timeout
  | ConnectionClosedError peer => "connection to peer " +:+ peer +:+ " has been closed"
  | ConnectionDisconnectedError peer => "disconnected from peer " +:+ peer
  | ConnectionAlreadyClosedError peer => "connection to peer " +:+ peer +:+ " has been already closed"
  | OtherError e => error_text e
  end.

Definition NewConnectionAlreadyClosed (peer : string) : peer_error := ConnectionAlreadyClosedError peer.

(** [errors.As(err, &connectionClosedError)] *)
Definition is_ConnectionClosed (e : peer_error) : bool :=
  match e with ConnectionClosedError _ => true | _ => false end.

(** ** [env_config.go] *)

Definition second : Z := 1000000000.
Definition iceKeepAliveDefault : Z := 4 * second.
Definition iceDisconnectedTimeoutDefault : Z := 6 * second.
Definition iceRelayAcceptanceMinWaitDefault : Z := 2 * second.
Definition defaultWgKeepAlive : Z := 2 * second.

Definition envICEKeepAliveIntervalSec : string := "NB_ICE_KEEP_ALIVE_INTERVAL_SEC".
Definition envICEDisconnectedTimeoutSec : string := "NB_ICE_DISCONNECTED_TIMEOUT_SEC".
Definition envICERelayAcceptanceMinWaitSec : string := "NB_ICE_RELAY_ACCEPTANCE_MIN_WAIT_SEC".
Definition envICEForceRelayConn : string := "NB_ICE_FORCE_RELAY_CONN".

(** A number of seconds from the environment, or the default. *)
Definition env_seconds (value : string) (dflt : Z) : Z :=
  match value with
  | EmptyString => dflt
  | _ => match strconv_Atoi value with Ok n => wrap64 (n * second) | _ => dflt end
  end.
Definition iceKeepAlive (getenv : string → string) : Z :=
  env_seconds (getenv envICEKeepAliveIntervalSec) iceKeepAliveDefault.
Definition iceDisconnectedTimeout (getenv : string → string) : Z :=
  env_seconds (getenv envICEDisconnectedTimeoutSec) iceDisconnectedTimeoutDefault.
Definition iceRelayAcceptanceMinWait (getenv : string → string) : Z :=
  env_seconds (getenv envICERelayAcceptanceMinWaitSec) iceRelayAcceptanceMinWaitDefault.

Definition hasICEForceRelayConn (getenv : string → string) : bool :=
  bool_decide (to_lower (getenv envICEForceRelayConn) = "true").

(** ** [conn.go] *)

Record WgConfig := mkWgConfig {
  WgListenPort : Z;
  RemoteKey : string;
  AllowedIps : string;
  PreSharedKey : option (list Ascii.ascii)
}.

Record ConnConfig := mkConnConfig {
  Key : string;
  LocalKey : string;
  InterfaceBlackList : list string;
  DisableIPv6Discovery : bool;
  Timeout : Z;
  conn_WgConfig : WgConfig;
  LocalWgPort : Z
}.

Record OfferAnswer := mkAnswer { oa_WgListenPort : Z; oa_WgAddr : string }.

(** The part of a [Conn] that is not its synchronisation. *)
Record Conn := mkConn {
  conn_config : ConnConfig;
  remoteAnswer : OfferAnswer
}.

Definition NewConn (config : ConnConfig) : res Conn := Ok (mkConn config (mkAnswer 0 EmptyString)).
(** [conn.WgConfig()] *)
Definition WgConfig_of (c : Conn) : WgConfig := conn_WgConfig (conn_config c).
Definition OnRemoteAnswer (answer : OfferAnswer) (c : Conn) : Conn := mkConn (conn_config c) answer.

Section conn.
Context {T : WgTypes} {D : Type} {C : Configurer D}.
Variable lookup : string → res (list Ascii.ascii).

(** The endpoint handed to WireGuard. *)
Definition remote_endpoint (remoteAddr : string) (remoteWgPort : Z) : UDPAddr :=
  mkUDPAddr (default [] (net_ParseIP (bytes_of_string remoteAddr))) remoteWgPort EmptyString.

(** [configureConnection(remoteAddr, remoteWgPort)]: the error of resolving the
    endpoint is dropped, and the result it does not have is dereferenced. *)
Definition configureConnection (d : D) (c : Conn) (remoteAddr : string) (remoteWgPort : Z) : res UDPAddr * D :=
  let endpoint := remote_endpoint remoteAddr remoteWgPort in
  match net_ResolveUDPAddr lookup (UDPAddr_String endpoint) with
  | Ok endpointUdpAddr =>
      let wg := conn_WgConfig (conn_config c) in
      match run_op d (OpUpdatePeer (RemoteKey wg) (AllowedIps wg) defaultWgKeepAlive (Some endpointUdpAddr) (PreSharedKey wg)) with
      | (Ok _, d') => (Ok endpoint, d')
      | (Err e, d') => (Err (Wrapf "update peer: " e EmptyString), d')
      | (Panic, d') => (Panic, d')
      end
  | _ => (Panic, d)
  end.

(** [punchRemoteWGPort]: the two bytes and where they go, unless the address
    does not resolve. *)
Definition punchRemoteWGPort (remoteAddr : string) (remoteWgPort : Z) : option (list Ascii.ascii * UDPAddr) :=
  match net_ResolveUDPAddr lookup (remoteAddr +:+ ":" +:+ strconv_Itoa remoteWgPort) with
  | Ok addr => Some ([byte_of_Z 110; byte_of_Z 98], addr)
  | _ => None
  end.

(** ** Threads

    One [Conn] used by any number of goroutines. The mutex is not re-entrant:
    [Lock] waits while it is held, by whomever. *)
Inductive open_pc :=
| O_start                 (** before [conn.mu.Lock()] *)
| O_locked                (** the context is set *)
| O_unlocked              (** before [configureConnection] locks *)
| O_configuring
| O_waiting               (** in the [select] *)
| O_done (e : peer_error).
Inductive close_pc :=
| C_start
| C_locked                (** [Close] holds the mutex and calls [cleanup] *)
| C_cleaning              (** [cleanup] holds it *)
| C_cleaned               (** before the [select] that sends on [closeCh] *)
| C_done (r : option peer_error).
Inductive thread := TOpen (pc : open_pc) | TClose (pc : close_pc).

Record conn_world := mkCW {
  cw_locked : bool;
  cw_threads : gmap nat thread;
  cw_dev : D
}.

Inductive cstep (c : Conn) : conn_world → conn_world → Prop :=
| cs_open w t : cw_threads w !! t = None →
    cstep c w (mkCW (cw_locked w) (<[t := TOpen O_start]> (cw_threads w)) (cw_dev w))
| cs_close w t : cw_threads w !! t = None →
    cstep c w (mkCW (cw_locked w) (<[t := TClose C_start]> (cw_threads w)) (cw_dev w))
| cs_open_lock w t : cw_threads w !! t = Some (TOpen O_start) → cw_locked w = false →
    cstep c w (mkCW true (<[t := TOpen O_locked]> (cw_threads w)) (cw_dev w))
| cs_open_unlock w t : cw_threads w !! t = Some (TOpen O_locked) →
    cstep c w (mkCW false (<[t := TOpen O_unlocked]> (cw_threads w)) (cw_dev w))
| cs_configure_lock w t : cw_threads w !! t = Some (TOpen O_unlocked) → cw_locked w = false →
    cstep c w (mkCW true (<[t := TOpen O_configuring]> (cw_threads w)) (cw_dev w))
| cs_configure w t r d' : cw_threads w !! t = Some (TOpen O_configuring) →
    configureConnection (cw_dev w) c (oa_WgAddr (remoteAnswer c)) (oa_WgListenPort (remoteAnswer c)) = (r, d') →
    r ≠ Panic →
    cstep c w (mkCW false (<[t := TOpen (match r with Ok _ => O_waiting | Err e => O_done (OtherError e) | Panic => O_waiting end)]>
                             (cw_threads w)) d')
| cs_ctx_done w t : cw_threads w !! t = Some (TOpen O_waiting) →
    cstep c w (mkCW (cw_locked w) (<[t := TOpen (O_done (ConnectionDisconnectedError (Key (conn_config c))))]> (cw_threads w)) (cw_dev w))
| cs_close_lock w t : cw_threads w !! t = Some (TClose C_start) → cw_locked w = false →
    cstep c w (mkCW true (<[t := TClose C_locked]> (cw_threads w)) (cw_dev w))
| cs_cleanup_lock w t : cw_threads w !! t = Some (TClose C_locked) → cw_locked w = false →
    cstep c w (mkCW true (<[t := TClose C_cleaning]> (cw_threads w)) (cw_dev w))
| cs_cleanup_unlock w t : cw_threads w !! t = Some (TClose C_cleaning) →
    cstep c w (mkCW false (<[t := TClose C_cleaned]> (cw_threads w)) (cw_dev w))
| cs_close_send w t o : cw_threads w !! t = Some (TClose C_cleaned) → cw_threads w !! o = Some (TOpen O_waiting) →
    cstep c w (mkCW false (<[o := TOpen (O_done (ConnectionClosedError (Key (conn_config c))))]>
                 (<[t := TClose (C_done None)]> (cw_threads w))) (cw_dev w))
| cs_close_default w t : cw_threads w !! t = Some (TClose C_cleaned) →
    (∀ o, cw_threads w !! o ≠ Some (TOpen O_waiting)) →
    cstep c w (mkCW false (<[t := TClose (C_done (Some (ConnectionAlreadyClosedError (Key (conn_config c)))))]> (cw_threads w)) (cw_dev w)).

Definition conn_start (d : D) : conn_world := mkCW false ∅ d.

(** Who holds the mutex. *)
Definition holds (th : thread) : bool :=
  match th with
  | TOpen O_locked | TOpen O_configuring | TClose C_locked => true
  | _ => false
  end.
Definition beyond_cleanup (th : thread) : bool :=
  match th with TClose (C_cleaning | C_cleaned | C_done _) => true | TOpen (O_done e) => is_ConnectionClosed e | _ => false end.
End conn.

(** What [cleanup] does between locking and unlocking, were the agent and the
    proxy ever set: the agent's error keeps it, and is not told. *)
Definition cleanup_body {A P} (agent_Close : A → option error) (CloseConn : P → option error)
    (agent : option A) (wgProxy : option P) : option error * (option A * option P) :=
  let agent' := match agent with
                | Some a => match agent_Close a with None => None | Some _ => Some a end
                | None => None
                end in
  match wgProxy with
  | Some p => (CloseConn p, (agent', None))
  | None => (None, (agent', None))
  end.
Lemma cleanup_hides_agent_error {A P} (agent_Close : A → option error) (CloseConn : P → option error) a e :
  agent_Close a = Some e → cleanup_body agent_Close CloseConn (Some a) None = (None, (Some a, None)).
Proof. intros Ha. unfold cleanup_body. by rewrite Ha. Qed.

(** ** Nothing gets past [cleanup] *)
Section deadlock.
Context {T : WgTypes} {D : Type} {C : Configurer D}.
Variable lookup : string → res (list Ascii.ascii).
Variable c : Conn.
#[local] Abbreviation conn_step := (cstep lookup c).

(** One holder at most, and the lock is taken exactly when there is one; no
    goroutine is past the lock [cleanup] takes. *)
Record cinv (w : conn_world (D := D)) : Prop := {
  ci_one : ∀ t t' th th', cw_threads w !! t = Some th → cw_threads w !! t' = Some th' →
    holds th = true → holds th' = true → t = t';
  ci_locked : cw_locked w = true ↔ ∃ t th, cw_threads w !! t = Some th ∧ holds th = true;
  ci_before : ∀ t th, cw_threads w !! t = Some th → beyond_cleanup th = false
}.

Lemma cinv_start d : cinv (conn_start d).
Proof.
  split; cbn; [by intros ????; rewrite lookup_empty| |by intros ??; rewrite lookup_empty].
  split; [done|]. intros (t&th&H&_). by rewrite lookup_empty in H.
Qed.

(** Taking the mutex. *)
Lemma cinv_acquire w t th' : cinv w → cw_locked w = false → holds th' = true → beyond_cleanup th' = false →
  cinv (mkCW true (<[t := th']> (cw_threads w)) (cw_dev w)).
Proof.
  intros [_ Hl Hb] Hf Hh Hbe.
  assert (∀ t th, cw_threads w !! t = Some th → holds th = true → False) as Hno.
  { intros u th Hu Hth. rewrite (proj2 Hl) in Hf by eauto. done. }
  split; cbn [cw_threads cw_locked].
  - intros u u' x x'. rewrite !lookup_insert. repeat case_decide; subst; try done; intros H1 H2 ??; exfalso; eauto.
  - split; [|done]. intros _. exists t, th'. by rewrite lookup_insert_eq.
  - intros u x. rewrite lookup_insert. case_decide; [by intros [= <-]|eauto].
Qed.

(** Giving it back. *)
Lemma cinv_release w t th th' d : cinv w → cw_threads w !! t = Some th → holds th = true → holds th' = false →
  beyond_cleanup th' = false → cinv (mkCW false (<[t := th']> (cw_threads w)) d).
Proof.
  intros [Ho Hl Hb] Ht Hh Hn Hbe. split; cbn [cw_threads cw_locked].
  - intros u u' x x'. rewrite !lookup_insert. repeat case_decide; subst; try done; intros H1 H2 ??;
      simplify_eq; try congruence. by eapply Ho.
  - split; [done|]. intros (u&x&Hu&Hx). rewrite lookup_insert in Hu. case_decide; [simplify_eq; congruence|].
    exfalso. apply H. by eapply Ho.
  - intros u x. rewrite lookup_insert. case_decide; [by intros [= <-]|eauto].
Qed.

(** A step that does not touch it. *)
Lemma cinv_neutral w t th' : cinv w → (∀ th, cw_threads w !! t = Some th → holds th = false) → holds th' = false →
  beyond_cleanup th' = false → cinv (mkCW (cw_locked w) (<[t := th']> (cw_threads w)) (cw_dev w)).
Proof.
  intros [Ho Hl Hb] Ht Hn Hbe. split; cbn [cw_threads cw_locked].
  - intros u u' x x'. rewrite !lookup_insert. repeat case_decide; subst; try done; intros H1 H2 ??;
      simplify_eq; try congruence. by eapply Ho.
  - rewrite Hl. split; intros (u&x&Hu&Hx); exists u, x; split; try done.
    + rewrite lookup_insert_ne; [done|]. intros <-. by rewrite (Ht x Hu) in Hx.
    + rewrite lookup_insert in Hu. case_decide; [simplify_eq; congruence|done].
  - intros u x. rewrite lookup_insert. case_decide; [by intros [= <-]|eauto].
Qed.

Lemma cinv_step w w' : cinv w → conn_step w w' → cinv w'.
Proof.
  intros Hi Hs. pose proof (ci_before w Hi) as Hb. pose proof (ci_locked w Hi) as Hl.
  inversion Hs as [? t Ht|? t Ht|? t Ht Hf|? t Ht|? t Ht Hf|? t r d' Ht Hc Hr|? t Ht|? t Ht Hf|? t Ht Hf|? t Ht|? t o Ht Hot|? t Ht Hno]; subst.
  - apply cinv_neutral; [done| |done..]. intros th. by rewrite Ht.
  - apply cinv_neutral; [done| |done..]. intros th. by rewrite Ht.
  - by apply cinv_acquire.
  - by eapply cinv_release.
  - by apply cinv_acquire.
  - eapply cinv_release; [done|exact Ht|done|by destruct r..].
  - apply cinv_neutral; [done| |done..]. intros th. rewrite Ht. by intros [= <-].
  - by apply cinv_acquire.
  - exfalso. rewrite (proj2 Hl) in Hf; [done|]. by exists t, (TClose C_locked).
  - by apply Hb in Ht.
  - by apply Hb in Ht.
  - by apply Hb in Ht.
Qed.

(** With a [Close] inside, the mutex is never released. *)
Definition stuck (t : nat) (w0 w : conn_world (D := D)) : Prop :=
  cinv w ∧ cw_threads w !! t = Some (TClose C_locked) ∧ cw_dev w = cw_dev w0 ∧
  ∀ o pc, pc = O_start ∨ pc = O_unlocked → cw_threads w0 !! o = Some (TOpen pc) → cw_threads w !! o = Some (TOpen pc).

Lemma stuck_step t w0 w w' : stuck t w0 w → conn_step w w' → stuck t w0 w'.
Proof.
  intros (Hi&Ht&Hd&Ho) Hs. split; [by eapply cinv_step|].
  assert (cw_locked w = true) as Hl by (apply (ci_locked w Hi); by exists t, (TClose C_locked)).
  assert (∀ u th, cw_threads w !! u = Some th → holds th = true → u = t) as Hone.
  { intros u th Hu Hh. by apply (ci_one w Hi u t th _ Hu Ht Hh). }
  pose proof (ci_before w Hi) as Hb.
  assert (∀ u th, cw_threads w !! u ≠ Some (TClose C_locked) →
    (∀ pc, pc = O_start ∨ pc = O_unlocked → cw_threads w !! u ≠ Some (TOpen pc)) →
    <[u := th]> (cw_threads w) !! t = Some (TClose C_locked) ∧
    ∀ o pc, pc = O_start ∨ pc = O_unlocked → cw_threads w0 !! o = Some (TOpen pc) →
      <[u := th]> (cw_threads w) !! o = Some (TOpen pc)) as Hkeep.
  { intros u th Hu Hpc. split; [rewrite lookup_insert_ne; [done|]; by intros ->|].
    intros o pc Hor Hw. rewrite lookup_insert_ne; [auto|]. intros ->. by apply (Hpc pc Hor), Ho. }
  inversion Hs as [? u Hu|? u Hu|? u Hu Hf|? u Hu|? u Hu Hf|? u r d' Hu Hc Hr|? u Hu|? u Hu Hf|? u Hu Hf|? u Hu|? u o Hu Hot|? u Hu Hno];
    subst; cbn [cw_threads cw_dev]; try congruence.
  - destruct (Hkeep u (TOpen O_start)) as [? ?]; [by rewrite Hu|intros pc _; by rewrite Hu|done].
  - destruct (Hkeep u (TClose C_start)) as [? ?]; [by rewrite Hu|intros pc _; by rewrite Hu|done].
  - pose proof (Hone u _ Hu eq_refl). subst u. congruence.
  - pose proof (Hone u _ Hu eq_refl). subst u. congruence.
  - destruct (Hkeep u (TOpen (O_done (ConnectionDisconnectedError (Key (conn_config c)))))) as [? ?];
      [by rewrite Hu|intros pc [-> | ->]; by rewrite Hu|done].
  - by apply Hb in Hu.
  - by apply Hb in Hu.
  - by apply Hb in Hu.
Qed.

(** C36. [Close] never returns: it holds the connection's mutex when it calls
    [cleanup], which waits for the same mutex. In no reachable state has a
    [Close] got past [cleanup] or an [Open] been told that the connection was
    closed; and once a [Close] has the mutex it keeps it for ever: every [Open]
    before one of its critical sections stays there, and WireGuard is not
    configured again. *)
Theorem Close_deadlocks d w :
  rtc conn_step (conn_start d) w →
  (∀ t th, cw_threads w !! t = Some th → beyond_cleanup th = false) ∧
  ∀ t, cw_threads w !! t = Some (TClose C_locked) → ∀ w', rtc conn_step w w' →
    cw_threads w' !! t = Some (TClose C_locked) ∧ cw_locked w' = true ∧ cw_dev w' = cw_dev w ∧
    ∀ o pc, pc = O_start ∨ pc = O_unlocked → cw_threads w !! o = Some (TOpen pc) → cw_threads w' !! o = Some (TOpen pc).
Proof.
  intros Hr. assert (cinv w) as Hi by (apply (rtc_invariant conn_step cinv cinv_step _ _ Hr), cinv_start).
  split; [apply Hi|]. intros t Ht w' Hr'.
  assert (stuck t w w') as (Hi'&Ht'&Hd'&Ho').
  { apply (rtc_invariant conn_step (stuck t w) (stuck_step t w) _ _ Hr'). split; [done|]. split; [done|]. by split. }
  split; [done|]. split; [|done]. apply (ci_locked w' Hi'). by exists t, (TClose C_locked).
Qed.

(** No [Open] ends with the error of a closed connection. *)
Lemma open_not_closed d w t e :
  rtc conn_step (conn_start d) w → cw_threads w !! t = Some (TOpen (O_done e)) → is_ConnectionClosed e = false.
Proof.
  intros Hr Ht. assert (cinv w) as Hi by (apply (rtc_invariant conn_step cinv cinv_step _ _ Hr), cinv_start).
  exact (ci_before w Hi t _ Ht).
Qed.

(** What [Open] asks of WireGuard, when nothing else uses the connection: the
    peer's endpoint is the address it answered with, its error is passed on,
    and a port that is none crashes the goroutine. *)
Lemma configureConnection_endpoint d ip port :
  oa_WgAddr (remoteAnswer c) = IP_String ip → oa_WgListenPort (remoteAnswer c) = port →
  length ip = 4 ∨ length ip = 16 → (int64_min ≤ port ≤ int64_max)%Z →
  let wg := conn_WgConfig (conn_config c) in
  configureConnection lookup d c (oa_WgAddr (remoteAnswer c)) (oa_WgListenPort (remoteAnswer c)) =
  if decide (0 ≤ port ≤ 65535)%Z then
    let e := mkUDPAddr (default [] (To16 ip)) port EmptyString in
    match run_op d (OpUpdatePeer (RemoteKey wg) (AllowedIps wg) defaultWgKeepAlive (Some e) (PreSharedKey wg)) with
    | (Ok _, d') => (Ok e, d')
    | (Err err, d') => (Err (Wrapf "update peer: " err EmptyString), d')
    | (Panic, d') => (Panic, d')
    end
  else (Panic, d).
Proof.
  intros -> -> Hl Hr wg. unfold configureConnection, remote_endpoint.
  unfold IP_String. rewrite bytes_of_string_of_bytes, (net_ParseIP_IP_bytes ip Hl).
  assert (∃ ip', To16 ip = Some ip' ∧ length ip' = 16) as (ip'&Hip'&Hl').
  { unfold To16. destruct Hl as [Hl|Hl]; rewrite Hl; [eexists; split; [done|]; rewrite length_app, Hl; done|].
    rewrite decide_False, decide_True by done. by eexists. }
  rewrite Hip'. cbn [default from_option id]. case_decide as Hp.
  - destruct (resolve_UDPAddr_String lookup ip' port (or_intror Hl') Hp) as (ip''&Hi''&->).
    assert (ip'' = ip') as ->; [|done]. unfold To16 in Hi''. rewrite Hl' in Hi''.
    rewrite decide_False, decide_True in Hi'' by done. congruence.
  - destruct (resolve_bad_port lookup ip' port) as [e ->]; [auto|done..].
Qed.
End deadlock.

Definition ex_configurer : Configurer (list configurer_op) := {|
  run_op d op := (Ok tt, d ++ [op]); op_getStats _ _ := Err ErrPeerNotFound; op_close d := d
|}.
Definition ex_conn : Conn :=
  mkConn (mkConnConfig "peer" "me" [] true 30000 (mkWgConfig 51822 "peer" "10.0.0.2/32" None) 51822) (mkAnswer 51822 "1.2.3.4").
Definition ex_lookup (name : string) : res (list Ascii.ascii) := Err (Errorf "no such host").

Lemma ex_configure : (configureConnection (C := ex_configurer) ex_lookup [] ex_conn "1.2.3.4" 51822).2 =
  [OpUpdatePeer "peer" "10.0.0.2/32" 2000000000
     (Some (mkUDPAddr (v4InV6Prefix ++ map byte_of_Z [1; 2; 3; 4]%Z) 51822 EmptyString)) None].
Proof. vm_compute. reflexivity. Qed.

(** An [Open] that waits until its context is done. *)
Lemma ex_disconnected : ∃ w, rtc (cstep (C := ex_configurer) ex_lookup ex_conn) (conn_start []) w ∧
  cw_threads w !! 0 = Some (TOpen (O_done (ConnectionDisconnectedError "peer"))).
Proof.
  eexists. split.
  - eapply rtc_l; [apply (cs_open (C := ex_configurer) ex_lookup ex_conn (conn_start []) 0); done|].
    eapply rtc_l; [apply (cs_open_lock (C := ex_configurer) ex_lookup ex_conn _ 0); done|].
    eapply rtc_l; [apply (cs_open_unlock (C := ex_configurer) ex_lookup ex_conn _ 0); done|].
    eapply rtc_l; [apply (cs_configure_lock (C := ex_configurer) ex_lookup ex_conn _ 0); done|].
    eapply rtc_l; [eapply (cs_configure (C := ex_configurer) ex_lookup ex_conn _ 0); [done|by vm_compute|done]|].
    eapply rtc_l; [apply (cs_ctx_done (C := ex_configurer) ex_lookup ex_conn _ 0); done|]. apply rtc_refl.
  - done.
Qed.

(** An [Open] that has not configured yet, and a [Close] that has the mutex. *)
Definition ex_stuck : conn_world (D := list configurer_op) :=
  mkCW true (<[1 := TClose C_locked]> (<[1 := TClose C_start]> (<[0 := TOpen O_start]> ∅))) [].

Lemma Close_deadlocks_witness :
  rtc (cstep (C := ex_configurer) ex_lookup ex_conn) (conn_start []) ex_stuck ∧
  ∀ w', rtc (cstep (C := ex_configurer) ex_lookup ex_conn) ex_stuck w' → cw_threads w' !! 0 = Some (TOpen O_start).
Proof.
  assert (rtc (cstep (C := ex_configurer) ex_lookup ex_conn) (conn_start []) ex_stuck) as Hr.
  { eapply rtc_l; [apply (cs_open (C := ex_configurer) ex_lookup ex_conn (conn_start []) 0); done|].
    eapply rtc_l; [apply (cs_close (C := ex_configurer) ex_lookup ex_conn _ 1); done|].
    eapply rtc_l; [apply (cs_close_lock (C := ex_configurer) ex_lookup ex_conn _ 1); done|]. apply rtc_refl. }
  split; [exact Hr|]. intros w' Hw'.
  destruct (proj2 (Close_deadlocks (C := ex_configurer) ex_lookup ex_conn [] ex_stuck Hr) 1 eq_refl w' Hw') as (_&_&_&Ho).
  exact (Ho 0 O_start (or_introl eq_refl) eq_refl).
Defined.
