(* ===== verification/Engine.v ===== *)
(** * [client/internal/engine.go], [connect.go]: configuration, polling, workers

    The engine's configuration is made from the client's and a free port. The
    engine polls the server for the other peers; every peer told of gets a
    connection and a worker goroutine that opens it. WireGuard is any
    [Configurer], the network [signal_net]; random draws are arguments. Starting
    and stopping are in Client.v. *)
From Stdlib Require Import Ascii.
From S2P Require Import Prelude GoStrings GoNet GoCIDR GoResolve WgConfigurer.
From S2P Require Import MuxedConn GoJson GoJsonText Files Config Signal Exchange PeerConn.

(** ** [connect.go] *)

Record EngineConfig := mkEngineConfig {
  ec_WgPort : Z;
  ec_WgIfaceName : string;
  ec_WgAddr : string;
  ec_WgPrivateKey : list Ascii.ascii;
  ec_IFaceBlackList : list string;
  ec_UDPMuxPort : Z;
  ec_UDPMuxSrflxPort : Z
}.

(** [freePort(start)]: the first port from [start] on that can be listened on. *)
Fixpoint freePort_from (listen : Z → res unit) (x : Z) (n : nat) : res Z :=
  match n with
  | O => Err (Errorf "no free ports")
  | Datatypes.S n => match listen x with Ok _ => Ok x | _ => freePort_from listen (x + 1) n end
  end.
Definition freePort (listen : Z → res unit) (start : Z) : res Z :=
  let start := if (start =? 0)%Z then DefaultWgPort else start in
  freePort_from listen start (Z.to_nat (65536 - start)).

Definition createEngineConfig (listen : Z → res unit) (localWgAddr : string) (key : list Ascii.ascii)
    (config : Config.Config) : res EngineConfig :=
  port ← freePort listen (Config.WgPort config);
  Ok (mkEngineConfig port (Config.WgIface config) localWgAddr key [] 0 0).

(** [freePort] goes through every port up to 65535, and reports an error only
    when none is free. *)
Lemma freePort_first listen start :
  let s := if (start =? 0)%Z then DefaultWgPort else start in
  match freePort listen start with
  | Ok p => (s ≤ p ≤ 65535)%Z ∧ is_ok (listen p) = true ∧ ∀ q, (s ≤ q < p)%Z → is_ok (listen q) = false
  | Err _ => ∀ q, (s ≤ q ≤ 65535)%Z → is_ok (listen q) = false
  | Panic => False
  end.
Proof.
  intros s. unfold freePort. fold s. clearbody s.
  remember (Z.to_nat (65536 - s)) as n eqn:Hn. revert s Hn. induction n as [|n IH]; intros s Hn; cbn [freePort_from].
  - intros q Hq. lia.
  - destruct (listen s) eqn:Hl.
    + split; [lia|]. split; [by rewrite Hl|]. intros q Hq. lia.
    + specialize (IH (s + 1)%Z ltac:(lia)). destruct (freePort_from _ _ _) as [p| |]; [|..|done].
      * destruct IH as (H1&H2&H3). split; [lia|]. split; [done|]. intros q Hq.
        destruct (decide (q = s)) as [->|]; [by rewrite Hl|apply H3; lia].
      * intros q Hq. destruct (decide (q = s)) as [->|]; [by rewrite Hl|apply IH; lia].
    + specialize (IH (s + 1)%Z ltac:(lia)). destruct (freePort_from _ _ _) as [p| |]; [|..|done].
      * destruct IH as (H1&H2&H3). split; [lia|]. split; [done|]. intros q Hq.
        destruct (decide (q = s)) as [->|]; [by rewrite Hl|apply H3; lia].
      * intros q Hq. destruct (decide (q = s)) as [->|]; [by rewrite Hl|apply IH; lia].
Qed.

(** ** Workers *)

Record Engine := mkEngine {
  en_config : EngineConfig;
  peerConns : gmap string Conn;
  en_workers : list (Conn * string)
}.

Definition NewEngine (config : EngineConfig) : Engine := mkEngine config ∅ [].

Definition PeerConnectionTimeoutMax : Z := 45000.
Definition PeerConnectionTimeoutMin : Z := 30000.
Definition millisecond : Z := 1000000.

Section engine.
(** The public key of the engine's private key, and the draws of [rand.Intn]. *)
Variable local_key : string.
Variable draw : nat → Z.

Definition createPeerConn (e : Engine) (pubKey allowedIPs : string) : res Conn :=
  let timeout := ((draw (length (en_workers e)) + PeerConnectionTimeoutMin) * millisecond)%Z in
  let wgConfig := mkWgConfig (ec_WgPort (en_config e)) pubKey allowedIPs None in
  NewConn (mkConnConfig pubKey local_key (ec_IFaceBlackList (en_config e)) true timeout wgConfig
             (ec_WgPort (en_config e))).

(** [addNewPeers(clientInfo)]: a connection and a worker for every entry. *)
Definition add_peer (e : Engine) (client : PeerInfo) : res Engine :=
  conn ← createPeerConn e (pi_WgPubKey client) (pi_AllowedIP client +:+ "/32");
  let conn := OnRemoteAnswer (mkAnswer (pi_Port client) (pi_IP client)) conn in
  Ok (mkEngine (en_config e) (<[pi_WgPubKey client := conn]> (peerConns e))
        (en_workers e ++ [(conn, pi_WgPubKey client)])).
Fixpoint addNewPeers (e : Engine) (clientInfo : list PeerInfo) : res Engine :=
  match clientInfo with
  | [] => Ok e
  | client :: clientInfo => e ← add_peer e client; addNewPeers e clientInfo
  end.

(** One round of [receiveManagementEvents]: an error is only logged. *)
Definition poll (N : signal_net) (signalIpAddress clientId token : string) (e : Engine) : res Engine :=
  '(peerInfo, _) ← GetRemotePeers N signalIpAddress clientId token; addNewPeers e peerInfo.

Definition peerExists (e : Engine) (peerKey : string) : bool := bool_decide (is_Some (peerConns e !! peerKey)).

(** One turn of [connWorker]: whether the context is done, whether the peer is
    still there, and what [Open] returned. *)
Record worker_round := mkRound { wr_ctx_done : bool; wr_exists : bool; wr_open : peer_error }.
Inductive worker_exit := ExitContext | ExitRemoved | ExitClosed.
Fixpoint connWorker (rounds : list worker_round) : option worker_exit :=
  match rounds with
  | [] => None
  | r :: rounds =>
      if wr_ctx_done r then Some ExitContext
      else if negb (wr_exists r) then Some ExitRemoved
      else if is_ConnectionClosed (wr_open r) then Some ExitClosed
      else connWorker rounds
  end.

(** ** What polling does *)

Definition peer_conn (n : nat) (e : Engine) (i : PeerInfo) : Conn :=
  mkConn (mkConnConfig (pi_WgPubKey i) local_key (ec_IFaceBlackList (en_config e)) true
            ((draw n + PeerConnectionTimeoutMin) * millisecond)%Z
            (mkWgConfig (ec_WgPort (en_config e)) (pi_WgPubKey i) (pi_AllowedIP i +:+ "/32") None)
            (ec_WgPort (en_config e)))
         (mkAnswer (pi_Port i) (pi_IP i)).

Lemma add_peer_eq e i : add_peer e i = Ok (mkEngine (en_config e)
  (<[pi_WgPubKey i := peer_conn (length (en_workers e)) e i]> (peerConns e))
  (en_workers e ++ [(peer_conn (length (en_workers e)) e i, pi_WgPubKey i)])).
Proof. done. Qed.

(** Never an error; one new worker per entry, in order, known peer or not. *)
Lemma addNewPeers_spec infos e : ∃ e', addNewPeers e infos = Ok e' ∧ en_config e' = en_config e ∧
  en_workers e' = en_workers e ++
    imap (λ k i, (peer_conn (length (en_workers e) + k) e i, pi_WgPubKey i)) infos ∧
  ∀ key, is_Some (peerConns e' !! key) ↔ is_Some (peerConns e !! key) ∨ key ∈ map pi_WgPubKey infos.
Proof.
  revert e. induction infos as [|i infos IH]; intros e.
  - exists e. cbn. rewrite app_nil_r. split; [done|]. split; [done|]. split; [done|]. set_solver.
  - cbn [addNewPeers]. rewrite add_peer_eq. cbn [mbind res_bind].
    match goal with |- context [addNewPeers ?e1 infos] => destruct (IH e1) as (e'&->&Hc&Hw&Hp) end.
    exists e'. cbn [en_config en_workers peerConns] in *. split; [done|]. split; [done|]. split.
    + rewrite Hw, <-app_assoc. cbn [imap app]. rewrite Nat.add_0_r. do 2 f_equal.
      apply imap_ext. intros k x _. rewrite length_app. cbn [length].
      unfold peer_conn, compose. cbn [en_config]. do 6 f_equal. lia.
    + intros key. rewrite Hp, lookup_insert_is_Some. cbn [map]. rewrite elem_of_cons.
      destruct (decide (pi_WgPubKey i = key)); naive_solver.
Qed.

Lemma imap_snd_workers (f : nat → PeerInfo → Conn) infos :
  map snd (imap (λ k i, (f k i, pi_WgPubKey i)) infos) = map pi_WgPubKey infos.
Proof.
  revert f. induction infos as [|i infos IH]; intros f; [done|]. cbn [imap map snd]. f_equal.
  apply (IH (λ k, f (Datatypes.S k))).
Qed.

(** The polling loop over the answers it got. *)
Fixpoint polls (e : Engine) (answers : list (list PeerInfo)) : res Engine :=
  match answers with
  | [] => Ok e
  | infos :: answers => e ← addNewPeers e infos; polls e answers
  end.

Lemma polls_spec e answers : ∃ e', polls e answers = Ok e' ∧
  (∀ key, length (filter (λ w, w.2 = key) (en_workers e')) =
          length (filter (λ w, w.2 = key) (en_workers e)) +
          length (filter (λ i, pi_WgPubKey i = key) (concat answers))) ∧
  ∀ key, peerExists e' key = true ↔ peerExists e key = true ∨ key ∈ map pi_WgPubKey (concat answers).
Proof.
  assert (∀ {A} (f : A → string) (l : list A) key,
    length (filter (λ w, f w = key) l) = length (filter (λ k, k = key) (map f l))) as Hf.
  { intros A f l key. induction l as [|w ws IH]; [done|]. cbn [map]. rewrite !filter_cons.
    repeat case_decide; cbn [length]; by rewrite IH. }
  revert e. induction answers as [|infos answers IH]; intros e.
  - exists e. split; [done|]. split; [intros key; cbn; lia|]. intros key. cbn. set_solver.
  - cbn [polls concat]. destruct (addNewPeers_spec infos e) as (e1&->&_&Hw&Hp). cbn [mbind res_bind].
    destruct (IH e1) as (e'&->&Hn&Hx). exists e'. split; [done|]. split; intros key.
    + rewrite Hn, Hw, list.filter_app, length_app, list.filter_app, length_app, (Hf _ snd (imap _ _)), imap_snd_workers, <-Hf. lia.
    + rewrite Hx. unfold peerExists. rewrite !bool_decide_eq_true, Hp, map_app, elem_of_app. tauto.
Qed.

(** A round a worker of [key] can meet after the engine is at [e]: whether the
    peer exists is read off the engine after any more polls, and the error of
    [Open] is one an [Open] of its connection ends with, among any number of
    goroutines that open and close it. *)
Section workers.
Context {T : WgTypes} {W : Type} {C : Configurer W}.
Variable lookup : string → res (list Ascii.ascii).

Definition possible_round (e : Engine) (conn : Conn) (key : string) (r : worker_round) : Prop :=
  (∃ answers e', polls e answers = Ok e' ∧ wr_exists r = peerExists e' key) ∧
  (wr_ctx_done r = false → wr_exists r = true →
   ∃ (d : W) w t, rtc (cstep lookup conn) (conn_start d) w ∧
     cw_threads w !! t = Some (TOpen (O_done (wr_open r)))).

(** C37. Every poll that lists a peer starts one more worker for it, whether or not
    the peer is known already: after any sequence of answers a key has as many
    workers more as it was listed. And such a worker ends only with the
    context: the engine never forgets a peer it was told of, whatever it polls
    later, and no [Open] of the worker's connection, whatever else opens or
    closes it, ends with the error that would end the worker. *)
Theorem workers_accumulate e answers :
  ∃ e', polls e answers = Ok e' ∧
    (∀ key, length (filter (λ w, w.2 = key) (en_workers e')) =
            length (filter (λ w, w.2 = key) (en_workers e)) +
            length (filter (λ i, pi_WgPubKey i = key) (concat answers))) ∧
    ∀ key conn rounds, key ∈ map pi_WgPubKey (concat answers) →
      Forall (possible_round e' conn key) rounds →
      connWorker rounds = if existsb wr_ctx_done rounds then Some ExitContext else None.
Proof.
  destruct (polls_spec e answers) as (e'&He&Hn&Hx). exists e'. split; [done|]. split; [done|].
  intros key conn rounds Hkey. induction 1 as [|r rounds [(as'&e2&Hp&Hr) Ho] _ IH]; [done|].
  cbn [connWorker existsb]. destruct (wr_ctx_done r); [done|].
  destruct (polls_spec e' as') as (e3&He3&_&Hx3). rewrite He3 in Hp. injection Hp as <-.
  assert (wr_exists r = true) as Hex by (rewrite Hr; apply Hx3; left; apply Hx; by right).
  rewrite Hex. destruct (Ho eq_refl Hex) as (d&w&t&Hrun&Ht).
  rewrite (open_not_closed lookup conn d w t _ Hrun Ht). cbn [negb orb]. exact IH.
Qed.
End workers.

(** ** From the server's table to WireGuard *)
Section end_to_end.
Context {T : WgTypes} {W : Type} {C : Configurer W}.
Context {D : Type} {DB : PeerDB D} {DS : PeerDBSpec D}.
Variable lookup : string → res (list Ascii.ascii).

(** What a worker's [Open] does to the device. *)
Definition open_peer (w : W) (c : Conn) : res UDPAddr * W :=
  configureConnection lookup w c (oa_WgAddr (remoteAnswer c)) (oa_WgListenPort (remoteAnswer c)).

(** C7. From a client's login to the other clients' WireGuard: after any logins,
    a poll whose query fits the server's buffer gives the engine one worker for
    every other client of the token and no more when the answer is shorter than
    1024 bytes, and otherwise leaves the engine as it was. In the first case
    the [Open] of the worker for a client that logged in from [ip:port] asks
    WireGuard for that client's key with its tunnel address as the only
    allowed IP (a [/32]), a keep-alive of two seconds and [ip:port] as the
    endpoint. *)
Theorem poll_configures_peers d0 ls now (a : UDPAddr) sig host sport clientId token e :
  GetSignalServer sig = Ok (host, sport) →
  length (query_text clientId token) ≤ server_buffer →
  let d := registrations d0 ls in
  let others := GetClients clientId token d in
  Forall (λ p, is_int (pc_Port p)) others →
  ∃ e', poll (server_net now a d) sig clientId token e = Ok e' ∧
    if decide (length (json_print (JArr (map enc_PeerConfig others))) < buffer_size) then
    ∃ ws, en_workers e' = en_workers e ++ ws ∧ map snd ws = map pc_WgPubKey others ∧
      ∀ c p ip, c ≠ clientId → foldl login_map ∅ ls !! (token, c) = Some p →
        peer_IP p = IP_String ip → length ip = 4 ∨ length ip = 16 → (0 ≤ peer_Port p ≤ 65535)%Z →
        ∃ conn, (conn, peer_WgPubKey p) ∈ ws ∧ ∀ w, (open_peer w conn).2 =
          (run_op w (OpUpdatePeer (peer_WgPubKey p) (peer_AllowedIP p +:+ "/32") defaultWgKeepAlive
            (Some (mkUDPAddr (default [] (To16 ip)) (peer_Port p) EmptyString)) None)).2
    else e' = e.
Proof.
  intros Hs Hq d others Hports. unfold poll, GetRemotePeers.
  erewrite round_trip_server by (eauto; apply server_handles_query). fold others. case_decide; [|by exists e].
  rewrite json_parse_print by apply no_frac_PeerConfigs. rewrite dec_enc_PeerConfigs by done. cbn [mbind res_bind].
  destruct (addNewPeers_spec (map info_of others) e) as (e'&->&_&Hw&_). exists e'. split; [done|].
  eexists. split; [exact Hw|]. split; [by rewrite imap_snd_workers, map_map|].
  intros c p ip Hc Hm Hip Hl Hp.
  assert (config_of p ∈ others) as Hin.
  { unfold others, d. rewrite GetClients_filter, list_elem_of_fmap. exists p. split; [done|].
    destruct (registrations_table d0 ls) as [_ Ht]. apply Ht in Hm as [Hrow [= Htok Hcid]].
    by rewrite list_elem_of_filter, db_Find_elem, Hcid. }
  apply list_elem_of_lookup in Hin as [k Hk].
  eexists. split.
  - apply list_elem_of_lookup. exists k. rewrite list_lookup_imap, list_lookup_fmap, Hk. reflexivity.
  - intros w. unfold open_peer. rewrite (configureConnection_endpoint lookup _ w ip (peer_Port p)) by
      (done || unfold int64_min, int64_max; lia).
    rewrite decide_True by done. cbv zeta. by destruct (run_op w _) as [[]].
Qed.
End end_to_end.
End engine.

(** ** Concrete runs *)

Definition ex_engine : Engine := NewEngine (mkEngineConfig 51822 "wt0" "10.0.0.1/24" [] [] 0 0).
Definition ex_info : PeerInfo := mkPeerInfo "B" "5.6.7.8" 51822 "keyB" "10.0.0.2" EmptyString.

(** The same peer listed in two polls has two workers; one of them, whose
    [Open] waits, loses the context. *)
Lemma workers_accumulate_witness :
  (∃ e', polls "me" (λ _, 0%Z) ex_engine [[ex_info]; [ex_info]] = Ok e' ∧
    length (filter (λ w, w.2 = "keyB") (en_workers e')) = 2) ∧
  connWorker [mkRound false true (ConnectionDisconnectedError "peer");
              mkRound true true (ConnectionDisconnectedError "peer")] = Some ExitContext.
Proof.
  destruct (workers_accumulate "me" (λ _, 0%Z) (C := ex_configurer) ex_lookup ex_engine
    [[ex_info]; [ex_info]]) as (e'&He&Hn&Hw).
  assert (peerExists e' "keyB" = true) as Hx by (vm_compute in He; injection He as <-; by vm_compute).
  split.
  - exists e'. split; [exact He|]. rewrite Hn. vm_compute. reflexivity.
  - rewrite (Hw "keyB" ex_conn); [reflexivity|by left|].
    apply list.Forall_cons. split; [|apply list.Forall_singleton]; (split; [by exists [], e'|]); [|done].
    intros _ _. destruct ex_disconnected as [w [Hr Ht]]. exists [], w, 0. split; [exact Hr|exact Ht].
Defined.

Definition ex_logins : list (Z * PeerLogin) :=
  [(1%Z, mkPeerLogin "9.9.9.9" 7 "A" "keyA" "t" "10.0.0.1");
   (2%Z, mkPeerLogin "5.6.7.8" 51822 "B" "keyB" "t" "10.0.0.2")].
Definition ex_row : Peer := mkPeer "B" "5.6.7.8" 51822 "keyB" "t" "10.0.0.2" 2.

Lemma poll_configures_peers_witness :
  ∃ e' conn, poll "me" (λ _, 0%Z) (server_net 3 ex_a1 (registrations (@nil Peer) ex_logins)) "9.9.9.9:51833" "A" "t" ex_engine = Ok e' ∧
    (conn, "keyB") ∈ en_workers e' ∧
    (open_peer (C := ex_configurer) ex_lookup [] conn).2 =
      [OpUpdatePeer "keyB" "10.0.0.2/32" 2000000000
        (Some (mkUDPAddr (v4InV6Prefix ++ map byte_of_Z [5; 6; 7; 8]%Z) 51822 EmptyString)) None].
Proof.
  destruct (poll_configures_peers "me" (λ _, 0%Z) (C := ex_configurer) ex_lookup (@nil Peer) ex_logins 3 ex_a1
    "9.9.9.9:51833" "9.9.9.9" 51833 "A" "t" ex_engine) as (e'&He&ws&Hws&_&Hpeer).
  - vm_compute. reflexivity.
  - apply (bool_decide_unpack _). vm_compute. exact I.
  - apply (bool_decide_unpack _). vm_compute. exact I.
  - destruct (Hpeer "B" ex_row (map byte_of_Z [5; 6; 7; 8]%Z)) as (conn&Hin&Hop);
      [done|vm_compute; reflexivity|vm_compute; reflexivity|by left|split; vm_compute; discriminate|].
    exists e', conn. split; [exact He|]. split; [rewrite Hws; apply elem_of_app; by right|].
    rewrite (Hop []). vm_compute. reflexivity.
Defined.
