(* ===== verification/Client.v ===== *)
(** * [client/internal/connect.go], [engine.go]: the client's run

    The loop that registers the client with the server, starts an engine over
    the tunnel interface, waits for the engine's context and stops it. The
    components are those of the other files: the free port and the
    configuration ([Engine]), the registration ([Exchange]), the interface
    ([Tun], [KernelModules]). The proxy factory is an interface, and
    [cenkalti/backoff] a parameter. *)
From Stdlib Require Import Ascii.
From S2P Require Import Prelude Host GoStrings GoNet GoCIDR NetEnv KernelModules DeviceWrapper Tun WgConfigurer.
From S2P Require Import MuxedConn GoJson GoJsonText Config Signal Exchange Ebpf WgProxy PeerConn Engine.

Definition DefaultMTU : Z := 1280.

(** [wgproxy.Factory]: what a factory does to the state the proxies act on. *)
Class ProxyFactory := {
  px_state : Type;
  px_factory : Type;
  pf_NewFactory : bool → Z → px_state → px_factory * px_state;
  pf_Free : px_factory → px_state → res unit * px_state
}.

(** The factory of [factory_linux.go] is one: a proxy given up on has acted. *)
#[export] Instance ebpf_ProxyFactory {Σ M Conn : Type} {PS : ProxySys Σ} {WM : WgProxyManager M} : ProxyFactory := {|
  px_state := Σ * M;
  px_factory := option (WGEBPFProxy (Σ := Σ) (M := M) (Conn := Conn));
  pf_NewFactory userspace wgPort := λ '(s, m),
    match NewFactory s m userspace wgPort with
    | (Some p, _) => (Some p, (px_sys p, ebpfManager p))
    | (None, Some p) => (None, (px_sys p, ebpfManager p))
    | (None, None) => (None, (s, m))
    end;
  pf_Free f := λ '(s, m),
    match Factory_Free (set_mgr m ∘ set_sys s <$> f) with
    | (r, Some p) => (r, (px_sys p, ebpfManager p))
    | (r, None) => (r, (s, m))
    end
|}.

Section client.
Context {T : TunEnv} {L : WgLink} {K : KernelHost} {P : ProxyFactory} {WT : WgTypes}.

(** What the components act on. A poller is a goroutine of
    [receiveManagementEvents], which has no way out of its loop. *)
Record world := mkWorld {
  wd_host : host;
  wd_mods : list mod_event;
  wd_proxy : px_state;
  wd_pollers : list EngineConfig;
  wd_attempts : nat
}.
Definition set_host (h : host) (w : world) := mkWorld h (wd_mods w) (wd_proxy w) (wd_pollers w) (wd_attempts w).
Definition set_mods (l : list mod_event) (w : world) := mkWorld (wd_host w) l (wd_proxy w) (wd_pollers w) (wd_attempts w).
Definition set_proxy (s : px_state) (w : world) := mkWorld (wd_host w) (wd_mods w) s (wd_pollers w) (wd_attempts w).

(** [Engine]'s fields the starting and stopping look at. *)
Record engine := mkRunning {
  rn_config : EngineConfig;
  rn_iface : option (WGIface (Filter := unit));
  rn_factory : option px_factory
}.

(** ** [Engine] *)

(** Calls of the engine on its interface, which there must be. *)
Definition on_iface {A} (m : ST (WGIface * host) A) : ST (engine * world) A := λ '(e, w),
  match rn_iface e with
  | None => (Panic, (e, w))
  | Some i => let '(r, (i, h)) := m (i, wd_host w) in (r, (mkRunning (rn_config e) (Some i) (rn_factory e), set_host h w))
  end.

(** [newWgIface()], and the assignment to [e.wgInterface]. The interface is also
    given the network of [Stdnet], an error of which is only logged, and which
    only a userspace device looks at, when it makes its mux. *)
Definition newWgIface : ST (engine * world) unit := λ '(e, w),
  let c := rn_config e in
  match NewWGIFace (ec_WgIfaceName c) (ec_WgAddr c) (ec_WgPort c) (Key_String (ec_WgPrivateKey c)) DefaultMTU None (wd_mods w) with
  | (Ok i, l) => (Ok tt, (mkRunning c (Some i) (rn_factory e), set_mods l w))
  | (Err x, l) => (Err x, (e, set_mods l w))
  | (Panic, l) => (Panic, (e, set_mods l w))
  end.
Definition newProxyFactory : ST (engine * world) unit := λ '(e, w),
  match rn_iface e with
  | None => (Panic, (e, w))
  | Some i =>
      let '(f, s) := pf_NewFactory (IsUserspaceBind i) (ec_WgPort (rn_config e)) (wd_proxy w) in
      (Ok tt, (mkRunning (rn_config e) (Some i) (Some f), set_proxy s w))
  end.

(** [close()]: errors are only logged; what was never made is skipped. *)
Definition free_factory : ST (engine * world) unit := λ '(e, w),
  match rn_factory e with
  | Some f => let '(r, s) := pf_Free f (wd_proxy w) in (r, (e, set_proxy s w))
  | None => (Ok tt, (e, w))
  end.
Definition engine_close : ST (engine * world) unit :=
  _ ← try free_factory;
  e ← gets fst;
  match rn_iface e with
  | Some _ => _ ← try (on_iface iface_Close); mret tt
  | None => mret tt
  end.
Definition Stop : ST (engine * world) unit := engine_close.

Definition receiveManagementEvents : ST (engine * world) unit :=
  modify (λ '(e, w), (e, mkWorld (wd_host w) (wd_mods w) (wd_proxy w) (wd_pollers w ++ [rn_config e]) (wd_attempts w))).

Definition Start : ST (engine * world) unit :=
  _ ← wrap_call "new wg interface: " newWgIface;
  _ ← newProxyFactory;
  _ ← undo_on_error engine_close (wrap_call "create wg interface: " (on_iface iface_Create));
  _ ← undo_on_error engine_close (wrap_call "up wg interface: " (on_iface iface_Up));
  receiveManagementEvents.

(** [IsWGIfaceUp()]: whether the system has the interface, and it is up. *)
Definition IsWGIfaceUp (net_InterfaceByName : string → option bool) (e : option engine) : bool :=
  match e with
  | Some (mkRunning _ (Some i) _) => default false (net_InterfaceByName (Name i))
  | _ => false
  end.

(** ** [ConnectClient] *)

(** What each attempt of the loop meets. *)
Class Surroundings := {
  at_cancelled : nat → bool;         (** the client's context is done before it *)
  at_listen : nat → Z → res unit;    (** which ports can be listened on *)
  at_net : nat → signal_net;         (** the server and the network to it *)
  at_ends : nat → bool               (** the engine's context is ended some time *)
}.
(** How a call that does not fail ends: it returns nil, or waits for good. *)
Inductive ended := Returned | Waiting.

(** [backoff.Retry(operation, backOff)] *)
Class Backoff := { backoff_Retry : ST world ended → ST world ended }.

(** Its documentation: the operation is called again while it returns an error,
    until the back-off says to stop. *)
Inductive retried (op : ST world ended) : world → res ended * world → Prop :=
| retried_last w : retried op w (op w)
| retried_again w e w' out : op w = (Err e, w') → retried op w' out → retried op w out.
Class BackoffSpec (B : Backoff) := { Retry_retries : ∀ op w, retried op w (backoff_Retry op w) }.

Context {A : Surroundings}.
(** The flags, and [key.PublicKey().String()]. *)
Context (localWgAddr signalIpAddress clientId token : string) (PublicKey_String : list Ascii.ascii → string).

Definition next_attempt : ST world nat := λ w,
  (Ok (wd_attempts w), mkWorld (wd_host w) (wd_mods w) (wd_proxy w) (wd_pollers w) (Datatypes.S (wd_attempts w))).
Definition with_engine {B} (c : EngineConfig) (m : ST (engine * world) B) : ST world B := λ w,
  let '(r, (_, w)) := m (mkRunning c None None, w) in (r, w).

Definition run_engine (k : nat) : ST (engine * world) ended :=
  _ ← Start;
  if at_ends k then _ ← Stop; mret Returned else mret Waiting.
Definition operation (key : list Ascii.ascii) (config : Config.Config) : ST world ended :=
  k ← next_attempt;
  if at_cancelled k then mret Returned
  else
    engineConfig ← lift (createEngineConfig (at_listen k) localWgAddr key config);
    _ ← lift (ClientRegister (at_net k) signalIpAddress clientId token
                (ec_WgPort engineConfig) (PublicKey_String key) (ec_WgAddr engineConfig));
    with_engine engineConfig (run_engine k).
Definition run {B : Backoff} (config : Config.Config) : ST world ended :=
  key ← lift (ParseKey (Config.PrivateKey config));
  backoff_Retry (operation key config).

(** ** What an attempt leaves *)

Section leaves.
Context {LS : WgLinkSpec L}.

(** What an attempt leaves on the host is what a session of [Tun] does. *)
Definition on_netstack : bool := netstack_IsEnabled kh_getenv.
Definition clean (w : world) : Prop := tidy on_netstack (wd_host w).
(** A factory was made and freed. *)
Definition factory_round (s s' : px_state) : Prop :=
  ∃ userspace port, let '(f, s1) := pf_NewFactory userspace port s in s' = (pf_Free f s1).2.

(** An engine with an interface and a factory, which found the proxies' state
    as [s]. *)
Definition equipped (ready : bool) (c : EngineConfig) (s : px_state) (ew : engine * world) : Prop :=
  ∃ i f u px, ew.1 = mkRunning c (Some i) (Some f) ∧ pf_NewFactory u (ec_WgPort c) s = (f, wd_proxy ew.2) ∧
    live on_netstack ready px (i, wd_host ew.2).
Lemma run_on_iface {B} (m : ST (WGIface * host) B) ready ready' c s ew :
  equipped ready c s ew →
  (∀ px i, live on_netstack ready px i → live on_netstack ready' px (m i).2) →
  equipped ready' c s (on_iface m ew).2 ∧ wd_pollers (on_iface m ew).2.2 = wd_pollers ew.2 ∧
    ∃ i, (on_iface m ew).1 = (m i).1 ∧ ∃ px, live on_netstack ready px i.
Proof.
  destruct ew as [e w]. intros (i&f&u&px&He&Hf&Hl) Hm. cbn [fst snd] in *. subst e. unfold on_iface. cbn [rn_iface].
  specialize (Hm px _ Hl). destruct (m (i, wd_host w)) as [r [i' h']] eqn:Hr. cbn [fst snd] in *.
  split; [|split; [done|]].
  - exists i', f, u, px. by destruct w.
  - exists (i, wd_host w). rewrite Hr. eauto.
Qed.

(** Closing releases the interface and frees the factory. *)
Lemma engine_close_spec ready c s ew : equipped ready c s ew →
  let '(r, (_, w')) := engine_close ew in
  match r with
  | Panic => True
  | _ => r = Ok tt ∧ clean w' ∧ factory_round s (wd_proxy w') ∧ wd_pollers w' = wd_pollers ew.2
  end.
Proof.
  destruct ew as [e w]. intros (i&f&u&px&He&Hf&Hl). cbn [fst snd] in *. subst e.
  assert (factory_round s (pf_Free f (wd_proxy w)).2) as Hround.
  { exists u, (ec_WgPort c). by rewrite Hf. }
  pose proof (iface_Close_live _ _ _ _ Hl) as Hc.
  unfold engine_close, free_factory, gets, try, mbind, ST_bind. cbn [rn_factory].
  destruct (pf_Free f (wd_proxy w)) as [rf s'] eqn:Hfr. cbn [snd] in Hround.
  destruct rf; [| |done]; cbn [fst rn_iface]; unfold on_iface; cbn [rn_iface set_proxy wd_host];
    (destruct (iface_Close (i, wd_host w)) as [r [i' h']]; destruct Hc as (Hp&Hlk&Hh);
     destruct r; [| |done]; by cbn).
Qed.
(** A step of [Start] that ends an engine it fails in. *)
Lemma guarded_spec pre (m : ST (engine * world) unit) c s ew :
  (let '(r, ew') := m ew in
   r ≠ Panic ∧ equipped (is_ok r) c s ew' ∧ wd_pollers ew'.2 = wd_pollers ew.2) →
  let '(r, ew') := undo_on_error engine_close (wrap_call pre m) ew in
  match r with
  | Panic => True
  | Err _ => clean ew'.2 ∧ factory_round s (wd_proxy ew'.2) ∧ wd_pollers ew'.2 = wd_pollers ew.2
  | Ok _ => equipped true c s ew' ∧ wd_pollers ew'.2 = wd_pollers ew.2
  end.
Proof.
  unfold undo_on_error, wrap_call. destruct (m ew) as [[[]|x|] ew']; intros (Hp&He&Hw); [by split| |done].
  pose proof (engine_close_spec _ _ _ _ He) as Hc. destruct (engine_close ew') as [[[]|y|] [e2 w2]]; [| |done].
  - destruct Hc as (_&?&?&?). split_and!; [done|done|]. by etrans.
  - by destruct Hc.
Qed.

Lemma newWgIface_spec c w :
  let '(r, (e, w')) := newWgIface (mkRunning c None None, w) in
  w' = set_mods (wd_mods w') w ∧
  match r with
  | Ok _ => ∃ i, e = mkRunning c (Some i) None ∧ unused i ∧ is_netstack (w_tun i) = on_netstack
  | _ => True
  end.
Proof.
  unfold newWgIface. cbn [rn_config rn_factory].
  destruct (NewWGIFace _ _ _ _ _ _ _) as [[i|x|] l] eqn:Hn; [|done|done]. split; [done|].
  destruct (NewWGIFace_chooses _ _ _ _ _ _ _ _ (f_equal fst Hn)) as (Hu&_&_&_&_&Hns&_).
  exists i. split; [done|]. by split.
Qed.

Lemma Start_spec c w : clean w →
  let '(r, (e, w')) := Start (mkRunning c None None, w) in
  match r with
  | Panic => True
  | Err _ => clean w' ∧ rtc factory_round (wd_proxy w) (wd_proxy w') ∧ wd_pollers w' = wd_pollers w
  | Ok _ => equipped true c (wd_proxy w) (e, w') ∧ wd_pollers w' = wd_pollers w ++ [c]
  end.
Proof.
  intros Ht. unfold Start, mbind, ST_bind at 1, wrap_call at 1. pose proof (newWgIface_spec c w) as Hn.
  destruct (newWgIface _) as [[[]|x|] [e w1]]; destruct Hn as [Hw1 Hn]; [|rewrite Hw1; split; [exact Ht|by split]|done].
  destruct Hn as (i&->&Hu&Hns). unfold newProxyFactory, ST_bind at 1. cbn [rn_iface rn_config].
  destruct (pf_NewFactory _ _ (wd_proxy w1)) as [f s1] eqn:Hf.
  assert (wd_proxy w1 = wd_proxy w ∧ wd_pollers w1 = wd_pollers w ∧ wd_host w1 = wd_host w) as (Hp1&Hq1&Hh1) by by rewrite Hw1.
  rewrite Hp1 in Hf. clear Hw1.
  set (ew := (mkRunning c (Some i) (Some f), set_proxy s1 w1)).
  assert (wd_pollers ew.2 = wd_pollers w) as Hq by done.
  assert (wd_host ew.2 = wd_host w) as Hhost by done.
  assert (let '(r, ew') := on_iface iface_Create ew in
    r ≠ Panic ∧ equipped (is_ok r) c (wd_proxy w) ew' ∧ wd_pollers ew'.2 = wd_pollers ew.2) as Hcreate.
  { unfold ew, on_iface. cbn [rn_iface set_proxy wd_host rn_config rn_factory]. rewrite Hh1.
    destruct (iface_Create_live i (wd_host w) Hu) as [px Hc]; [rewrite Hns; exact Ht|].
    destruct (iface_Create (i, wd_host w)) as [r [i' h']]. destruct Hc as (Hp&Hlv&_). rewrite Hns in Hlv.
    split; [done|]. split; [|done]. by exists i', f, (w_userspaceBind i), px. }
  apply (guarded_spec "create wg interface: ") in Hcreate. unfold ST_bind at 1.
  destruct (undo_on_error _ (wrap_call "create wg interface: " _) ew) as [[[]|x|] ew1]; [| |by destruct ew1]; cbn zeta beta.
  2: { destruct ew1 as [e1 w2], Hcreate as (?&?&?). split; [done|]. split; [by apply rtc_once|etrans; [done|exact Hq]]. }
  destruct Hcreate as [He1 Hq1'].
  assert (let '(r, ew') := on_iface iface_Up ew1 in
    r ≠ Panic ∧ equipped (is_ok r) c (wd_proxy w) ew' ∧ wd_pollers ew'.2 = wd_pollers ew1.2) as Hup.
  { destruct (run_on_iface iface_Up true true c (wd_proxy w) ew1 He1) as (He2&Hq2&i2&Hr2&px&Hlv).
    { intros px j Hj. by apply (run_op_live on_netstack px SUp j). }
    pose proof (run_op_live on_netstack px SUp i2 Hlv) as [_ Hp2]. cbn [Tun.run_op] in Hp2. rewrite <-Hr2 in Hp2.
    destruct (on_iface iface_Up ew1) as [r ew2]. cbn [fst snd] in *. split; [done|]. split; [|done].
    destruct He2 as (i3&f3&u3&px3&H1&H2&H3). exists i3, f3, u3, px3. split; [done|]. split; [done|]. by apply live_weaken. }
  apply (guarded_spec "up wg interface: ") in Hup. unfold ST_bind.
  destruct (undo_on_error _ (wrap_call "up wg interface: " _) ew1) as [[[]|x|] [e2 w2]]; [| |done]; cbn zeta beta.
  - destruct Hup as [(i3&f3&u3&px3&H1&H2&H3) Hq2]. cbn [fst snd] in *. subst e2.
    unfold receiveManagementEvents, modify. cbn [wd_pollers rn_config]. split; [|by rewrite Hq2, Hq1', Hq].
    by exists i3, f3, u3, px3.
  - destruct Hup as (?&?&?). split; [done|]. split; [by apply rtc_once|]. cbn [snd] in *. congruence.
Qed.
(** The engine of attempt [k] had configuration [c]: its port was found free,
    and the server has accepted the registration. *)
Definition engine_for (key : list Ascii.ascii) (config : Config.Config) (k : nat) (c : EngineConfig) : Prop :=
  createEngineConfig (at_listen k) localWgAddr key config = Ok c ∧
  ∃ answer, ClientRegister (at_net k) signalIpAddress clientId token (ec_WgPort c) (PublicKey_String key) (ec_WgAddr c) = Ok answer.

(** What attempts that began in [w] leave when they end so. *)
Definition left_by (key : list Ascii.ascii) (config : Config.Config) (w : world) (out : res ended * world) : Prop :=
  let '(r, w') := out in
  let freed := clean w' ∧ rtc factory_round (wd_proxy w) (wd_proxy w') in
  let started (ends : bool) := ∃ k c, at_ends k = ends ∧ engine_for key config k c ∧ wd_pollers w' = wd_pollers w ++ [c] in
  match r with
  | Panic => True
  | Err _ => freed ∧ wd_pollers w' = wd_pollers w
  | Ok Returned => freed ∧ (((∃ k, at_cancelled k = true) ∧ wd_pollers w' = wd_pollers w) ∨ started true)
  | Ok Waiting => started false
  end.

Lemma operation_left key config w : clean w → left_by key config w (operation key config w).
Proof.
  intros Hc. unfold operation, next_attempt, mbind, ST_bind. set (k := wd_attempts w).
  set (w1 := mkWorld (wd_host w) (wd_mods w) (wd_proxy w) (wd_pollers w) (Datatypes.S k)).
  assert (clean w1) as Hc1 by done.
  destruct (at_cancelled k) eqn:Hcan; [split; [done|left; eauto]|]. unfold lift at 1.
  destruct (createEngineConfig (at_listen k) localWgAddr key config) as [c|e|] eqn:Hec; [|done|done].
  unfold lift. destruct (ClientRegister _ _ _ _ _ _ _) as [answer|e|] eqn:Hreg; [|done|done].
  unfold with_engine, run_engine, mbind, ST_bind. pose proof (Start_spec c w1 Hc1) as Hs.
  assert (engine_for key config k c) as Hfor by (split; [done|by exists answer]).
  destruct (Start (mkRunning c None None, w1)) as [[[]|e|] [e2 w2]]; [|by destruct Hs as (?&?&?)|done].
  destruct Hs as [Heq Hpol]. destruct (at_ends k) eqn:Hend; cbn zeta beta; [|by exists k, c].
  pose proof (engine_close_spec _ _ _ _ Heq) as Hcl. unfold Stop.
  destruct (engine_close (e2, w2)) as [[[]|e|] [e3 w3]]; [|by destruct Hcl|done].
  destruct Hcl as (_&Hcw&Hr&Hp). cbn [snd] in Hp. split; [by split; [|apply rtc_once]|]. right.
  exists k, c. split; [done|]. split; [done|]. by rewrite Hp.
Qed.

Lemma left_by_again key config w e w' out :
  left_by key config w (Err e, w') → left_by key config w' out → left_by key config w out.
Proof.
  destruct out as [r w2]. intros [[_ Hr] Hp]. unfold left_by. rewrite Hp.
  assert (rtc factory_round (wd_proxy w') (wd_proxy w2) → rtc factory_round (wd_proxy w) (wd_proxy w2)) as Ht
    by (intros; by etrans).
  destruct r as [[]|e2|]; naive_solver.
Qed.

(** C8. However the attempts of [run] go, and whatever calls fail in them, closing
    ones too, over each of the devices: when [run] returns without panicking,
    each proxy factory made was freed, and a host that was clean is clean. That
    is, it holds at most the socket for configuration requests if a call can
    fail, their listener, the raw socket and the link if a closing call can, and
    the SOCKS5 listener if the network stack is on; so it holds nothing and has
    no link when no call fails and the stack is off. [run] returns nil only when
    an attempt finds the client's context done or when the context of a started
    engine ends, so an engine that once started is never started again; and such
    an engine, whose port was free and whose registration the server accepted,
    leaves the goroutine that polls for it. *)
Theorem run_leaves {B : Backoff} {BS : BackoffSpec B} config w :
  clean w →
  let '(r, w') := run config w in
  (clean w' → ¬ call_fails → ¬ closing_fails →
    hs_link (wd_host w') = None ∧ hs_held (wd_host w') ⊆ (if on_netstack then {[RProxy]} else ∅)) ∧
  match ParseKey (Config.PrivateKey config) with
  | Ok key => left_by key config w (r, w')
  | Err e => r = Err e ∧ w' = w
  | Panic => r = Panic
  end.
Proof.
  intros Hc. destruct (run config w) as [r0 w0] eqn:Hrun. split.
  { intros Ht Hcf Hcl. by destruct (tidy_nothing_fails _ _ Ht Hcf Hcl). }
  revert Hrun. unfold run, lift, mbind, ST_bind. destruct (ParseKey _) as [key|e|]; [|by intros [= <- <-]|by intros [= <- <-]].
  assert (∀ op out, (∀ w, clean w → left_by key config w (op w)) → clean w → retried op w out → left_by key config w out) as Hind.
  { intros op out Hop Hcw Hret. induction Hret as [w|w e w' out Hw _ IH]; [by apply Hop|].
    pose proof (Hop w Hcw) as H1. rewrite Hw in H1. assert (clean w') by by destruct H1 as [[? _] _].
    eapply left_by_again; [exact H1|]. by apply IH. }
  pose proof (Hind _ _ (operation_left key config) Hc (Retry_retries (operation key config) w)) as Hl.
  by intros <-.
Qed.
End leaves.
End client.

(** ** A run of two attempts *)

(** Up to [n] more calls after the first. *)
Fixpoint retry_n `{P : ProxyFactory} (n : nat) (op : ST world ended) (w : world) : res ended * world :=
  match op w, n with
  | (Err _, w), Datatypes.S n => retry_n n op w
  | r, _ => r
  end.
Lemma retry_n_retries `{P : ProxyFactory} n op w : retried op w (retry_n n op w).
Proof.
  revert w. induction n as [|n IH]; intros w; cbn [retry_n]; destruct (op w) as [[?|e|] w'] eqn:Hop;
    try (rewrite <-Hop; apply retried_last); by eapply retried_again.
Qed.
#[local] Instance ex_backoff `{P : ProxyFactory} : Backoff := {| backoff_Retry := retry_n 3 |}.
#[local] Instance ex_backoff_spec `{P : ProxyFactory} : BackoffSpec ex_backoff.
Proof. split. intros op w. apply retry_n_retries. Qed.

(** The first attempt finds the network down; the engine of the second ends. *)
Definition ex_answer : list Ascii.ascii := json_print (enc_RegisterResponse (mkRegResp "5.6.7.8" 51822)).
#[local] Instance ex_surroundings : Surroundings := {|
  at_cancelled _ := false;
  at_listen _ x := if bool_decide (x = 51822%Z) then Err (Errorf "address already in use") else Ok tt;
  at_net k := mkSignalNet (λ _ _, if bool_decide (k = 0) then Some (Errorf "network is unreachable") else None)
                (λ _, None) (λ _, [ex_answer]);
  at_ends _ := true
|}.
#[local] Instance ex_factory : ProxyFactory :=
  ebpf_ProxyFactory (Σ := ex_sys_state) (M := bool) (Conn := string).
Definition ex_config : Config.Config :=
  Config.mkConfig "secret" EmptyString "wt0" 51822 None None EmptyString None EmptyString false 0.
Definition ex_world : world := mkWorld (mkHost None ∅ 0) [] (mkExSys [] [], false) [] 0.
Definition ex_run : res ended * world :=
  run (T := ex_env) (L := linux_link (T := ex_env)) (K := ex_modules)
    "10.0.0.1/24" "9.9.9.9:51833" "A" "t" (λ k, string_of_bytes k) ex_config ex_world.

Lemma run_leaves_witness :
  ex_run.1 = Ok Returned ∧ hs_link (wd_host ex_run.2) = None ∧ hs_held (wd_host ex_run.2) ⊆@{gset resource} ∅ ∧ ∃ c, wd_pollers ex_run.2 = [c] ∧ ec_WgPort c = 51823%Z.
Proof.
  assert (ex_run.1 = Ok Returned) as Hr by (vm_compute; reflexivity). split; [exact Hr|].
  assert (length (wd_pollers ex_run.2) = 1) as Hlen by (vm_compute; reflexivity).
  pose proof (run_leaves (T := ex_env) (LS := linux_link_spec (T := ex_env) ex_ParseAddr) (K := ex_modules)
    "10.0.0.1/24" "9.9.9.9:51833" "A" "t" (λ k, string_of_bytes k) ex_config ex_world
    ltac:(apply tidy_empty; reflexivity)) as Hl.
  fold ex_run in Hl. revert Hr Hlen Hl. destruct ex_run as [r w']. cbn [fst snd]. intros -> Hlen [Hnone [[Hc _] [[_ Hp]|(k&c&_&Hfor&Hp)]]].
  - exfalso. rewrite Hp in Hlen. discriminate Hlen.
  - destruct (Hnone Hc) as [Hlink Hheld]; [intros (n&e&Hn); discriminate Hn|intros (n&e&Hn); discriminate Hn|].
    split; [exact Hlink|]. split; [exact Hheld|]. exists c. split; [exact Hp|]. destruct Hfor as [Hfor _]. vm_compute in Hfor. injection Hfor as <-. reflexivity.
Defined.
