(* ===== verification/System.v ===== *)
(** * The clients and the server together

    Any number of clients around one server, as a step relation: the server
    reads datagrams from anywhere and its handlers get to run, clients register
    and start, poll, and their workers open connections, in any order. The steps
    are the functions of [Signal], [Exchange], [Engine] and [PeerConn]. The
    server is that of [Signal.srv_step], handlers sharing the one buffer; the
    theorems about the group are for its runs in which no datagram is read while
    a handler is waiting, and [answers_cross_tokens] is what happens in others.
    A client starts one engine at most ([Client.run_leaves]). *)
From Stdlib Require Import Ascii.
From S2P Require Import Prelude GoStrings GoNet GoCIDR GoResolve GoJson GoJsonText MuxedConn WgConfigurer.
From S2P Require Import Config Signal Exchange PeerConn Engine.

(** ** What a datagram does to the server's table *)

(** The login in a datagram from [a], if it is one. *)
Definition logins_in (now : Z) (g : list Ascii.ascii) (a : UDPAddr) : list (Z * PeerLogin) :=
  match (v ← json_parse g; dec_Message v) with
  | Ok message =>
      if (msg_Type message =? Login)%Z then
        match dec_PeerLoginReq (as_interface (msg_Body message)) with
        | Ok req => [(now, mkPeerLogin (IP_String (ua_IP a)) (ua_Port a) (lr_ClientID req)
                       (lr_WgPubKey req) (msg_Token message) (lr_AllowedIP req))]
        | _ => []
        end
      else []
  | _ => []
  end.

(** Logins handled one after the other. *)
Definition handle_logins {D} {DB : PeerDB D} (d : D) (ls : list (Z * PeerLogin)) : D :=
  foldl (λ d '(now, l), Register now l d) d ls.

Lemma handleConnection_logins {D} {DB : PeerDB D} now g a (d : D) :
  (handleConnection now g a d).2 = handle_logins d (logins_in now g a).
Proof.
  unfold handleConnection, logins_in. destruct (v ← json_parse g; dec_Message v) as [m| |]; [|done..].
  destruct (msg_Type m =? Login)%Z; [|by destruct (msg_Type m =? Query)%Z].
  unfold handleLoginRequest. by destruct (dec_PeerLoginReq _).
Qed.

(** ** Where a row comes from *)

Definition login_key (l : PeerLogin) : string * string := (login_Token l, login_ClientID l).
Definition table (ls : list (Z * PeerLogin)) : gmap (string * string) Peer := foldl login_map ∅ ls.

(** A source address of UDP. *)
Definition real_addr (ip : list Ascii.ascii) (port : Z) : Prop :=
  (length ip = 4 ∨ length ip = 16) ∧ (1 ≤ port ≤ 65535)%Z.
Definition login_from (l : PeerLogin) (ip : list Ascii.ascii) (port : Z) : Prop :=
  login_IP l = IP_String ip ∧ login_Port l = port ∧ real_addr ip port.
Definition real_login (nl : Z * PeerLogin) : Prop := ∃ ip port, login_from nl.2 ip port.

(** The last login of a client. *)
Definition last_login (ls : list (Z * PeerLogin)) (k : string * string) (l : PeerLogin) : Prop :=
  ∃ ls1 now ls2, ls = ls1 ++ (now, l) :: ls2 ∧ login_key l = k ∧ Forall (λ nl, login_key nl.2 ≠ k) ls2.

Lemma logins_in_real now g a : real_addr (ua_IP a) (ua_Port a) → Forall real_login (logins_in now g a).
Proof.
  intros Ha. unfold logins_in. destruct (v ← json_parse g; dec_Message v) as [m| |]; [|constructor..].
  destruct (msg_Type m =? Login)%Z; [|constructor]. destruct (dec_PeerLoginReq _) as [r| |]; [|constructor..].
  apply Forall_singleton. by exists (ua_IP a), (ua_Port a).
Qed.

Lemma IP_String_nonempty ip : length ip = 4 ∨ length ip = 16 → IP_String ip ≠ EmptyString.
Proof.
  intros Hl He. pose proof (net_ParseIP_IP_bytes ip Hl) as Hp.
  assert (IP_bytes ip = []) as Hb.
  { rewrite <-(bytes_of_string_of_bytes (IP_bytes ip)). unfold IP_String in He. by rewrite He. }
  rewrite Hb in Hp. unfold To16 in Hp. destruct Hl as [Hl|Hl]; rewrite Hl in Hp; discriminate Hp.
Qed.

Lemma IP_String_To16 ip ip' : length ip = 4 ∨ length ip = 16 → length ip' = 4 ∨ length ip' = 16 →
  IP_String ip = IP_String ip' → To16 ip = To16 ip'.
Proof.
  intros Hl Hl' He. rewrite <-!net_ParseIP_IP_bytes by done. f_equal.
  by rewrite <-(bytes_of_string_of_bytes (IP_bytes ip)), <-(bytes_of_string_of_bytes (IP_bytes ip')); f_equal.
Qed.

Lemma nonzero_string_keep new old : new ≠ EmptyString → nonzero_string new old = new.
Proof. by destruct new. Qed.
Lemma nonzero_string_either new old : nonzero_string new old = new ∨ nonzero_string new old = old.
Proof. destruct new; auto. Qed.

Lemma table_snoc ls now l : table (ls ++ [(now, l)]) = <[login_key l := login_row now l (table ls !! login_key l)]> (table ls).
Proof. unfold table. by rewrite foldl_app. Qed.

(** A row has the address of the client's last login; its key and its allowed
    IP are those of logins of the same client. *)
Record row_origin (ls : list (Z * PeerLogin)) (k : string * string) (p : Peer) : Prop := {
  ro_key : peer_key p = k;
  ro_last : ∃ l ip port, last_login ls k l ∧ login_from l ip port ∧ peer_IP p = IP_String ip ∧ peer_Port p = port ∧
    (login_WgPubKey l ≠ EmptyString → peer_WgPubKey p = login_WgPubKey l);
  ro_pubkey : ∃ nl, nl ∈ ls ∧ login_key nl.2 = k ∧ login_WgPubKey nl.2 = peer_WgPubKey p;
  ro_allowed : ∃ nl, nl ∈ ls ∧ login_key nl.2 = k ∧ login_AllowedIP nl.2 = peer_AllowedIP p
}.

Lemma row_origin_snoc ls k p nl : login_key nl.2 ≠ k → row_origin ls k p → row_origin (ls ++ [nl]) k p.
Proof.
  intros Hk [H1 (l&ip&port&(ls1&now&ls2&->&Hl&Hls2)&Hr) (n1&?&?) (n2&?&?)].
  split; [done| |by exists n1; rewrite elem_of_app; auto|by exists n2; rewrite elem_of_app; auto].
  exists l, ip, port. split; [|done]. exists ls1, now, (ls2 ++ [nl]). split; [by rewrite <-app_assoc|].
  split; [done|]. apply Forall_app. by rewrite Forall_singleton.
Qed.

Lemma table_origin ls k p : Forall real_login ls → table ls !! k = Some p → row_origin ls k p.
Proof.
  revert p. induction ls as [|[now l] ls IH] using rev_ind; intros p Hr Hp; [done|].
  apply Forall_app in Hr as [Hr (ip&port&Hl)%Forall_singleton]. cbn [snd] in Hl.
  rewrite table_snoc, lookup_insert in Hp. case_decide as Hk; [subst k|by apply row_origin_snoc; [|apply IH]].
  injection Hp as <-. pose proof Hl as (Hip&Hport&[Hlen Hrange]).
  assert (last_login (ls ++ [(now, l)]) (login_key l) l) as Hlast by (exists ls, now, []; by repeat constructor).
  assert ((now, l) ∈ ls ++ [(now, l)]) as Hin by (rewrite elem_of_app, list_elem_of_singleton; auto).
  destruct (table ls !! login_key l) as [q|] eqn:Hq; cbn [login_row].
  - destruct (IH q Hr eq_refl) as [Hkey _ (n1&Hn1&Hk1&Hw1) (n2&Hn2&Hk2&Ha2)]. split; cbn.
    + destruct q. exact Hkey.
    + exists l, ip, port. split; [done|]. split; [done|]. rewrite nonzero_string_keep by
        (rewrite Hip; by apply IP_String_nonempty). split; [done|]. split; [|apply nonzero_string_keep].
      rewrite Hport. by destruct (Z.eqb_spec port 0); [lia|].
    + destruct (nonzero_string_either (login_WgPubKey l) (peer_WgPubKey q)) as [-> | ->]; [by exists (now, l)|].
      exists n1. rewrite elem_of_app. auto.
    + exists n2. rewrite elem_of_app. auto.
  - split; cbn; [done| |by exists (now, l)..]. exists l, ip, port. by split_and!.
Qed.

Lemma table_last ls k l : last_login ls k l → is_Some (table ls !! k).
Proof.
  intros (ls1&now&ls2&->&Hk&Hls2). induction ls2 as [|[n2 l2] ls2 IH] using rev_ind.
  - rewrite table_snoc, Hk, lookup_insert_eq. by eexists.
  - apply Forall_app in Hls2 as [Hls2 [Hl2 _]%list.Forall_cons]. rewrite app_comm_cons, app_assoc, table_snoc.
    rewrite lookup_insert_ne by exact Hl2. by apply IH.
Qed.

Lemma last_login_unique ls k l l' : last_login ls k l → last_login ls k l' → l = l'.
Proof.
  intros (a&n&b&->&Hl&Hb) (a'&n'&b'&Heq&Hl'&Hb'). rewrite list.Forall_forall in Hb, Hb'. revert a' Heq.
  induction a as [|x a IH]; intros [|y a'] Heq; cbn [app] in Heq; injection Heq as Hx Heq.
  - congruence.
  - exfalso. apply (Hb (n', l')); [rewrite Heq; set_solver|done].
  - exfalso. apply (Hb' (n, l)); [rewrite <-Heq; set_solver|done].
  - by apply (IH a').
Qed.

(** ** The system *)

(** A client: its flags, its key and configuration, the address the server sees
    its registration from, its draws of [rand.Intn]. *)
Record member := mkMember {
  mb_id : string;
  mb_token : string;
  mb_key : string;
  mb_config : EngineConfig;
  mb_addr : UDPAddr;
  mb_draw : nat → Z
}.
Definition mb_query (m : member) : list Ascii.ascii := query_text (mb_id m) (mb_token m).

(** An answer the server has sent: where to, the datagram its handler was
    started for, and the logins handled before it was made. *)
Record exchange := mkExchange {
  x_to : UDPAddr;
  x_asked : list Ascii.ascii;
  x_answer : list Ascii.ascii;
  x_logins : list (Z * PeerLogin)
}.

Section serving.
Context {D : Type} {DB : PeerDB D}.

(** The server of [srv_step] with its history: each handler with the datagram it
    was started for, the answers sent and the logins handled. *)
Record serving := mkServing {
  v_buffer : list Ascii.ascii;
  v_pending : list (list Ascii.ascii * UDPAddr);
  v_db : D;
  v_answers : list exchange;
  v_logins : list (Z * PeerLogin)
}.

Definition server_of (v : serving) : server_state :=
  mkServer (v_buffer v) (map (λ '(g, a), (length g, a)) (v_pending v)) (v_db v)
    (map (λ x, (x_to x, x_answer x)) (v_answers v)).

Definition reads (g : list Ascii.ascii) (a : UDPAddr) (v : serving) : serving :=
  mkServing (write_at 0 g (v_buffer v)) ((g, a) :: v_pending v) (v_db v) (v_answers v) (v_logins v).
(** The handler started for [g] runs: it looks at the buffer as it is now. *)
Definition handles (now : Z) (rest : list (list Ascii.ascii * UDPAddr)) (g : list Ascii.ascii) (a : UDPAddr)
    (v : serving) : serving :=
  let data := take (length g) (v_buffer v) in
  let r := handleConnection now data a (v_db v) in
  mkServing (v_buffer v) rest r.2
    (v_answers v ++ match r.1 with Some answer => [mkExchange a g answer (v_logins v)] | None => [] end)
    (v_logins v ++ logins_in now data a).

Inductive serve : serving → serving → Prop :=
| sv_read v datagram a : real_addr (ua_IP a) (ua_Port a) → serve v (reads (take server_buffer datagram) a v)
| sv_handle v now hs1 g a hs2 : v_pending v = hs1 ++ (g, a) :: hs2 → serve v (handles now (hs1 ++ hs2) g a v).

(** It is the server of [srv_step], step for step. *)
Lemma serve_srv_step v v' : serve v v' → srv_step (server_of v) (server_of v').
Proof.
  destruct 1 as [v datagram a _|v now hs1 g a hs2 Hp]; [apply (srv_read _ _ _ _ datagram a)|].
  unfold server_of at 1. rewrite Hp, map_app. cbn [map].
  pose proof (read_handle (v_buffer v) (map (λ '(g, a), (length g, a)) hs1) (map (λ '(g, a), (length g, a)) hs2)
    (length g) (v_db v) (map (λ x, (x_to x, x_answer x)) (v_answers v)) now a) as H. cbv zeta in H.
  unfold server_of, handles. cbn [v_buffer v_pending v_db v_answers]. rewrite !map_app.
  replace (map (λ x, (x_to x, x_answer x)) (v_answers v) ++ _) with
    (reply (map (λ x, (x_to x, x_answer x)) (v_answers v)) a (handleConnection now (take (length g) (v_buffer v)) a (v_db v)).1);
    [exact H|].
  destruct (handleConnection _ _ _ _).1; cbn [reply map]; [done|by rewrite app_nil_r].
Qed.
Lemma srv_step_serve v t : srv_step (server_of v) t →
  Forall (λ na : nat * UDPAddr, real_addr (ua_IP na.2) (ua_Port na.2)) (s_handlers t) → ∃ v', serve v v' ∧ server_of v' = t.
Proof.
  intros Hs. remember (server_of v) as u eqn:Hu. destruct Hs as [b hs d out datagram a data|b hs1 hs2 d out n a now answer d' Hc];
    injection Hu as -> Hhs -> ->; intros Hr.
  - cbn [s_handlers] in Hr. apply list.Forall_cons in Hr as [Hr _].
    exists (reads (take server_buffer datagram) a v). split; [by constructor|]. subst hs. done.
  - symmetry in Hhs. apply map_eq_app in Hhs as (p1&p2'&Hp&<-&Hp2). apply map_eq_cons in Hp2 as ([g a']&p2&->&[= <- <-]&<-).
    exists (handles now (p1 ++ p2) g a' v). split; [by apply sv_handle|].
    unfold server_of, handles. cbn [v_buffer v_pending v_db v_answers]. rewrite !map_app, Hc.
    by destruct answer; cbn [fst snd reply map]; rewrite ?app_nil_r.
Qed.

(** One datagram, read and then handled. *)
Definition asks (now : Z) (g : list Ascii.ascii) (a : UDPAddr) (v : serving) : serving :=
  handles now [] g a (reads g a v).

Definition calm (v : serving) : Prop := length (v_pending v) ≤ 1.
End serving.

(** A running client: its engine, its WireGuard device, the workers that have
    opened. *)
Record node (W : Type) := mkNode { nd_engine : Engine; nd_device : W; nd_opened : list (Conn * string) }.
Arguments mkNode {_} _ _ _.
Arguments nd_engine {_} _.
Arguments nd_device {_} _.
Arguments nd_opened {_} _.

Section system.
Context {T : WgTypes} {W : Type} {C : Configurer W}.
Context {D : Type} {DB : PeerDB D} {DS : PeerDBSpec D}.
Variable lookup : string → res (list Ascii.ascii).
Variable signalIpAddress : string.
Variable members : gmap nat member.
(** Each client's WireGuard device when its engine has started. *)
Variable device0 : nat → W.

Record system := mkSystem { sy_server : serving (D := D); sy_nodes : gmap nat (node W) }.
Definition set_node (i : nat) (o : option (node W)) (s : system) : system :=
  mkSystem (sy_server s) (partial_alter (λ _, o) i (sy_nodes s)).
Definition set_server (v : serving (D := D)) (s : system) : system := mkSystem v (sy_nodes s).

(** What the network brings a client's socket, which is connected to the server:
    nothing, or an answer the server has sent there for the datagram the client
    sends; however late it comes, and even if it was made for the same datagram
    sent earlier. *)
Definition delivers (v : serving (D := D)) (a : UDPAddr) (N : signal_net) : Prop :=
  ∀ g, net_arrivals N g = [] ∨
    ∃ x, x ∈ v_answers v ∧ x_to x = a ∧ x_asked x = take server_buffer g ∧ net_arrivals N g = [x_answer x].

Definition register (m : member) (N : signal_net) : res PeerLoginRes :=
  ClientRegister N signalIpAddress (mb_id m) (mb_token m) (ec_WgPort (mb_config m)) (mb_key m) (ec_WgAddr (mb_config m)).
Definition poll_as (m : member) (N : signal_net) (e : Engine) : res Engine :=
  poll (mb_key m) (mb_draw m) N signalIpAddress (mb_id m) (mb_token m) e.

Definition polled (nd : node W) (e : Engine) : node W := mkNode e (nd_device nd) (nd_opened nd).
Definition opened (nd : node W) (ck : Conn * string) : node W :=
  mkNode (nd_engine nd) (open_peer lookup (nd_device nd) ck.1).2 (nd_opened nd ++ [ck]).

(** A client's registration and its poll are a step each, taken when the answer
    comes or the wait for it ends; its datagram has reached the server, if it
    has, by a step of the server. An open that panics ends its process. *)
Inductive sys_step : system → system → Prop :=
| st_server s v : serve (sy_server s) v → sys_step s (set_server v s)
| st_start s i m N answer : members !! i = Some m → sy_nodes s !! i = None →
    delivers (sy_server s) (mb_addr m) N → register m N = Ok answer →
    sys_step s (set_node i (Some (mkNode (NewEngine (mb_config m)) (device0 i) [])) s)
| st_poll s i m nd a N e : members !! i = Some m → sy_nodes s !! i = Some nd →
    delivers (sy_server s) a N → poll_as m N (nd_engine nd) = Ok e → sys_step s (set_node i (Some (polled nd e)) s)
| st_open s i nd ck : sy_nodes s !! i = Some nd → ck ∈ en_workers (nd_engine nd) →
    sys_step s (set_node i (match (open_peer lookup (nd_device nd) ck.1).1 with
                            | Panic => None | _ => Some (opened nd ck) end) s).

(** A step of a run in which no datagram is read while a handler is waiting. *)
Definition calm_step (s s' : system) : Prop := sys_step s s' ∧ calm (sy_server s').

Definition sys_start (d : D) : system :=
  mkSystem (mkServing (replicate server_buffer "000"%char) [] (store_init d) [] []) ∅.

(** ** The invariant *)

Definition run_ops (w : W) (ops : list configurer_op) : W := foldl (λ w op, (run_op w op).2) w ops.

(** [p] was the row of another client of [m]'s token at some time. *)
Definition was_listed (ls : list (Z * PeerLogin)) (m : member) (p : Peer) : Prop :=
  ∃ past c, past `prefix_of` ls ∧ c ≠ mb_id m ∧ table past !! (mb_token m, c) = Some p.
(** What WireGuard is asked for [p] at [ip]. *)
Definition peer_op (p : Peer) (ip : list Ascii.ascii) : configurer_op :=
  OpUpdatePeer (peer_WgPubKey p) (peer_AllowedIP p +:+ "/32") defaultWgKeepAlive
    (Some (mkUDPAddr (default [] (To16 ip)) (peer_Port p) EmptyString)) None.
Definition op_for (ls : list (Z * PeerLogin)) (m : member) (op : configurer_op) : Prop :=
  ∃ p ip, was_listed ls m p ∧ peer_IP p = IP_String ip ∧ real_addr ip (peer_Port p) ∧ op = peer_op p ip.
Definition worker_of (p : Peer) (ck : Conn * string) : Prop :=
  let '(conn, key) := ck in
  key = peer_WgPubKey p ∧ remoteAnswer conn = mkAnswer (peer_Port p) (peer_IP p) ∧
  RemoteKey (conn_WgConfig (conn_config conn)) = peer_WgPubKey p ∧
  AllowedIps (conn_WgConfig (conn_config conn)) = peer_AllowedIP p +:+ "/32" ∧
  PreSharedKey (conn_WgConfig (conn_config conn)) = None.
Definition asked (ops : list configurer_op) (p : Peer) : Prop :=
  ∃ ip, peer_IP p = IP_String ip ∧ real_addr ip (peer_Port p) ∧ peer_op p ip ∈ ops.

(** Every worker is for a listed client; WireGuard was asked for listed clients
    only, and for that of every worker that has opened. *)
Definition node_inv (ls : list (Z * PeerLogin)) (i : nat) (m : member) (nd : node W) : Prop :=
  Forall (λ ck, ∃ p, was_listed ls m p ∧ worker_of p ck) (en_workers (nd_engine nd)) ∧
  ∃ ops, nd_device nd = run_ops (device0 i) ops ∧ Forall (op_for ls m) ops ∧
    ∀ ck p, ck ∈ nd_opened nd → worker_of p ck → asked ops p.

(** An answer is the one to its own datagram, from the table of some time. *)
Definition exchange_ok (ls : list (Z * PeerLogin)) (x : exchange) : Prop :=
  x_logins x `prefix_of` ls ∧ real_addr (ua_IP (x_to x)) (ua_Port (x_to x)) ∧
  ∃ now (d : D), table_of d (table (x_logins x)) ∧ (handleConnection now (x_asked x) (x_to x) d).1 = Some (x_answer x).

Record serving_inv (v : serving (D := D)) : Prop := {
  vi_buffer : length (v_buffer v) = server_buffer;
  vi_pending : ∀ g a, (g, a) ∈ v_pending v → real_addr (ua_IP a) (ua_Port a) ∧ take (length g) (v_buffer v) = g;
  vi_table : table_of (v_db v) (table (v_logins v));
  vi_real : Forall real_login (v_logins v);
  vi_answers : ∀ x, x ∈ v_answers v → exchange_ok (v_logins v) x
}.
Record sys_inv (s : system) : Prop := {
  si_server : serving_inv (sy_server s);
  si_nodes : ∀ i nd, sy_nodes s !! i = Some nd → ∃ m, members !! i = Some m ∧ node_inv (v_logins (sy_server s)) i m nd
}.

Lemma was_listed_prefix ls ls' m p : ls `prefix_of` ls' → was_listed ls m p → was_listed ls' m p.
Proof. intros Hl (past&c&?&?). exists past, c. split; [by etrans|done]. Qed.
Lemma node_inv_prefix ls ls' i m nd : ls `prefix_of` ls' → node_inv ls i m nd → node_inv ls' i m nd.
Proof.
  intros Hl [Hw (ops&Hops&Ho&Hd)]. split; [|exists ops; split; [done|split; [|done]]].
  - eapply List.Forall_impl; [|exact Hw]. intros ck (p&?&?). exists p. split; [by eapply was_listed_prefix|done].
  - eapply List.Forall_impl; [|exact Ho]. intros op (p&ip&?&?). exists p, ip. split; [by eapply was_listed_prefix|done].
Qed.
Lemma exchange_ok_prefix ls ls' x : ls `prefix_of` ls' → exchange_ok ls x → exchange_ok ls' x.
Proof. intros Hl [Hx ?]. split; [by etrans|done]. Qed.

Lemma handle_logins_table ls ls' (d : D) : table_of d (table ls) → table_of (handle_logins d ls') (table (ls ++ ls')).
Proof.
  unfold table. rewrite foldl_app. generalize (foldl login_map ∅ ls). revert d.
  induction ls' as [|[now l] ls' IH]; intros d t Hd; [done|]. cbn [handle_logins foldl]. by apply IH, Register_table.
Qed.

Lemma handles_inv now rest g a v : (g, a) ∈ v_pending v → rest ⊆ v_pending v → serving_inv v →
  serving_inv (handles now rest g a v).
Proof.
  intros Hin Hsub [Hb Hp Ht Hr Hx]. destruct (Hp g a Hin) as [Ha Hg]. unfold handles. rewrite Hg.
  split; cbn [v_buffer v_pending v_db v_answers v_logins].
  - done.
  - intros g' a' H%Hsub. by apply Hp.
  - rewrite handleConnection_logins. by apply handle_logins_table.
  - apply Forall_app. split; [done|by apply logins_in_real].
  - intros x. rewrite elem_of_app. intros [H%Hx|H]; [eapply exchange_ok_prefix; [|exact H]; by apply prefix_app_r|].
    destruct (handleConnection now g a (v_db v)).1 as [r|] eqn:Hc; [|by apply not_elem_of_nil in H].
    apply list_elem_of_singleton in H as ->. split; [by apply prefix_app_r|]. split; [done|]. by exists now, (v_db v).
Qed.
Lemma reads_inv datagram a v : calm (reads (take server_buffer datagram) a v) → real_addr (ua_IP a) (ua_Port a) →
  serving_inv v → serving_inv (reads (take server_buffer datagram) a v).
Proof.
  intros Hc Ha [Hb Hp Ht Hr Hx]. set (g := take server_buffer datagram) in *.
  assert (length g ≤ length (v_buffer v)) as Hg by (subst g; rewrite length_take; lia).
  assert (v_pending v = []) as Hnil by (unfold calm in Hc; cbn in Hc; destruct (v_pending v); [done|cbn in Hc; lia]).
  split; cbn [reads v_buffer v_pending v_db v_answers v_logins]; [by rewrite length_write_at| |done..].
  rewrite Hnil. intros g' a' [= -> ->]%list_elem_of_singleton. split; [done|]. rewrite take_write_at by lia. by apply take_ge.
Qed.
Lemma serve_inv v v' : serving_inv v → serve v v' → calm v' → serving_inv v'.
Proof.
  intros Hi Hs Hc. destruct Hs as [v datagram a Ha|v now hs1 g a hs2 Hp]; [by apply reads_inv|].
  apply handles_inv; [rewrite Hp; set_solver..|done].
Qed.
Lemma serve_logins v v' : serve v v' → v_logins v `prefix_of` v_logins v'.
Proof. destruct 1; cbn; [done|by apply prefix_app_r]. Qed.

Lemma set_server_inv v s : serving_inv v → v_logins (sy_server s) `prefix_of` v_logins v → sys_inv s → sys_inv (set_server v s).
Proof.
  intros Hv Hl [_ Hn]. split; cbn; [done|]. intros i nd (m&?&?)%Hn. exists m. split; [done|by eapply node_inv_prefix].
Qed.
Lemma set_node_inv i o s : sys_inv s →
  (∀ nd, o = Some nd → ∃ m, members !! i = Some m ∧ node_inv (v_logins (sy_server s)) i m nd) → sys_inv (set_node i o s).
Proof.
  intros [Hv Hn] Ho. split; cbn; [done|]. intros j nd.
  destruct (decide (i = j)) as [->|]; [|rewrite lookup_partial_alter_ne by done; apply Hn].
  rewrite lookup_partial_alter_eq. apply Ho.
Qed.

(** ** What a poll is told, and what an open asks for *)

Lemma was_listed_origin ls m p : Forall real_login ls → was_listed ls m p →
  ∃ past c, past `prefix_of` ls ∧ c ≠ mb_id m ∧ row_origin past (mb_token m, c) p.
Proof.
  intros Hr (past&c&Hp&Hc&Ht). exists past, c. split; [done|]. split; [done|]. apply table_origin; [|done].
  destruct Hp as [rest ->]. by apply Forall_app in Hr as [? _].
Qed.
Lemma was_listed_addr ls m p : Forall real_login ls → was_listed ls m p →
  ∃ ip, peer_IP p = IP_String ip ∧ real_addr ip (peer_Port p).
Proof.
  intros Hr Hp. destruct (was_listed_origin ls m p Hr Hp) as (past&c&_&_&[_ (l&ip&port&_&(_&_&Ha)&Hip&<-&_) _ _]).
  by exists ip.
Qed.

Lemma clients_listed (d : D) ls m x : table_of d (table ls) →
  x ∈ GetClients (mb_id m) (mb_token m) d ↔
  ∃ c p, x = config_of p ∧ c ≠ mb_id m ∧ table ls !! (mb_token m, c) = Some p.
Proof.
  intros [_ Ht]. rewrite GetClients_filter, list_elem_of_fmap. split.
  - intros (p&->&[Hc [Htok Hp]%db_Find_elem]%list_elem_of_filter). exists (peer_ClientID p), p.
    split; [done|]. split; [done|]. apply Ht. by rewrite <-Htok.
  - intros (c&p&->&Hc&[Hp [= Htok Hcid]]%Ht). exists p. split; [done|].
    by rewrite list_elem_of_filter, db_Find_elem, Hcid.
Qed.

Lemma clients_ports (d : D) ls m : Forall real_login ls → table_of d (table ls) →
  Forall (λ p, is_int (pc_Port p)) (GetClients (mb_id m) (mb_token m) d).
Proof.
  intros Hr Ht. apply list.Forall_forall. intros x (c&p&->&Hc&Hp)%(clients_listed d ls); [|done].
  destruct (was_listed_addr ls m p Hr) as (ip&_&_&Hrange); [by exists ls, c|].
  unfold is_int, int64_min, int64_max. cbn. lia.
Qed.

Lemma GetSignalServer_Err sig x : GetSignalServer sig ≠ Err x.
Proof. unfold GetSignalServer. destruct (net_SplitHostPort sig) as [[h p]| |]; [|done..]. by destruct (strconv_Atoi p). Qed.

(** What can go wrong between a client and the server. *)
Inductive transport_error : error → Prop :=
| te_connect e : transport_error (errorf_v "error connecting: " e)
| te_send e : transport_error (errorf_v "error sending data: " e)
| te_read e : transport_error (errorf_v "error reading data: " e).

(** What a client reads is an answer to its message, if it reads any. *)
Lemma round_trip_delivers {A} v a N sig local (before : res A) message : delivers v a N → before ≠ Panic →
  match round_trip N sig local before message with
  | Ok r => ∃ b x, before = Ok b ∧ x ∈ v_answers v ∧ x_to x = a ∧
      x_asked x = take server_buffer (json_print (message b)) ∧ r = x_answer x ∧ length r < buffer_size
  | Err e => transport_error e ∨ before = Err e
  | Panic => GetSignalServer sig = Panic
  end.
Proof.
  intros HN Hp. unfold round_trip.
  destruct (GetSignalServer sig) as [[host port]|e|] eqn:Hs; [|by destruct (GetSignalServer_Err sig e)|done]. cbn [mbind res_bind].
  destruct (net_DialUDP N _ _); [left; constructor|]. destruct before as [b|e|]; [|by right|done]. cbn [mbind res_bind].
  destruct (net_Write N _); [left; constructor|].
  destruct (HN (json_print (message b))) as [->|(x&Hx&Ha&Hg&->)]; [left; constructor|].
  rewrite read_answer_single. case_decide; [by exists b, x|left; constructor].
Qed.

Definition remote_peers (m : member) (N : signal_net) : res (list PeerInfo * option error) :=
  GetRemotePeers N signalIpAddress (mb_id m) (mb_token m).

(** The answer to a client's query. *)
Lemma query_answer v m x : serving_inv v → x ∈ v_answers v → x_asked x = mb_query m →
  x_logins x `prefix_of` v_logins v ∧ ∃ d, table_of (D := D) d (table (x_logins x)) ∧
    x_answer x = json_print (JArr (map enc_PeerConfig (GetClients (mb_id m) (mb_token m) d))) ∧
    Forall (λ p, is_int (pc_Port p)) (GetClients (mb_id m) (mb_token m) d).
Proof.
  intros Hv Hx Hg. destruct (vi_answers v Hv x Hx) as (Hl&_&now&d&Ht&Ha). split; [done|]. exists d. split; [done|].
  rewrite Hg, (server_handles_query now (mb_id m) (mb_token m)) in Ha. injection Ha as <-. split; [done|].
  apply (clients_ports d (x_logins x)); [|done]. destruct Hl as [rest Hl]. pose proof (vi_real v Hv) as Hr. rewrite Hl in Hr.
  by apply Forall_app in Hr as [? _].
Qed.

(** A query is answered with the clients there were at some time, or not at all. *)
Lemma remote_peers_told v m a N : serving_inv v → length (mb_query m) ≤ server_buffer → delivers v a N →
  match remote_peers m N with
  | Ok (l, None) => ∃ past d, past `prefix_of` v_logins v ∧ table_of (D := D) d (table past) ∧
      l = map info_of (GetClients (mb_id m) (mb_token m) d)
  | Ok (l, Some e) => l = [] ∧ transport_error e
  | Err _ => False
  | Panic => GetSignalServer signalIpAddress = Panic
  end.
Proof.
  intros Hv Hq HN. unfold remote_peers, GetRemotePeers.
  pose proof (round_trip_delivers v a N signalIpAddress 0 (Ok tt)
    (λ _, enc_Message Query (mb_token m) (enc_PeerQueryReq (mkQueryReq (mb_id m)))) HN ltac:(done)) as Hr.
  destruct (round_trip _ _ _ _ _) as [r|x|]; [|by destruct Hr|done].
  destruct Hr as ([]&x&_&Hx&_&Hg&->&_). rewrite take_ge in Hg by exact Hq.
  destruct (query_answer v m x Hv Hx Hg) as (Hl&d&Ht&->&Hports).
  rewrite json_parse_print by apply no_frac_PeerConfigs. rewrite dec_enc_PeerConfigs by done. by exists (x_logins x), d.
Qed.

(** What a poll turns into workers. *)
Lemma poll_told v m a N e e' : serving_inv v → length (mb_query m) ≤ server_buffer → delivers v a N →
  poll_as m N e = Ok e' →
  ∃ l, (∀ x, x ∈ l → ∃ p, was_listed (v_logins v) m p ∧ x = config_of p) ∧
    addNewPeers (mb_key m) (mb_draw m) e (map info_of l) = Ok e'.
Proof.
  intros Hv Hq HN. unfold poll_as, poll. pose proof (remote_peers_told v m a N Hv Hq HN) as Hr. unfold remote_peers in Hr.
  destruct (GetRemotePeers _ _ _ _) as [[l [x|]]|x|]; [|..|done]; [| |done]; cbn [mbind res_bind]; intros He.
  - destruct Hr as [-> _]. exists []. split; [intros y Hy; by apply not_elem_of_nil in Hy|done].
  - destruct Hr as (past&d&Hl&Ht&->). eexists. split; [|exact He].
    intros x (c&p&->&Hc&Hp)%(clients_listed d past); [|done]. exists p. split; [by exists past, c|done].
Qed.

Lemma open_worker ls m p ck w : Forall real_login ls → was_listed ls m p → worker_of p ck →
  ∃ ip, peer_IP p = IP_String ip ∧ real_addr ip (peer_Port p) ∧
    open_peer lookup w ck.1 = match run_op w (peer_op p ip) with
                              | (Ok _, w') => (Ok (mkUDPAddr (default [] (To16 ip)) (peer_Port p) EmptyString), w')
                              | (Err err, w') => (Err (Wrapf "update peer: " err EmptyString), w')
                              | (Panic, w') => (Panic, w')
                              end.
Proof.
  intros Hr Hp Hw. destruct (was_listed_addr ls m p Hr Hp) as (ip&Hip&Hreal). exists ip. split; [done|]. split; [done|].
  destruct ck as [conn key]. destruct Hw as (_&Hans&Hk&Ha&Hpsk), Hreal as [Hl Hrange]. cbn [fst]. unfold open_peer.
  rewrite (configureConnection_endpoint lookup conn w ip (peer_Port p)) by
    (rewrite ?Hans; done || unfold int64_min, int64_max; lia).
  rewrite decide_True by lia. cbv zeta. unfold peer_op. by rewrite Hk, Ha, Hpsk.
Qed.

Lemma addNewPeers_workers m e l e' : addNewPeers (mb_key m) (mb_draw m) e (map info_of (map config_of l)) = Ok e' →
  (∀ ck, ck ∈ en_workers e' → ck ∈ en_workers e ∨ ∃ p, p ∈ l ∧ worker_of p ck) ∧
  (∀ ck, ck ∈ en_workers e → ck ∈ en_workers e') ∧ ∀ p, p ∈ l → ∃ ck, ck ∈ en_workers e' ∧ worker_of p ck.
Proof.
  destruct (addNewPeers_spec (mb_key m) (mb_draw m) (map info_of (map config_of l)) e) as (e1&He1&_&Hws&_).
  rewrite He1. intros [= <-]. rewrite Hws. split_and!.
  - intros ck. rewrite elem_of_app. intros [H|(k&y&->&Hy)%elem_of_lookup_imap_1]; [by left|right].
    rewrite map_map, list_lookup_fmap_Some in Hy. destruct Hy as (p&->&Hp%list_elem_of_lookup_2). by exists p.
  - intros ck H. rewrite elem_of_app. by left.
  - intros p [k Hk]%list_elem_of_lookup. eexists. split.
    + rewrite elem_of_app. right. apply list_elem_of_lookup. exists k.
      rewrite list_lookup_imap, map_map, list_lookup_fmap, Hk. reflexivity.
    + done.
Qed.

(** A list of clients is the list of their rows. *)
Lemma configs_of (P : Peer → Prop) l : (∀ x, x ∈ l → ∃ p, P p ∧ x = config_of p) → ∃ ps, l = map config_of ps ∧ ∀ p, p ∈ ps → P p.
Proof.
  induction l as [|x l IH]; intros Hl.
  - exists []. split; [done|]. intros p Hp. by apply not_elem_of_nil in Hp.
  - destruct (Hl x ltac:(by left)) as (p&Hp&->). destruct IH as (ps&->&Hps); [intros y Hy; apply Hl; by right|].
    exists (p :: ps). split; [done|]. intros q [-> | Hq]%elem_of_cons; [done|by apply Hps].
Qed.

Lemma worker_of_op p p' ck : worker_of p ck → worker_of p' ck →
  (∀ ip, peer_op p ip = peer_op p' ip) ∧ peer_IP p = peer_IP p' ∧ peer_Port p = peer_Port p'.
Proof.
  destruct ck as [conn key]. intros (_&Ha&Hk&Hal&_) (_&Ha'&Hk'&Hal'&_). rewrite Ha in Ha'. injection Ha' as Hport Hip.
  split; [|done]. intros ip. unfold peer_op. by rewrite <-Hk, <-Hal, Hk', Hal', Hport.
Qed.

Hypothesis queries_fit : ∀ i m, members !! i = Some m → length (mb_query m) ≤ server_buffer.

Lemma polled_inv ls i m nd ps e : node_inv ls i m nd → (∀ p, p ∈ ps → was_listed ls m p) →
  addNewPeers (mb_key m) (mb_draw m) (nd_engine nd) (map info_of (map config_of ps)) = Ok e → node_inv ls i m (polled nd e).
Proof.
  intros [Hw Hops] Hps (Hnew&_)%addNewPeers_workers. split; [|exact Hops]. apply list.Forall_forall. intros ck Hck.
  apply Hnew in Hck as [Hck|(p&Hp&Hck)]; [rewrite list.Forall_forall in Hw; by apply Hw|]. exists p. split; [by apply Hps|done].
Qed.

Lemma opened_inv ls i m nd ck : Forall real_login ls → node_inv ls i m nd → ck ∈ en_workers (nd_engine nd) →
  node_inv ls i m (opened nd ck).
Proof.
  intros Hr [Hw (ops&Hops&Hall&Hd)] Hin. split; [done|]. pose proof Hw as Hws. rewrite list.Forall_forall in Hws.
  destruct (Hws _ Hin) as (p&Hp&Hck).
  destruct (open_worker ls m p ck (nd_device nd) Hr Hp Hck) as (ip&Hip&Hreal&Hop).
  exists (ops ++ [peer_op p ip]). split_and!.
  - cbn [opened nd_device]. rewrite Hop. unfold run_ops. rewrite foldl_app. cbn [foldl]. fold (run_ops (device0 i) ops).
    rewrite <-Hops. by destruct (run_op _ _) as [[]].
  - apply Forall_app. split; [done|]. apply Forall_singleton. by exists p, ip.
  - intros ck' p'. cbn [opened nd_opened]. rewrite elem_of_app, list_elem_of_singleton. intros [Hck'|Hck'] Hp'.
    + destruct (Hd ck' p' Hck' Hp') as (ip'&?&?&?). exists ip'. split_and!; [done..|set_solver].
    + subst ck'. destruct (worker_of_op p p' ck Hck Hp') as (Hpop&Hipe&Hporte). exists ip.
      rewrite <-Hpop, <-Hipe, <-Hporte. split_and!; [done..|set_solver].
Qed.

Lemma sys_step_inv s s' : sys_inv s → calm_step s s' → sys_inv s'.
Proof.
  intros Hi [Hs Hc]. destruct Hs as [s v Hv|s i m N answer Hm Hn HN _|s i m nd a N e Hm Hn HN Hp|s i nd ck Hn Hin].
  - apply set_server_inv; [|by apply serve_logins|done]. by apply (serve_inv (sy_server s)); [apply Hi|..].
  - apply set_node_inv; [done|]. intros nd [= <-]. exists m. split; [done|].
    split; [constructor|]. exists []. split_and!; [done|constructor|]. intros ck p Hck. by apply not_elem_of_nil in Hck.
  - apply set_node_inv; [done|]. intros nd' [= <-]. exists m. split; [done|].
    destruct (si_nodes s Hi i _ Hn) as (m'&Hm'&Hnode). assert (m' = m) as -> by congruence.
    destruct (poll_told _ m a N _ e (si_server s Hi) (queries_fit i m Hm) HN Hp) as (l&Hl&He).
    destruct (configs_of _ l Hl) as (ps&->&Hps). by eapply polled_inv.
  - apply set_node_inv; [done|]. intros nd' Hnd.
    destruct (si_nodes s Hi i _ Hn) as (m&Hm&Hnode). exists m. split; [done|].
    assert (nd' = opened nd ck) as -> by (destruct (open_peer _ _ _).1; congruence).
    apply opened_inv; [apply (vi_real _ (si_server s Hi))|done..].
Qed.

Lemma sys_start_inv d : sys_inv (sys_start d).
Proof.
  split; [split; cbn|].
  - apply length_replicate.
  - intros g a H. by apply not_elem_of_nil in H.
  - apply table_of_init.
  - constructor.
  - intros x H. by apply not_elem_of_nil in H.
  - cbn. intros i nd Hi. by rewrite lookup_empty in Hi.
Qed.
Lemma calm_inv s s' : sys_inv s → rtc calm_step s s' → sys_inv s'.
Proof. intros Hi Hr. apply (rtc_invariant calm_step sys_inv sys_step_inv _ _ Hr Hi). Qed.
Lemma reachable_inv d s : rtc calm_step (sys_start d) s → sys_inv s.
Proof. apply calm_inv, sys_start_inv. Qed.

(** ** What the two sides make of each other's messages *)

(** A peer a client can use. *)
Definition usable (i : PeerInfo) : Prop := ∃ ip, pi_IP i = IP_String ip ∧ real_addr ip (pi_Port i).

(** C3. The messages are well-typed for their readers, as long as the server
    handles one datagram at a time. In every state the clients and the server
    get to without a datagram being read while a handler waits, whoever has
    logged in, a client whose login and query each fit the server's 1024-byte
    buffer, on a network that makes up no datagram and duplicates none: its
    registration is answered with the address the server sees it at, and its
    query with peers each of which has an IP that parses and a port in range; no
    message is refused by the side that decodes it. What a client can be told
    instead is an error of the network, a timeout, or of its own tunnel address;
    it panics only on a signal address it cannot read. *)
Theorem exchanges_are_typed d s i m a N :
  rtc calm_step (sys_start d) s → members !! i = Some m → delivers (sy_server s) a N →
  (∀ ip network, net_ParseCIDR (ec_WgAddr (mb_config m)) = Ok (ip, network) →
     length (login_text (mb_id m) (mb_key m) (mb_token m) (IP_String ip)) ≤ server_buffer) →
  match register m N with
  | Ok answer => answer = mkLoginRes (IP_String (ua_IP a)) (ua_Port a)
  | Err e => transport_error e ∨ net_ParseCIDR (ec_WgAddr (mb_config m)) = Err e
  | Panic => GetSignalServer signalIpAddress = Panic
  end ∧
  match remote_peers m N with
  | Ok (l, None) => Forall usable l
  | Ok (l, Some e) => l = [] ∧ transport_error e
  | Err _ => False
  | Panic => GetSignalServer signalIpAddress = Panic
  end.
Proof.
  intros [Hv _]%reachable_inv Hm HN Hlen. split.
  - unfold register, ClientRegister.
    pose proof (round_trip_delivers _ a N signalIpAddress (ec_WgPort (mb_config m)) (net_ParseCIDR (ec_WgAddr (mb_config m)))
      (λ '(ip, _), enc_Message Login (mb_token m) (enc_PeerLoginReq (mkLoginReq (mb_id m) (mb_key m) (IP_String ip)))) HN
      (net_ParseCIDR_no_panic _)) as Hr.
    destruct (round_trip _ _ _ _ _) as [r|e|]; [|done..].
    destruct Hr as ([ip n]&x&Hip&Hx&<-&Hg&->&_). rewrite take_ge in Hg by (by eapply Hlen).
    change (x_asked x = login_text (mb_id m) (mb_key m) (mb_token m) (IP_String ip)) in Hg.
    destruct (vi_answers _ Hv x Hx) as (_&[_ Ha]&now&d'&_&Hans). rewrite Hg in Hans.
    rewrite (server_handles_login now (mb_id m) (mb_key m) (mb_token m)) in Hans. injection Hans as <-.
    cbn [mbind res_bind]. rewrite json_parse_print by by repeat split. cbn [mbind res_bind].
    rewrite dec_enc_RegisterResponse; [done|]. unfold is_int, int64_min, int64_max. lia.
  - pose proof (remote_peers_told _ m a N Hv (queries_fit i m Hm) HN) as Hr.
    destruct (remote_peers m N) as [[l [e|]]|e|]; [done| |done..]. destruct Hr as (past&d'&Hl&Ht&->).
    apply list.Forall_forall. intros x (y&->&Hy)%list_elem_of_fmap.
    apply (clients_listed d' past) in Hy as (c&p&->&Hc&Hp); [|done].
    destruct (was_listed_addr _ m p (vi_real _ Hv)) as (ip&Hip&Hreal); [by exists past, c|]. by exists ip.
Qed.

(** ** Who becomes a peer *)

(** [op] makes WireGuard talk to another client of [m]'s token: the key, the
    tunnel address and the endpoint are from logins of that client, the endpoint
    being the address such a login came from. *)
Definition from_group (ls : list (Z * PeerLogin)) (m : member) (op : configurer_op) : Prop :=
  ∃ c nk lk na la nl l ip port, c ≠ mb_id m ∧
    (nk, lk) ∈ ls ∧ login_key lk = (mb_token m, c) ∧
    (na, la) ∈ ls ∧ login_key la = (mb_token m, c) ∧
    (nl, l) ∈ ls ∧ login_key l = (mb_token m, c) ∧ login_from l ip port ∧
    op = OpUpdatePeer (login_WgPubKey lk) (login_AllowedIP la +:+ "/32") defaultWgKeepAlive
           (Some (mkUDPAddr (default [] (To16 ip)) port EmptyString)) None.

Lemma listed_from_group ls m op : Forall real_login ls → op_for ls m op → from_group ls m op.
Proof.
  intros Hr (p&ip&Hp&Hip&[Hlen _]&->).
  destruct (was_listed_origin ls m p Hr Hp) as (past&c&[rest ->]&Hc&[_ (l&ip'&port&Hlast&Hfrom&Hip'&<-&_) ([nk lk]&Hk&Hkk&Hkw) ([na la]&Ha&Hak&Haw)]).
  destruct Hlast as (ls1&nl&ls2&->&Hl&_), Hfrom as (Hf1&Hf2&Hf3&Hf4). cbn [snd] in *.
  exists c, nk, lk, na, la, nl, l, ip, (peer_Port p). split; [done|].
  split; [rewrite elem_of_app; by left|]. split; [done|].
  split; [rewrite elem_of_app; by left|]. split; [done|]. split; [set_solver|]. split; [done|]. split.
  - split; [congruence|]. split; [done|]. by split.
  - unfold peer_op. by rewrite Hkw, Haw.
Qed.

(** C2. However many clients log in, start, poll and open connections around one
    server, in whatever order, with datagrams lost or late and with anybody's
    datagrams to the server: as long as the server never reads a datagram while
    a handler is waiting, no client's query is longer than its 1024-byte buffer,
    and the network brings a client only answers to what it sent, each once, a
    client's WireGuard is only ever asked for peers that logged in with its own
    token under another client's name, each at an address a login of that peer
    came from; and the workers its engine has ask for nothing else, so none of
    them panics unless WireGuard's configuration does. *)
Theorem peers_share_token d s :
  rtc calm_step (sys_start d) s → ∀ i nd, sy_nodes s !! i = Some nd →
  ∃ m, members !! i = Some m ∧
    (∃ ops, nd_device nd = run_ops (device0 i) ops ∧ Forall (from_group (v_logins (sy_server s)) m) ops) ∧
    ∀ conn key, (conn, key) ∈ en_workers (nd_engine nd) → ∃ op, from_group (v_logins (sy_server s)) m op ∧
      ∀ w', (open_peer lookup w' conn).2 = (run_op w' op).2 ∧
            ((open_peer lookup w' conn).1 = Panic ↔ (run_op w' op).1 = Panic).
Proof.
  intros Hs%reachable_inv i nd Hn. destruct (si_nodes s Hs i _ Hn) as (m&Hm&Hws&ops&Hops&Hall&_).
  pose proof (vi_real _ (si_server s Hs)) as Hr. exists m. split; [done|]. split.
  - exists ops. split; [done|]. eapply List.Forall_impl; [|exact Hall]. intros op. by apply listed_from_group.
  - intros conn key Hin. rewrite list.Forall_forall in Hws. destruct (Hws _ Hin) as (p&Hp&Hw).
    destruct (open_worker _ m p _ (nd_device nd) Hr Hp Hw) as (ip&Hip&Hreal&_). exists (peer_op p ip).
    split; [apply listed_from_group; [done|]; by exists p, ip|]. intros w'.
    destruct (open_worker _ m p _ w' Hr Hp Hw) as (ip'&Hip'&[Hl' _]&Ho). cbn [fst] in Ho. rewrite Ho.
    assert (peer_op p ip' = peer_op p ip) as ->.
    { unfold peer_op. rewrite (IP_String_To16 ip' ip); [done|done|apply Hreal|congruence]. }
    destruct (run_op w' (peer_op p ip)) as [[] w2]; cbn; naive_solver.
Qed.

(** ** Everybody connects *)

(** WireGuard was asked for every other client of [m]'s token in [ls], at the
    address its last login came from, with that login's key if it gave one. *)
Definition knows_group (ls : list (Z * PeerLogin)) (m : member) (ops : list configurer_op) : Prop :=
  ∀ c l ip port, c ≠ mb_id m → last_login ls (mb_token m, c) l → login_from l ip port →
    ∃ key allowed, (login_WgPubKey l ≠ EmptyString → key = login_WgPubKey l) ∧
      OpUpdatePeer key (allowed +:+ "/32") defaultWgKeepAlive
        (Some (mkUDPAddr (default [] (To16 ip)) port EmptyString)) None ∈ ops.

Lemma asked_knows ls m ops : Forall real_login ls →
  (∀ c p, c ≠ mb_id m → table ls !! (mb_token m, c) = Some p → asked ops p) → knows_group ls m ops.
Proof.
  intros Hr Hall c l ip port Hc Hlast (Hip&Hport&Hlen&_). destruct (table_last _ _ _ Hlast) as [p Hp].
  destruct (table_origin _ _ p Hr Hp) as [_ (l'&ip'&port'&Hlast'&(Hip1&Hport'&Hlen'&_)&Hip'&Hpp&Hkey) _ _].
  assert (l' = l) as -> by by eapply last_login_unique.
  destruct (Hall c p Hc Hp) as (ip2&Hip2&[Hlen2 _]&Hin). exists (peer_WgPubKey p), (peer_AllowedIP p).
  split; [done|]. unfold peer_op in Hin. rewrite (IP_String_To16 ip2 ip) in Hin by congruence.
  by replace port with (peer_Port p) by congruence.
Qed.

(** The exchange in which [r] comes back for [g]. *)
Definition answered (N : signal_net) (g r : list Ascii.ascii) : Prop :=
  (∀ port a, net_DialUDP N port a = None) ∧ net_Write N g = None ∧ net_arrivals N g = [r].

Lemma round_trip_answered {A} N sig local (b : A) message r : GetSignalServer sig ≠ Panic →
  answered N (json_print (message b)) r → length r < buffer_size → round_trip N sig local (Ok b) message = Ok r.
Proof.
  intros Hs (Hd&Hw&Ha) Hr. unfold round_trip. destruct (GetSignalServer sig) as [[h p]|e|] eqn:He;
    [|by destruct (GetSignalServer_Err sig e)|done]. cbn [mbind res_bind].
  rewrite Hd, Hw, Ha, read_answer_single. by rewrite decide_True.
Qed.

(** An answered poll makes a worker for every client there was. *)
Lemma poll_answered v m x N e : serving_inv v → GetSignalServer signalIpAddress ≠ Panic →
  x ∈ v_answers v → x_asked x = mb_query m → length (x_answer x) < buffer_size → answered N (mb_query m) (x_answer x) →
  ∃ ps e', poll_as m N e = Ok e' ∧ addNewPeers (mb_key m) (mb_draw m) e (map info_of (map config_of ps)) = Ok e' ∧
    (∀ p, p ∈ ps → was_listed (v_logins v) m p) ∧
    ∀ c p, c ≠ mb_id m → table (x_logins x) !! (mb_token m, c) = Some p → config_of p ∈ map config_of ps.
Proof.
  intros Hv Hs Hx Hg Hlen HN. destruct (query_answer v m x Hv Hx Hg) as (Hl&d&Ht&Hans&Hports).
  set (l := GetClients (mb_id m) (mb_token m) d) in *.
  destruct (configs_of (was_listed (v_logins v) m) l) as (ps&Hps&Hlisted).
  { intros y (c&p&->&Hc&Hp)%(clients_listed d (x_logins x)); [|done]. exists p. split; [by exists (x_logins x), c|done]. }
  destruct (addNewPeers_spec (mb_key m) (mb_draw m) (map info_of l) e) as (e'&He&_). exists ps, e'. split_and!.
  - unfold poll_as, poll, GetRemotePeers. rewrite (round_trip_answered _ _ _ _ _ (x_answer x)) by done.
    rewrite Hans, json_parse_print by apply no_frac_PeerConfigs. by rewrite dec_enc_PeerConfigs.
  - by rewrite <-Hps.
  - done.
  - intros c p Hc Hp. rewrite <-Hps. apply (clients_listed d (x_logins x)); [done|]. by exists c, p.
Qed.

Lemma config_worker p p' ck : config_of p = config_of p' → worker_of p ck → worker_of p' ck.
Proof.
  destruct p, p'. unfold config_of, worker_of. destruct ck. cbn. intros [= -> -> -> -> -> ->]. done.
Qed.

Lemma poll_answered_workers v m x N e : serving_inv v → GetSignalServer signalIpAddress ≠ Panic →
  x ∈ v_answers v → x_asked x = mb_query m → length (x_answer x) < buffer_size → answered N (mb_query m) (x_answer x) →
  ∃ e', poll_as m N e = Ok e' ∧ ∀ c p, c ≠ mb_id m → table (x_logins x) !! (mb_token m, c) = Some p →
    ∃ ck, ck ∈ en_workers e' ∧ worker_of p ck.
Proof.
  intros Hv Hs Hx Hg Hlen HN. destruct (poll_answered v m x N e Hv Hs Hx Hg Hlen HN) as (ps&e'&Hp&He&_&Hall).
  exists e'. split; [done|]. intros c p Hc Ht. destruct (addNewPeers_workers m e ps e' He) as (_&_&Hws).
  pose proof (Hall c p Hc Ht) as (p'&Hpp&Hin)%list_elem_of_fmap. destruct (Hws p' Hin) as (ck&Hck&Hw).
  exists ck. split; [done|]. by apply (config_worker p').
Qed.

(** *** A run in which they do *)
Lemma set_node_set i o o' s : set_node i o (set_node i o' s) = set_node i o s.
Proof. unfold set_node. cbn. f_equal. apply partial_alter_partial_alter_eq. Qed.
Lemma set_node_eq i o s : sy_nodes (set_node i o s) !! i = o.
Proof. apply lookup_partial_alter_eq. Qed.
Lemma set_node_ne i j o s : i ≠ j → sy_nodes (set_node i o s) !! j = sy_nodes s !! j.
Proof. intros Hj. by apply lookup_partial_alter_ne. Qed.
Lemma set_node_self i s : set_node i (sy_nodes s !! i) s = s.
Proof. destruct s. unfold set_node. cbn. by rewrite partial_alter_self. Qed.

(** The server reads a datagram while it has nothing else, and handles it. *)
Lemma asks_run now g a s : v_pending (sy_server s) = [] → real_addr (ua_IP a) (ua_Port a) → length g ≤ server_buffer →
  rtc calm_step s (set_server (asks now g a (sy_server s)) s).
Proof.
  intros Hp Ha Hg. apply rtc_l with (set_server (reads g a (sy_server s)) s).
  - split; [|unfold calm; cbn; rewrite Hp; cbn; lia]. apply st_server. rewrite <-(take_ge g server_buffer) by done. by constructor.
  - apply rtc_once. split; [|unfold calm; cbn; lia].
    apply (st_server (set_server (reads g a (sy_server s)) s) (asks now g a (sy_server s))).
    apply (sv_handle (reads g a (sy_server s)) now [] g a []). cbn. by rewrite Hp.
Qed.

Definition clients_answer (m : member) (d : D) : list Ascii.ascii :=
  json_print (JArr (map enc_PeerConfig (GetClients (mb_id m) (mb_token m) d))).

Lemma asks_query now m a v : length (v_buffer v) = server_buffer → length (mb_query m) ≤ server_buffer →
  asks now (mb_query m) a v = mkServing (write_at 0 (mb_query m) (v_buffer v)) [] (v_db v)
    (v_answers v ++ [mkExchange a (mb_query m) (clients_answer m (v_db v)) (v_logins v)]) (v_logins v).
Proof.
  intros Hb Hq. unfold asks, handles. cbn [reads v_buffer v_db v_answers v_logins].
  rewrite take_write_at, take_ge by lia.
  unfold mb_query at 2 3 5. rewrite server_handles_query. f_equal.
  unfold logins_in, query_text. rewrite json_parse_print by by repeat split. by rewrite app_nil_r.
Qed.

Definition fits (m : member) (d : D) : Prop := length (clients_answer m d) < buffer_size.

Section connects.
Hypothesis device_runs : ∀ w op, (run_op w op).1 ≠ Panic.

Definition idle (s : system) : Prop := v_pending (sy_server s) = [].

Lemma open_runs s i nd ck : sys_inv s → sy_nodes s !! i = Some nd → ck ∈ en_workers (nd_engine nd) →
  (open_peer lookup (nd_device nd) ck.1).1 ≠ Panic.
Proof.
  intros Hi Hn Hin. destruct (si_nodes s Hi i nd Hn) as (m&_&Hws&_). rewrite list.Forall_forall in Hws.
  destruct (Hws _ Hin) as (p&Hp&Hw). destruct (open_worker _ m p ck (nd_device nd) (vi_real _ (si_server s Hi)) Hp Hw) as (ip&_&_&->).
  pose proof (device_runs (nd_device nd) (peer_op p ip)). by destruct (run_op _ _) as [[]].
Qed.

(** Workers open, one after the other. *)
Lemma open_all i s cks nd : sys_inv s → idle s → sy_nodes s !! i = Some nd →
  (∀ ck, ck ∈ cks → ck ∈ en_workers (nd_engine nd)) → rtc calm_step s (set_node i (Some (foldl opened nd cks)) s).
Proof.
  revert s nd. induction cks as [|ck cks IH]; intros s nd Hi Hidle Hn Hin; cbn [foldl].
  - rewrite <-Hn, set_node_self. apply rtc_refl.
  - assert (calm_step s (set_node i (Some (opened nd ck)) s)) as Hstep.
    { split; [|unfold calm; cbn; rewrite Hidle; cbn; lia].
      pose proof (st_open s i nd ck Hn ltac:(apply Hin; by left)) as Hs.
      pose proof (open_runs s i nd ck Hi Hn ltac:(apply Hin; by left)) as Hp.
      by destruct (open_peer lookup (nd_device nd) ck.1).1. }
    eapply rtc_l; [exact Hstep|]. rewrite <-(set_node_set i (Some (foldl opened (opened nd ck) cks)) (Some (opened nd ck)) s).
    apply IH; [by eapply sys_step_inv|done|apply set_node_eq|]. intros ck' Hck'. apply Hin. by right.
Qed.

Lemma foldl_opened cks nd : nd_opened (foldl opened nd cks) = nd_opened nd ++ cks.
Proof.
  revert nd. induction cks as [|ck cks IH]; intros nd; cbn [foldl]; [by rewrite app_nil_r|].
  rewrite IH. cbn [opened nd_opened]. by rewrite <-app_assoc.
Qed.

End connects.

(** A client whose workers for the clients of [ls] have opened. *)
Lemma opened_knows s i m nd ls : sys_inv s → members !! i = Some m → sy_nodes s !! i = Some nd → Forall real_login ls →
  (∀ c p, c ≠ mb_id m → table ls !! (mb_token m, c) = Some p → ∃ ck, ck ∈ nd_opened nd ∧ worker_of p ck) →
  ∃ ops, nd_device nd = run_ops (device0 i) ops ∧ knows_group ls m ops.
Proof.
  intros Hi Hm Hn Hr Hall. destruct (si_nodes s Hi i nd Hn) as (m'&Hm'&_&ops&Hops&_&Hd). assert (m' = m) as -> by congruence.
  exists ops. split; [done|]. apply asked_knows; [done|]. intros c p Hc Hp. destruct (Hall c p Hc Hp) as (ck&Hck&Hw). by eapply Hd.
Qed.

Section connects_all.
Hypothesis device_runs : ∀ w op, (run_op w op).1 ≠ Panic.
Hypothesis server_known : GetSignalServer signalIpAddress ≠ Panic.

(** One client asks and is answered, and its workers open. *)
Lemma node_connects i m nd s : sys_inv s → idle s → members !! i = Some m → sy_nodes s !! i = Some nd →
  fits m (v_db (sy_server s)) →
  ∃ v nd', rtc calm_step s (set_node i (Some nd') (set_server v s)) ∧ v_pending v = [] ∧
    v_db v = v_db (sy_server s) ∧ v_logins v = v_logins (sy_server s) ∧
    ∃ ops, nd_device nd' = run_ops (device0 i) ops ∧ knows_group (v_logins v) m ops.
Proof.
  intros Hi Hidle Hm Hn Hfit. pose proof (si_server s Hi) as Hv. pose proof (queries_fit i m Hm) as Hq.
  set (v := asks 0 (mb_query m) ex_a1 (sy_server s)).
  assert (rtc calm_step s (set_server v s)) as Hask by (apply asks_run; [done|split; [by left|cbn; lia]|done]).
  pose proof (calm_inv _ _ Hi Hask) as Hi1. pose proof (asks_query 0 m ex_a1 (sy_server s) (vi_buffer _ Hv) Hq) as Hveq.
  fold v in Hveq. clearbody v. set (x := mkExchange ex_a1 (mb_query m) (clients_answer m (v_db (sy_server s))) (v_logins (sy_server s))) in Hveq.
  assert (x ∈ v_answers v) as Hx by (rewrite Hveq; set_solver).
  set (N := mkSignalNet (λ _ _, None) (λ _, None)
    (λ g, if decide (take server_buffer g = mb_query m) then [x_answer x] else [])).
  assert (answered N (mb_query m) (x_answer x)) as HN.
  { split_and!; [done..|]. cbn. rewrite take_ge by done. by rewrite decide_True. }
  destruct (poll_answered_workers v m x N (nd_engine nd) (si_server _ Hi1) server_known Hx eq_refl Hfit HN) as (e&Hp&Hws).
  set (s2 := set_node i (Some (polled nd e)) (set_server v s)).
  assert (calm_step (set_server v s) s2) as Hpoll.
  { split; [|unfold calm; cbn; rewrite Hveq; cbn; lia]. apply (st_poll (set_server v s) i m nd ex_a1 N e); [done..| |done].
    intros g. cbn. case_decide; [right|by left]. exists x. by split_and!. }
  assert (idle s2) as Hidle2 by (unfold idle; cbn; by rewrite Hveq).
  pose proof (sys_step_inv _ _ Hi1 Hpoll) as Hi2. set (nd' := foldl opened (polled nd e) (en_workers e)).
  pose proof (open_all device_runs i s2 (en_workers e) (polled nd e) Hi2 Hidle2 (set_node_eq _ _ _) ltac:(done)) as Hopen.
  fold nd' in Hopen. exists v, nd'. split; [|split_and!].
  - etrans; [exact Hask|]. eapply rtc_l; [exact Hpoll|]. unfold s2 in Hopen at 2. by rewrite set_node_set in Hopen.
  - by rewrite Hveq.
  - by rewrite Hveq.
  - by rewrite Hveq.
  - apply (opened_knows (set_node i (Some nd') s2) i m); [by eapply calm_inv|done|apply set_node_eq|apply (vi_real v (si_server _ Hi1))|].
    intros c p Hc Ht. rewrite Hveq in Ht. destruct (Hws c p Hc Ht) as (ck&Hck&Hw). exists ck. split; [|done].
    unfold nd'. rewrite foldl_opened, elem_of_app. by right.
Qed.

Lemma nodes_connect js s : NoDup js → sys_inv s → idle s →
  (∀ i m, members !! i = Some m → i ∈ js → fits m (v_db (sy_server s))) →
  ∃ s', rtc calm_step s s' ∧ v_db (sy_server s') = v_db (sy_server s) ∧ v_logins (sy_server s') = v_logins (sy_server s) ∧
    (∀ i, i ∉ js → sy_nodes s' !! i = sy_nodes s !! i) ∧
    ∀ i m nd, i ∈ js → members !! i = Some m → sy_nodes s !! i = Some nd →
      ∃ nd' ops, sy_nodes s' !! i = Some nd' ∧ nd_device nd' = run_ops (device0 i) ops ∧
        knows_group (v_logins (sy_server s)) m ops.
Proof.
  intros Hnd Hi. revert s Hi. induction Hnd as [|i js Hni Hnd IH]; intros s Hi Hidle Hfit.
  - exists s. split_and!; [apply rtc_refl|done..|]. intros i m nd Hin. by apply not_elem_of_nil in Hin.
  - assert (∃ s1, rtc calm_step s s1 ∧ idle s1 ∧ v_db (sy_server s1) = v_db (sy_server s) ∧
      v_logins (sy_server s1) = v_logins (sy_server s) ∧ (∀ j, i ≠ j → sy_nodes s1 !! j = sy_nodes s !! j) ∧
      ∀ m nd, members !! i = Some m → sy_nodes s !! i = Some nd → ∃ nd' ops, sy_nodes s1 !! i = Some nd' ∧
        nd_device nd' = run_ops (device0 i) ops ∧ knows_group (v_logins (sy_server s)) m ops)
      as (s1&Hr1&Hid1&Hd1&Hl1&Hne&Hone).
    { destruct (sy_nodes s !! i) as [nd|] eqn:Hn; [|exists s; by split_and!; [apply rtc_refl|..]].
      destruct (si_nodes s Hi i _ Hn) as (m&Hm&_).
      destruct (node_connects i m nd s Hi Hidle Hm Hn (Hfit i m Hm ltac:(by left))) as (v&nd'&Hr&Hvp&Hvd&Hvl&ops&Hops&Hk).
      eexists. split; [exact Hr|]. split_and!; [done..|intros j Hj; by apply (set_node_ne i j _ (set_server v s))|].
      intros m' nd2 Hm' [= <-]. exists nd', ops. rewrite set_node_eq. assert (m' = m) as -> by congruence.
      split_and!; [done..|]. by rewrite <-Hvl. }
    destruct (IH s1) as (s2&Hr2&Hd2&Hl2&Hne2&Hall).
    { by apply (calm_inv s). }
    { done. }
    { intros j m Hm Hj. rewrite Hd1. apply (Hfit j m Hm). by right. }
    exists s2. split_and!; [by etrans|by etrans|by etrans| |].
    + intros j Hj. rewrite Hne2, Hne; [done| |]; set_solver.
    + intros j m nd Hj Hm Hn. rewrite elem_of_cons in Hj. destruct Hj as [->|Hj].
      * rewrite Hne2 by done. by apply (Hone m nd).
      * rewrite <-Hl1. apply (Hall j m nd Hj Hm). rewrite Hne; [done|]. by intros ->.
Qed.
End connects_all.

(** C1. In every run in which the server reads no datagram while a handler is
    waiting, no query is longer than its 1024-byte buffer, the signal address can
    be read, and the network brings a client only answers to what it sent, each
    once, one answered poll is enough: when a client's poll gets an answer shorter
    than its 1024-byte buffer, then, once every worker the client has after that
    poll has opened, it has asked WireGuard for every other client that had
    logged in with its token when the answer was made, at the address of that
    client's last login by then, with the key of that login if it gave one. And
    from any state such runs get to with no handler waiting, when the answers the
    server has for the clients are shorter than that buffer and WireGuard's
    configuration never panics, there is a run, without another login, after
    which this is so of every running client and the logins there were: two
    clients of a token end up as each other's peers, each at the address the
    server saw the other's registration from. *)
Theorem everybody_connects d s :
  rtc calm_step (sys_start d) s → GetSignalServer signalIpAddress ≠ Panic →
  (∀ i m nd x N, members !! i = Some m → sy_nodes s !! i = Some nd →
     x ∈ v_answers (sy_server s) → x_asked x = mb_query m → length (x_answer x) < buffer_size →
     answered N (mb_query m) (x_answer x) →
     ∃ e, poll_as m N (nd_engine nd) = Ok e ∧
       ∀ s' nd', rtc calm_step (set_node i (Some (polled nd e)) s) s' → sy_nodes s' !! i = Some nd' →
         (∀ ck, ck ∈ en_workers e → ck ∈ nd_opened nd') →
         ∃ ops, nd_device nd' = run_ops (device0 i) ops ∧ knows_group (x_logins x) m ops) ∧
  (v_pending (sy_server s) = [] → (∀ w op, (run_op w op).1 ≠ Panic) →
   (∀ i m, members !! i = Some m → fits m (v_db (sy_server s))) →
   ∃ s', rtc calm_step s s' ∧ v_logins (sy_server s') = v_logins (sy_server s) ∧
     ∀ i m nd, members !! i = Some m → sy_nodes s !! i = Some nd →
       ∃ nd' ops, sy_nodes s' !! i = Some nd' ∧ nd_device nd' = run_ops (device0 i) ops ∧
         knows_group (v_logins (sy_server s)) m ops).
Proof.
  intros Hs%reachable_inv Hsig. split.
  - intros i m nd x N Hm Hn Hx Hg Hlen HN.
    destruct (poll_answered _ m x N (nd_engine nd) (si_server s Hs) Hsig Hx Hg Hlen HN) as (ps&e&Hp&He&Hps&_).
    destruct (poll_answered_workers _ m x N (nd_engine nd) (si_server s Hs) Hsig Hx Hg Hlen HN) as (e2&Hp2&Hws).
    assert (e2 = e) as -> by congruence. exists e. split; [done|]. intros s' nd' Hr Hn' Hopen.
    assert (sys_inv (set_node i (Some (polled nd e)) s)) as Hi.
    { apply set_node_inv; [done|]. intros nd2 [= <-]. exists m. split; [done|].
      destruct (si_nodes s Hs i _ Hn) as (m'&Hm'&Hnode). assert (m' = m) as -> by congruence. by eapply polled_inv. }
    apply (opened_knows s' i m nd'); [by eapply calm_inv|done|done| |].
    + destruct (query_answer _ m x (si_server s Hs) Hx Hg) as ([rest Hl]&_).
      pose proof (vi_real _ (si_server s Hs)) as Hr'. rewrite Hl in Hr'. by apply Forall_app in Hr' as [? _].
    + intros c p Hc Ht. destruct (Hws c p Hc Ht) as (ck&Hck&Hw). exists ck. split; [by apply Hopen|done].
  - intros Hidle Hrun Hfit.
    destruct (nodes_connect Hrun Hsig (map_to_list (sy_nodes s)).*1 s) as (s'&Hr&_&Hl&_&Hall);
      [apply NoDup_fst_map_to_list|done|done|intros i m Hm _; by apply (Hfit i)|].
    exists s'. split; [done|]. split; [done|]. intros i m nd Hm Hn. apply (Hall i m nd); [|done..].
    apply list_elem_of_fmap. exists (i, nd). split; [done|]. by apply elem_of_map_to_list.
Qed.
End system.

(** ** Handlers that overlap *)

Definition clients_text {D} {DB : PeerDB D} (clientId token : string) (d : D) : list Ascii.ascii :=
  json_print (JArr (map enc_PeerConfig (GetClients clientId token d))).

(** C4. What [peers_share_token] says needs a server that handles one datagram
    at a time, and the program does not do that: two clients' queries of the same
    length, the second read before the first is handled, and the first client is
    sent the clients of the second one's token. When the first is handled in
    time it is sent those of its own. *)
Theorem answers_cross_tokens {D} {DB : PeerDB D} (b : list Ascii.ascii) hs (d : D) out (a1 a2 : UDPAddr) c1 t1 c2 t2 :
  length b = server_buffer → length (query_text c1 t1) = length (query_text c2 t2) →
  length (query_text c2 t2) ≤ server_buffer →
  (∃ b', rtc srv_step (mkServer b hs d out) (mkServer b' hs d (out ++ [(a1, clients_text c1 t1 d)]))) ∧
  ∃ b', rtc srv_step (mkServer b hs d out)
    (mkServer b' ((length (query_text c2 t2), a2) :: hs) d (out ++ [(a1, clients_text c2 t2 d)])).
Proof.
  intros Hb Hlen Hfit.
  destruct (handlers_share_the_buffer b hs d out 0 a1 a2 (query_text c1 t1) (query_text c2 t2) Hb ltac:(lia)) as [Hown Hmixed].
  rewrite Hlen, take_ge in Hmixed by lia. rewrite server_handles_query in Hmixed. rewrite server_handles_query in Hown.
  by split.
Qed.

(** ** Two clients *)

Definition ex_member (id key addr : string) (a : UDPAddr) : member :=
  mkMember id "t" key (mkEngineConfig 51822 "wt0" addr [] [] 0 0) a (λ _, 0%Z).
Definition ex_A : member := ex_member "A" "keyA" "10.0.0.1/24" ex_a1.
Definition ex_B : member := ex_member "B" "keyB" "10.0.0.2/24" ex_a2.
Definition ex_members : gmap nat member := <[0 := ex_A]> {[1 := ex_B]}.
#[local] Abbreviation ex_step := (calm_step (C := ex_configurer) ex_lookup "9.9.9.9:51833" ex_members (λ _, [])).
#[local] Abbreviation ex_state := (system (W := list configurer_op) (D := list Peer)).

(** A network that brings the first answer the server has sent there. *)
Definition ex_net (a : UDPAddr) (v : serving (D := list Peer)) : signal_net :=
  mkSignalNet (λ _ _, None) (λ _, None)
    (λ g, match filter (λ x, x_to x = a ∧ x_asked x = take server_buffer g) (v_answers v) with
          | x :: _ => [x_answer x]
          | [] => []
          end).
Lemma ex_delivers a v : delivers v a (ex_net a v).
Proof.
  intros g. unfold ex_net. cbn [net_arrivals]. destruct (filter _ _) as [|x l] eqn:Hx; [by left|right].
  assert (x ∈ filter (λ x, x_to x = a ∧ x_asked x = take server_buffer g) (v_answers v)) as Hin by (rewrite Hx; by left).
  apply list_elem_of_filter in Hin as [[Ha Hg] Hin]. by exists x.
Qed.

(** Both have registered and started. *)
Definition ex_ask (g : list Ascii.ascii) (a : UDPAddr) (s : ex_state) : ex_state := set_server (asks 1 g a (sy_server s)) s.
Definition ex_login_text (m : member) (ip : list Ascii.ascii) : list Ascii.ascii :=
  login_text (mb_id m) (mb_key m) (mb_token m) (IP_String ip).
Definition ex_node (m : member) : node (list configurer_op) := mkNode (NewEngine (mb_config m)) [] [].
Definition ex_started (i : nat) (m : member) (ip : list Ascii.ascii) (s : ex_state) : ex_state :=
  set_node i (Some (ex_node m)) (ex_ask (ex_login_text m ip) (mb_addr m) s).
Definition ex_ip (z : Z) : list Ascii.ascii := v4InV6Prefix ++ map byte_of_Z [10; 0; 0; z]%Z.
Definition ex_system : ex_state := ex_started 1 ex_B (ex_ip 2) (ex_started 0 ex_A (ex_ip 1) (sys_start (@nil Peer))).

Lemma ex_asks g a (s : ex_state) : v_pending (sy_server s) = [] → real_addr (ua_IP a) (ua_Port a) →
  bool_decide (length g ≤ server_buffer) = true → rtc ex_step s (ex_ask g a s).
Proof. intros Hp Ha Hg%bool_decide_eq_true. by apply (asks_run (C := ex_configurer) ex_lookup "9.9.9.9:51833" ex_members (λ _, [])). Qed.

Lemma ex_starts i m ip (s : ex_state) : ex_members !! i = Some m → sy_nodes s !! i = None → v_pending (sy_server s) = [] →
  real_addr (ua_IP (mb_addr m)) (ua_Port (mb_addr m)) →
  bool_decide (length (ex_login_text m ip) ≤ server_buffer) = true →
  is_ok (register "9.9.9.9:51833" m (ex_net (mb_addr m) (asks 1 (ex_login_text m ip) (mb_addr m) (sy_server s)))) = true →
  rtc ex_step s (ex_started i m ip s).
Proof.
  intros Hm Hn Hp Ha Hl Hr. eapply rtc_r; [by apply ex_asks|]. split; [|unfold calm; cbn; lia].
  destruct (register "9.9.9.9:51833" m _) as [ans| |] eqn:Hreg; [|discriminate Hr..].
  by apply (st_start (C := ex_configurer) ex_lookup "9.9.9.9:51833" ex_members (λ _, [])
    (ex_ask (ex_login_text m ip) (mb_addr m) s) i m (ex_net (mb_addr m) (asks 1 (ex_login_text m ip) (mb_addr m) (sy_server s))) ans);
    [..|apply ex_delivers|].
Qed.

Lemma ex_reachable : rtc ex_step (sys_start (@nil Peer)) ex_system.
Proof.
  etrans; [apply (ex_starts 0 ex_A (ex_ip 1))|apply (ex_starts 1 ex_B (ex_ip 2))];
    (reflexivity || (split; [by left|cbn; lia]) || (vm_compute; reflexivity)).
Qed.

Lemma ex_member_cases i m : ex_members !! i = Some m → m = ex_A ∨ m = ex_B.
Proof.
  unfold ex_members. rewrite lookup_insert. case_decide; [intros [= <-]; by left|].
  intros [_ <-]%lookup_singleton_Some. by right.
Qed.
Lemma ex_queries_fit i m : ex_members !! i = Some m → length (mb_query m) ≤ server_buffer.
Proof. intros [-> | ->]%ex_member_cases; apply (bool_decide_unpack _); vm_compute; exact I. Qed.
Lemma ex_fits i m : ex_members !! i = Some m → fits m (v_db (sy_server ex_system)).
Proof. intros [-> | ->]%ex_member_cases; unfold fits; apply (bool_decide_unpack _); vm_compute; exact I. Qed.

(** A asks and polls, and the worker for B opens. *)
Definition ex_asked : ex_state := ex_ask (mb_query ex_A) ex_a1 ex_system.
Definition ex_exchange : exchange :=
  mkExchange ex_a1 (mb_query ex_A) (clients_answer ex_A (v_db (sy_server ex_system))) (v_logins (sy_server ex_system)).
Definition ex_net_A : signal_net := ex_net ex_a1 (sy_server ex_asked).
Definition ex_polled : Engine :=
  match poll_as "9.9.9.9:51833" ex_A ex_net_A (nd_engine (ex_node ex_A)) with Ok e => e | _ => NewEngine (mb_config ex_A) end.
Definition ex_connected_A : node (list configurer_op) :=
  foldl (opened (C := ex_configurer) ex_lookup) (polled (ex_node ex_A) ex_polled) (en_workers ex_polled).
Definition ex_connected : ex_state := set_node 0 (Some ex_connected_A) ex_asked.
Definition ex_peer_B : configurer_op := OpUpdatePeer "keyB" "10.0.0.2/32" 2000000000
  (Some (mkUDPAddr (v4InV6Prefix ++ map byte_of_Z [5; 6; 7; 8]%Z) 2 EmptyString)) None.

Lemma ex_asks_A : rtc ex_step (sys_start (@nil Peer)) ex_asked.
Proof.
  etrans; [exact ex_reachable|]. apply ex_asks; [vm_compute; reflexivity|split; [by left|cbn; lia]|vm_compute; reflexivity].
Qed.
Lemma ex_exchange_in : ex_exchange ∈ v_answers (sy_server ex_asked).
Proof. apply (list_elem_of_lookup_2 _ 2). vm_compute. reflexivity. Qed.
Lemma ex_polls : poll_as "9.9.9.9:51833" ex_A ex_net_A (nd_engine (ex_node ex_A)) = Ok ex_polled.
Proof. vm_compute. reflexivity. Qed.
Lemma ex_opens : rtc ex_step (set_node 0 (Some (polled (ex_node ex_A) ex_polled)) ex_asked) ex_connected ∧
  rtc ex_step (sys_start (@nil Peer)) (set_node 0 (Some (polled (ex_node ex_A) ex_polled)) ex_asked).
Proof.
  assert (rtc ex_step (sys_start (@nil Peer)) (set_node 0 (Some (polled (ex_node ex_A) ex_polled)) ex_asked)) as Hr.
  { eapply rtc_r; [exact ex_asks_A|]. split; [|unfold calm; cbn; lia].
    apply (st_poll (C := ex_configurer) ex_lookup "9.9.9.9:51833" ex_members (λ _, []) ex_asked 0 ex_A (ex_node ex_A) ex_a1 ex_net_A);
      [reflexivity|vm_compute; reflexivity|apply ex_delivers|exact ex_polls]. }
  split; [|exact Hr]. unfold ex_connected. rewrite <-(set_node_set 0 (Some ex_connected_A) (Some (polled (ex_node ex_A) ex_polled)) ex_asked).
  apply (open_all (C := ex_configurer) ex_lookup "9.9.9.9:51833" ex_members (λ _, []) ex_queries_fit);
    [intros w op; discriminate|by eapply reachable_inv; [exact ex_queries_fit|exact Hr]|vm_compute; reflexivity|apply set_node_eq|done].
Qed.
Lemma ex_connects : rtc ex_step (sys_start (@nil Peer)) ex_connected.
Proof. etrans; [exact (proj2 ex_opens)|exact (proj1 ex_opens)]. Qed.

Lemma peers_share_token_witness :
  rtc ex_step (sys_start (@nil Peer)) ex_connected ∧ nd_device ex_connected_A = [ex_peer_B] ∧
  ∃ ops, nd_device ex_connected_A = run_ops (C := ex_configurer) [] ops ∧
    Forall (from_group (v_logins (sy_server ex_connected)) ex_A) ops.
Proof.
  split; [exact ex_connects|]. split; [vm_compute; reflexivity|].
  destruct (peers_share_token (C := ex_configurer) ex_lookup "9.9.9.9:51833" ex_members (λ _, []) ex_queries_fit
    (@nil Peer) ex_connected ex_connects 0 ex_connected_A ltac:(apply set_node_eq)) as (m&Hm&(ops&Hops&Hall)&_).
  injection Hm as <-. exists ops. split; [exact Hops|exact Hall].
Defined.

(** What A is told in that state, over a network that works. *)
Lemma exchanges_are_typed_witness :
  rtc ex_step (sys_start (@nil Peer)) ex_connected ∧
  register "9.9.9.9:51833" ex_A (ex_net ex_a1 (sy_server ex_connected)) = Ok (mkLoginRes "1.2.3.4" 1) ∧
  ∃ l, remote_peers "9.9.9.9:51833" ex_A (ex_net ex_a1 (sy_server ex_connected)) = Ok (l, None) ∧ length l = 1 ∧ Forall usable l.
Proof.
  split; [exact ex_connects|].
  destruct (exchanges_are_typed (C := ex_configurer) ex_lookup "9.9.9.9:51833" ex_members (λ _, []) ex_queries_fit
    (@nil Peer) ex_connected 0 ex_A ex_a1 (ex_net ex_a1 (sy_server ex_connected)) ex_connects eq_refl (ex_delivers _ _))
    as [Hreg Hrem].
  - intros ip network Hc. vm_compute in Hc. injection Hc as <- _. apply (bool_decide_unpack _). vm_compute. exact I.
  - split.
    + destruct (register "9.9.9.9:51833" ex_A (ex_net ex_a1 (sy_server ex_connected))) as [ans|e|] eqn:Hr;
        [rewrite Hreg; vm_compute; reflexivity|exfalso; vm_compute in Hr; discriminate Hr..].
    + destruct (remote_peers "9.9.9.9:51833" ex_A (ex_net ex_a1 (sy_server ex_connected))) as [[l [e|]]|e|] eqn:Hr;
        [exfalso; vm_compute in Hr; discriminate Hr| |exfalso; vm_compute in Hr; discriminate Hr..].
      exists l. split; [reflexivity|]. split; [|exact Hrem]. vm_compute in Hr. injection Hr as <-. reflexivity.
Defined.

Definition ex_login_A : PeerLogin := mkPeerLogin "1.2.3.4" 1 "A" "keyA" "t" "10.0.0.1".
Definition ex_login_B : PeerLogin := mkPeerLogin "5.6.7.8" 2 "B" "keyB" "t" "10.0.0.2".
Lemma ex_logins : v_logins (sy_server ex_system) = [(1%Z, ex_login_A); (1%Z, ex_login_B)] ∧ x_logins ex_exchange = v_logins (sy_server ex_system).
Proof. split; vm_compute; reflexivity. Qed.
Lemma ex_knows_B ops : knows_group (v_logins (sy_server ex_system)) ex_A ops → ∃ allowed, OpUpdatePeer "keyB" allowed 2000000000
  (Some (mkUDPAddr (v4InV6Prefix ++ map byte_of_Z [5; 6; 7; 8]%Z) 2 EmptyString)) None ∈ ops.
Proof.
  rewrite (proj1 ex_logins). intros Hk.
  destruct (Hk "B" ex_login_B (map byte_of_Z [5; 6; 7; 8]%Z) 2%Z) as (key&al&Hkey&Hin).
  { discriminate. }
  { exists [(1%Z, ex_login_A)], 1%Z, []. split; [reflexivity|]. split; [reflexivity|constructor]. }
  { split; [vm_compute; reflexivity|]. split; [reflexivity|]. split; [by left|lia]. }
  rewrite (Hkey ltac:(discriminate)) in Hin. exists (al +:+ "/32"). exact Hin.
Qed.
Lemma ex_knows_A ops : knows_group (v_logins (sy_server ex_system)) ex_B ops → ∃ allowed, OpUpdatePeer "keyA" allowed 2000000000
  (Some (mkUDPAddr (v4InV6Prefix ++ map byte_of_Z [1; 2; 3; 4]%Z) 1 EmptyString)) None ∈ ops.
Proof.
  rewrite (proj1 ex_logins). intros Hk.
  destruct (Hk "A" ex_login_A (map byte_of_Z [1; 2; 3; 4]%Z) 1%Z) as (key&al&Hkey&Hin).
  { discriminate. }
  { exists [], 1%Z, [(1%Z, ex_login_B)]. split; [reflexivity|]. split; [reflexivity|]. repeat constructor. discriminate. }
  { split; [vm_compute; reflexivity|]. split; [reflexivity|]. split; [by left|lia]. }
  rewrite (Hkey ltac:(discriminate)) in Hin. exists (al +:+ "/32"). exact Hin.
Qed.

(** A's poll in [ex_asked] is enough for A; and both can end up with the other
    as a peer, at the address the server saw. *)
Lemma everybody_connects_witness :
  (∃ opsA allowedB, nd_device ex_connected_A = run_ops (C := ex_configurer) [] opsA ∧
     OpUpdatePeer "keyB" allowedB 2000000000
       (Some (mkUDPAddr (v4InV6Prefix ++ map byte_of_Z [5; 6; 7; 8]%Z) 2 EmptyString)) None ∈ opsA) ∧
  ∃ s' : ex_state, rtc ex_step ex_system s' ∧
    ∃ ndA opsA ndB opsB allowedA allowedB,
      sy_nodes s' !! 0 = Some ndA ∧ nd_device ndA = run_ops (C := ex_configurer) [] opsA ∧
      sy_nodes s' !! 1 = Some ndB ∧ nd_device ndB = run_ops (C := ex_configurer) [] opsB ∧
      OpUpdatePeer "keyB" allowedB 2000000000
        (Some (mkUDPAddr (v4InV6Prefix ++ map byte_of_Z [5; 6; 7; 8]%Z) 2 EmptyString)) None ∈ opsA ∧
      OpUpdatePeer "keyA" allowedA 2000000000
        (Some (mkUDPAddr (v4InV6Prefix ++ map byte_of_Z [1; 2; 3; 4]%Z) 1 EmptyString)) None ∈ opsB.
Proof.
  split.
  - destruct (everybody_connects (C := ex_configurer) ex_lookup "9.9.9.9:51833" ex_members (λ _, []) ex_queries_fit
      (@nil Peer) ex_asked ex_asks_A ltac:(vm_compute; discriminate)) as [Hone _].
    destruct (Hone 0 ex_A (ex_node ex_A) ex_exchange ex_net_A) as (e&He&Hopen);
      [reflexivity|vm_compute; reflexivity|exact ex_exchange_in|reflexivity|apply (bool_decide_unpack _); vm_compute; exact I|
       split; [reflexivity|split; [reflexivity|vm_compute; reflexivity]]|].
    rewrite ex_polls in He. injection He as <-.
    destruct (Hopen ex_connected ex_connected_A) as (ops&Hops&Hk); [exact (proj1 ex_opens)|apply set_node_eq| |].
    { intros ck Hck. unfold ex_connected_A. rewrite foldl_opened, elem_of_app. right. exact Hck. }
    rewrite (proj2 ex_logins) in Hk. destruct (ex_knows_B ops Hk) as [al Hin]. exists ops, al. split; [exact Hops|exact Hin].
  - destruct (everybody_connects (C := ex_configurer) ex_lookup "9.9.9.9:51833" ex_members (λ _, []) ex_queries_fit
      (@nil Peer) ex_system ex_reachable ltac:(vm_compute; discriminate)) as [_ Hall].
    destruct (Hall ltac:(vm_compute; reflexivity) ltac:(intros w op; discriminate) ex_fits) as (s'&Hr&_&Hnodes).
    exists s'. split; [exact Hr|].
    destruct (Hnodes 0 ex_A (ex_node ex_A)) as (ndA&opsA&HA&HdA&HkA); [reflexivity|vm_compute; reflexivity|].
    destruct (Hnodes 1 ex_B (ex_node ex_B)) as (ndB&opsB&HB&HdB&HkB); [reflexivity|vm_compute; reflexivity|].
    destruct (ex_knows_B opsA HkA) as [alB HinA]. destruct (ex_knows_A opsB HkB) as [alA HinB].
    exists ndA, opsA, ndB, opsB, alA, alB. split; [exact HA|]. split; [exact HdA|]. split; [exact HB|]. split; [exact HdB|].
    split; [exact HinA|exact HinB].
Defined.

(** A of token [t] is told of the client [V] of token [u]. *)
Definition ex_tenants : list Peer :=
  [mkPeer "B" "5.6.7.8" 2 "keyB" "t" "10.0.0.2" 1; mkPeer "V" "9.9.9.9" 3 "keyV" "u" "10.9.0.2" 2].
Lemma answers_cross_tokens_witness :
  clients_text "W" "u" ex_tenants = json_print (JArr [enc_PeerConfig (mkPeerConfig "9.9.9.9" 3 "V" "keyV" "u" "10.9.0.2" EmptyString)]) ∧
  ∃ b', rtc srv_step (mkServer (replicate server_buffer "000"%char) [] ex_tenants [])
    (mkServer b' [(length (query_text "W" "u"), ex_a2)] ex_tenants [(ex_a1, clients_text "W" "u" ex_tenants)]).
Proof.
  split; [vm_compute; reflexivity|].
  refine (proj2 (answers_cross_tokens (replicate server_buffer "000"%char) [] ex_tenants [] ex_a1 ex_a2 "A" "t" "W" "u" _ _ _));
    [apply length_replicate|vm_compute; reflexivity|apply (bool_decide_unpack _); vm_compute; exact I].
Defined.
