(* ===== verification/Main.v ===== *)
(** * [client/main.go], [signal/main.go]: the two programs

    The client's [main] makes its configuration from the file in its directory
    and runs with it until that returns; the server's starts from an empty table
    and an idle socket. Flags are arguments, logging is left out. *)
From Stdlib Require Import Ascii.
From S2P Require Import Prelude Host GoStrings GoNet GoCIDR NetEnv Files KernelModules DeviceWrapper Tun WgConfigurer.
From S2P Require Import MuxedConn GoJson GoJsonText Config Signal Exchange Ebpf WgProxy PeerConn Engine Client.

(** ** Flags

    The command line as the flags given, in order: the last of a name counts, and
    one that is not given has its default. *)
Definition flag_value {A} (given : list (string * A)) (name : string) (value : A) : A :=
  default value (snd <$> list.last (filter (λ g, g.1 = name) given)).

Definition flag_client (given : list (string * string)) : string := flag_value given "client" "A".
Definition flag_signal (given : list (string * string)) : string := flag_value given "signal" "47.91.20.205:51833".
Definition flag_token (given : list (string * string)) : string := flag_value given "token" "123456".
Definition flag_local_network (given : list (string * string)) : string := flag_value given "local-network" "172.16.0.1/24".
Definition flag_port (given : list (string * Z)) : Z := flag_value given "port" 51833%Z.

Lemma no_flag {A} name (given : list (string * A)) : (∀ w, (name, w) ∉ given) → filter (λ g, g.1 = name) given = [].
Proof.
  induction given as [|[n w] given IH]; intros Hn; [done|].
  rewrite filter_cons_False; [|cbn; intros ->; apply (Hn w); by left].
  apply IH. intros w' Hw. apply (Hn w'). by right.
Qed.
Lemma flag_value_given {A} given name (v value : A) given' :
  (∀ w, (name, w) ∉ given') → flag_value (given ++ (name, v) :: given') name value = v.
Proof.
  intros Hn. unfold flag_value. rewrite list.filter_app, filter_cons_True by done.
  by rewrite (no_flag name given'), last_snoc.
Qed.
Lemma flag_value_absent {A} given name (value : A) : (∀ w, (name, w) ∉ given) → flag_value given name value = value.
Proof.
  intros Hn. unfold flag_value.
  by rewrite no_flag.
Qed.

(** ** The client *)

(** The log level: info, if the flag names none. *)
Definition log_level {L} (ParseLevel : string → res L) (InfoLevel : L) (lvl : string) : L :=
  match ParseLevel lvl with Ok level => level | _ => InfoLevel end.

(** The configuration the client asks for: a fixed port, and the default name. *)
Definition main_path : string := "./config.json".
Definition main_input : ConfigInput := mkInput EmptyString EmptyString main_path [] [] None (Some 51822%Z) [].

Section main.
Context {T : TunEnv} {L : WgLink} {K : KernelHost} {P : ProxyFactory} {WT : WgTypes} {A : Surroundings} {B : Backoff}.
Context (localWgAddr signalIpAddress clientId token : string) (PublicKey_String : list Ascii.ascii → string).
Context (F : faults) (infix : gmap string (list Ascii.ascii) → string → string → string).

(** The files, and what the components act on. *)
Record process := mkProcess { ps_files : Files.world; ps_world : world }.

(** [connectClient.Run()], whose error nobody looks at. *)
Definition launch (config : Config.Config) (p : process) : res ended * process :=
  let '(r, w) := run localWgAddr signalIpAddress clientId token PublicKey_String config (ps_world p) in
  (match r with Err _ => Ok Returned | _ => r end, mkProcess (ps_files p) w).

(** [main()], [generateKey] being what a key would be now. *)
Definition main (generateKey : res string) (p : process) : res ended * process :=
  match CreateInMemoryConfig generateKey F infix main_input (ps_files p) with
  | (Ok config, fw) => launch config (mkProcess fw (ps_world p))
  | (Err _, fw) => (Ok Returned, mkProcess fw (ps_world p))
  | (Panic, fw) => (Panic, mkProcess fw (ps_world p))
  end.
End main.

(** ** The server *)

(** Where [Run()] listens. *)
Definition signal_address (localPort : Z) : UDPAddr :=
  mkUDPAddr (default [] (net_ParseIP (bytes_of_string "0.0.0.0"))) localPort EmptyString.

(** The server's [main()]: package [store] has emptied the table, the socket is
    open. *)
Definition signal_main {D} {DB : PeerDB D} (d : D) : server_state (D := D) :=
  mkServer (replicate server_buffer "000"%char) [] (store_init d) [].

(** [Run()]: when the port cannot be had it only says so, and the program ends. *)
Definition signal_run {D} {DB : PeerDB D} (ListenUDP : UDPAddr → res unit) (localPort : Z) (d : D) :
    res (option (server_state (D := D))) :=
  match ListenUDP (signal_address localPort) with
  | Ok _ => Ok (Some (signal_main d))
  | Err _ => Ok None
  | Panic => Panic
  end.

Section restart.
Context {T : TunEnv} {L : WgLink} {K : KernelHost} {P : ProxyFactory} {WT : WgTypes} {A : Surroundings} {B : Backoff}.
Context (localWgAddr signalIpAddress clientId token : string) (PublicKey_String : list Ascii.ascii → string).
Context (infix : gmap string (list Ascii.ascii) → string → string → string).
Hypothesis fresh : fresh_infix infix.
#[local] Abbreviation main := (main localWgAddr signalIpAddress clientId token PublicKey_String no_faults infix).
#[local] Abbreviation launch := (launch localWgAddr signalIpAddress clientId token PublicKey_String).

(** The process with the files as [fw] has them. *)
Definition with_files (fw : Files.world) (p : process) : process := mkProcess fw (ps_world p).

Lemma main_input_proper : proper_input main_input.
Proof. split; [done|]. split; [done|]. split; vm_compute; discriminate. Qed.

Lemma main_saved key p c0 : key ≠ EmptyString → saved main_path c0 (ps_files p) →
  ∃ c u fw, apply (Ok key) c0 main_input = Ok (c, u) ∧ main (Ok key) p = launch c (with_files fw p) ∧
    files fw = files (ps_files p).
Proof.
  intros Hk Hs. destruct (createNewConfig_saved key Hk infix main_input (ps_files p) c0 Hs) as (c&u&fw&Ha&Hc&Hf).
  exists c, u, fw. split; [done|]. split; [|done]. unfold Main.main, CreateInMemoryConfig. by rewrite Hc.
Qed.

(** C5. A client keeps its identity over restarts. Started for the first time it
    generates a key, saves it, and from then on runs with that same
    configuration whenever it is started over these files, however often and
    with whatever key it might generate. Over a file that holds a configuration
    it runs with the file's key, and the file stays as it is: if the file lacks a
    key, the client generates one at every start and never saves it, so it is
    another peer each time. *)
Theorem restart_keeps_identity p key :
  key ≠ EmptyString →
  (files (ps_files p) !! main_path = None →
    ∃ c fw, Config.PrivateKey c = key ∧ Config.WgPort c = 51822%Z ∧ main (Ok key) p = launch c (with_files fw p) ∧
      ∀ key' p', key' ≠ EmptyString → files (ps_files p') = files fw →
        ∃ fw', files fw' = files fw ∧ main (Ok key') p' = launch c (with_files fw' p')) ∧
  (∀ c0, saved main_path c0 (ps_files p) →
    ∃ c fw, files fw = files (ps_files p) ∧ main (Ok key) p = launch c (with_files fw p) ∧
      Config.WgPort c = 51822%Z ∧
      Config.PrivateKey c = if decide (Config.PrivateKey c0 = EmptyString) then key else Config.PrivateKey c0).
Proof.
  intros Hk. pose proof main_input_proper as Hin. pose proof Hin as (Hp0&Hi0&_). split.
  - intros Hm. destruct (createNewConfig_missing key Hk infix fresh main_input (ps_files p) Hin Hm)
      as (c&u&fw&Ha&Hc&Hset&Hok&Hf).
    destruct (apply_facts key Hk zero_config main_input) as (c'&u'&Ha'&_&_&Hfacts&_).
    rewrite Ha in Ha'. injection Ha' as <- <-. destruct (Hfacts Hp0 Hi0) as (_&Hidem&Hport&_).
    exists c, fw. split; [|split; [exact Hport|split]].
    + revert Ha. unfold apply. cbn. intros [= <- _]. done.
    + unfold Main.main, CreateInMemoryConfig. by rewrite Hc.
    + intros key' p' Hk' Hf'. assert (saved main_path c (ps_files p')) as Hs.
      { apply saved_text; [done|]. rewrite Hf', Hf. apply lookup_insert_eq. }
      destruct (main_saved key' p' c Hk' Hs) as (c2&u2&fw2&Ha2&Hm2&Hf2). exists fw2. split; [congruence|].
      rewrite (apply_own_key (Ok key') (Ok key)) in Ha2 by apply Hset. rewrite Hidem in Ha2. injection Ha2 as <- <-. done.
  - intros c0 Hs. destruct (main_saved key p c0 Hk Hs) as (c&u&fw&Ha&Hm&Hf). exists c, fw. split; [done|]. split; [done|].
    destruct (apply_facts key Hk c0 main_input) as (c'&u'&Ha'&_&_&Hfacts&_).
    rewrite Ha in Ha'. injection Ha' as <- <-. destruct (Hfacts Hp0 Hi0) as (_&_&Hport&_). split; [exact Hport|].
    pose proof (apply_eq key c0 main_input) as He. rewrite Ha in He.
    destruct (apply_setting _ _ _ _), (apply_setting _ _ _ _), (apply_blacklist _ _). by injection He as -> _.
Qed.
End restart.

(** The second start generates "other" and does not use it. *)
#[local] Existing Instance ex_backoff.
#[local] Existing Instance ex_surroundings.
#[local] Existing Instance ex_factory.
#[local] Abbreviation ex_main := (main (T := ex_env) (L := linux_link (T := ex_env)) (K := ex_modules)
  "10.0.0.1/24" "9.9.9.9:51833" "A" "t" (λ k, string_of_bytes k) no_faults long_infix).
#[local] Abbreviation ex_launch := (launch (T := ex_env) (L := linux_link (T := ex_env)) (K := ex_modules)
  "10.0.0.1/24" "9.9.9.9:51833" "A" "t" (λ k, string_of_bytes k)).

Lemma restart_keeps_identity_witness :
  ∃ c fw fw', Config.PrivateKey c = "secret" ∧
    ex_main (Ok "secret") (mkProcess (Files.mkWorld ∅ 0) ex_world) = ex_launch c (mkProcess fw ex_world) ∧
    ex_main (Ok "other") (mkProcess fw ex_world) = ex_launch c (mkProcess fw' ex_world).
Proof.
  destruct (restart_keeps_identity (T := ex_env) (L := linux_link (T := ex_env)) (K := ex_modules)
    "10.0.0.1/24" "9.9.9.9:51833" "A" "t" (λ k, string_of_bytes k) long_infix long_infix_fresh
    (mkProcess (Files.mkWorld ∅ 0) ex_world) "secret" ltac:(discriminate)) as [Hfirst _].
  destruct (Hfirst ltac:(reflexivity)) as (c&fw&Hkey&_&Hmain&Hagain).
  destruct (Hagain "other" (mkProcess fw ex_world) ltac:(discriminate) eq_refl) as (fw'&_&Hmain').
  exists c, fw, fw'. split; [exact Hkey|]. split; [exact Hmain|exact Hmain'].
Defined.
